(* ===== verification/_CoqProject ===== *)
-Q . S2P
Prelude.v
WinSys.v
GoStrings.v
CMem.v
GoNet.v
GoText.v
GoCrypto.v
Samples.v
CertTypes.v
CertFileStore.v
CertService.v
CertWindows.v
CertDarwin.v
Discovery.v
DiscoveryClient.v
TlsUtil.v
KspClient.v
ClientWorld.v
Console.v
SignTest.v
ExampleClient.v
CertGen.v
RunDiscovery.v
KspBridge.v
BridgeTypes.v
CtkBridge.v
KspInstall.v
InstallCert.v
InstallerApi.v
ServerMain.v
KspRegister.v
Keyring.v
EndToEnd.v
