(* ===== verification/Prelude.v ===== *)
(** * keyless-tls-proxy: a verification development

    The program keeps private keys on one machine (a [cert-server]) and lets
    others sign with them over mutually authenticated gRPC: a client sends a
    certificate's thumbprint and a digest, and receives a signature.  Its parts
    and their models:

    - [internal/certstore], the certificates and keys of the server's platform.
      [types.go] and [thumbprint.go] are in [CertTypes], with the class
      [CertBackend] of the three functions every platform provides and the
      class [CertBackendLaws] of what a platform promises about signatures;
      [file_store.go] and [store_linux.go] are in [CertFileStore], [ncrypt.go]
      and [store_windows.go] in [CertWindows], [store_darwin.go] in
      [CertDarwin].  Each of the last three is an instance of both classes.
    - [internal/server], the gRPC service ([CertService]: handlers, verbose
      interceptor, and of [gen/cert/v1] the messages and server stubs), the UDP
      discovery responder ([Discovery]) and client ([DiscoveryClient]).
    - [internal/tlsutil], the TLS configurations of both sides ([TlsUtil]).
    - [internal/kspclient] and [internal/kspcommon], the client of the key
      storage providers with its cached key list, global connection and
      configuration file ([KspClient]).
    - [internal/kspbridge] and [internal/ctkbridge], the client's C interfaces
      for Windows, PKCS#11 and macOS ([KspBridge], [CtkBridge], over the model
      of C memory in [CMem]); [BridgeTypes] is the type of the C records.
    - [internal/kspinstall] and [internal/kspregister] (with
      [cmd/ksp-register]), which bind a certificate to the key storage provider
      and register the provider ([KspInstall], [KspRegister]).
    - The commands: [cmd/cert-server] ([ServerMain]), [cmd/example-client]
      ([ExampleClient]), [cmd/ksp-install-cert] ([InstallCert]), the methods of
      [cmd/ksp-install-ui] ([InstallerApi]), [cmd/local-sign-test-win] and
      [cmd/local-sign-test-mac] ([SignTest]), [cmd/gencerts] ([CertGen]) and
      [cmd/run-discovery] ([RunDiscovery]).  What they share of the outside
      (remote calls, network, files, clock, discovery) is in [ClientWorld], their
      prompts and buffered input in [Console].
    - [EndToEnd] composes bridge, client, service and file store; [Keyring] is
      an abstract specification of the server, which [SetCertDir], the handlers,
      the interceptor and the file store together refine.

    ** How the code is modelled

    A Go call returns an [outcome]: a value, a non-nil error, or a panic.  An
    [error] keeps what the code observes of it: the identity of a sentinel, the
    wrapping by [%w], the text.  State is passed explicitly: [FileStore] for the
    package variables of the file store, [Client] and [Process] for the client
    and the global one, [Heap] for C memory.  Code that calls into an operating
    system is in the monad [M] of [WinSys], over an abstract system, which also
    records the trace of handles and connections it acquires, uses and releases
    (a key handle the caller must not free is kept by its certificate context);
    the commands run in it over a terminal ([Console.Tty]) whose input arrives in
    chunks.  A mutex of the code makes each exported call one step, so that a
    sequence of calls is a sequence of steps ([CertFileStore.reachable],
    [KspClient.client_reachable], [KspClient.process_reachable],
    [Keyring.server_step], [BridgeTypes.host_step], [EndToEnd.served_host]).  Integers are [Z] with the
    conversions [int32(x)], [uint32(x)] written out; a byte slice is a [list Z],
    a string a sequence of bytes.

    What is outside the repository is a class of operations, with the laws the
    code relies on in a class of their own: [Unicode] (tables beyond ASCII),
    [Crypto] and [FileSystem] ([GoCrypto]), [Tls], [GrpcRuntime], [Host],
    [WinApi], [Keychain], [KeychainKeys], [Json], [Bcrypt], the certificate store
    of [KspInstall], and [Grpc], [Network], [Disk], [Stat], [Clock], [Lan],
    [FileDialog], [Files], [Machine], [Generator] and [DiscoveryOutput] for the
    commands; sockets are the events
    they deliver.  Between components the interfaces are classes too:
    [CertBackend] with [CertBackendLaws] (certstore to the service and the
    commands) and [Installer] with [InstallerLaws] (kspinstall to the
    installers).  [Samples] and the component files give concrete instances, at
    which every theorem with a hypothesis is applied by its witness.  The parts
    of Go's library the code uses on plain bytes ([strings], [encoding/hex],
    [encoding/base64], [strconv], [net], [time]) are defined in [GoStrings],
    [GoNet] and [GoText].

    ** What is shown

    - The server as a whole: every run is a run of an abstract keyring
      ([Keyring.server_refines_keyring]), and what a client was shown is what
      signs for it ([Keyring.listed_keys_sign]).
    - Signing, from a C caller to the key: [EndToEnd.enumerated_key_signs], for a
      host that makes any calls of the Linux bridge, cached lists included, while
      its server serves one certificate directory (the server's command sets it
      once, before it serves).
    - Service: a response answers its request
      ([SignHash_response_answers_request], against the class only), the status
      code of every refusal ([SignHash_status]), and an interceptor that changes
      nothing and whose lines, for answered and refused calls, do not depend on
      the bytes of digest and signature; [ListCertificates_carries_fields]
      is a lemma.
    - File store: the invariant of every reachable store
      ([reachable_store_ok]) and all-or-nothing reloading; each error of
      signing, that listed certificates can be selected and that the PEM loops
      end are lemmas.
    - Windows: every handle live at each use, released once and in order on every
      path, the form of signatures, and the error identities that wrapping loses
      when no certificate directory is set; that the listings
      terminate and never prompt for a key are lemmas.
    - macOS: signatures, the selection rule, which the test tool shares, the
      parser of [sc_auth] against a printer, and the certificate directory that
      only one of three functions honours.
    - Discovery: answers only to requests, announces a reachable address, runs
      until stopped; a client reads an answer back as the server it describes.
    - Client: one connection at most, key lists no older than 30 seconds,
      signing only with installed keys, the RSA blob read back.
    - Bridges: no leak or corruption of C memory by a lookup, records that keep
      their C type through any calls, the buffer contract of signing, one key for
      all spellings of a fingerprint, and the bridge for which that fails.
    - TLS: both sides authenticate the other against the configured CA; the
      files of the certificate generator are credentials both sides load and
      the client accepts.
    - Installation: [KspInstall] refines an abstract store of bindings;
      registration and its undoing; the installer's success means the server's
      certificate is bound and nothing else changed, its test signature is made
      with the hash and padding it names; the installer command that a pipe
      cannot drive when the server is asked for.
    - Commands: the sample client's report, tied to the answers of the input, prompts that end, the truncated log.

    ** Fuel and bounds

    The PEM loops take as fuel the length of the file plus one; each turn
    consumes a block of at least one byte ([PemLaws]), and
    [pem_loops_terminate] shows that the fuel is never used up.  The Windows
    enumeration loops take the number of contexts left in the store plus one,
    and [windows_listings_terminate] shows that they never use it up.  The
    prompts of the commands ([choice_loop], [ask_loop]) take the length of the
    input that is left plus one; each turn reads a line, of at least one byte, so
    they end at the latest with the input
    ([Console.readChoice_takes_first_valid_line]).  The receive loop of the
    responder recurses on the events of its socket.  Every other loop is
    structural.

    ** What is not modelled

    Deadlines and cancellation inside gRPC calls (they are failures of the
    call), log output other than the interceptor's lines and the server's
    banner, reference counts of the Security framework, flag parsing, and
    protobuf, JSON and TLS wire formats.  Of the server command the goroutines
    and signals are left out.  The window of the installer
    ([cmd/ksp-install-ui/main.go]) is the wiring of an embedded browser.  The
    providers in C and Objective-C ([ksp/], [ksp11/], [mac-provider/]) are the
    callers of the bridges, whose side of the contract is a hypothesis
    ([lookup_call], [buffers_ok], [host_step]).  The parts to model next are runs
    of several clients, with their caches, against a server that is restarted
    with another directory, and the record types of the macOS token bridge.

    This file holds the [outcome] monad, the tactics and hints, and the lemmas
    on lists, bytes and fixed-width integers that the components share. *)

From stdpp Require Import base decidable option list gmap strings sorting.
From Stdlib Require Import ZArith Lia.

(** ** Go values and errors *)

(** A Go [error] value.  [ErrVar] is a package-level error variable (an
    [errors.New] held in a [var]), compared by identity in the code and so
    by its qualified name here; [ErrNew] is any other [errors.New] or
    [fmt.Errorf] value without [%w]; [Wrap p e] is [fmt.Errorf("p: %w", e)];
    [Status] is a gRPC status error; [Foreign] is an error returned by code
    outside the repository. *)
Inductive error :=
  | ErrVar (name msg : string)
  | ErrNew (msg : string)
  | Wrap (prefix : string) (cause : error)
  | Status (code : Z) (msg : string)
  | Foreign (id : Z) (msg : string).

#[export] Instance error_eq_dec : EqDecision error.
Proof. solve_decision. Defined.

(** [err.Error()]. *)
Fixpoint Error (e : error) : string :=
  match e with
  | ErrVar _ m | ErrNew m | Foreign _ m => m
  | Wrap p e => p +:+ ": " +:+ Error e
  | Status _ m => m
  end.

(** The result of a Go call: it returns a value with a nil error, it returns
    a non-nil error, or it panics. *)
Inductive outcome (A : Type) :=
  | Ret (a : A)
  | Fail (e : error)
  | Panic.
Arguments Ret {A} a.
Arguments Fail {A} e.
Arguments Panic {A}.

#[export] Instance outcome_eq_dec `{EqDecision A} : EqDecision (outcome A).
Proof. solve_decision. Defined.

#[export] Instance outcome_ret : MRet outcome := @Ret.
#[export] Instance outcome_bind : MBind outcome := λ A B f m,
  match m with
  | Ret a => f a
  | Fail e => Fail e
  | Panic => Panic
  end.
#[export] Instance outcome_fmap : FMap outcome := λ A B f m,
  match m with
  | Ret a => Ret (f a)
  | Fail e => Fail e
  | Panic => Panic
  end.
#[export] Instance outcome_throw : MThrow error outcome := @Fail.

(** [if err != nil { return fmt.Errorf("p: %w", err) }]. *)
Definition wrapf {A} (p : string) (m : outcome A) : outcome A :=
  match m with
  | Fail e => Fail (Wrap p e)
  | _ => m
  end.

Definition is_ret {A} (m : outcome A) : bool :=
  match m with Ret _ => true | _ => false end.

Lemma bind_Ret_inv {A B} (f : A → outcome B) (m : outcome A) b :
  m ≫= f = Ret b → ∃ a, m = Ret a ∧ f a = Ret b.
Proof. destruct m; naive_solver. Qed.

Lemma wrapf_Ret_inv {A} p (m : outcome A) a : wrapf p m = Ret a → m = Ret a.
Proof. by destruct m. Qed.

(** ** Tactics *)

Create HintDb golib.

(** Case on the scrutinee of the first [match] or [if] of the goal or of a
    hypothesis and clean up. *)
Ltac go_step :=
  match goal with
  | |- context [decide ?P] => destruct (decide P)
  | H : context [decide ?P] |- _ => destruct (decide P)
  | |- context [match ?x with _ => _ end] => destruct x eqn:?
  | H : context [match ?x with _ => _ end] |- _ => destruct x eqn:?
  end; simplify_eq/=.

(** Take a successful monadic computation apart. *)
Ltac go_inv :=
  repeat match goal with
  | H : _ ≫= _ = Ret _ |- _ =>
      apply bind_Ret_inv in H; destruct H as (? & ? & ?)
  | H : wrapf _ _ = Ret _ |- _ => apply wrapf_Ret_inv in H
  | H : Ret _ = Ret _ |- _ => injection H as ?; subst
  | H : Fail _ = Ret _ |- _ => discriminate H
  | H : Panic = Ret _ |- _ => discriminate H
  end.

(** ** Lists *)

(** The first element of a list that satisfies a boolean test: the shape of
    every [for ... { if cond { matched = &x; break } }] of the code. *)
Fixpoint find_first {A} (p : A → bool) (l : list A) : option A :=
  match l with
  | [] => None
  | x :: l => if p x then Some x else find_first p l
  end.

Section find_first.
Context {A : Type}.
Implicit Types (p q : A → bool) (l : list A).

Lemma find_first_Some p l x :
  find_first p l = Some x →
  p x = true ∧ ∃ l1 l2, l = l1 ++ x :: l2 ∧ Forall (λ y, p y = false) l1.
Proof.
  induction l as [|y l IH]; [done|]. simpl.
  destruct (p y) eqn:Hy; intros Hf.
  - injection Hf as <-. split; [done|]. by exists [], l.
  - destruct (IH Hf) as (? & l1 & l2 & -> & ?). split; [done|].
    exists (y :: l1), l2. eauto.
Qed.

Lemma find_first_None p l :
  find_first p l = None ↔ Forall (λ y, p y = false) l.
Proof.
  induction l as [|y l IH]; simpl; [by split|].
  rewrite Forall_cons, <- IH. destruct (p y); [|by split; [|intros [_ ?]]].
  split; [done|]. by intros [? _].
Qed.

Lemma find_first_elem_of p l x : find_first p l = Some x → x ∈ l.
Proof.
  intros (_ & l1 & l2 & -> & _)%find_first_Some. set_solver.
Qed.

Lemma find_first_true p l x : find_first p l = Some x → p x = true.
Proof. by intros [? _]%find_first_Some. Qed.

Lemma find_first_ext p q l :
  Forall (λ x, p x = q x) l → find_first p l = find_first q l.
Proof. induction 1 as [|x l Hx _ IH]; simpl; [done|]. by rewrite Hx, IH. Qed.

Lemma find_first_is_Some p l x :
  x ∈ l → p x = true → is_Some (find_first p l).
Proof.
  intros Hin Hp. destruct (find_first p l) eqn:E; [eauto|].
  rewrite find_first_None, Forall_forall in E. specialize (E _ Hin). congruence.
Qed.

Lemma find_first_head_filter p l : find_first p l = head (filter (λ x, p x = true) l).
Proof.
  induction l as [|x l IH]; simpl; [done|]. rewrite filter_cons.
  destruct (decide (p x = true)) as [->|Hx]; [done|]. by destruct (p x).
Qed.

Lemma find_first_app p l1 l2 :
  find_first p (l1 ++ l2) =
    match find_first p l1 with Some x => Some x | None => find_first p l2 end.
Proof. induction l1 as [|x l1 IH]; simpl; [done|]. by destruct (p x). Qed.
End find_first.

Lemma find_first_related {A B} (R : A → B → Prop) (p : A → bool) (q : B → bool) l k :
  (∀ x y, R x y → p x = q y) → Forall2 R l k → option_Forall2 R (find_first p l) (find_first q k).
Proof.
  intros Hpq. induction 1 as [|x y l k Hxy _ IH]; simpl; [constructor|].
  rewrite <- (Hpq x y Hxy). destruct (p x); [by constructor|done].
Qed.

(** A [for] loop whose body may [continue] without appending, append one
    element, or return an error. *)
Fixpoint collect {A B} (f : A → outcome (option B)) (l : list A) : outcome (list B) :=
  match l with
  | [] => Ret []
  | x :: l => o ← f x; r ← collect f l; Ret (option_list o ++ r)
  end.

Lemma collect_Ret_elem_of {A B} (f : A → outcome (option B)) l r y :
  collect f l = Ret r → y ∈ r → ∃ x, x ∈ l ∧ f x = Ret (Some y).
Proof.
  revert r. induction l as [|x l IH]; simpl; intros r H Hy; go_inv; [set_solver|].
  apply elem_of_app in Hy as [Hy|Hy].
  - destruct x0 as [b|]; simpl in Hy; [|set_solver].
    apply list_elem_of_singleton in Hy as ->. exists x. split; [left|done].
  - destruct (IH _ H0 Hy) as (z & ? & ?). exists z. split; [by right|done].
Qed.

Lemma collect_Ret_iff {A B} (f : A → outcome (option B)) l r :
  collect f l = Ret r ↔ ∃ os, Forall2 (λ x o, f x = Ret o) l os ∧ r = omap id os.
Proof.
  revert r. induction l as [|x l IH]; simpl; intros r.
  - split; [intros [= <-]; by exists []|]. intros (os & H%Forall2_nil_inv_l & ->). by subst.
  - split.
    + intros H. go_inv. apply IH in H0 as (os & ? & ->). exists (x0 :: os).
      split; [by constructor|]. by destruct x0.
    + intros (os & (o & os' & Ho & Hos & ->)%Forall2_cons_inv_l & ->).
      rewrite Ho. simpl.
      assert (collect f l = Ret (omap id os')) as -> by (apply IH; eauto).
      simpl. by destruct o.
Qed.

Lemma collect_no_panic {A B} (f : A → outcome (option B)) l :
  (∀ x, x ∈ l → f x ≠ Panic) → collect f l ≠ Panic.
Proof.
  induction l as [|x l IH]; intros Hf; simpl; [done|].
  pose proof (Hf x ltac:(left)). destruct (f x) eqn:E; simpl; [|done..].
  destruct (collect f l) eqn:E'; simpl; [done..|].
  intros _. apply IH; [|done]. intros y ?. apply Hf. by right.
Qed.

(** Two such loops whose bodies act alike on every element. *)
Lemma collect_related {A B C} (R : B → C → Prop) (f : A → outcome (option B))
    (g : A → outcome (option C)) l r :
  (∀ x o, f x = Ret o → ∃ o', g x = Ret o' ∧ option_Forall2 R o o') →
  collect f l = Ret r → ∃ r', collect g l = Ret r' ∧ Forall2 R r r'.
Proof.
  intros Hfg. revert r. induction l as [|x l IH]; simpl; intros r H; go_inv; [by exists []|].
  apply Hfg in H as (o' & -> & Ho). destruct (IH _ H0) as (r' & Hr' & HR). simpl. rewrite Hr'. simpl.
  eexists. split; [done|]. apply Forall2_app; [|done]. destruct Ho; by repeat constructor.
Qed.

(** Entering a list of key and value pairs into a Go map, in order. *)
Definition insert_pair {A} (m : gmap string A) (e : string * A) : gmap string A :=
  <[fst e := snd e]> m.

Lemma foldl_insert_pair {A} l (m : gmap string A) k :
  foldl insert_pair m l !! k =
    match find_first (λ e, bool_decide (fst e = k)) (reverse l) with
    | Some e => Some (snd e)
    | None => m !! k
    end.
Proof.
  revert m. induction l as [|e l IH]; intros m; [done|]. simpl. rewrite IH, reverse_cons, find_first_app.
  destruct (find_first _ (reverse l)); [done|]. simpl. unfold insert_pair.
  case_bool_decide as He; [by rewrite He, lookup_insert_eq|by rewrite lookup_insert_ne].
Qed.

(** ** Bytes *)

(** A Go [[]byte] is a list of integers between 0 and 255. *)
Definition is_byte (b : Z) : Prop := (0 ≤ b < 256)%Z.
#[export] Instance is_byte_dec b : Decision (is_byte b).
Proof. unfold is_byte. apply _. Defined.

(** *** Big-endian integers *)

(** The value of a big-endian byte string. *)
Definition be_value (b : list Z) : Z := fold_left (λ a x, a * 256 + x)%Z b 0%Z.

(** The [n] low bytes of [x], most significant first. *)
Fixpoint be_bytes (n : nat) (x : Z) : list Z :=
  match n with
  | O => []
  | S n => (x / 256 ^ Z.of_nat n) `mod` 256 :: be_bytes n x
  end%Z.

(** The same, least significant first. *)
Definition le_bytes (n : nat) (x : Z) : list Z := reverse (be_bytes n x).

Lemma be_value_go a b :
  fold_left (λ a x, a * 256 + x)%Z b a = (a * 256 ^ Z.of_nat (length b) + be_value b)%Z.
Proof.
  unfold be_value. revert a. induction b as [|y b IH]; intros a; cbn [fold_left length]; [lia|].
  rewrite (IH (a * 256 + y)%Z), (IH (0 * 256 + y)%Z).
  replace (Z.of_nat (S (length b))) with (Z.of_nat (length b) + 1)%Z by lia.
  rewrite Z.pow_add_r by lia. lia.
Qed.

Lemma be_value_cons x b : be_value (x :: b) = (x * 256 ^ Z.of_nat (length b) + be_value b)%Z.
Proof. unfold be_value at 1. cbn [fold_left]. rewrite be_value_go. lia. Qed.

Lemma be_value_range b : Forall is_byte b → (0 ≤ be_value b < 256 ^ Z.of_nat (length b))%Z.
Proof.
  induction 1 as [|x b Hx _ IH]; [unfold be_value; simpl; lia|]. rewrite be_value_cons. simpl length.
  replace (Z.of_nat (S (length b))) with (Z.of_nat (length b) + 1)%Z by lia.
  rewrite Z.pow_add_r by lia. unfold is_byte in Hx. nia.
Qed.

Lemma be_bytes_length n x : length (be_bytes n x) = n.
Proof. induction n as [|n IH]; simpl; [done|]. by rewrite IH. Qed.

Lemma le_bytes_length n x : length (le_bytes n x) = n.
Proof. unfold le_bytes. by rewrite length_reverse, be_bytes_length. Qed.

Lemma be_bytes_is_byte n x : Forall is_byte (be_bytes n x).
Proof.
  induction n as [|n IH]; simpl; constructor; [|done]. apply Z.mod_pos_bound. lia.
Qed.

Lemma be_value_bytes n x : be_value (be_bytes n x) = (x `mod` 256 ^ Z.of_nat n)%Z.
Proof.
  induction n as [|n IH]; [simpl; by rewrite Z.mod_1_r|]. simpl be_bytes.
  rewrite be_value_cons, be_bytes_length, IH.
  replace (Z.of_nat (S n)) with (Z.of_nat n + 1)%Z by lia.
  rewrite Z.pow_add_r, Z.pow_1_r, (Z.rem_mul_r x) by lia. lia.
Qed.

(** Unsigned and two's complement truncation, Go's [uint32(x)], [int32(x)]. *)
Definition to_u32 (x : Z) : Z := (x `mod` 2 ^ 32)%Z.
Definition to_i32 (x : Z) : Z :=
  let y := to_u32 x in if (y <? 2 ^ 31)%Z then y else (y - 2 ^ 32)%Z.

Lemma to_u32_range x : (0 ≤ to_u32 x < 2 ^ 32)%Z.
Proof. apply Z.mod_pos_bound. lia. Qed.

Lemma to_u32_id x : (0 ≤ x < 2 ^ 32)%Z → to_u32 x = x.
Proof. apply Z.mod_small. Qed.

Lemma to_i32_range x : (- 2 ^ 31 ≤ to_i32 x < 2 ^ 31)%Z.
Proof.
  unfold to_i32. pose proof (to_u32_range x).
  destruct (Z.ltb_spec (to_u32 x) (2 ^ 31)); lia.
Qed.

Lemma to_i32_id x : (- 2 ^ 31 ≤ x < 2 ^ 31)%Z → to_i32 x = x.
Proof.
  intros Hx. unfold to_i32, to_u32.
  destruct (decide (0 ≤ x)%Z).
  - rewrite Z.mod_small by lia. destruct (Z.ltb_spec x (2 ^ 31)); lia.
  - replace (x `mod` 2 ^ 32)%Z with (x + 2 ^ 32)%Z
      by (apply Z.mod_unique with (-1)%Z; lia).
    destruct (Z.ltb_spec (x + 2 ^ 32) (2 ^ 31)); lia.
Qed.

(** The conversion keeps the value modulo [2 ^ 32]. *)
Lemma to_i32_congr x : ((to_i32 x - x) `mod` 2 ^ 32 = 0)%Z.
Proof.
  unfold to_i32, to_u32. destruct (Z.ltb_spec (x `mod` 2 ^ 32) (2 ^ 31)).
  - by rewrite Zminus_mod_idemp_l, Z.sub_diag.
  - replace (x `mod` 2 ^ 32 - 2 ^ 32 - x)%Z with (x `mod` 2 ^ 32 - x + (-1) * 2 ^ 32)%Z by lia.
    by rewrite Z.mod_add, Zminus_mod_idemp_l, Z.sub_diag by lia.
Qed.

#[export] Hint Resolve to_u32_range to_i32_range : golib.
