(* ===== verification/WinSys.v ===== *)
(** * Computations over an operating system

    A call into a system library transforms the state of the operating system,
    and obtains, uses or releases handles.  [M] is the monad of the functions
    that make such calls: they return, fail, panic or (an enumeration that never
    ends) are cut off, and leave a trace of resource events.  The reasoning
    principles say what a computation returns ([returns]), how it fails
    ([fails]) and how its trace changes the set of live resources ([frame]). *)

From stdpp Require Import base list sets gmap strings.
From Stdlib Require Import ZArith Lia Ascii.
From S2P Require Import Prelude.

(** ** Computations over the operating system *)

(** What must be released: a store handle, a certificate context, a key, a
    buffer of the system, a network connection. *)
Inductive resource := RStore (h : Z) | RCtx (c : Z) | RKey (k : Z) | RBuf (p : Z) | RConn (c : Z).
#[export] Instance resource_eq_dec : EqDecision resource.
Proof. solve_decision. Defined.

(** What the trace of a call records: a resource obtained, released or used,
    the requests for a certificate's private key, the addresses that accepted a
    connection. *)
Inductive event :=
  | Acquire (r : resource)
  | Release (r : resource)
  | Use (r : resource)
  | KeyRequest (c : Z)
  | Dialed (addr : string).

Inductive run (A : Type) := Done (o : outcome A) | Cut.
Arguments Done {A} o.
Arguments Cut {A}.

Definition M (OS A : Type) : Type := OS → run A * OS * list event.

#[export] Instance M_ret {OS} : MRet (M OS) := λ A a w, (Done (Ret a), w, []).
#[export] Instance M_bind {OS} : MBind (M OS) := λ A B f m w,
  match m w with
  | (Done (Ret a), w, ev) => let '(r, w, ev') := f a w in (r, w, ev ++ ev')
  | (Done (Fail e), w, ev) => (Done (Fail e), w, ev)
  | (Done Panic, w, ev) => (Done Panic, w, ev)
  | (Cut, w, ev) => (Cut, w, ev)
  end.

Section monad.
Context {OS : Type}.

(** Lift a result; record an event; call into the system. *)
Definition lift {A} (o : outcome A) : M OS A := λ w, (Done o, w, []).
Definition emit (e : event) : M OS () := λ w, (Done (Ret ()), w, [e]).
Definition sys {A} (f : OS → A * OS) : M OS A :=
  λ w, let '(a, w) := f w in (Done (Ret a), w, []).

(** [x, err := m; if err != nil { ... }]: the error as a value. *)
Definition try {A} (m : M OS A) : M OS (outcome A) := λ w,
  match m w with
  | (Done (Ret a), w, ev) => (Done (Ret (Ret a)), w, ev)
  | (Done (Fail e), w, ev) => (Done (Ret (Fail e)), w, ev)
  | (Done Panic, w, ev) => (Done Panic, w, ev)
  | (Cut, w, ev) => (Cut, w, ev)
  end.

(** [defer cleanup(); m]: the clean-up runs whether [m] returns, fails or
    panics. *)
Definition with_defer {A} (cleanup : M OS ()) (m : M OS A) : M OS A := λ w,
  match m w with
  | (Done o, w, ev) => let '(_, w, ev') := cleanup w in (Done o, w, ev ++ ev')
  | (Cut, w, ev) => (Cut, w, ev)
  end.

Definition result {A} (m : M OS A) (w : OS) : run A := (m w).1.1.
Definition trace {A} (m : M OS A) (w : OS) : list event := (m w).2.
End monad.

(** ** Reasoning about computations *)

Section logic.
Context {OS : Type}.

(** [m] returns only values satisfying [P]. *)
Definition returns {A} (m : M OS A) (P : A → Prop) : Prop :=
  ∀ w a, result m w = Done (Ret a) → P a.

(** [m] fails only with errors satisfying [P]. *)
Definition fails {A} (m : M OS A) (P : error → Prop) : Prop :=
  ∀ w e, result m w = Done (Fail e) → P e.

(** The resources live after a trace, most recent first; [None] when the trace
    uses a resource that is not live or releases one out of order. *)
Definition track1 (live : list resource) (ev : event) : option (list resource) :=
  match ev with
  | Acquire r => Some (r :: live)
  | Use r => if decide (r ∈ live) then Some live else None
  | KeyRequest _ | Dialed _ => Some live
  | Release r =>
      match live with
      | r' :: live => if decide (r = r') then Some live else None
      | [] => None
      end
  end.
Fixpoint track (live : list resource) (evs : list event) : option (list resource) :=
  match evs with
  | [] => Some live
  | ev :: evs => live ← track1 live ev; track live evs
  end.

(** Started with the live resources [L], [m] uses only live resources and
    releases in order; it leaves [Q a] when it returns [a], [L'] when it fails. *)
Definition frame {A} (L : list resource) (m : M OS A) (Q : A → list resource)
  (L' : list resource) : Prop :=
    ∀ w, match result m w with
         | Done (Ret a) => track L (trace m w) = Some (Q a)
         | Done (Fail _) => track L (trace m w) = Some L'
         | _ => True
         end.

Lemma track_app L evs evs' :
  track L (evs ++ evs') = track L evs ≫= λ L, track L evs'.
Proof.
  revert L. induction evs as [|ev evs IH]; intros L; simpl; [done|].
  destruct (track1 L ev); simpl; [apply IH|done].
Qed.

Lemma bind_run {A B} (m : M OS A) (f : A → M OS B) w :
  (m ≫= f) w =
    match m w with
    | (Done (Ret a), w, ev) => let '(r, w, ev') := f a w in (r, w, ev ++ ev')
    | (Done (Fail e), w, ev) => (Done (Fail e), w, ev)
    | (Done Panic, w, ev) => (Done Panic, w, ev)
    | (Cut, w, ev) => (Cut, w, ev)
    end.
Proof. done. Qed.

Lemma returns_bind {A B} (m : M OS A) (f : A → M OS B) (P : A → Prop) (Q : B → Prop) :
  returns m P → (∀ a, P a → returns (f a) Q) → returns (m ≫= f) Q.
Proof.
  intros Hm Hf w b. unfold result. rewrite bind_run.
  destruct (m w) as [[[[a|e|]|] w'] ev] eqn:E; try done.
  destruct (f a w') as [[r w''] ev'] eqn:E'. simpl. intros ->.
  apply (Hf a) with (w := w'); [|by unfold result; rewrite E'].
  apply (Hm w). unfold result. by rewrite E.
Qed.

Lemma returns_true {A} (m : M OS A) : returns m (λ _, True).
Proof. done. Qed.

Lemma returns_ret {A} (a : A) (P : A → Prop) : P a → returns (mret a) P.
Proof. intros Hp w b [= <-]. done. Qed.

Lemma returns_lift {A} (o : outcome A) (P : A → Prop) :
  (∀ a, o = Ret a → P a) → returns (lift o) P.
Proof. intros Hp w b [= Ho]. auto. Qed.

Lemma returns_mono {A} (m : M OS A) (P Q : A → Prop) :
  returns m P → (∀ a, P a → Q a) → returns m Q.
Proof. intros Hm HPQ w a Ha. eauto. Qed.

Lemma returns_defer {A} c (m : M OS A) P : returns m P → returns (with_defer c m) P.
Proof.
  intros Hm w a. unfold result, with_defer.
  destruct (m w) as [[[o|] w'] ev] eqn:E; [|done]. destruct (c w') as [[? ?] ?]. simpl.
  intros [= ->]. apply (Hm w). unfold result. by rewrite E.
Qed.

Lemma returns_try {A} (m : M OS A) P :
  returns m P → returns (try m) (λ o, match o with Ret a => P a | _ => True end).
Proof.
  intros Hm w o. unfold result, try. destruct (m w) as [[[[a|e|]|] w'] ev] eqn:E; try done.
  - simpl. intros [= <-]. apply (Hm w). unfold result. by rewrite E.
  - by intros [= <-].
Qed.

Lemma fails_bind {A B} (m : M OS A) (f : A → M OS B) P :
  fails m P → (∀ a, fails (f a) P) → fails (m ≫= f) P.
Proof.
  intros Hm Hf w b. unfold result. rewrite bind_run.
  destruct (m w) as [[[[a|e|]|] w'] ev] eqn:E; try done.
  - destruct (f a w') as [[r w''] ev'] eqn:E'. simpl. intros ->.
    apply (Hf a w'). unfold result. by rewrite E'.
  - simpl. intros [= <-]. apply (Hm w). unfold result. by rewrite E.
Qed.

Lemma fails_bind_returns {A B} (m : M OS A) (f : A → M OS B) (R : A → Prop) P :
  fails m P → returns m R → (∀ a, R a → fails (f a) P) → fails (m ≫= f) P.
Proof.
  intros Hm HR Hf w b. specialize (HR w). unfold result in *. rewrite bind_run.
  destruct (m w) as [[[[a|e|]|] w'] ev] eqn:E; try done.
  - specialize (Hf a (HR _ eq_refl) w'). unfold result in Hf.
    destruct (f a w') as [[r w''] ev'] eqn:E'. simpl. intros ->. by apply Hf.
  - simpl. intros [= <-]. apply (Hm w). unfold result. by rewrite E.
Qed.

Lemma fails_lift {A} (o : outcome A) (P : error → Prop) :
  (∀ e, o = Fail e → P e) → fails (lift o) P.
Proof. intros Hp w b [= Ho]. auto. Qed.

Lemma fails_ret {A} (a : A) P : fails (mret a) P.
Proof. by intros w e. Qed.

Lemma fails_sys {A} (f : OS → A * OS) P : fails (sys f) P.
Proof. intros w e. unfold result, sys. by destruct (f w). Qed.

Lemma fails_emit e P : fails (emit e) P.
Proof. by intros w. Qed.

Lemma fails_try {A} (m : M OS A) P : fails (try m) P.
Proof. intros w e. unfold result, try. by destruct (m w) as [[[[]|] ?] ?]. Qed.

Lemma fails_defer {A} c (m : M OS A) P : fails m P → fails (with_defer c m) P.
Proof.
  intros Hm w e. unfold result, with_defer.
  destruct (m w) as [[[o|] w'] ev] eqn:E; [|done]. destruct (c w') as [[? ?] ?]. simpl.
  intros [= ->]. apply (Hm w). unfold result. by rewrite E.
Qed.

Lemma frame_ret {A} (a : A) (Q : A → list resource) L' : frame (Q a) (mret a) Q L'.
Proof. done. Qed.

Lemma frame_lift {A} L (o : outcome A) : frame L (lift o) (λ _, L) L.
Proof. intros w. by destruct o. Qed.

Lemma frame_fail {A} L e (Q : A → list resource) : frame L (lift (Fail e)) Q L.
Proof. done. Qed.

Lemma frame_sys {A} L (f : OS → A * OS) L' : frame L (sys f) (λ _, L) L'.
Proof. intros w. unfold result, trace, sys. by destruct (f w). Qed.

Lemma frame_acquire L r L' : frame L (emit (Acquire r)) (λ _, r :: L) L'.
Proof. done. Qed.

Lemma frame_release L r L' : frame (r :: L) (emit (Release r)) (λ _, L) L'.
Proof. intros w. simpl. by rewrite decide_True. Qed.

Lemma frame_request L c L' : frame L (emit (KeyRequest c)) (λ _, L) L'.
Proof. done. Qed.

Lemma frame_dialed L a L' : frame L (emit (Dialed a)) (λ _, L) L'.
Proof. done. Qed.

Lemma frame_use L r L' : r ∈ L → frame L (emit (Use r)) (λ _, L) L'.
Proof. intros Hr w. simpl. by rewrite decide_True. Qed.

Lemma frame_bind {A B} L (m : M OS A) (f : A → M OS B) (P : A → list resource) Q L' :
  frame L m P L' → (∀ a, frame (P a) (f a) Q L') → frame L (m ≫= f) Q L'.
Proof.
  intros Hm Hf w. specialize (Hm w). unfold result, trace in *. rewrite bind_run.
  destruct (m w) as [[[[a|e|]|] w'] ev]; simpl in *; [|done..].
  specialize (Hf a w'). unfold result, trace in Hf.
  destruct (f a w') as [[[[b|e|]|] w''] ev']; simpl in *; [| |done..];
    by rewrite track_app, Hm.
Qed.

Lemma frame_try {A} L (m : M OS A) (Q : A → list resource) L' L'' :
  frame L m Q L' →
  frame L (try m) (λ o, match o with Ret a => Q a | _ => L' end) L''.
Proof.
  intros Hm w. specialize (Hm w). unfold result, trace, try in *.
  by destruct (m w) as [[[[a|e|]|] w'] ev].
Qed.

Lemma frame_defer {A} L c (m : M OS A) L1 L2 :
  frame L m (λ _, L1) L1 → (∀ w, result c w = Done (Ret ())) → frame L1 c (λ _, L2) L2 →
  frame L (with_defer c m) (λ _, L2) L2.
Proof.
  intros Hm Hc Hfc w. specialize (Hm w). unfold result, trace, with_defer in *.
  destruct (m w) as [[[[a|e|]|] w'] ev]; simpl in *; [| |by destruct (c w') as [[??]?]|done];
    specialize (Hc w'); specialize (Hfc w'); unfold result, trace in *;
    destruct (c w') as [[r w''] ev']; simpl in *; subst; by rewrite track_app, Hm.
Qed.

Lemma frame_bind_returns {A B} L (m : M OS A) (f : A → M OS B) (R : A → Prop) P Q L' :
  returns m R → frame L m P L' → (∀ a, R a → frame (P a) (f a) Q L') →
  frame L (m ≫= f) Q L'.
Proof.
  intros HR Hm Hf w. specialize (Hm w). specialize (HR w).
  unfold result, trace in *. rewrite bind_run.
  destruct (m w) as [[[[a|e|]|] w'] ev]; simpl in *; [|done..].
  specialize (Hf a (HR _ eq_refl) w'). unfold result, trace in Hf.
  destruct (f a w') as [[[[b|e|]|] w''] ev']; simpl in *; [| |done..];
    by rewrite track_app, Hm.
Qed.

Lemma frame_skip {A B} L (a : A) (f : A → M OS B) Q L' :
  frame L (f a) Q L' → frame L (mret a ≫= f) Q L'.
Proof.
  intros Hf w. specialize (Hf w). unfold result, trace in *. rewrite bind_run. simpl.
  by destruct (f a w) as [[? ?] ?].
Qed.

(** A frame at which the value does not matter. *)
Lemma frame_conseq {A} L (m : M OS A) (P Q : A → list resource) L' :
  frame L m P L' → (∀ a, P a = Q a) → frame L m Q L'.
Proof.
  intros Hm HPQ w. specialize (Hm w). destruct (result m w) as [[a| |]|]; try done.
  by rewrite <- HPQ.
Qed.
End logic.

#[export] Hint Resolve frame_ret frame_lift frame_sys frame_acquire frame_release : golib.

(** Step through a computation whose parts have the frame [L]. *)
Ltac frame_step :=
  lazymatch goal with
  | |- frame _ (match ?x with _ => _ end) _ _ => destruct x eqn:?
  | |- frame _ (lift (Fail _)) _ _ => apply frame_fail
  | |- frame _ (lift _) _ _ => apply frame_lift
  | |- frame _ (mret _) _ _ => intros ?; reflexivity
  | |- frame _ (sys _ ≫= _) _ _ => eapply frame_bind; [apply frame_sys|intros ?; simpl]
  | |- frame _ (lift _ ≫= _) _ _ => eapply frame_bind; [apply frame_lift|intros ?; simpl]
  | |- frame _ (mret _ ≫= _) _ _ => apply frame_skip; simpl
  | |- frame _ (emit (Acquire _) ≫= _) _ _ =>
  eapply frame_bind; [apply frame_acquire|intros ?; simpl]
  | |- frame _ (emit (Release _) ≫= _) _ _ =>
  eapply frame_bind; [apply frame_release|intros ?; simpl]
  | |- frame _ (emit (KeyRequest _) ≫= _) _ _ =>
      eapply frame_bind; [apply frame_request|intros ?; simpl]
  | |- frame _ (emit (Dialed _) ≫= _) _ _ =>
      eapply frame_bind; [apply frame_dialed|intros ?; simpl]
  | |- frame _ (emit (Use _) ≫= _) _ _ =>
  eapply frame_bind; [apply frame_use; try done; set_solver|intros ?; simpl]
  end.

(** ** Effects on the system

    [triple P m Q E]: started where [P] holds, [m] returns [a] where [Q a]
    holds or fails where [E] holds. *)

Section triples.
Context {OS : Type}.

Definition triple {A} (P : OS → Prop) (m : M OS A) (Q : A → OS → Prop) (E : OS → Prop) : Prop :=
  ∀ w, P w →
    match m w with
    | (Done (Ret a), w', _) => Q a w'
    | (Done (Fail _), w', _) => E w'
    | _ => True
    end.

Lemma triple_bind {A B} (P : OS → Prop) (m : M OS A) (f : A → M OS B) R Q E :
  triple P m R E → (∀ a, triple (R a) (f a) Q E) → triple P (m ≫= f) Q E.
Proof.
  intros Hm Hf w Hw. specialize (Hm w Hw). rewrite bind_run.
  destruct (m w) as [[[[a|e|]|] w'] ev]; try done. specialize (Hf a w' Hm).
  by destruct (f a w') as [[[[b|e|]|] w''] ev'].
Qed.

Lemma triple_conseq {A} (P P' : OS → Prop) (m : M OS A) (Q Q' : A → OS → Prop) (E E' : OS → Prop) :
  triple P m Q E → (∀ w, P' w → P w) → (∀ a w, Q a w → Q' a w) → (∀ w, E w → E' w) →
  triple P' m Q' E'.
Proof.
  intros Hm HP HQ HE w Hw. specialize (Hm w (HP w Hw)).
  destruct (m w) as [[[[a|e|]|] w'] ev]; auto.
Qed.

Lemma triple_ret {A} (a : A) (Q : A → OS → Prop) E : triple (Q a) (mret a) Q E.
Proof. by intros w Hw. Qed.

Lemma triple_lift {A} (P : OS → Prop) (o : outcome A) :
  triple P (lift o) (λ a w, P w ∧ o = Ret a) P.
Proof. intros w Hw. by destruct o. Qed.

Lemma triple_fail {A} (P : OS → Prop) e (Q : A → OS → Prop) (E : OS → Prop) :
  (∀ w, P w → E w) → triple P (lift (Fail e)) Q E.
Proof. intros HE w Hw. by apply HE. Qed.

Lemma triple_panic {A} (P : OS → Prop) (Q : A → OS → Prop) E : triple P (lift Panic) Q E.
Proof. by intros w Hw. Qed.

Lemma triple_emit_then {A} (P : OS → Prop) ev (m : M OS A) Q E :
  triple P m Q E → triple P (emit ev ≫= λ _, m) Q E.
Proof.
  intros Hm w Hw. specialize (Hm w Hw). rewrite bind_run. simpl.
  by destruct (m w) as [[[[b|e|]|] w'] evs].
Qed.

Lemma triple_mret {A} (P : OS → Prop) (a : A) (Q : A → OS → Prop) E :
  (∀ w, P w → Q a w) → triple P (mret a) Q E.
Proof. intros HQ w Hw. by apply HQ. Qed.

Lemma triple_sys {A} (P : OS → Prop) (f : OS → A * OS) (Q : A → OS → Prop) E :
  (∀ w, P w → Q (f w).1 (f w).2) → triple P (sys f) Q E.
Proof. intros Hf w Hw. specialize (Hf w Hw). unfold sys. by destruct (f w). Qed.

(** A checked call and what follows its success. *)
Lemma triple_lift_then {A B} (P : OS → Prop) (o : outcome A) (f : A → M OS B) Q E :
  (∀ e w, o = Fail e → P w → E w) → (∀ a, o = Ret a → triple P (f a) Q E) →
  triple P (lift o ≫= f) Q E.
Proof.
  intros HE Hf w Hw. rewrite bind_run. destruct o as [a|e|]; simpl; [|by apply (HE e)|done].
  specialize (Hf a eq_refl w Hw). by destruct (f a w) as [[[[b|e|]|] w''] ev'].
Qed.

Lemma triple_sys_then {A B} (P : OS → Prop) (g : OS → A * OS) (f : A → M OS B) R Q E :
  (∀ w, P w → R (g w).1 (g w).2) → (∀ a, triple (R a) (f a) Q E) → triple P (sys g ≫= f) Q E.
Proof. intros Hg. apply triple_bind. by apply triple_sys. Qed.

Lemma triple_pure {A} (P : OS → Prop) (H : Prop) (m : M OS A) Q E :
  (H → triple P m Q E) → triple (λ w, P w ∧ H) m Q E.
Proof. intros Hm w [Hw HH]. exact (Hm HH w Hw). Qed.

Lemma triple_exists {A B} (P : B → OS → Prop) (m : M OS A) Q E :
  (∀ b, triple (P b) m Q E) → triple (λ w, ∃ b, P b w) m Q E.
Proof. intros Hm w [b Hb]. exact (Hm b w Hb). Qed.

(** Bind where the first part leaves the state predicate alone and yields a
    fact about its value. *)
Lemma triple_bind_fact {A B} (P : OS → Prop) (m : M OS A) (f : A → M OS B) (F : A → Prop) Q E :
  triple P m (λ a w, P w ∧ F a) E → (∀ a, F a → triple P (f a) Q E) → triple P (m ≫= f) Q E.
Proof. intros Hm Hf. eapply triple_bind; [exact Hm|]. intros a. apply triple_pure, Hf. Qed.

Lemma triple_emit (P : OS → Prop) ev E : triple P (emit ev) (λ _, P) E.
Proof. by intros w Hw. Qed.

Lemma triple_defer {A} (P : OS → Prop) c (m : M OS A) Q E Q' E' :
  triple P m Q E →
  (∀ a w, Q a w → Q' a (c w).1.2) → (∀ w, E w → E' (c w).1.2) →
  triple P (with_defer c m) Q' E'.
Proof.
  intros Hm HQ HE w Hw. specialize (Hm w Hw). unfold with_defer.
  destruct (m w) as [[[[a|e|]|] w'] ev]; try done.
  - specialize (HQ a w' Hm). by destruct (c w') as [[? ?] ?].
  - specialize (HE w' Hm). by destruct (c w') as [[? ?] ?].
  - by destruct (c w') as [[? ?] ?].
Qed.

(** The state after a computation. *)
Definition world_after {A} (m : M OS A) (w : OS) : OS := (m w).1.2.

Lemma triple_run {A} (P : OS → Prop) (m : M OS A) Q E w :
  triple P m Q E → P w →
  (∀ a, result m w = Done (Ret a) → Q a (world_after m w)) ∧
  (∀ e, result m w = Done (Fail e) → E (world_after m w)).
Proof.
  intros Hm Hw. specialize (Hm w Hw). unfold result, world_after.
  destruct (m w) as [[[[a|e|]|] w'] ev]; simpl; split; try done; by intros ? [= <-].
Qed.
End triples.

(** ** What a computation leaves in its trace

    [traced m Q]: [m] returns only values that satisfy [Q] together with the
    events it recorded. *)

Section traced.
Context {OS : Type}.

Definition traced {A} (m : M OS A) (Q : A → list event → Prop) : Prop :=
  ∀ w a, result m w = Done (Ret a) → Q a (trace m w).

Lemma traced_bind {A B} (m : M OS A) (f : A → M OS B) P (Q : B → list event → Prop) :
  traced m P → (∀ a ev, P a ev → traced (f a) (λ b ev', Q b (ev ++ ev'))) → traced (m ≫= f) Q.
Proof.
  intros Hm Hf w b. specialize (Hm w). unfold result, trace in *. rewrite bind_run.
  destruct (m w) as [[[[a|e|]|] w'] ev]; simpl in *; try done.
  specialize (Hf a ev (Hm a eq_refl) w' b). unfold result, trace in Hf.
  destruct (f a w') as [[r w''] ev']. simpl in *. intros ->. by apply Hf.
Qed.

Lemma traced_conseq {A} (m : M OS A) (P Q : A → list event → Prop) :
  traced m P → (∀ a ev, P a ev → Q a ev) → traced m Q.
Proof. intros Hm HPQ w a Ha. auto. Qed.

Lemma traced_ret {A} (a : A) (Q : A → list event → Prop) : Q a [] → traced (mret a) Q.
Proof. by intros Hq w b [= <-]. Qed.

Lemma traced_emit e (Q : () → list event → Prop) : Q () [e] → traced (emit e) Q.
Proof. by intros Hq w [] _. Qed.

Lemma traced_sys {A} (f : OS → A * OS) : traced (sys f) (λ _ ev, ev = []).
Proof. intros w a. unfold result, trace, sys. by destruct (f w). Qed.

Lemma traced_panic {A} (Q : A → list event → Prop) : traced (lift Panic) Q.
Proof. by intros w a. Qed.

Lemma traced_fail {A} e (Q : A → list event → Prop) : traced (lift (Fail e)) Q.
Proof. by intros w a. Qed.
End traced.
