(* ===== verification/GoStrings.v ===== *)
(** * The parts of Go's [strings], [strconv] and [encoding/hex] the code uses

    A Go string is a sequence of bytes: [string] with one [ascii] per byte.
    Every function is exact on the ASCII strings for which the Go library has
    its byte-wise fast path; on a string with a byte above 127 the library
    consults the [unicode] tables, which are the operations of [Unicode]. *)

From stdpp Require Import base list strings.
From Stdlib Require Import ZArith Lia Ascii.
From Stdlib Require String.
From S2P Require Import Prelude.

(** The [unicode]-table paths of package [strings], and [strconv.Quote] (the
    verb [%q]), which consults the same tables. *)
Class Unicode := {
  unicode_ToUpper : string → string;
  unicode_ToLower : string → string;
  unicode_TrimSpace : string → string;
  unicode_EqualFold : string → string → bool;
  unicode_Fields : string → list string;
  strconv_Quote : string → string;
}.

(** ** Bytes of a string *)

Definition newline : ascii := "010"%char.

Definition code (c : ascii) : Z := Z.of_N (N_of_ascii c).
Definition byte_in (lo hi : Z) (c : ascii) : bool := (lo <=? code c)%Z && (code c <=? hi)%Z.

Definition is_ascii_byte (c : ascii) : bool := (code c <? 128)%Z.
Definition is_lower (c : ascii) : bool := byte_in 97 122 c.
Definition is_upper (c : ascii) : bool := byte_in 65 90 c.
Definition upper_byte (c : ascii) : ascii :=
  if is_lower c then ascii_of_N (N_of_ascii c - 32) else c.
Definition lower_byte (c : ascii) : ascii :=
  if is_upper c then ascii_of_N (N_of_ascii c + 32) else c.

Fixpoint string_forall (p : ascii → bool) (s : string) : bool :=
  match s with
  | EmptyString => true
  | String c s => p c && string_forall p s
  end.

Fixpoint string_map (f : ascii → ascii) (s : string) : string :=
  match s with
  | EmptyString => EmptyString
  | String c s => String (f c) (string_map f s)
  end.

Fixpoint string_filter (p : ascii → bool) (s : string) : string :=
  match s with
  | EmptyString => EmptyString
  | String c s => if p c then String c (string_filter p s) else string_filter p s
  end.

Definition is_ascii : string → bool := string_forall is_ascii_byte.

Fixpoint trim_left (s : string) : string :=
  match s with
  | String c s' => if Ascii.is_space c then trim_left s' else s
  | EmptyString => EmptyString
  end.

Fixpoint trim_right (s : string) : string :=
  match s with
  | EmptyString => EmptyString
  | String c s =>
      let r := trim_right s in
      if Ascii.is_space c && bool_decide (r = EmptyString) then EmptyString else String c r
  end.

(** [strings.ReplaceAll(s, string(c), "")] for a one-byte [c]. *)
Definition remove_byte (c : ascii) : string → string :=
  string_filter (λ d, negb (bool_decide (d = c))).

Section strings.
Context `{Unicode}.

Definition ToUpper (s : string) : string :=
  if is_ascii s then string_map upper_byte s else unicode_ToUpper s.
Definition ToLower (s : string) : string :=
  if is_ascii s then string_map lower_byte s else unicode_ToLower s.
Definition TrimSpace (s : string) : string :=
  if is_ascii s then trim_right (trim_left s) else unicode_TrimSpace s.
Definition EqualFold (s t : string) : bool :=
  if is_ascii s && is_ascii t
  then bool_decide (string_map lower_byte s = string_map lower_byte t)
  else unicode_EqualFold s t.
Definition Fields (s : string) : list string :=
  if is_ascii s then String.words s else unicode_Fields s.
End strings.

(** ** Substrings *)

Definition HasPrefix (s prefix : string) : bool := String.prefix prefix s.

Fixpoint string_drop (n : nat) (s : string) : string :=
  match n, s with
  | S n, String _ s => string_drop n s
  | _, _ => s
  end.
Fixpoint string_take (n : nat) (s : string) : string :=
  match n, s with
  | S n, String c s => String c (string_take n s)
  | _, _ => EmptyString
  end.

Definition HasSuffix (s suffix : string) : bool :=
  let d := (String.length s - String.length suffix)%nat in
  (String.length suffix <=? String.length s)%nat && bool_decide (string_drop d s = suffix).

Definition TrimPrefix (s prefix : string) : string :=
  if HasPrefix s prefix then string_drop (String.length prefix) s else s.
Definition TrimSuffix (s suffix : string) : string :=
  if HasSuffix s suffix
  then string_take (String.length s - String.length suffix) s else s.

Fixpoint Contains (s sub : string) : bool :=
  String.prefix sub s ||
  match s with EmptyString => false | String _ s => Contains s sub end.

(** [strings.Split(s, string(c))]. *)
Fixpoint Split (s : string) (c : ascii) : list string :=
  match s with
  | EmptyString => [EmptyString]
  | String d s =>
      if decide (d = c) then EmptyString :: Split s c
      else match Split s c with
           | w :: ws => String d w :: ws
           | [] => [String d EmptyString]
           end
  end.

Definition Join (l : list string) (sep : string) : string := String.concat sep l.

(** [strings.IndexByte] and [strings.LastIndexByte]; [None] is -1. *)
Fixpoint IndexByte (s : string) (c : ascii) : option nat :=
  match s with
  | EmptyString => None
  | String d s => if decide (d = c) then Some 0%nat else S <$> IndexByte s c
  end.
Fixpoint LastIndexByte (s : string) (c : ascii) : option nat :=
  match s with
  | EmptyString => None
  | String d s =>
      match LastIndexByte s c with
      | Some i => Some (S i)
      | None => if decide (d = c) then Some 0%nat else None
      end
  end.

(** [[]byte(s)] and [string(b)]. *)
Fixpoint bytes_of_string (s : string) : list Z :=
  match s with
  | EmptyString => []
  | String c s => code c :: bytes_of_string s
  end.
Fixpoint string_of_bytes (l : list Z) : string :=
  match l with
  | [] => EmptyString
  | b :: l => String (ascii_of_N (Z.to_N b)) (string_of_bytes l)
  end.

(** ** [encoding/hex] and [strconv] *)

Definition hex_digit (n : Z) : ascii :=
  let n := (n `mod` 16)%Z in
  ascii_of_N (Z.to_N (if (n <? 10)%Z then 48 + n else 87 + n)%Z).

Fixpoint hex_EncodeToString (l : list Z) : string :=
  match l with
  | [] => EmptyString
  | b :: l => String (hex_digit (b / 16)%Z) (String (hex_digit b) (hex_EncodeToString l))
  end.

(** Decimal digits of a non-negative integer below [10 ^ fuel]. *)
Fixpoint itoa_go (fuel : nat) (n : Z) (acc : string) : string :=
  match fuel with
  | O => acc
  | S fuel =>
      let acc := String (ascii_of_N (Z.to_N (48 + n `mod` 10)%Z)) acc in
      if (n <? 10)%Z then acc else itoa_go fuel (n / 10)%Z acc
  end.
(** [strconv.Itoa] of a 64-bit integer: 20 digits are enough. *)
Definition Itoa (n : Z) : string :=
  if (n <? 0)%Z then String "-" (itoa_go 20 (- n) "") else itoa_go 20 n "".

(** ** Lemmas *)

(** Prove a fact about one byte by running through the 256 of them. *)
Ltac byte_cases c := destruct c as [[] [] [] [] [] [] [] []]; vm_compute; try done.

Section string_lemmas.
Implicit Types (p q : ascii → bool) (f g : ascii → ascii) (s t : string).

Lemma string_forall_filter p q s :
  string_forall p s = true → string_forall p (string_filter q s) = true.
Proof.
  induction s as [|c s IH]; simpl; [done|]. intros [Hc Hs]%andb_prop.
  destruct (q c); simpl; rewrite ?Hc; auto.
Qed.

Lemma string_forall_filter_self p s : string_forall p (string_filter p s) = true.
Proof.
  induction s as [|c s IH]; simpl; [done|].
  destruct (p c) eqn:E; simpl; rewrite ?E; auto.
Qed.

Lemma string_forall_impl p q s :
  (∀ c, p c = true → q c = true) → string_forall p s = true → string_forall q s = true.
Proof.
  intros Hpq. induction s as [|c s IH]; simpl; [done|].
  intros [Hc Hs]%andb_prop. by rewrite (Hpq _ Hc), IH.
Qed.

Lemma string_forall_map p f s :
  string_forall p (string_map f s) = string_forall (λ c, p (f c)) s.
Proof. induction s as [|c s IH]; simpl; [done|]. by rewrite IH. Qed.

Lemma string_forall_app p s t :
  string_forall p (s +:+ t) = string_forall p s && string_forall p t.
Proof.
  induction s as [|c s IH]; [done|].
  change (String c s +:+ t) with (String c (s +:+ t)). simpl. by rewrite IH, andb_assoc.
Qed.

Lemma string_map_ext p f g s :
  (∀ c, p c = true → f c = g c) → string_forall p s = true →
  string_map f s = string_map g s.
Proof.
  intros Hfg. induction s as [|c s IH]; simpl; [done|].
  intros [Hc Hs]%andb_prop. by rewrite (Hfg _ Hc), IH.
Qed.

Lemma string_map_id s : string_map id s = s.
Proof. induction s as [|c s IH]; simpl; [done|]. by rewrite IH. Qed.

Lemma string_filter_map p f s :
  (∀ c, p (f c) = p c) →
  string_filter p (string_map f s) = string_map f (string_filter p s).
Proof.
  intros Hp. induction s as [|c s IH]; simpl; [done|].
  rewrite Hp. destruct (p c); simpl; by rewrite IH.
Qed.

Lemma string_filter_filter p q s :
  string_filter p (string_filter q s) = string_filter (λ c, q c && p c) s.
Proof.
  induction s as [|c s IH]; simpl; [done|].
  destruct (q c); simpl; [destruct (p c)|]; by rewrite IH.
Qed.

Lemma string_filter_ext p q s :
  (∀ c, p c = q c) → string_filter p s = string_filter q s.
Proof.
  intros Hpq. induction s as [|c s IH]; simpl; [done|]. by rewrite Hpq, IH.
Qed.

Lemma string_filter_id p s : string_forall p s = true → string_filter p s = s.
Proof.
  induction s as [|c s IH]; simpl; [done|].
  intros [Hc Hs]%andb_prop. by rewrite Hc, IH.
Qed.

Lemma trim_left_forall p s :
  string_forall p s = true → string_forall p (trim_left s) = true.
Proof.
  induction s as [|c s IH]; simpl; [done|]. intros [Hc Hs]%andb_prop.
  destruct (Ascii.is_space c); simpl; rewrite ?Hc; auto.
Qed.

(** Trimming removes only bytes that a filter dropping all the white space
    of the string removes anyway. *)
Lemma string_filter_trim_left p s :
  string_forall (λ c, negb (Ascii.is_space c) || negb (p c)) s = true →
  string_filter p (trim_left s) = string_filter p s.
Proof.
  induction s as [|c s IH]; simpl; [done|]. intros [Hc Hs]%andb_prop.
  destruct (Ascii.is_space c); simpl in *; [|done].
  rewrite (IH Hs). by destruct (p c).
Qed.

Lemma string_filter_trim_right p s :
  string_forall (λ c, negb (Ascii.is_space c) || negb (p c)) s = true →
  string_filter p (trim_right s) = string_filter p s.
Proof.
  induction s as [|c s IH]; simpl; [done|]. intros [Hc Hs]%andb_prop.
  rewrite <- (IH Hs). destruct (Ascii.is_space c); simpl in *; [|done].
  case_bool_decide as Hr; [rewrite Hr|done]. by destruct (p c).
Qed.

Lemma trim_right_forall p s :
  string_forall p s = true → string_forall p (trim_right s) = true.
Proof.
  induction s as [|c s IH]; simpl; [done|]. intros [Hc Hs]%andb_prop.
  destruct (_ && _); simpl; [done|]. by rewrite Hc, IH.
Qed.

Lemma prefix_empty s : HasPrefix s "" = true.
Proof. by destruct s. Qed.

Lemma prefix_head c d s t : c ≠ d → HasPrefix (String c s) (String d t) = false.
Proof. intros Hcd. unfold HasPrefix. cbn [String.prefix]. by destruct (ascii_dec d c). Qed.

Lemma prefix_refl s : HasPrefix s s = true.
Proof.
  unfold HasPrefix. induction s as [|c s IH]; simpl; [done|].
  destruct (ascii_dec c c); [done|congruence].
Qed.
End string_lemmas.

(** *** Case mapping of single bytes *)

Lemma upper_byte_idemp c : upper_byte (upper_byte c) = upper_byte c.
Proof. byte_cases c. Qed.

Lemma upper_byte_not_lower c : is_lower (upper_byte c) = false.
Proof. byte_cases c. Qed.

Lemma upper_byte_ascii c : is_ascii_byte (upper_byte c) = is_ascii_byte c.
Proof. byte_cases c. Qed.

Lemma upper_hex_digit_not_lower n : is_lower (upper_byte (hex_digit n)) = false.
Proof. apply upper_byte_not_lower. Qed.

Lemma hex_digit_cases (P : ascii → Prop) n :
  (∀ m, (0 ≤ m < 16)%Z → P (hex_digit m)) → P (hex_digit n).
Proof.
  intros HP. replace (hex_digit n) with (hex_digit (n `mod` 16)%Z).
  - apply HP, Z.mod_pos_bound. lia.
  - unfold hex_digit. by rewrite Z.mod_mod by lia.
Qed.

(** The bytes [0-9a-fA-F]. *)
Definition is_hex_byte (c : ascii) : bool :=
  byte_in 48 57 c || byte_in 97 102 c || byte_in 65 70 c.

Lemma hex_digit_is_hex n : is_hex_byte (hex_digit n) = true.
Proof.
  apply (hex_digit_cases (λ c, is_hex_byte c = true)). intros m Hm.
  assert (m = 0 ∨ m = 1 ∨ m = 2 ∨ m = 3 ∨ m = 4 ∨ m = 5 ∨ m = 6 ∨ m = 7 ∨ m = 8 ∨ m = 9 ∨
    m = 10 ∨ m = 11 ∨ m = 12 ∨ m = 13 ∨ m = 14 ∨ m = 15)%Z as Hcases by lia.
  by repeat destruct Hcases as [->|Hcases]; subst; vm_compute.
Qed.

Lemma hex_EncodeToString_hex l : string_forall is_hex_byte (hex_EncodeToString l) = true.
Proof.
  induction l as [|b l IH]; simpl; [done|]. by rewrite !hex_digit_is_hex, IH.
Qed.

Lemma hex_EncodeToString_length l :
  String.length (hex_EncodeToString l) = (2 * length l)%nat.
Proof. induction l as [|b l IH]; simpl; [done|]. lia. Qed.

Lemma is_ascii_map_upper s : is_ascii (string_map upper_byte s) = is_ascii s.
Proof.
  unfold is_ascii. induction s as [|c s IH]; simpl; [done|]. by rewrite upper_byte_ascii, IH.
Qed.

(** *** Splitting, trimming and words *)

Section word_lemmas.
Implicit Types (s t : string) (l : list string).

Lemma append_cons c s t : String c s +:+ t = String c (s +:+ t).
Proof. done. Qed.

Lemma append_nil_r s : s +:+ "" = s.
Proof. induction s as [|c s IH]; [done|]. by rewrite append_cons, IH. Qed.

Lemma Join_cons s t l sep : Join (s :: t :: l) sep = s +:+ sep +:+ Join (t :: l) sep.
Proof. done. Qed.

Lemma Split_no_sep s c :
  string_forall (λ d, negb (bool_decide (d = c))) s = true → Split s c = [s].
Proof.
  induction s as [|d s IH]; simpl; [done|]. intros [Hd Hs]%andb_prop.
  destruct (decide (d = c)) as [->|]; [by rewrite bool_decide_eq_true_2 in Hd|]. by rewrite IH.
Qed.

Lemma Split_app s c t :
  string_forall (λ d, negb (bool_decide (d = c))) s = true →
  Split (s +:+ String c t) c = s :: Split t c.
Proof.
  induction s as [|d s IH]; intros Hs.
  - simpl. by destruct (decide (c = c)).
  - simpl in Hs. apply andb_prop in Hs as [Hd Hs]. rewrite append_cons. simpl.
    destruct (decide (d = c)) as [->|]; [by rewrite bool_decide_eq_true_2 in Hd|]. by rewrite IH.
Qed.

(** [strings.Split(strings.Join(l, c), c)] is [l]. *)
Lemma Split_Join l c :
  l ≠ [] → Forall (λ s, string_forall (λ d, negb (bool_decide (d = c))) s = true) l →
  Split (Join l (String c "")) c = l.
Proof.
  intros Hl Hall. destruct l as [|s l]; [done|]. clear Hl. revert s Hall.
  induction l as [|t l IH]; intros s [Hs Hall]%Forall_cons.
  - by apply Split_no_sep.
  - rewrite Join_cons. change (String c "" +:+ Join (t :: l) (String c "")) with
      (String c (Join (t :: l) (String c ""))). by rewrite Split_app, IH.
Qed.

(** A non-empty string of ASCII bytes none of which is white space. *)
Definition is_word s : Prop :=
  s ≠ "" ∧ string_forall (λ c, is_ascii_byte c && negb (Ascii.is_space c)) s = true.
#[export] Instance is_word_dec s : Decision (is_word s).
Proof. unfold is_word. apply _. Defined.

Lemma trim_right_app s t : trim_right t ≠ "" → trim_right (s +:+ t) = s +:+ trim_right t.
Proof.
  intros Ht. induction s as [|c s IH]; [done|]. rewrite append_cons. simpl. rewrite IH.
  rewrite bool_decide_eq_false_2; [by rewrite andb_false_r|]. by destruct s.
Qed.

Lemma trim_right_word s : is_word s → trim_right s = s.
Proof.
  intros [_ Hs]. induction s as [|c s IH]; [done|]. simpl in *.
  apply andb_prop in Hs as [[_ Hc]%andb_prop Hs]. rewrite (IH Hs).
  by destruct (Ascii.is_space c).
Qed.

Lemma trim_left_word s t : is_word s → trim_left (s +:+ t) = s +:+ t.
Proof.
  intros [Hne Hs]. destruct s as [|c s]; [done|]. simpl in Hs. rewrite append_cons. simpl.
  apply andb_prop in Hs as [[_ Hc]%andb_prop _]. by destruct (Ascii.is_space c).
Qed.

Lemma Join_word_ne s l : is_word s → Join (s :: l) " " ≠ "".
Proof. intros [Hne _]. destruct s; [done|]. by destruct l. Qed.

Lemma trim_right_Join s l :
  is_word s → Forall is_word l → trim_right (Join (s :: l) " ") = Join (s :: l) " ".
Proof.
  intros Hs Hl. revert s Hs. induction Hl as [|t l Ht _ IH]; intros s Hs.
  - by apply trim_right_word.
  - rewrite Join_cons. assert (trim_right (" " +:+ Join (t :: l) " ") = " " +:+ Join (t :: l) " ") as Ha.
    { rewrite trim_right_app; rewrite IH by done; [done|by apply Join_word_ne]. }
    rewrite trim_right_app; rewrite Ha; done.
Qed.

Lemma trim_Join s l :
  is_word s → Forall is_word l → trim_right (trim_left (Join (s :: l) " ")) = Join (s :: l) " ".
Proof.
  intros Hs Hl. assert (trim_left (Join (s :: l) " ") = Join (s :: l) " ") as ->.
  { destruct l as [|t l]; [|rewrite Join_cons; by apply trim_left_word].
    rewrite <- (append_nil_r (Join [s] " ")). by apply (trim_left_word s ""). }
  by apply trim_right_Join.
Qed.

Lemma is_ascii_Join s l : is_word s → Forall is_word l → is_ascii (Join (s :: l) " ") = true.
Proof.
  assert (∀ s, is_word s → is_ascii s = true) as Hw.
  { intros t [_ Ht]. revert Ht. apply string_forall_impl. by intros c [? _]%andb_prop. }
  intros Hs Hl. revert s Hs. induction Hl as [|t l Ht _ IH]; intros s Hs; [by apply Hw|].
  rewrite Join_cons. pose proof (IH t Ht) as Hj. pose proof (Hw s Hs) as Hs'.
  unfold is_ascii in *. by rewrite !string_forall_app, Hj, Hs'.
Qed.

Lemma rev_app_rev_app s t u :
  String.rev_app (String.rev_app s t) u = String.rev_app t (s +:+ u).
Proof. revert t u. induction s as [|c s IH]; intros t u; [done|]. simpl. by rewrite IH. Qed.

Lemma words_go_app cur s t :
  string_forall (λ c, negb (Ascii.is_space c)) s = true →
  String.words_go (Some cur) (s +:+ t) = String.words_go (Some (String.rev_app s cur)) t.
Proof.
  revert cur. induction s as [|c s IH]; intros cur; [done|]. rewrite append_cons. simpl.
  intros [Hc Hs]%andb_prop. destruct (Ascii.is_space c); [done|]. by rewrite IH.
Qed.

Lemma words_app s t :
  is_word s → String.words_go None (s +:+ t) = String.words_go (Some (String.rev_app s "")) t.
Proof.
  intros [Hne Hs]. destruct s as [|c s]; [done|]. rewrite append_cons. simpl in *.
  apply andb_prop in Hs as [[_ Hc]%andb_prop Hs]. destruct (Ascii.is_space c); [done|].
  rewrite words_go_app; [done|]. revert Hs. apply string_forall_impl. by intros d [_ ?]%andb_prop.
Qed.

Lemma rev_rev_app s : String.rev (String.rev_app s "") = s.
Proof. unfold String.rev. rewrite rev_app_rev_app. simpl. apply append_nil_r. Qed.

(** [strings.Fields(strings.Join(l, c))] is [l], for words. *)
Lemma words_Join s l :
  is_word s → Forall is_word l → String.words (Join (s :: l) " ") = s :: l.
Proof.
  intros Hs Hl. unfold String.words. revert s Hs.
  induction Hl as [|t l Ht _ IH]; intros s Hs.
  - change (Join [s] " ") with s. rewrite <- (append_nil_r s) at 1.
    rewrite words_app by done. simpl. by rewrite rev_rev_app.
  - rewrite Join_cons, words_app by done.
    change (" " +:+ Join (t :: l) " ") with (String " " (Join (t :: l) " ")). simpl.
    rewrite rev_rev_app. f_equal. by apply IH.
Qed.
End word_lemmas.

#[export] Hint Resolve string_forall_filter string_forall_filter_self trim_left_forall
  trim_right_forall prefix_empty prefix_refl hex_EncodeToString_hex : golib.

(** *** Bytes and strings *)

Lemma string_of_bytes_of_string s : string_of_bytes (bytes_of_string s) = s.
Proof.
  induction s as [|c s IH]; [done|]. simpl. rewrite IH. unfold code.
  by rewrite N2Z.id, ascii_N_embedding.
Qed.
