(* ===== verification/CMem.v ===== *)
(** * C memory as the cgo bridges see it

    What crosses the C boundary: C strings and byte buffers, which a bridge
    reads through a pointer, and the heap of [malloc] and [free].  A buffer is
    the bytes from its pointer to the end of its object, so that reading or
    writing past the end, freeing what is not allocated, and Go's own bounds
    panics are all [Panic]: the process does not survive them in a defined
    way. *)

From stdpp Require Import base list gmap strings.
From Stdlib Require Import ZArith Lia Ascii.
From S2P Require Import Prelude GoStrings.

(** ** Reading *)

(** [C.GoString(p)]: the bytes before the first NUL. *)
Fixpoint GoString (p : list Z) : outcome string :=
  match p with
  | [] => Panic
  | b :: p =>
      if (b =? 0)%Z then Ret "" else s ← GoString p; Ret (String (ascii_of_N (Z.to_N b)) s)
  end.

(** [C.GoBytes(p, n)]. *)
Definition GoBytes (p : list Z) (n : Z) : outcome (list Z) :=
  if (n <? 0)%Z || (Z.of_nat (length p) <? n)%Z then Panic else Ret (take (Z.to_nat n) p).

(** [l[i]] for a signed index. *)
Definition go_index {A} (l : list A) (i : Z) : outcome A :=
  if (i <? 0)%Z then Panic
  else match l !! Z.to_nat i with Some x => Ret x | None => Panic end.

(** ** The heap *)

Record Heap := {
  blocks : gmap Z (list Z);
  next_block : Z;
}.

Definition NULL : Z := 0.
Definition init_Heap : Heap := {| blocks := ∅; next_block := 1 |}.

(** [C.malloc], which never fails in Go, of a block that is filled with
    [data]. *)
Definition alloc (data : list Z) (h : Heap) : Z * Heap :=
  (next_block h,
   {| blocks := <[next_block h := data]> (blocks h); next_block := next_block h + 1 |}).

(** [C.CString(s)]. *)
Definition CString (s : string) (h : Heap) : Z * Heap := alloc (bytes_of_string s ++ [0%Z]) h.

(** [C.malloc(len(data))] followed by the copy of [data] through a slice of an
    array of [2 ^ 30] bytes. *)
Definition malloc_copy (data : list Z) (h : Heap) : outcome (Z * Heap) :=
  if (2 ^ 30 <? Z.of_nat (length data))%Z then Panic else Ret (alloc data h).

(** [C.free(p)] of a pointer that is not null. *)
Definition free (p : Z) (h : Heap) : outcome Heap :=
  match blocks h !! p with
  | Some _ => Ret {| blocks := delete p (blocks h); next_block := next_block h |}
  | None => Panic
  end.

(** Blocks have addresses that were handed out. *)
Record heap_ok (h : Heap) : Prop := {
  heap_next : (NULL < next_block h)%Z;
  heap_range : ∀ p, is_Some (blocks h !! p) → (NULL < p < next_block h)%Z;
}.

(** ** Lemmas *)

Lemma init_Heap_ok : heap_ok init_Heap.
Proof. split; [done|]. simpl. intros p. rewrite lookup_empty. by intros [? ?]. Qed.

Lemma heap_fresh h : heap_ok h → blocks h !! next_block h = None.
Proof.
  intros Hh. destruct (blocks h !! next_block h) as [d|] eqn:E; [|done].
  pose proof (heap_range h Hh (next_block h)) as Hr. rewrite E in Hr.
  destruct (Hr ltac:(eauto)); lia.
Qed.

Lemma malloc_copy_Ret data h p h' :
  malloc_copy data h = Ret (p, h') →
  p = next_block h ∧ blocks h' = <[p := data]> (blocks h) ∧ next_block h' = (next_block h + 1)%Z.
Proof. unfold malloc_copy. destruct (_ <? _)%Z; [done|]. by intros [= <- <-]. Qed.

Lemma malloc_copy_ok data h p h' :
  heap_ok h → malloc_copy data h = Ret (p, h') → heap_ok h' ∧ (NULL < p)%Z ∧ blocks h !! p = None.
Proof.
  intros Hh (-> & Hb & Hn)%malloc_copy_Ret. pose proof (heap_next h Hh).
  split; [|split; [done|by apply heap_fresh]]. split; [lia|]. intros q. rewrite Hb.
  intros [<-|[_ Hq]]%lookup_insert_is_Some; [lia|]. pose proof (heap_range h Hh q Hq). lia.
Qed.

Lemma malloc_copy_small data h :
  (Z.of_nat (length data) ≤ 2 ^ 30)%Z → ∃ p h', malloc_copy data h = Ret (p, h').
Proof. intros Hl. unfold malloc_copy, alloc. destruct (Z.ltb_spec (2 ^ 30) (Z.of_nat (length data))); [lia|eauto]. Qed.

Lemma free_live p h d :
  blocks h !! p = Some d →
  free p h = Ret {| blocks := delete p (blocks h); next_block := next_block h |}.
Proof. unfold free. by intros ->. Qed.

Lemma free_ok p h h' : heap_ok h → free p h = Ret h' → heap_ok h'.
Proof.
  intros Hh. unfold free. destruct (blocks h !! p) as [d|]; [|done]. intros [= <-].
  split; [apply (heap_next h Hh)|]. simpl. intros q [_ Hq]%lookup_delete_is_Some.
  by apply (heap_range h Hh).
Qed.

Lemma go_index_Ret {A} (l : list A) i x :
  go_index l i = Ret x ↔ (0 ≤ i)%Z ∧ l !! Z.to_nat i = Some x.
Proof.
  unfold go_index. destruct (Z.ltb_spec i 0).
  - split; [done|]. intros [? _]. lia.
  - destruct (l !! Z.to_nat i); naive_solver.
Qed.

(** A C string read back: what was written before the NUL. *)
Lemma GoString_bytes s rest :
  string_forall (λ c, negb (bool_decide (c = Ascii.zero))) s = true →
  GoString (bytes_of_string s ++ 0%Z :: rest) = Ret s.
Proof.
  induction s as [|c s IH]; [done|]. simpl. intros [Hc Hs]%andb_prop.
  apply negb_true_iff, bool_decide_eq_false in Hc.
  destruct (Z.eqb_spec (code c) 0) as [Hz|_].
  - destruct Hc. unfold code in Hz. rewrite <- (ascii_N_embedding c).
    assert (N_of_ascii c = 0%N) as -> by lia. done.
  - rewrite (IH Hs). simpl. unfold code. by rewrite N2Z.id, ascii_N_embedding.
Qed.
