(* ===== verification/GoNet.v ===== *)
(** * The parts of Go's [net] package the code uses

    IP addresses and masks as byte slices, and the textual forms of addresses.
    The functions are exact; only the text of an IPv6 address that is not an
    IPv4 one in disguise is left to the class [NetText]. *)

From stdpp Require Import base list strings.
From Stdlib Require Import ZArith Lia Ascii.
From S2P Require Import Prelude GoStrings.

(** ** IP addresses *)

(** [net.IP] and [net.IPMask]: a byte slice, [None] for nil. *)
Definition IP : Type := option (list Z).
Definition IPMask : Type := list Z.

Class NetText := { ipv6_String : list Z → string }.

Definition ip_bytes (ip : IP) : list Z := default [] ip.

(** The prefix of an IPv4 address in its 16-byte form. *)
Definition v4InV6Prefix : list Z := [0; 0; 0; 0; 0; 0; 0; 0; 0; 0; 255; 255]%Z.

(** [ip.To4()]. *)
Definition To4 (ip : IP) : IP :=
  let b := ip_bytes ip in
  if (length b =? 4)%nat then Some b
  else if (length b =? 16)%nat && bool_decide (take 12 b = v4InV6Prefix) then Some (drop 12 b)
  else None.

(** [ip.IsLoopback()]. *)
Definition IsLoopback (ip : IP) : bool :=
  match To4 ip with
  | Some b => bool_decide (head b = Some 127%Z)
  | None => bool_decide (ip_bytes ip = replicate 15 0%Z ++ [1%Z])
  end.

Definition IPv4bcast : IP := Some (v4InV6Prefix ++ [255; 255; 255; 255])%Z.

(** [strconv] of one byte of a dotted address. *)
Definition dotted (b : list Z) : string := Join (Itoa <$> b) ".".

(** [ip.String()]. *)
Definition IP_String `{NetText} (ip : IP) : string :=
  let b := ip_bytes ip in
  match To4 ip with
  | Some b4 => dotted b4
  | None =>
      if (length b =? 0)%nat then "<nil>"
      else if (length b =? 16)%nat then ipv6_String b
      else "?" +:+ hex_EncodeToString b
  end.

(** ** [net.Addr] *)

Record UDPAddr := { udp_IP : IP; udp_Port : Z }.
Record IPNet := { net_IP : IP; net_Mask : IPMask }.

(** The dynamic types of a [net.Addr] the code tells apart. *)
Inductive Addr :=
  | AddrUDP (a : UDPAddr)
  | AddrIPNet (n : IPNet)
  | AddrOther.

(** ** Host and port *)

Definition has_byte (c : ascii) (s : string) : bool := bool_decide (is_Some (IndexByte s c)).

(** [net.SplitHostPort]. *)
Definition SplitHostPort (hostport : string) : outcome (string * string) :=
  let addrErr (why : string) := Fail (ErrNew ("address " +:+ hostport +:+ ": " +:+ why)) in
  let missingPort := addrErr "missing port in address" in
  let tooManyColons := addrErr "too many colons in address" in
  match LastIndexByte hostport ":" with
  | None =>
      if bool_decide (hostport = "") then Fail (ErrNew "missing port in address") else missingPort
  | Some i =>
      let rest (j k : nat) (host : string) :=
        if has_byte "[" (string_drop j hostport) then addrErr "unexpected '[' in address"
        else if has_byte "]" (string_drop k hostport) then addrErr "unexpected ']' in address"
        else Ret (host, string_drop (S i) hostport) in
      if HasPrefix hostport "[" then
        match IndexByte hostport "]" with
        | None => addrErr "missing ']' in address"
        | Some fin =>
            if (S fin =? String.length hostport)%nat then missingPort
            else if (S fin =? i)%nat then
              rest 1%nat (S fin) (string_take (fin - 1) (string_drop 1 hostport))
            else if HasPrefix (string_drop (S fin) hostport) ":" then tooManyColons
            else missingPort
        end
      else
        let host := string_take i hostport in
        if has_byte ":" host then tooManyColons else rest 0%nat 0%nat host
  end.

(** [net.JoinHostPort]. *)
Definition JoinHostPort (host port : string) : string :=
  if has_byte ":" host then "[" +:+ host +:+ "]:" +:+ port else host +:+ ":" +:+ port.

(** [UDPAddr.String], without a zone. *)
Definition UDPAddr_String `{NetText} (a : UDPAddr) : string :=
  JoinHostPort (if (length (ip_bytes (udp_IP a)) =? 0)%nat then "" else IP_String (udp_IP a))
    (Itoa (udp_Port a)).

(** ** Lemmas *)

Lemma To4_length ip b : To4 ip = Some b → length b = 4%nat.
Proof.
  unfold To4. destruct (Nat.eqb_spec (length (ip_bytes ip)) 4); [by intros [= <-]|].
  destruct (Nat.eqb_spec (length (ip_bytes ip)) 16); simpl; [|done].
  case_bool_decide; [|done]. intros [= <-]. rewrite length_drop. lia.
Qed.

Lemma To4_4 b : length b = 4%nat → To4 (Some b) = Some b.
Proof. intros Hb. unfold To4. simpl. by rewrite Hb. Qed.

Lemma To4_idemp ip : To4 (To4 ip) = To4 ip.
Proof. destruct (To4 ip) as [b|] eqn:E; [|done]. by apply To4_4, (To4_length ip). Qed.

Lemma To4_bytes ip b : To4 ip = Some b → Forall is_byte (ip_bytes ip) → Forall is_byte b.
Proof.
  unfold To4. destruct (_ =? 4)%nat; [by intros [= <-]|].
  destruct (_ && _); [|done]. intros [= <-]. apply Forall_drop.
Qed.

(** A 4-byte address as the 32-bit number it stands for. *)
Definition be32 (b : list Z) : Z := be_value b.

Section split_host_port.
Implicit Types (s t host port : string) (c : ascii).

Definition no_byte c s : Prop := has_byte c s = false.

Lemma has_byte_cons c d s : has_byte c (String d s) = bool_decide (d = c) || has_byte c s.
Proof.
  unfold has_byte. simpl. destruct (decide (d = c)) as [->|Hd].
  - by rewrite (bool_decide_eq_true_2 (c = c)).
  - rewrite (bool_decide_eq_false_2 (d = c)) by done. by destruct (IndexByte s c).
Qed.

Lemma has_byte_nil c : has_byte c "" = false.
Proof. done. Qed.

Lemma has_byte_app c s t : has_byte c (s +:+ t) = has_byte c s || has_byte c t.
Proof.
  induction s as [|d s IH]; [done|]. by rewrite append_cons, !has_byte_cons, IH, orb_assoc.
Qed.

Lemma string_drop_app s t : string_drop (String.length s) (s +:+ t) = t.
Proof. induction s as [|c s IH]; [by destruct t|]. apply IH. Qed.

Lemma string_take_app s t : string_take (String.length s) (s +:+ t) = s.
Proof.
  induction s as [|c s IH]; [by destruct t|]. rewrite append_cons. simpl. by rewrite IH.
Qed.

Lemma LastIndexByte_none c s : no_byte c s → LastIndexByte s c = None.
Proof.
  unfold no_byte. induction s as [|d s IH]; [done|]. rewrite has_byte_cons. intros Hs.
  apply orb_false_elim in Hs as [Hd Hs]. simpl. rewrite IH by done.
  destruct (decide (d = c)); [by rewrite bool_decide_eq_true_2 in Hd|done].
Qed.

Lemma LastIndexByte_app c s t :
  no_byte c t → LastIndexByte (s +:+ String c t) c = Some (String.length s).
Proof.
  intros Ht. induction s as [|d s IH].
  - simpl. rewrite LastIndexByte_none by done. by destruct (decide (c = c)).
  - rewrite append_cons. simpl. by rewrite IH.
Qed.

Lemma IndexByte_app c s t :
  no_byte c s → IndexByte (s +:+ String c t) c = Some (String.length s).
Proof.
  unfold no_byte. induction s as [|d s IH]; intros Hs.
  - simpl. by destruct (decide (c = c)).
  - rewrite has_byte_cons in Hs. apply orb_false_elim in Hs as [Hd Hs].
    rewrite append_cons. simpl. rewrite IH by done.
    destruct (decide (d = c)); [by rewrite bool_decide_eq_true_2 in Hd|done].
Qed.

Lemma append_assoc s t u : (s +:+ t) +:+ u = s +:+ (t +:+ u).
Proof. induction s as [|c s IH]; [done|]. by rewrite !append_cons, IH. Qed.

Lemma length_append s t : String.length (s +:+ t) = (String.length s + String.length t)%nat.
Proof. induction s as [|c s IH]; [done|]. rewrite append_cons. simpl. by rewrite IH. Qed.

(** A host and a port as they appear in an address. *)
Definition plain_host host : Prop := no_byte "[" host ∧ no_byte "]" host.
Definition plain_port port : Prop := no_byte ":" port ∧ no_byte "[" port ∧ no_byte "]" port.

Lemma SplitHostPort_plain host port :
  no_byte ":" host → plain_host host → plain_port port →
  SplitHostPort (host +:+ ":" +:+ port) = Ret (host, port).
Proof.
  intros Hc [Hl Hr] (Pc & Pl & Pr). unfold no_byte in Hc, Hl, Hr, Pl, Pr. unfold SplitHostPort.
  change (":" +:+ port) with (String ":" port). rewrite LastIndexByte_app by done.
  assert (HasPrefix (host +:+ String ":" port) "[" = false) as ->.
  { destruct host as [|d host]; [by apply prefix_head|].
    rewrite has_byte_cons in Hl. apply orb_false_elim in Hl as [Hd%bool_decide_eq_false_1 _].
    rewrite append_cons. by apply prefix_head. }
  rewrite string_take_app, Hc.
  change (string_drop 0 ?x) with x.
  rewrite !has_byte_app, !has_byte_cons, Hl, Hr, Pl, Pr. cbn [orb]. f_equal. f_equal.
  change (string_drop (S (String.length host)) (host +:+ (":" +:+ port)) = port).
  rewrite <- append_assoc.
  replace (S (String.length host)) with (String.length (host +:+ ":")) by
    (rewrite length_append; simpl; lia). apply string_drop_app.
Qed.

Lemma SplitHostPort_bracketed host port :
  plain_host host → plain_port port →
  SplitHostPort ("[" +:+ host +:+ "]:" +:+ port) = Ret (host, port).
Proof.
  intros [Hl Hr] (Pc & Pl & Pr). unfold no_byte in Hl, Hr, Pl, Pr. unfold SplitHostPort.
  set (s := "[" +:+ host +:+ "]:" +:+ port).
  assert (s = ("[" +:+ host +:+ "]") +:+ String ":" port) as Hs.
  { subst s. by rewrite !append_assoc. }
  assert (s = ("[" +:+ host) +:+ String "]" (":" +:+ port)) as Hs'.
  { subst s. by rewrite !append_assoc. }
  rewrite Hs at 1. rewrite LastIndexByte_app by done.
  assert (HasPrefix s "[" = true) as -> by (unfold HasPrefix; simpl; by destruct host).
  rewrite Hs' at 1. rewrite IndexByte_app by (unfold no_byte; by rewrite has_byte_app, Hr).
  assert (String.length ("[" +:+ host +:+ "]") = S (String.length ("[" +:+ host))) as Hlen.
  { rewrite !length_append. simpl. lia. }
  assert (String.length s = (S (S (String.length ("[" +:+ host))) + String.length port)%nat) as Hlen'.
  { rewrite Hs, length_append, Hlen. simpl. lia. }
  rewrite Hlen, Nat.eqb_refl.
  destruct (Nat.eqb_spec (S (String.length ("[" +:+ host))) (String.length s)); [lia|].
  assert (has_byte "[" (string_drop 1 s) = false) as ->.
  { change (string_drop 1 s) with (string_drop 0 (host +:+ "]:" +:+ port)). simpl.
    by rewrite !has_byte_app, Hl, Pl. }
  assert (string_drop (S (String.length ("[" +:+ host))) s = String ":" port) as ->.
  { rewrite <- Hlen, Hs. apply string_drop_app. }
  rewrite has_byte_cons, Pr. cbn [orb].
  assert (String.length ("[" +:+ host) - 1 = String.length host)%nat as ->.
  { rewrite length_append. simpl. lia. }
  change (string_drop 1 s) with (host +:+ "]:" +:+ port). rewrite string_take_app.
  assert (string_drop (S (S (String.length ("[" +:+ host)))) s = port) as ->; [|done].
  assert (s = ("[" +:+ host +:+ "]:") +:+ port) as ->.
  { subst s. by rewrite !append_assoc. }
  replace (S (S (String.length ("[" +:+ host)))) with (String.length ("[" +:+ host +:+ "]:")) by
    (rewrite !length_append; simpl; lia). apply string_drop_app.
Qed.

(** [SplitHostPort] undoes [JoinHostPort]. *)
Lemma SplitHostPort_Join host port :
  plain_host host → plain_port port → SplitHostPort (JoinHostPort host port) = Ret (host, port).
Proof.
  intros Hh Hp. unfold JoinHostPort. destruct (has_byte ":" host) eqn:E;
    [by apply SplitHostPort_bracketed|by apply SplitHostPort_plain].
Qed.

Lemma no_byte_take c n s : no_byte c s → no_byte c (string_take n s).
Proof.
  unfold no_byte. revert s. induction n as [|n IH]; intros [|d s]; try done. simpl.
  rewrite !has_byte_cons. intros [Hd Hs]%orb_false_elim. by rewrite Hd, IH.
Qed.

Lemma no_byte_drop c n s : no_byte c s → no_byte c (string_drop n s).
Proof.
  unfold no_byte. revert s. induction n as [|n IH]; intros [|d s]; try done. simpl.
  rewrite has_byte_cons. intros [_ Hs]%orb_false_elim. by apply IH.
Qed.

Lemma string_drop_drop n m s : string_drop n (string_drop m s) = string_drop (m + n) s.
Proof.
  revert s. induction m as [|m IH]; intros s; [done|]. destruct s as [|c s]; simpl; [by destruct n|].
  apply IH.
Qed.

Lemma IndexByte_before c s i : IndexByte s c = Some i → no_byte c (string_take i s).
Proof.
  unfold no_byte. revert i. induction s as [|d s IH]; intros i; simpl; [done|].
  destruct (decide (d = c)) as [|Hd]; [by intros [= <-]|].
  destruct (IndexByte s c) as [j|]; simpl; [|done]. intros [= <-]. simpl.
  by rewrite has_byte_cons, bool_decide_eq_false_2, IH.
Qed.

Lemma LastIndexByte_none_iff c s : LastIndexByte s c = None ↔ no_byte c s.
Proof.
  split; [|apply LastIndexByte_none]. unfold no_byte.
  induction s as [|d s IH]; simpl; [done|]. destruct (LastIndexByte s c); [done|].
  destruct (decide (d = c)) as [|Hd]; [done|]. intros _.
  by rewrite has_byte_cons, bool_decide_eq_false_2, IH.
Qed.

Lemma LastIndexByte_after c s i : LastIndexByte s c = Some i → no_byte c (string_drop (S i) s).
Proof.
  revert i. induction s as [|d s IH]; intros i; simpl; [done|].
  destruct (LastIndexByte s c) as [j|] eqn:E.
  - intros [= <-]. by apply IH.
  - destruct (decide (d = c)); [|done]. intros [= <-]. simpl. by apply LastIndexByte_none_iff.
Qed.

(** Whatever [SplitHostPort] accepts, its parts are plain. *)
Lemma SplitHostPort_Ret hostport host port :
  SplitHostPort hostport = Ret (host, port) → plain_host host ∧ plain_port port.
Proof.
  unfold SplitHostPort. destruct (LastIndexByte hostport ":") as [i|] eqn:Hi; [|by case_bool_decide].
  pose proof (LastIndexByte_after _ _ _ Hi) as Hcolon. cbv zeta.
  destruct (HasPrefix hostport "[").
  - destruct (IndexByte hostport "]") as [fin|] eqn:Hf; [|done].
    destruct (S fin =? String.length hostport)%nat; [done|].
    destruct (Nat.eqb_spec (S fin) i) as [<-|]; [|by destruct (HasPrefix _ _)].
    destruct (has_byte "[" (string_drop 1 hostport)) eqn:Hl; [done|].
    destruct (has_byte "]" (string_drop (S fin) hostport)) eqn:Hr; [done|].
    intros [= <- <-]. pose proof (IndexByte_before _ _ _ Hf) as Hb. split; split.
    + by apply no_byte_take.
    + destruct hostport as [|d s]; [done|]. destruct fin as [|fin]; [by destruct s|].
      simpl in Hb |- *. rewrite Nat.sub_0_r. unfold no_byte in Hb. rewrite has_byte_cons in Hb.
      by apply orb_false_elim in Hb as [_ ?].
    + done.
    + change (no_byte "[" (string_drop (S (S fin)) hostport) ∧
              no_byte "]" (string_drop (S (S fin)) hostport)). split.
      * rewrite (eq_sym (string_drop_drop (S fin) 1 hostport) : string_drop (S (S fin)) _ = _).
        by apply no_byte_drop.
      * replace (S (S fin)) with (S fin + 1)%nat by lia. rewrite <- string_drop_drop.
        by apply no_byte_drop.
  - destruct (has_byte ":" _) eqn:Hc; [done|].
    change (string_drop 0 hostport) with hostport.
    destruct (has_byte "[" hostport) eqn:Hl; [done|]. destruct (has_byte "]" hostport) eqn:Hr; [done|].
    intros [= <- <-]. split; [split; by apply no_byte_take|]. split; [done|].
    split; by apply (no_byte_drop _ (S i)).
Qed.
End split_host_port.
