(* ===== verification/GoText.v ===== *)
(** * More of Go's text packages

    [strconv.Atoi], [encoding/hex] decoding, [encoding/base64] encoding,
    [net.ParseIP], and of package [time] the format and the arithmetic the
    installers use; each exact, with the theorem that ties it to its inverse
    where it has one. *)

From stdpp Require Import base list strings.
From Stdlib Require Import ZArith Lia Ascii.
From Stdlib Require Import Floats.SpecFloat.
From S2P Require Import Prelude GoStrings GoNet.

(** ** [strconv.Atoi] *)

Definition digit_value (c : ascii) : option Z :=
  if byte_in 48 57 c then Some (code c - 48)%Z else None.

(** The value of a string of decimal digits, most significant first. *)
Fixpoint decimal (acc : Z) (s : string) : option Z :=
  match s with
  | EmptyString => Some acc
  | String c s => match digit_value c with
                  | Some d => decimal (acc * 10 + d)%Z s
                  | None => None
                  end
  end.

Definition unsigned_decimal (s : string) : option Z :=
  if bool_decide (s = EmptyString) then None else decimal 0 s.

Definition signed_decimal (s : string) : option Z :=
  match s with
  | String "+" s => unsigned_decimal s
  | String "-" s => Z.opp <$> unsigned_decimal s
  | _ => unsigned_decimal s
  end.

(** An [int] is 64 bits wide. *)
Definition int_min : Z := - 2 ^ 63.
Definition int_max : Z := 2 ^ 63 - 1.

Definition Atoi `{Unicode} (s : string) : outcome Z :=
  let numError (why : string) :=
    Fail (ErrNew ("strconv.Atoi: parsing " +:+ strconv_Quote s +:+ ": " +:+ why)) in
  match signed_decimal s with
  | None => numError "invalid syntax"
  | Some n =>
      if (n <? int_min)%Z || (int_max <? n)%Z then numError "value out of range" else Ret n
  end.

(** ** [encoding/hex] *)

Definition fromHexChar (c : ascii) : option Z :=
  if byte_in 48 57 c then Some (code c - 48)%Z
  else if byte_in 97 102 c then Some (code c - 87)%Z
  else if byte_in 65 70 c then Some (code c - 55)%Z
  else None.

Definition ErrLength : error := ErrVar "hex.ErrLength" "encoding/hex: odd length hex string".

(** The verb [%#U] of a byte, and the UTF-8 bytes of a rune below 256. *)
Definition rune_string (n : Z) : string :=
  if (n <? 128)%Z then string_of_bytes [n] else string_of_bytes [192 + n / 64; 128 + n `mod` 64]%Z.
Definition is_print_byte (n : Z) : bool :=
  ((32 <=? n) && (n <=? 126) || (161 <=? n) && (n <=? 255) && negb (n =? 173))%Z.
Definition sharp_U (n : Z) : string :=
  "U+" +:+ string_map upper_byte (hex_EncodeToString [0; n]%Z) +:+
  (if is_print_byte n then " '" +:+ rune_string n +:+ "'" else "").

Definition InvalidByteError (c : ascii) : error :=
  Foreign (code c) ("encoding/hex: invalid byte: " +:+ sharp_U (code c)).

(** The bytes decoded before an error are not looked at by the code. *)
Fixpoint hex_DecodeString (s : string) : outcome (list Z) :=
  match s with
  | EmptyString => Ret []
  | String c EmptyString =>
      match fromHexChar c with Some _ => Fail ErrLength | None => Fail (InvalidByteError c) end
  | String c (String d s) =>
      match fromHexChar c, fromHexChar d with
      | None, _ => Fail (InvalidByteError c)
      | _, None => Fail (InvalidByteError d)
      | Some a, Some b => rest ← hex_DecodeString s; Ret (a * 16 + b :: rest)%Z
      end
  end.

(** ** [base64.StdEncoding] *)

Definition base64_char (n : Z) : ascii :=
  ascii_of_N (Z.to_N (
    if (n <? 26)%Z then 65 + n else if (n <? 52)%Z then 71 + n else if (n <? 62)%Z then n - 4
    else if (n =? 62)%Z then 43 else 47)%Z).

Fixpoint base64_EncodeToString (l : list Z) : string :=
  match l with
  | [] => EmptyString
  | [a] =>
      String (base64_char (a / 4)) (String (base64_char (a `mod` 4 * 16)) "==")
  | [a; b] =>
      String (base64_char (a / 4)) (String (base64_char (a `mod` 4 * 16 + b / 16))
        (String (base64_char (b `mod` 16 * 4)) "="))
  | a :: b :: c :: l =>
      String (base64_char (a / 4)) (String (base64_char (a `mod` 4 * 16 + b / 16))
        (String (base64_char (b `mod` 16 * 4 + c / 64)) (String (base64_char (c `mod` 64))
          (base64_EncodeToString l))))
  end%Z.

(** ** Runes: [for _, r := range s] *)

Definition RuneError : Z := 0xFFFD.

(** The runes of a byte sequence; a byte that starts no well-formed encoding
    is one [RuneError]. *)
Fixpoint runes_of_bytes (fuel : nat) (b : list Z) : list Z :=
  match fuel with
  | O => []
  | S fuel =>
      let cont x := (128 <=? x)%Z && (x <=? 191)%Z in
      match b with
      | [] => []
      | x :: b1 =>
          let bad := RuneError :: runes_of_bytes fuel b1 in
          if (x <? 128)%Z then x :: runes_of_bytes fuel b1
          else match b1 with
          | y :: b2 =>
              if (194 <=? x)%Z && (x <=? 223)%Z && cont y
              then ((x - 192) * 64 + (y - 128))%Z :: runes_of_bytes fuel b2
              else match b2 with
              | z :: b3 =>
                  if (224 <=? x)%Z && (x <=? 239)%Z && cont y && cont z &&
                     (if x =? 224 then 160 <=? y else if x =? 237 then y <=? 159 else true)%Z
                  then ((x - 224) * 4096 + (y - 128) * 64 + (z - 128))%Z :: runes_of_bytes fuel b3
                  else match b3 with
                  | u :: b4 =>
                      if (240 <=? x)%Z && (x <=? 244)%Z && cont y && cont z && cont u &&
                         (if x =? 240 then 144 <=? y else if x =? 244 then y <=? 143 else true)%Z
                      then ((x - 240) * 262144 + (y - 128) * 4096 + (z - 128) * 64 + (u - 128))%Z
                             :: runes_of_bytes fuel b4
                      else bad
                  | [] => bad
                  end
              | [] => bad
              end
          | [] => bad
          end
      end
  end.

(** Every rune takes at least a byte. *)
Definition runes (s : string) : list Z := runes_of_bytes (String.length s) (bytes_of_string s).

Example runes_examples :
  runes (string_of_bytes [65; 195; 169; 226; 130; 172; 240; 159; 152; 128; 255; 226; 130]%Z)
  = [65; 233; 8364; 128512; RuneError; RuneError; RuneError]%Z.
Proof. vm_compute. reflexivity. Qed.

(** ** [net.ParseIP] *)

(** One field of a dotted address. *)
Definition ipv4_field (s : string) : option Z :=
  n ← unsigned_decimal s;
  if (HasPrefix s "0" && negb (bool_decide (s = "0"))) || (255 <? n)%Z then None else Some n.

Definition parseIPv4 (s : string) : option (list Z) :=
  fs ← mapM ipv4_field (Split s ".");
  if (length fs =? 4)%nat then Some fs else None.

(** The hexadecimal number a string starts with: its value, its number of
    digits and what follows. *)
Fixpoint hex_number (acc : Z) (digits : nat) (s : string) : Z * nat * string :=
  match s with
  | String c s' =>
      match fromHexChar c with
      | Some d => hex_number (acc * 16 + d)%Z (S digits) s'
      | None => (acc, digits, s)
      end
  | EmptyString => (acc, digits, EmptyString)
  end.

(** The loop of [netip.parseIPv6]: [n] groups may still come, [ip] are the bytes
    so far and [ellipsis] where the double colon stood. *)
Fixpoint ipv6_groups (n : nat) (ip : list Z) (ellipsis : option nat) (s : string)
    : option (list Z * option nat * string) :=
  match n with
  | O => Some (ip, ellipsis, s)
  | S n =>
      let '(acc, digits, rest) := hex_number 0 0 s in
      if (digits =? 0)%nat || (4 <? digits)%nat then None
      else if HasPrefix rest "." then
        if (bool_decide (ellipsis = None) && negb (length ip =? 12)%nat) || (16 <? length ip + 4)%nat
        then None
        else v4 ← parseIPv4 s; Some (ip ++ v4, ellipsis, EmptyString)
      else
        let ip := ip ++ [acc / 256; acc `mod` 256]%Z in
        match rest with
        | EmptyString => Some (ip, ellipsis, EmptyString)
        | String ":" EmptyString => None
        | String ":" (String ":" rest) =>
            match ellipsis with
            | Some _ => None
            | None =>
                if bool_decide (rest = EmptyString) then Some (ip, Some (length ip), EmptyString)
                else ipv6_groups n ip (Some (length ip)) rest
            end
        | String ":" rest => ipv6_groups n ip ellipsis rest
        | _ => None
        end
  end.

Definition parseIPv6 (s : string) : option (list Z) :=
  let leading := HasPrefix s "::" in
  let s := if leading then string_drop 2 s else s in
  if leading && bool_decide (s = EmptyString) then Some (replicate 16 0%Z)
  else
    '(ip, ellipsis, rest) ← ipv6_groups 8 [] (if leading then Some 0%nat else None) s;
    if negb (bool_decide (rest = EmptyString)) then None
    else if (length ip <? 16)%nat then
      match ellipsis with
      | None => None
      | Some e => Some (take e ip ++ replicate (16 - length ip) 0%Z ++ drop e ip)
      end
    else if bool_decide (is_Some ellipsis) then None else Some ip.

(** The first of the three bytes decides the kind of address; an address with
    a zone is no [net.IP]. *)
Fixpoint ip_kind (s : string) : option ascii :=
  match s with
  | EmptyString => None
  | String c s => if decide (c ∈ ["."; ":"; "%"]%char) then Some c else ip_kind s
  end.

Definition ParseIP (s : string) : IP :=
  match ip_kind s with
  | Some "."%char => fmap (M:=option) (app v4InV6Prefix) (parseIPv4 s)
  | Some ":"%char => if has_byte "%" s then None else parseIPv6 s
  | _ => None
  end.

(** ** Package [time]

    Times are nanoseconds since the Unix epoch, in UTC. *)

Definition Second : Z := 10 ^ 9.
Definition Minute : Z := 60 * Second.
Definition Hour : Z := 60 * Minute.

(** The zero [time.Time]: January 1 of year 1. *)
Definition zero_time : Z := - 62135596800 * Second.
Definition IsZero (t : Z) : bool := (t =? zero_time)%Z.

(** Year, month and day of a day number, counted from the epoch. *)
Definition civil (day : Z) : Z * Z * Z :=
  let z := (day + 719468)%Z in
  let era := (z / 146097)%Z in
  let doe := (z `mod` 146097)%Z in
  let yoe := ((doe - doe / 1460 + doe / 36524 - doe / 146096) / 365)%Z in
  let doy := (doe - (365 * yoe + yoe / 4 - yoe / 100))%Z in
  let mp := ((5 * doy + 2) / 153)%Z in
  let d := (doy - (153 * mp + 2) / 5 + 1)%Z in
  let m := (if mp <? 10 then mp + 3 else mp - 9)%Z in
  ((yoe + era * 400 + (if m <=? 2 then 1 else 0))%Z, m, d).

(** An integer in decimal, padded with zeros to [width] digits. *)
Definition pad_left (width : nat) (n : Z) : string :=
  let s := Itoa (Z.abs n) in
  (if (n <? 0)%Z then "-" else "") +:+
  string_of_bytes (replicate (width - String.length s) 48%Z) +:+ s.

(** [t.UTC().Format("2006-01-02 15:04")]. *)
Definition Format_minute (t : Z) : string :=
  let '(y, m, d) := civil (t / (24 * Hour)) in
  let minute := ((t `mod` (24 * Hour)) / Minute)%Z in
  pad_left 4 y +:+ "-" +:+ pad_left 2 m +:+ "-" +:+ pad_left 2 d +:+ " " +:+
  pad_left 2 (minute / 60) +:+ ":" +:+ pad_left 2 (minute `mod` 60).

(** [t.Format("2006-01-02 15:04:05")] of a time in UTC. *)
Definition Format_second (t : Z) : string :=
  Format_minute t +:+ ":" +:+ pad_left 2 ((t `mod` Minute) / Second).

Example Format_minute_epoch : Format_minute 0 = "1970-01-01 00:00".
Proof. reflexivity. Qed.
Example Format_minute_leap : Format_minute (951782400 * Second + 3599 * Second) = "2000-02-29 00:59".
Proof. vm_compute. reflexivity. Qed.
Example Format_minute_zero : Format_minute zero_time = "0001-01-01 00:00".
Proof. vm_compute. reflexivity. Qed.

(** [t.Sub(u)], which saturates; [time.Until(t)] and [time.Since(t)] are
    differences with the present. *)
Definition Sub (t u : Z) : Z := Z.max int_min (Z.min int_max (t - u)).

(** [d.Milliseconds()]. *)
Definition Milliseconds (d : Z) : Z := Z.quot d (10 ^ 6).

(** Arithmetic on an [int64] wraps around. *)
Definition to_i64 (x : Z) : Z := (x + 2 ^ 63) `mod` 2 ^ 64 - 2 ^ 63.

(** [float64(n)] and [int(x)], rounding to nearest even and towards zero. *)
Definition float64_of_int (n : Z) : spec_float := binary_normalize 53 1024 n 0 false.
Definition int_of_float64 (x : spec_float) : Z :=
  match x with
  | S754_finite s m e =>
      let n := if (0 <=? e)%Z then (Z.pos m * 2 ^ e)%Z else (Z.pos m / 2 ^ (- e))%Z in
      if s then (- n)%Z else n
  | _ => 0%Z
  end.

(** [d.Hours()] and [int(d.Hours() / 24)]. *)
Definition Hours (d : Z) : spec_float :=
  SFadd 53 1024 (float64_of_int (Z.quot d Hour))
    (SFdiv 53 1024 (float64_of_int (Z.rem d Hour)) (float64_of_int Hour)).
Definition whole_days (d : Z) : Z :=
  int_of_float64 (SFdiv 53 1024 (Hours d) (float64_of_int 24)).

Example whole_days_examples :
  whole_days <$> [0; 23 * Hour; 24 * Hour; 100 * 24 * Hour - 1 * Second; - 25 * Hour; int_max; int_min]%Z
  = [0; 0; 1; 99; -1; 106751; -106751]%Z.
Proof. vm_compute. reflexivity. Qed.

(** ** Lemmas *)

(** *** Decimal and hexadecimal numbers *)

Section number_lemmas.
Implicit Types (s t : string).

Lemma digit_char n : (0 ≤ n < 10)%Z → digit_value (ascii_of_N (Z.to_N (48 + n))) = Some n.
Proof.
  intros Hn. assert (n = 0 ∨ n = 1 ∨ n = 2 ∨ n = 3 ∨ n = 4 ∨ n = 5 ∨ n = 6 ∨ n = 7 ∨ n = 8 ∨ n = 9)%Z
    as Hc by lia. by repeat destruct Hc as [->|Hc]; subst; vm_compute.
Qed.

Lemma decimal_acc acc s n : decimal acc s = Some n →
  ∀ acc', decimal acc' s = Some (n + (acc' - acc) * 10 ^ Z.of_nat (String.length s))%Z.
Proof.
  revert acc n. induction s as [|c s IH]; intros acc n; cbn [decimal String.length].
  - intros [= <-] acc'. f_equal. lia.
  - destruct (digit_value c) as [d|]; [|done]. intros Hd acc'.
    rewrite (IH _ _ Hd). f_equal. rewrite Nat2Z.inj_succ, Z.pow_succ_r by lia. lia.
Qed.

(** The loop of [Itoa] writes the digits of [n] in front of [acc]. *)
Lemma itoa_go_decimal fuel n acc v :
  (0 ≤ n < 10 ^ Z.of_nat fuel)%Z → (0 < fuel)%nat → decimal 0 acc = Some v →
  decimal 0 (itoa_go fuel n acc) = Some (n * 10 ^ Z.of_nat (String.length acc) + v)%Z ∧
  itoa_go fuel n acc ≠ EmptyString.
Proof.
  revert n acc v. induction fuel as [|fuel IH]; intros n acc v Hn Hf Hv; [lia|]. cbn [itoa_go].
  set (d := (n `mod` 10)%Z). set (acc' := String _ acc).
  assert (0 ≤ d < 10)%Z as Hd by (apply Z.mod_pos_bound; lia).
  assert (decimal 0 acc' = Some (d * 10 ^ Z.of_nat (String.length acc) + v)%Z) as Ha.
  { subst acc'. cbn [decimal]. rewrite digit_char by done. rewrite (decimal_acc _ _ _ Hv). f_equal. lia. }
  destruct (Z.ltb_spec n 10) as [Hs|Hs].
  - rewrite Ha. split; [|done]. f_equal. subst d. rewrite Z.mod_small by lia. done.
  - assert (n = 10 * (n / 10) + d)%Z as Hdiv by (apply Z.div_mod; lia).
    rewrite Nat2Z.inj_succ, Z.pow_succ_r in Hn by lia.
    destruct fuel as [|fuel]; [simpl in Hn; lia|].
    destruct (IH (n / 10)%Z acc' _ ltac:(lia) ltac:(lia) Ha) as [-> Hne]. split; [|done]. f_equal.
    subst acc'. cbn [String.length]. rewrite Nat2Z.inj_succ, Z.pow_succ_r by lia. lia.
Qed.
End number_lemmas.

(** [strconv.Atoi] undoes [strconv.Itoa]. *)
Section atoi_lemmas.
Context `{Unicode}.

Lemma unsigned_is_signed s v : unsigned_decimal s = Some v → signed_decimal s = Some v.
Proof.
  destruct s as [|c s]; [done|]. unfold unsigned_decimal. simpl.
  destruct c as [[] [] [] [] [] [] [] []]; done.
Qed.

Lemma unsigned_itoa n : (0 ≤ n < 10 ^ 20)%Z → unsigned_decimal (itoa_go 20 n "") = Some n.
Proof.
  intros Hn. destruct (itoa_go_decimal 20 n "" 0 Hn ltac:(lia) eq_refl) as [Hd Hne].
  unfold unsigned_decimal. rewrite bool_decide_eq_false_2 by done. rewrite Hd. f_equal.
  change (String.length "") with 0%nat. lia.
Qed.

Lemma Atoi_Itoa n : (int_min ≤ n ≤ int_max)%Z → Atoi (Itoa n) = Ret n.
Proof.
  unfold int_min, int_max. intros Hn. unfold Atoi.
  assert (signed_decimal (Itoa n) = Some n) as ->.
  { unfold Itoa. destruct (Z.ltb_spec n 0).
    - cbn [signed_decimal]. rewrite unsigned_itoa by lia. simpl. f_equal. lia.
    - apply unsigned_is_signed, unsigned_itoa. lia. }
  unfold int_min, int_max. destruct (Z.ltb_spec n (- 2 ^ 63)); [lia|].
  by destruct (Z.ltb_spec (2 ^ 63 - 1) n); [lia|].
Qed.
End atoi_lemmas.

(** [hex.DecodeString] undoes [hex.EncodeToString]. *)
Lemma fromHexChar_digit n : fromHexChar (hex_digit n) = Some (n `mod` 16)%Z.
Proof.
  unfold hex_digit. pose proof (Z.mod_pos_bound n 16 ltac:(lia)) as Hm.
  assert (Forall (λ m, fromHexChar (ascii_of_N (Z.to_N (if m <? 10 then 48 + m else 87 + m)%Z)) = Some m)
    (seqZ 0 16)) as Hall by (repeat constructor).
  rewrite Forall_forall in Hall. apply Hall, elem_of_seqZ. lia.
Qed.

Lemma hex_Decode_Encode l : Forall is_byte l → hex_DecodeString (hex_EncodeToString l) = Ret l.
Proof.
  induction 1 as [|b l Hb _ IH]; [done|]. simpl. rewrite !fromHexChar_digit, IH. simpl.
  unfold is_byte in Hb. rewrite (Z.mod_small (b / 16)).
  - do 2 f_equal. pose proof (Z.div_mod b 16). lia.
  - split; [apply Z.div_pos; lia|]. apply Z.div_lt_upper_bound; lia.
Qed.

(** What decodes is bytes, half as many as there are digits. *)
Lemma fromHexChar_range c n : fromHexChar c = Some n → (0 ≤ n < 16)%Z.
Proof. destruct c as [[] [] [] [] [] [] [] []]; vm_compute; try done; intros [= <-]; done. Qed.

Lemma hex_Decode_cons c s l :
  hex_DecodeString (String c s) = Ret l →
  ∃ d s' a b r, s = String d s' ∧ fromHexChar c = Some a ∧ fromHexChar d = Some b ∧
    hex_DecodeString s' = Ret r ∧ l = (a * 16 + b)%Z :: r.
Proof.
  destruct s as [|d s]; simpl; [by destruct (fromHexChar c)|].
  destruct (fromHexChar c) as [a|]; [|done]. destruct (fromHexChar d) as [b|] eqn:Hd; [|done].
  intros Hl. go_inv. eauto 10.
Qed.

Lemma hex_Decode_Ret s l :
  hex_DecodeString s = Ret l → Forall is_byte l ∧ String.length s = (2 * length l)%nat.
Proof.
  revert s. induction l as [|x l IH]; intros [|c s]; try done; [by intros (?&?&?&?&?&?&?&?&?&?)%hex_Decode_cons|].
  intros (d & s' & a & b & r & -> & Ha & Hb & Hr & [= -> ->])%hex_Decode_cons.
  apply IH in Hr as [Hl Hlen]. apply fromHexChar_range in Ha, Hb. simpl.
  split; [constructor; [unfold is_byte; lia|done]|lia].
Qed.

(** [net.ParseIP] reads a dotted address back. *)
Definition all_bytes (P : Z → bool) : bool := forallb P (seqZ 0 256).

Lemma all_bytes_spec P : all_bytes P = true → ∀ x, is_byte x → P x = true.
Proof.
  unfold all_bytes. rewrite forallb_forall. intros HP x Hx. apply HP.
  apply list_elem_of_In, elem_of_seqZ. unfold is_byte in Hx. lia.
Qed.

Definition plain_digits (s : string) : bool := string_forall (byte_in 48 57) s.

Lemma Itoa_byte x : is_byte x → ipv4_field (Itoa x) = Some x ∧ plain_digits (Itoa x) = true ∧ Itoa x ≠ "".
Proof.
  intros Hx.
  assert (bool_decide (ipv4_field (Itoa x) = Some x ∧ plain_digits (Itoa x) = true ∧ Itoa x ≠ "") = true)
    as Hb; [|by apply bool_decide_eq_true in Hb].
  revert x Hx. by apply (all_bytes_spec (λ x, bool_decide _)); vm_compute.
Qed.

Lemma ip_kind_digits s t : plain_digits s = true → ip_kind (s +:+ String "." t) = Some "."%char.
Proof.
  induction s as [|c s IH]; [done|]. rewrite append_cons. simpl. intros [Hc Hs]%andb_prop.
  rewrite decide_False; [by apply IH|].
  rewrite !elem_of_cons, elem_of_nil. by intros [->|[->|[->|[]]]].
Qed.

Lemma ParseIP_dotted b :
  length b = 4%nat → Forall is_byte b → ParseIP (dotted b) = Some (v4InV6Prefix ++ b).
Proof.
  intros Hl Hb. destruct b as [|x b]; [done|]. destruct b as [|y b]; [done|].
  assert (ip_kind (dotted (x :: y :: b)) = Some "."%char) as Hk.
  { apply Forall_cons in Hb as [Hx _]. destruct (Itoa_byte x Hx) as (_ & Hd & _).
    unfold dotted. rewrite !fmap_cons, Join_cons. by apply ip_kind_digits. }
  unfold ParseIP. rewrite Hk. unfold parseIPv4, dotted. rewrite Split_Join; [|done|].
  - assert (mapM ipv4_field (Itoa <$> x :: y :: b) = Some (x :: y :: b)) as Hm; [|by rewrite Hm; cbn [mbind option_bind]; rewrite Hl].
    apply mapM_Some. clear Hk Hl. induction Hb as [|z l Hz _ IH]; constructor; [|done]. by apply Itoa_byte.
  - rewrite Forall_fmap. eapply Forall_impl; [done|]. intros z Hz. simpl.
    destruct (Itoa_byte z Hz) as (_ & Hd & _). revert Hd. apply string_forall_impl.
    intros c. byte_cases c.
Qed.
