(* ===== verification/GoCrypto.v ===== *)
(** * The outside world of the certificate code

    X.509 and PEM parsing, hashing, signing and the file system are Go library
    or operating system services the code calls and this repository does not
    contain: they are the operations of the classes below, and the documented
    facts the proofs rely on are the laws of [PemLaws] and [HashLaws]. *)

From stdpp Require Import base list strings.
From Stdlib Require Import ZArith Lia Ascii.
From S2P Require Import Prelude GoStrings GoNet.

Inductive PublicKey :=
  | RSAPublicKey (N E : Z)
  | ECDSAPublicKey (BitSize : Z)
  | OtherPublicKey (ty : string).

(** [x509.Certificate], the fields the code reads. [Subject] and [Issuer] are
    the names as [pkix.Name.String] renders them. *)
Record Certificate := {
  Raw : list Z;
  RawSubjectPublicKeyInfo : list Z;
  cert_PublicKey : PublicKey;
  PublicKeyAlgorithm : string;
  cert_Subject : string;
  cert_Issuer : string;
  cert_Issuer_CommonName : string;
  cert_NotBefore : Z;
  cert_NotAfter : Z;
  KeyUsage : Z;
  ExtKeyUsage : list Z;
  SubjectKeyId : list Z;
  DNSNames : list string;
  IPAddresses : list IP;
  EmailAddresses : list string;
}.

(** [x509.KeyUsage] and [x509.ExtKeyUsage] values. *)
Definition KeyUsageDigitalSignature : Z := 1.
Definition KeyUsageKeyEncipherment : Z := 4.
Definition KeyUsageCertSign : Z := 32.
Definition KeyUsageCRLSign : Z := 64.
Definition ExtKeyUsageServerAuth : Z := 1.
Definition ExtKeyUsageClientAuth : Z := 2.
Definition ExtKeyUsageCodeSigning : Z := 3.
Definition ExtKeyUsageEmailProtection : Z := 4.

(** The dynamic types of a [crypto.Signer] the code tells apart; the number
    stands for the key material. *)
Inductive Signer :=
  | RSAPrivateKey (k : Z)
  | ECDSAPrivateKey (k : Z)
  | OtherSigner (ty : string) (k : Z).

(** A parsed private key as the [any] the parsers return: some keys (X25519)
    do not implement [crypto.Signer]. *)
Inductive any_key :=
  | AnySigner (s : Signer)
  | AnyOther (ty : string).

(** [crypto.Hash] values. *)
Definition crypto_SHA256 : Z := 5.
Definition crypto_SHA384 : Z := 6.
Definition crypto_SHA512 : Z := 7.

(** [crypto.SignerOpts]: a bare hash selects PKCS#1 v1.5 for an RSA key, and
    [PSSOptions h] is [&rsa.PSSOptions{SaltLength: PSSSaltLengthEqualsHash, Hash: h}]. *)
Inductive SignerOpts :=
  | HashOpts (h : Z)
  | PSSOptions (h : Z).

Record Block := { Block_Type : string; Block_Bytes : list Z }.

Class Crypto := {
  x509_ParseCertificate : list Z → outcome Certificate;
  x509_ParsePKCS8PrivateKey : list Z → outcome any_key;
  x509_ParsePKCS1PrivateKey : list Z → outcome any_key;
  x509_ParseECPrivateKey : list Z → outcome any_key;
  x509_MarshalPKIXPublicKey : Signer → outcome (list Z);
  pem_Decode : list Z → option (Block * list Z);
  sha1_Sum : list Z → list Z;
  sha256_Sum : list Z → list Z;
  sha384_Sum : list Z → list Z;
  sha512_Sum : list Z → list Z;
  (** [signer.Sign(rand.Reader, digest, opts)]; the first number is what the
      randomness source supplies. *)
  signer_Sign : Z → Signer → list Z → SignerOpts → outcome (list Z);
}.

(** [pem.Decode] returns the remainder of its input after the block it found. *)
Class PemLaws `{Crypto} := {
  pem_Decode_shrinks d b r : pem_Decode d = Some (b, r) → (length r < length d)%nat;
}.

(** The documented sizes of the digests. *)
Class HashLaws `{Crypto} := {
  sha1_Sum_length d : length (sha1_Sum d) = 20%nat;
  sha256_Sum_length d : length (sha256_Sum d) = 32%nat;
  sha384_Sum_length d : length (sha384_Sum d) = 48%nat;
  sha512_Sum_length d : length (sha512_Sum d) = 64%nat;
}.

Record DirEntry := { entry_Name : string; entry_IsDir : bool }.

(** The file system as one call of the code sees it: it does not change while
    a directory is loaded. *)
Class FileSystem := {
  os_ReadDir : string → outcome (list DirEntry);
  os_ReadFile : string → outcome (list Z);
  filepath_Join : string → string → string;
  os_IsPathSeparator : ascii → bool;
}.

(** [filepath.Ext]: the suffix from the last dot of the last path element. *)
Fixpoint filepath_Ext `{FileSystem} (path : string) : string :=
  match path with
  | EmptyString => EmptyString
  | String c s =>
      match filepath_Ext s with
      | EmptyString =>
          if bool_decide (c = "."%char) && string_forall (λ d, negb (os_IsPathSeparator d)) s
          then path else EmptyString
      | e => e
      end
  end.

(** ** The PEM scanning loop

    [for { block, r := pem.Decode(rest); if block == nil { break }; rest = r;
    if ... { return ... } }], with the test and the returned value as [f]. *)
Section pem_scan.
Context `{Crypto} {A : Type}.
Variable f : Block → option A.

Fixpoint pem_scan (fuel : nat) (rest : list Z) : option A :=
  match fuel with
  | O => None
  | S fuel =>
      match pem_Decode rest with
      | None => None
      | Some (block, r) =>
          match f block with
          | Some a => Some a
          | None => pem_scan fuel r
          end
      end
  end.

(** What the unbounded loop of the code does. *)
Inductive PemLoop : list Z → option A → Prop :=
  | pem_loop_break rest : pem_Decode rest = None → PemLoop rest None
  | pem_loop_return rest block r a :
      pem_Decode rest = Some (block, r) → f block = Some a → PemLoop rest (Some a)
  | pem_loop_next rest block r o :
      pem_Decode rest = Some (block, r) → f block = None → PemLoop r o → PemLoop rest o.

Lemma pem_scan_loop `{!PemLaws} fuel rest :
  (length rest < fuel)%nat → PemLoop rest (pem_scan fuel rest).
Proof.
  revert rest. induction fuel as [|fuel IH]; intros rest Hlen; [lia|]. simpl.
  destruct (pem_Decode rest) as [[block r]|] eqn:Hd; [|by constructor].
  pose proof (pem_Decode_shrinks _ _ _ Hd).
  destruct (f block) eqn:Hf; [by econstructor|].
  eapply pem_loop_next; [done..|]. apply IH. lia.
Qed.

Lemma PemLoop_det rest o1 o2 : PemLoop rest o1 → PemLoop rest o2 → o1 = o2.
Proof.
  intros H1. revert o2.
  induction H1 as [? Hd|? b r a Hd Hf|? b r o Hd Hf _ IH]; intros o2;
    inversion 1; simplify_eq; auto.
Qed.

Lemma pem_scan_Some fuel rest a :
  pem_scan fuel rest = Some a → ∃ block, f block = Some a.
Proof.
  revert rest. induction fuel as [|fuel IH]; intros rest; simpl; [done|].
  destruct (pem_Decode rest) as [[block r]|]; [|done].
  destruct (f block) eqn:E; naive_solver.
Qed.
End pem_scan.
