(* ===== verification/Samples.v ===== *)
(** * Concrete outside worlds

    One instance of each interface to the outside, simple enough to run, at
    which the witnesses evaluate the theorems: a Unicode table for ASCII only,
    a toy key and certificate format with the documented laws, and a file
    system given by a list of files. *)

From stdpp Require Import base list strings.
From Stdlib Require Import ZArith Lia Ascii.
From S2P Require Import Prelude GoStrings GoCrypto.

(** Non-ASCII strings are left as they are. *)
Definition sample_unicode : Unicode := {|
  unicode_ToUpper s := s;
  unicode_ToLower s := s;
  unicode_TrimSpace s := s;
  unicode_EqualFold s t := bool_decide (s = t);
  unicode_Fields s := [s];
  strconv_Quote s := s;
|}.

(** A certificate is [48; kind; key; ...subject], a key is [49; kind; key]. *)
Definition sample_parse_cert (der : list Z) : outcome Certificate :=
  match der with
  | 48%Z :: kind :: k :: name =>
      Ret {| Raw := der; RawSubjectPublicKeyInfo := [kind; k];
             cert_PublicKey :=
               (if kind =? 1 then RSAPublicKey (2 ^ 2047 + k) 65537
                else if kind =? 2 then ECDSAPublicKey 256 else OtherPublicKey "ed25519")%Z;
             PublicKeyAlgorithm := "Ed25519";
             cert_Subject := "CN=" +:+ string_of_bytes name; cert_Issuer := "CN=ca";
             cert_Issuer_CommonName := "ca"; cert_NotBefore := 0; cert_NotAfter := 1;
             KeyUsage := 1; ExtKeyUsage := []; SubjectKeyId := [];
             DNSNames := []; IPAddresses := []; EmailAddresses := [] |}
  | _ => Fail (Foreign 1 "x509: malformed certificate")
  end.

Definition sample_parse_key (der : list Z) : outcome any_key :=
  match der with
  | [49; 1; k]%Z => Ret (AnySigner (RSAPrivateKey k))
  | [49; 2; k]%Z => Ret (AnySigner (ECDSAPrivateKey k))
  | [49; 3; k]%Z => Ret (AnySigner (OtherSigner "ed25519.PrivateKey" k))
  | _ => Fail (Foreign 2 "x509: failed to parse private key")
  end.

(** A PEM block is [45; type; length; ...bytes]. *)
Definition sample_pem_Decode (d : list Z) : option (Block * list Z) :=
  match d with
  | 45%Z :: ty :: n :: rest =>
      Some ({| Block_Type :=
                 (if ty =? 1 then "CERTIFICATE" else if ty =? 2 then "PRIVATE KEY" else "X")%Z;
               Block_Bytes := take (Z.to_nat n) rest |}, drop (Z.to_nat n) rest)
  | _ => None
  end.

Definition sample_crypto : Crypto := {|
  x509_ParseCertificate := sample_parse_cert;
  x509_ParsePKCS8PrivateKey := sample_parse_key;
  x509_ParsePKCS1PrivateKey := sample_parse_key;
  x509_ParseECPrivateKey := sample_parse_key;
  x509_MarshalPKIXPublicKey k :=
    Ret match k with
        | RSAPrivateKey k => [1; k]%Z
        | ECDSAPrivateKey k => [2; k]%Z
        | OtherSigner _ k => [3; k]%Z
        end;
  pem_Decode := sample_pem_Decode;
  sha1_Sum d := take 20 (d ++ replicate 20 0%Z);
  sha256_Sum d := take 32 (d ++ replicate 32 255%Z);
  sha384_Sum d := take 48 (d ++ replicate 48 254%Z);
  sha512_Sum d := take 64 (d ++ replicate 64 253%Z);
  signer_Sign rnd k d o :=
    Ret (match o with PSSOptions h => [rnd; h; 2]%Z | HashOpts h => [h; 1]%Z end ++ take 4 d);
|}.

Lemma sample_pem_laws : @PemLaws sample_crypto.
Proof.
  split. simpl. intros [|[|[]|] [|ty [|n rest]]] b r; try done; simpl.
  all: repeat (case_match; try done). all: intros [= _ <-]; simpl; rewrite length_drop; lia.
Qed.

Lemma sample_hash_laws : @HashLaws sample_crypto.
Proof.
  split; intros d; unfold sha1_Sum, sha256_Sum, sha384_Sum, sha512_Sum, sample_crypto;
    rewrite length_take, length_app, length_replicate; lia.
Qed.

(** The files of one directory; any other path does not exist. *)
Definition sample_fs (dir : string) (files : list (string * list Z)) : FileSystem := {|
  os_ReadDir d :=
    if bool_decide (d = dir)
    then Ret ((λ f, {| entry_Name := fst f; entry_IsDir := false |}) <$> files)
    else Fail (Foreign 3 "no such directory");
  os_ReadFile p :=
    match find_first (λ f, bool_decide (p = dir +:+ "/" +:+ fst f)) files with
    | Some f => Ret (snd f)
    | None => Fail (Foreign 4 "no such file")
    end;
  filepath_Join d n := d +:+ "/" +:+ n;
  os_IsPathSeparator c := bool_decide (c = "/"%char);
|}.

(** Two certificates (an RSA one with its key in the same file, an ECDSA one
    with a sibling key file) and a file that is neither. *)
Definition sample_dir : FileSystem := sample_fs "certs"
  [("b.crt", [45; 1; 5; 48; 2; 9; 98; 98]%Z);
   ("b.key", [45; 2; 3; 49; 2; 9]%Z);
   ("notes.pem", [110; 111]%Z);
   ("a.PEM", [45; 9; 1; 0; 45; 1; 4; 48; 1; 7; 97; 45; 2; 3; 49; 1; 7]%Z)].

Definition sample_digest : list Z := replicate 32 171%Z.
