(* ===== verification/CertTypes.v ===== *)
(** * [internal/certstore]: types, thumbprints and the backend interface

    [types.go], [thumbprint.go], and the three functions every platform of
    package [certstore] exports as a class, with what their callers may rely
    on as its laws. *)

From stdpp Require Import base list strings.
From Stdlib Require Import ZArith Lia Ascii.
From S2P Require Import Prelude GoStrings Samples.

(** ** [types.go] *)

Definition ErrUnsupportedPlatform : error :=
  ErrVar "certstore.ErrUnsupportedPlatform" "certificate store operations require Windows or macOS".
Definition ErrCertificateNotFound : error :=
  ErrVar "certstore.ErrCertificateNotFound" "certificate not found".
Definition ErrNoPrivateKey : error :=
  ErrVar "certstore.ErrNoPrivateKey" "certificate has no accessible private key".
Definition ErrInvalidDigest : error :=
  ErrVar "certstore.ErrInvalidDigest" "digest length does not match hash algorithm".
Definition ErrInvalidPadding : error :=
  ErrVar "certstore.ErrInvalidPadding" "PSS padding is only supported for RSA keys".

(** Times are in nanoseconds since the Unix epoch. *)
Record CertificateInfo := {
  Thumbprint : string;
  Subject : string;
  Issuer : string;
  NotBefore : Z;
  NotAfter : Z;
  KeyAlgorithm : string;
  KeySize : Z;
  HasPrivateKey : bool;
  IsTPM : bool;
  ProviderName : string;
  CertificateDER : list Z;
}.

#[export] Instance CertificateInfo_eq_dec : EqDecision CertificateInfo.
Proof. solve_decision. Defined.

(** [type HashAlgorithm int]: any integer can arrive. *)
Definition HashSHA256 : Z := 1.
Definition HashSHA384 : Z := 2.
Definition HashSHA512 : Z := 3.

Definition CryptoHash (h : Z) : outcome Z :=
  if (h =? HashSHA256)%Z then Ret 5%Z
  else if (h =? HashSHA384)%Z then Ret 6%Z
  else if (h =? HashSHA512)%Z then Ret 7%Z
  else Fail (ErrNew "unsupported hash algorithm").

Definition DigestSize (h : Z) : outcome Z :=
  if (h =? HashSHA256)%Z then Ret 32%Z
  else if (h =? HashSHA384)%Z then Ret 48%Z
  else if (h =? HashSHA512)%Z then Ret 64%Z
  else Fail (ErrNew "unsupported hash algorithm").

(** [type RSAPadding int]. *)
Definition RSAPaddingPKCS1 : Z := 1.
Definition RSAPaddingPSS : Z := 2.

Record SignResult := {
  Signature : list Z;
  SignatureAlgorithm : string;
  Padding : Z;
}.

#[export] Instance SignResult_eq_dec : EqDecision SignResult.
Proof. solve_decision. Defined.

(** ** [thumbprint.go] *)

Section thumbprint.
Context `{Unicode}.

Definition NormalizeThumbprint (tp : string) : string :=
  let tp := ToUpper (TrimSpace tp) in
  let tp := remove_byte ":" tp in
  let tp := remove_byte " " tp in
  let tp := remove_byte "-" tp in
  tp.

Definition cleanThumbprint (tp : string) : string := NormalizeThumbprint tp.
End thumbprint.

(** *** What normalisation computes *)

(** The separators of a printed fingerprint. *)
Definition is_sep (c : ascii) : bool :=
  bool_decide (c = ":"%char) || bool_decide (c = " "%char) || bool_decide (c = "-"%char).

(** The reference form: drop the separators, upper-case the rest. *)
Definition canonical_thumbprint (tp : string) : string :=
  string_map upper_byte (string_filter (λ c, negb (is_sep c)) tp).

(** Printable ASCII. *)
Definition printable : string → bool := string_forall (byte_in 32 126).

(** A fingerprint as people write it: hex digits and separators. *)
Definition hex_fingerprint : string → bool := string_forall (λ c, is_hex_byte c || is_sep c).

Lemma printable_is_ascii s : printable s = true → is_ascii s = true.
Proof. apply string_forall_impl. intros c. byte_cases c. Qed.

Lemma hex_fingerprint_printable s : hex_fingerprint s = true → printable s = true.
Proof. apply string_forall_impl. intros c. byte_cases c. Qed.

Section thumbprint_lemmas.
Context `{Unicode}.

(** On ASCII input normalisation is: trim, then the reference form. *)
Lemma NormalizeThumbprint_trim tp :
  is_ascii tp = true →
  NormalizeThumbprint tp = canonical_thumbprint (trim_right (trim_left tp)).
Proof.
  intros Hasc. unfold NormalizeThumbprint, canonical_thumbprint, remove_byte, TrimSpace.
  rewrite Hasc. set (t := trim_right (trim_left tp)).
  assert (is_ascii t = true) as Ht by (apply trim_right_forall, trim_left_forall, Hasc).
  unfold ToUpper. rewrite Ht, !string_filter_filter, string_filter_map.
  - f_equal. apply string_filter_ext. intros c. byte_cases c.
  - intros c. byte_cases c.
Qed.

Lemma NormalizeThumbprint_printable tp :
  printable tp = true → NormalizeThumbprint tp = canonical_thumbprint tp.
Proof.
  intros Hp. rewrite NormalizeThumbprint_trim by (by apply printable_is_ascii).
  unfold canonical_thumbprint. f_equal.
  assert (∀ s, printable s = true →
    string_forall (λ c, negb (Ascii.is_space c) || negb (negb (is_sep c))) s = true) as Hsp.
  { intros s. apply string_forall_impl. intros c. byte_cases c. }
  rewrite string_filter_trim_right, string_filter_trim_left; [done|by apply Hsp..|].
  apply Hsp. by apply trim_left_forall.
Qed.

Lemma canonical_thumbprint_hex s :
  string_forall is_hex_byte s = true → canonical_thumbprint s = string_map upper_byte s.
Proof.
  intros Hs. unfold canonical_thumbprint. rewrite string_filter_id; [done|].
  revert Hs. apply string_forall_impl. intros c. byte_cases c.
Qed.

Lemma canonical_thumbprint_printable s :
  printable s = true → printable (canonical_thumbprint s) = true.
Proof.
  intros Hs. unfold printable, canonical_thumbprint. rewrite string_forall_map.
  apply string_forall_filter. revert Hs. apply string_forall_impl. intros c. byte_cases c.
Qed.

Lemma canonical_thumbprint_idemp s :
  canonical_thumbprint (canonical_thumbprint s) = canonical_thumbprint s.
Proof.
  unfold canonical_thumbprint at 1.
  rewrite (string_filter_id _ (canonical_thumbprint s)); unfold canonical_thumbprint.
  - induction s as [|c s IH]; simpl; [done|].
    destruct (negb (is_sep c)); simpl; [|done]. by rewrite upper_byte_idemp, IH.
  - rewrite string_forall_map. apply (string_forall_impl (λ c, negb (is_sep c))).
    + intros c. byte_cases c.
    + apply string_forall_filter_self.
Qed.

(** [strings.ToUpper(hex.EncodeToString(sum))], the form every stored
    thumbprint has, is a fixed point of normalisation. *)
Lemma upper_hex_normal l :
  NormalizeThumbprint (ToUpper (hex_EncodeToString l)) = ToUpper (hex_EncodeToString l).
Proof.
  pose proof (hex_EncodeToString_hex l) as Hh.
  assert (is_ascii (hex_EncodeToString l) = true) as Ha.
  { revert Hh. apply string_forall_impl. intros c. byte_cases c. }
  unfold ToUpper. rewrite Ha, NormalizeThumbprint_printable.
  - rewrite canonical_thumbprint_hex.
    + clear. induction (hex_EncodeToString l) as [|c s IH]; simpl; [done|].
      by rewrite upper_byte_idemp, IH.
    + rewrite string_forall_map. revert Hh. apply string_forall_impl. intros c. byte_cases c.
  - unfold printable. rewrite string_forall_map. revert Hh.
    apply string_forall_impl. intros c. byte_cases c.
Qed.

(** Nothing is left of a thumbprint made of separators only. *)
Lemma clean_separators tp : string_forall is_sep tp = true → cleanThumbprint tp = "".
Proof.
  intros Hs. unfold cleanThumbprint. rewrite NormalizeThumbprint_printable.
  - unfold canonical_thumbprint. revert Hs. induction tp as [|c tp IH]; simpl; [done|].
    intros [-> Hs]%andb_prop. simpl. auto.
  - revert Hs. apply string_forall_impl. intros c. byte_cases c.
Qed.
End thumbprint_lemmas.

(** ** The platform interface of package [certstore] *)

(** [ListCertificates], [ListCertificatesByProvider] and [SignHash], which
    exactly one of [store_linux.go], [store_darwin.go], [store_windows.go]
    provides; [W] is what the platform's functions depend on. *)
Class CertBackend (W : Type) := {
  ListCertificates : W → outcome (list CertificateInfo);
  ListCertificatesByProvider : W → string → outcome (list CertificateInfo);
  SignHash : W → string → list Z → Z → Z → outcome SignResult;
}.

(** [if padding == 0 { padding = RSAPaddingPKCS1 }]. *)
Definition effective_padding (padding : Z) : Z :=
  if (padding =? 0)%Z then RSAPaddingPKCS1 else padding.

Definition signature_algorithms : list string :=
  ["RSASSA-PSS"; "RSASSA-PKCS1-v1_5"; "ECDSA"].

(** What every platform promises of a signature it returns. *)
Class CertBackendLaws (W : Type) `{CertBackend W} := {
  sign_digest_size w tp digest h p r :
    SignHash w tp digest h p = Ret r → DigestSize h = Ret (Z.of_nat (length digest));
  sign_padding w tp digest h p r :
    SignHash w tp digest h p = Ret r → Padding r = effective_padding p;
  sign_algorithm w tp digest h p r :
    SignHash w tp digest h p = Ret r →
    SignatureAlgorithm r ∈ signature_algorithms ∧
    (SignatureAlgorithm r = "RSASSA-PSS" ↔ effective_padding p = RSAPaddingPSS);
}.

(** ** Properties *)

(** C8: on a printable thumbprint [NormalizeThumbprint] is the reference form
    (separators dropped, letters upper-cased); the result has no separator and
    no lower-case letter, and normalising it again changes nothing. *)
Theorem NormalizeThumbprint_reference `{Unicode} tp :
  printable tp = true →
  NormalizeThumbprint tp = canonical_thumbprint tp ∧
  string_forall (λ c, negb (is_sep c) && negb (is_lower c)) (NormalizeThumbprint tp) = true ∧
  NormalizeThumbprint (NormalizeThumbprint tp) = NormalizeThumbprint tp.
Proof.
  intros Hp. rewrite (NormalizeThumbprint_printable tp Hp). split; [done|]. split.
  - unfold canonical_thumbprint. rewrite string_forall_map.
    apply (string_forall_impl (λ c, negb (is_sep c))); [intros c; byte_cases c|].
    apply string_forall_filter_self.
  - rewrite NormalizeThumbprint_printable by (by apply canonical_thumbprint_printable).
    apply canonical_thumbprint_idemp.
Qed.

Lemma NormalizeThumbprint_reference_witness :
  @NormalizeThumbprint sample_unicode " aa:bb-Cc 0f " = "AABBCC0F".
Proof.
  rewrite (proj1 (@NormalizeThumbprint_reference sample_unicode " aa:bb-Cc 0f " eq_refl)).
  reflexivity.
Defined.
