(* ===== verification/CertFileStore.v ===== *)
(** * [internal/certstore/file_store.go] and [store_linux.go]

    The directory-backed certificate store and the Linux platform functions
    that are built on it.  The package variables [fileStore] and
    [fileStoreDir] are the fields of [FileStore]; each operation takes the
    store the mutex protects and, when it writes, returns the new one. *)

From stdpp Require Import base list sets strings sorting.
From Stdlib Require Import ZArith Lia Ascii.
From S2P Require Import Prelude GoStrings GoCrypto Samples CertTypes.

(** [type fileIdentity struct]. *)
Record fileIdentity := {
  info : CertificateInfo;
  thumbSHA1 : string;
  thumbSHA256 : string;
  signer : Signer;
}.

(** The package variables guarded by [fileStoreMu]. *)
Record FileStore := {
  fileStore : list fileIdentity;
  fileStoreDir : string;
}.

Definition init_FileStore : FileStore := {| fileStore := []; fileStoreDir := "" |}.

Definition CertDir (s : FileStore) : string := fileStoreDir s.

(** [big.Int.BitLen] of a non-negative integer. *)
Definition BitLen (n : Z) : Z := if (n <=? 0)%Z then 0%Z else (Z.log2 n + 1)%Z.

Definition keyAlgSize (cert : Certificate) : string * Z :=
  match cert_PublicKey cert with
  | RSAPublicKey N _ => ("RSA", BitLen N)
  | ECDSAPublicKey bits => ("ECDSA", bits)
  | OtherPublicKey _ => (PublicKeyAlgorithm cert, 0%Z)
  end.

(** ** Loading a directory *)

Section load.
Context `{Unicode} `{Crypto} `{FileSystem}.

(** The type switch of [parseKeyBlock] and its [k.(crypto.Signer)]. *)
Definition parseKeyBlock (der : list Z) (blockType : string) : outcome Signer :=
  k ← (if bool_decide (blockType = "PRIVATE KEY") then x509_ParsePKCS8PrivateKey der
       else if bool_decide (blockType = "RSA PRIVATE KEY") then x509_ParsePKCS1PrivateKey der
       else if bool_decide (blockType = "EC PRIVATE KEY") then x509_ParseECPrivateKey der
       else Fail (ErrNew ("unsupported PEM block type " +:+ strconv_Quote blockType)));
  match k with
  | AnySigner s => Ret s
  | AnyOther ty => Fail (ErrNew ("private key type " +:+ ty +:+ " does not support signing"))
  end.

(** The raw DER fallback of [parseKeyBytes]: the first parser that accepts
    the bytes with a key that can sign. *)
Definition parse_der_key (data : list Z) : option Signer :=
  let attempt (m : outcome any_key) :=
    match m with Ret (AnySigner s) => Some s | _ => None end in
  match attempt (x509_ParsePKCS8PrivateKey data) with
  | Some s => Some s
  | None =>
      match attempt (x509_ParsePKCS1PrivateKey data) with
      | Some s => Some s
      | None => attempt (x509_ParseECPrivateKey data)
      end
  end.

(** The test of the loop of [parseKeyBytes]. *)
Definition key_block (b : Block) : option Signer :=
  match parseKeyBlock (Block_Bytes b) (Block_Type b) with Ret s => Some s | _ => None end.

(** [(key, ok)]; the function's error result is always nil. *)
Definition parseKeyBytes (data : list Z) : option Signer :=
  match pem_scan key_block (S (length data)) data with
  | Some k => Some k
  | None => parse_der_key data
  end.

(** The test of the loop of [certFromFile]. *)
Definition cert_block (b : Block) : option (list Z) :=
  if bool_decide (Block_Type b = "CERTIFICATE") then Some (Block_Bytes b) else None.

(** [Ret None] is [ok == false]. *)
Definition certFromFile (path : string) : outcome (option (list Z)) :=
  data ← os_ReadFile path;
  match pem_scan cert_block (S (length data)) data with
  | Some der => Ret (Some der)
  | None =>
      match x509_ParseCertificate data with
      | Ret _ => Ret (Some data)
      | Fail _ => Ret None
      | Panic => Panic
      end
  end.

Definition keyForFile (certPath : string) : outcome Signer :=
  data ← os_ReadFile certPath;
  match parseKeyBytes data with
  | Some k => Ret k
  | None =>
      let sibling := TrimSuffix certPath (filepath_Ext certPath) +:+ ".key" in
      match os_ReadFile sibling with
      | Fail _ => Fail (ErrNew ("no private key found in " +:+ certPath +:+ " or " +:+ sibling))
      | Panic => Panic
      | Ret kdata =>
          match parseKeyBytes kdata with
          | None => Fail (ErrNew ("no private key found in " +:+ sibling))
          | Some k => Ret k
          end
      end
  end.

(** The [fileIdentity] literal of [loadCertDir]. *)
Definition mk_identity (dir : string) (der : list Z) (cert : Certificate) (priv : Signer)
    : fileIdentity :=
  let t1 := ToUpper (hex_EncodeToString (sha1_Sum der)) in
  let t256 := ToUpper (hex_EncodeToString (sha256_Sum der)) in
  {| info :=
       {| Thumbprint := t1;
          Subject := cert_Subject cert;
          Issuer := cert_Issuer cert;
          NotBefore := cert_NotBefore cert;
          NotAfter := cert_NotAfter cert;
          KeyAlgorithm := fst (keyAlgSize cert);
          KeySize := snd (keyAlgSize cert);
          HasPrivateKey := true;
          IsTPM := false;
          ProviderName := "file store: " +:+ dir;
          CertificateDER := der |};
     thumbSHA1 := t1;
     thumbSHA256 := t256;
     signer := priv |}.

(** One iteration of the loading loop of [loadCertDir]; [Ret None] is
    [continue]. *)
Definition load_one (dir name : string) : outcome (option fileIdentity) :=
  let path := filepath_Join dir name in
  o ← wrapf ("read certificate " +:+ name) (certFromFile path);
  match o with
  | None => Ret None
  | Some der =>
      cert ← wrapf ("parse certificate " +:+ name) (x509_ParseCertificate der);
      priv ← wrapf ("certificate " +:+ name) (keyForFile path);
      let mismatch :=
        Fail (ErrNew ("certificate " +:+ name +:+ ": private key does not match certificate")) in
      match x509_MarshalPKIXPublicKey priv with
      | Ret pubDER =>
          if bool_decide (pubDER = RawSubjectPublicKeyInfo cert)
          then Ret (Some (mk_identity dir der cert priv))
          else mismatch
      | Fail _ => mismatch
      | Panic => Panic
      end
  end.

Definition is_cert_name (name : string) : bool :=
  bool_decide (ToLower (filepath_Ext name) ∈ [".crt"; ".cer"; ".pem"]).

Definition cert_files (entries : list DirEntry) : list string :=
  merge_sort String.le
    (entry_Name <$> filter (λ e, entry_IsDir e = false ∧ is_cert_name (entry_Name e) = true) entries).

Definition loadCertDir (dir : string) : outcome (list fileIdentity) :=
  entries ← wrapf "read cert dir" (os_ReadDir dir);
  collect (load_one dir) (cert_files entries).

Definition SetCertDir (dir : string) (s : FileStore) : outcome unit * FileStore :=
  if bool_decide (dir = "") then (Ret (), {| fileStore := []; fileStoreDir := "" |})
  else
    match loadCertDir dir with
    | Ret idents => (Ret (), {| fileStore := idents; fileStoreDir := dir |})
    | Fail e => (Fail e, s)
    | Panic => (Panic, s)
    end.
End load.

(** ** Listing and signing *)

Section operations.
Context `{Unicode} `{Crypto}.

Definition listFromFileStore (s : FileStore) : list CertificateInfo := info <$> fileStore s.

(** The test in the loop of [listFromFileStoreByProvider]. *)
Definition provider_selects (providerName : string) (c : CertificateInfo) : bool :=
  bool_decide (providerName = "") ||
  EqualFold providerName "Fred Proxy Key Storage Provider" ||
  Contains (ToLower (ProviderName c)) (ToLower providerName).

Definition listFromFileStoreByProvider (providerName : string) (s : FileStore)
    : list CertificateInfo :=
  filter (λ c, provider_selects providerName c = true) (info <$> fileStore s).

Definition matches_exactly (target : string) (f : fileIdentity) : bool :=
  bool_decide (cleanThumbprint (thumbSHA1 f) = target) ||
  bool_decide (cleanThumbprint (thumbSHA256 f) = target).

Definition matches_prefix (target : string) (f : fileIdentity) : bool :=
  HasPrefix (cleanThumbprint (thumbSHA1 f)) target ||
  HasPrefix (cleanThumbprint (thumbSHA256 f)) target.

(** The two matching loops of [signWithFileStore]. *)
Definition find_identity (target : string) (l : list fileIdentity) : option fileIdentity :=
  match find_first (matches_exactly target) l with
  | Some f => Some f
  | None => find_first (matches_prefix target) l
  end.

(** The type switch on the signer: the signature, its error wrapped, and
    the algorithm's name. *)
Definition sign_with_key (rnd : Z) (k : Signer) (digest : list Z) (h padding : Z)
    : outcome (list Z * string) :=
  match k with
  | RSAPrivateKey _ =>
      if (padding =? RSAPaddingPSS)%Z then
        sig ← wrapf "sign hash" (signer_Sign rnd k digest (PSSOptions h)); Ret (sig, "RSASSA-PSS")
      else
        sig ← wrapf "sign hash" (signer_Sign rnd k digest (HashOpts h));
        Ret (sig, "RSASSA-PKCS1-v1_5")
  | ECDSAPrivateKey _ =>
      if (padding =? RSAPaddingPSS)%Z then Fail ErrInvalidPadding
      else sig ← wrapf "sign hash" (signer_Sign rnd k digest (HashOpts h)); Ret (sig, "ECDSA")
  | OtherSigner ty _ => Fail (ErrNew ("unsupported private key type " +:+ ty))
  end.

Definition signWithFileStore (rnd : Z) (s : FileStore) (thumbprint : string) (digest : list Z)
    (hash padding : Z) : outcome SignResult :=
  expectedLen ← DigestSize hash;
  if negb (Z.of_nat (length digest) =? expectedLen)%Z then Fail ErrInvalidDigest
  else
    let padding := effective_padding padding in
    match find_identity (cleanThumbprint thumbprint) (fileStore s) with
    | None => Fail ErrCertificateNotFound
    | Some matched =>
        h ← CryptoHash hash;
        r ← sign_with_key rnd (signer matched) digest h padding;
        Ret {| Signature := fst r; SignatureAlgorithm := snd r; Padding := padding |}
    end.
End operations.

(** ** [store_linux.go] *)

Module Linux.
Section Linux.
Context `{Unicode} `{Crypto}.

Definition ListCertificates (s : FileStore) : outcome (list CertificateInfo) :=
  if bool_decide (CertDir s = "") then Fail ErrUnsupportedPlatform
  else Ret (listFromFileStore s).

Definition ListCertificatesByProvider (s : FileStore) (providerName : string)
    : outcome (list CertificateInfo) :=
  if bool_decide (CertDir s = "") then Fail ErrUnsupportedPlatform
  else Ret (listFromFileStoreByProvider providerName s).

Definition SignHash (rnd : Z) (s : FileStore) (thumbprint : string) (digest : list Z)
    (hash padding : Z) : outcome SignResult :=
  if bool_decide (CertDir s = "") then Fail ErrUnsupportedPlatform
  else signWithFileStore rnd s thumbprint digest hash padding.
End Linux.

(** The Linux platform: the file store and the randomness of the call. *)
#[global] Instance backend `{Unicode} `{Crypto} : CertBackend (FileStore * Z) := {|
  CertTypes.ListCertificates w := ListCertificates (fst w);
  CertTypes.ListCertificatesByProvider w := ListCertificatesByProvider (fst w);
  CertTypes.SignHash w := SignHash (snd w) (fst w);
|}.
End Linux.

(** ** The invariant of the store *)

Section invariant.
Context `{Unicode} `{Crypto}.

(** What [loadCertDir] establishes of an identity: its thumbprints are those
    of its certificate, the certificate parses, and the key is the
    certificate's. *)
Record identity_ok (dir : string) (f : fileIdentity) : Prop := {
  ok_sha1 : thumbSHA1 f = ToUpper (hex_EncodeToString (sha1_Sum (CertificateDER (info f))));
  ok_sha256 : thumbSHA256 f = ToUpper (hex_EncodeToString (sha256_Sum (CertificateDER (info f))));
  ok_thumbprint : Thumbprint (info f) = thumbSHA1 f;
  ok_has_key : HasPrivateKey (info f) = true;
  ok_provider : ProviderName (info f) = "file store: " +:+ dir;
  ok_key_matches : ∃ cert,
    x509_ParseCertificate (CertificateDER (info f)) = Ret cert ∧
    Subject (info f) = cert_Subject cert ∧
    (KeyAlgorithm (info f), KeySize (info f)) = keyAlgSize cert ∧
    x509_MarshalPKIXPublicKey (signer f) = Ret (RawSubjectPublicKeyInfo cert);
}.

Record store_ok (s : FileStore) : Prop := {
  ok_identities : Forall (identity_ok (fileStoreDir s)) (fileStore s);
  ok_unset : fileStoreDir s = "" → fileStore s = [];
}.

(** The stores a process reaches by [SetCertDir] calls, the file system
    being different at each. *)
Inductive reachable : FileStore → Prop :=
  | reach_init : reachable init_FileStore
  | reach_SetCertDir (fs : FileSystem) dir s :
      reachable s → reachable (snd (SetCertDir dir s)).

Lemma load_one_ok `{FileSystem} dir name f :
  load_one dir name = Ret (Some f) → identity_ok dir f.
Proof.
  unfold load_one. intros Hl. go_inv. destruct x as [der|]; [|done]. go_inv.
  destruct (x509_MarshalPKIXPublicKey _) as [pub| |] eqn:Hm; [|done..].
  case_bool_decide as Hpub; [|done]. go_inv. subst.
  split; simpl; try done. exists x. by rewrite <- surjective_pairing.
Qed.

Lemma loadCertDir_ok `{FileSystem} dir l :
  loadCertDir dir = Ret l → Forall (identity_ok dir) l.
Proof.
  unfold loadCertDir. intros Hl. go_inv. apply Forall_forall. intros f Hf.
  match goal with Hc : collect _ _ = Ret _ |- _ =>
    destruct (collect_Ret_elem_of _ _ _ _ Hc Hf) as (name & _ & Hone) end.
  by eapply load_one_ok.
Qed.

Lemma store_ok_init : store_ok init_FileStore.
Proof. split; [by constructor|done]. Qed.

Lemma SetCertDir_ok (fs : FileSystem) dir s : store_ok s → store_ok (snd (SetCertDir dir s)).
Proof.
  intros Hs. unfold SetCertDir. case_bool_decide as Hd; [by split; [constructor|]|].
  destruct (loadCertDir dir) eqn:Hl; [|done..].
  split; simpl; [by apply loadCertDir_ok|done].
Qed.
End invariant.

#[export] Hint Resolve store_ok_init SetCertDir_ok load_one_ok loadCertDir_ok : golib.

(** ** Selection of the signing identity *)

Section selection.
Context `{Unicode} `{Crypto}.

Lemma exact_is_prefix target f :
  matches_exactly target f = true → matches_prefix target f = true.
Proof.
  unfold matches_exactly, matches_prefix.
  intros [<-%bool_decide_eq_true|<-%bool_decide_eq_true]%orb_prop;
    rewrite prefix_refl; [done|apply orb_true_r].
Qed.

(** The declarative selection: the first exact match of either thumbprint,
    and only when there is none the first identity one of whose thumbprints
    the target is a prefix of. *)
Definition chosen (target : string) (l : list fileIdentity) (f : fileIdentity) : Prop :=
  ∃ l1 l2, l = l1 ++ f :: l2 ∧
    ((matches_exactly target f = true ∧
      Forall (λ g, matches_exactly target g = false) l1) ∨
     (Forall (λ g, matches_exactly target g = false) l ∧ matches_prefix target f = true ∧
      Forall (λ g, matches_prefix target g = false) l1)).

Lemma find_identity_Some target l f : find_identity target l = Some f → chosen target l f.
Proof.
  unfold find_identity, chosen.
  destruct (find_first (matches_exactly target) l) as [g|] eqn:E.
  - intros [= ->]. apply find_first_Some in E as (? & l1 & l2 & -> & ?). eauto 10.
  - apply find_first_None in E. intros (? & l1 & l2 & -> & ?)%find_first_Some. eauto 10.
Qed.

Lemma find_identity_None target l :
  find_identity target l = None ↔ Forall (λ f, matches_prefix target f = false) l.
Proof.
  unfold find_identity.
  destruct (find_first (matches_exactly target) l) as [g|] eqn:E.
  - split; [done|]. intros Hall. rewrite Forall_forall in Hall.
    pose proof (Hall g (find_first_elem_of _ _ _ E)) as Hg.
    pose proof (exact_is_prefix _ _ (find_first_true _ _ _ E)). congruence.
  - by rewrite find_first_None.
Qed.

Lemma find_identity_elem_of target l f : find_identity target l = Some f → f ∈ l.
Proof.
  intros (l1 & l2 & -> & _)%find_identity_Some. apply elem_of_app. right. left.
Qed.

(** *** Thumbprints of stored identities *)

Lemma clean_stored dir f :
  identity_ok dir f →
  cleanThumbprint (thumbSHA1 f) = thumbSHA1 f ∧ cleanThumbprint (thumbSHA256 f) = thumbSHA256 f.
Proof. intros Hok. unfold cleanThumbprint. by rewrite (ok_sha1 _ _ Hok), (ok_sha256 _ _ Hok), !upper_hex_normal. Qed.

Lemma ToUpper_hex_length l : String.length (ToUpper (hex_EncodeToString l)) = (2 * length l)%nat.
Proof.
  unfold ToUpper. assert (is_ascii (hex_EncodeToString l) = true) as ->.
  { generalize (hex_EncodeToString_hex l). apply string_forall_impl. intros c. byte_cases c. }
  rewrite <- hex_EncodeToString_length.
  induction (hex_EncodeToString l) as [|c s IH]; simpl; [done|]. by rewrite IH.
Qed.

Context `{!HashLaws}.

Lemma stored_lengths dir f :
  identity_ok dir f →
  String.length (thumbSHA1 f) = 40%nat ∧ String.length (thumbSHA256 f) = 64%nat.
Proof.
  intros Hok. rewrite (ok_sha1 _ _ Hok), (ok_sha256 _ _ Hok), !ToUpper_hex_length.
  by rewrite sha1_Sum_length, sha256_Sum_length.
Qed.

(** Looking a stored certificate's own thumbprint up finds an identity that
    carries that thumbprint, the first one that does. *)
Lemma find_identity_own dir l f :
  Forall (identity_ok dir) l → f ∈ l →
  ∃ g, find_identity (thumbSHA1 f) l = Some g ∧ thumbSHA1 g = thumbSHA1 f.
Proof.
  intros Hall Hf. rewrite Forall_forall in Hall.
  assert (matches_exactly (thumbSHA1 f) f = true) as Hex.
  { unfold matches_exactly. destruct (clean_stored _ _ (Hall _ Hf)) as [-> _].
    by rewrite bool_decide_eq_true_2. }
  unfold find_identity.
  destruct (find_first_is_Some _ _ _ Hf Hex) as [g Hg]. rewrite Hg. exists g. split; [done|].
  pose proof (find_first_true _ _ _ Hg) as Hm. unfold matches_exactly in Hm.
  pose proof (Hall _ (find_first_elem_of _ _ _ Hg)) as Hgok.
  destruct (clean_stored _ _ Hgok) as [E1 E2]. rewrite E1, E2 in Hm.
  apply orb_prop in Hm as [?%bool_decide_eq_true|Hm%bool_decide_eq_true]; [done|].
  destruct (stored_lengths _ _ Hgok) as [_ L256], (stored_lengths _ _ (Hall _ Hf)) as [L1 _].
  rewrite Hm, L1 in L256. lia.
Qed.

(** A target with nothing left after normalisation is a prefix of every
    thumbprint. *)
Lemma find_identity_empty dir f l :
  Forall (identity_ok dir) (f :: l) → find_identity "" (f :: l) = Some f.
Proof.
  intros Hall. unfold find_identity.
  assert (find_first (matches_exactly "") (f :: l) = None) as ->.
  { apply find_first_None. apply (Forall_impl _ _ _ Hall). intros g Hg.
    unfold matches_exactly. destruct (clean_stored _ _ Hg) as [-> ->].
    destruct (stored_lengths _ _ Hg) as [L1 L2].
    rewrite !bool_decide_eq_false_2; [done|by intros E; rewrite E in *..]. }
  simpl. unfold matches_prefix. by rewrite prefix_empty.
Qed.

(** The first identity is the one its own thumbprint names. *)
Lemma find_identity_own_first dir f l :
  Forall (identity_ok dir) (f :: l) →
  find_identity (cleanThumbprint (Thumbprint (info f))) (f :: l) = Some f ∧
  Thumbprint (info f) ≠ "".
Proof.
  intros [Hf _]%Forall_cons. rewrite (ok_thumbprint _ _ Hf).
  destruct (clean_stored _ _ Hf) as [Hc _], (stored_lengths _ _ Hf) as [L1 _]. split.
  - unfold find_identity. simpl. unfold matches_exactly at 1.
    by rewrite Hc, bool_decide_eq_true_2.
  - intros E. by rewrite E in L1.
Qed.
End selection.

(** ** The outcomes of signing *)

Lemma DigestSize_valid h n : DigestSize h = Ret n → (h = 1 ∧ n = 32 ∨ h = 2 ∧ n = 48 ∨ h = 3 ∧ n = 64)%Z.
Proof.
  unfold DigestSize, HashSHA256, HashSHA384, HashSHA512.
  repeat case_match; naive_solver lia.
Qed.

Lemma DigestSize_CryptoHash h n : DigestSize h = Ret n → CryptoHash h = Ret (h + 4)%Z.
Proof. by intros [[-> ->]|[[-> ->]|[-> ->]]]%DigestSize_valid. Qed.

Lemma effective_padding_PSS p : effective_padding p = RSAPaddingPSS ↔ p = RSAPaddingPSS.
Proof.
  unfold effective_padding, RSAPaddingPSS, RSAPaddingPKCS1.
  destruct (Z.eqb_spec p 0); split; intros; congruence || lia.
Qed.

Section signing.
Context `{Unicode} `{Crypto}.

Lemma sign_with_key_algorithm rnd k digest h padding sig alg :
  sign_with_key rnd k digest h padding = Ret (sig, alg) →
  alg ∈ signature_algorithms ∧ (alg = "RSASSA-PSS" ↔ padding = RSAPaddingPSS).
Proof.
  unfold sign_with_key, signature_algorithms, RSAPaddingPSS.
  destruct k; [| |done]; destruct (Z.eqb_spec padding 2); intros Hs; go_inv; simplify_eq;
    (split; [set_solver|naive_solver]).
Qed.

(** The errors of signing are wrapped, except the padding sentinel. *)
Lemma sign_with_key_Fail rnd k digest h padding e :
  sign_with_key rnd k digest h padding = Fail e →
  (e = ErrInvalidPadding ∧ padding = RSAPaddingPSS ∧ ∃ n, k = ECDSAPrivateKey n) ∨
  (∃ m c, e = Wrap m c) ∨ (∃ m, e = ErrNew m).
Proof.
  unfold sign_with_key.
  destruct k; try destruct (Z.eqb_spec padding RSAPaddingPSS);
    try destruct (signer_Sign _ _ _ _); simpl; intros [= <-]; eauto 10.
Qed.

Lemma sign_with_key_ECDSA_PSS rnd k digest h padding :
  (∃ n, k = ECDSAPrivateKey n) → padding = RSAPaddingPSS →
  sign_with_key rnd k digest h padding = Fail ErrInvalidPadding.
Proof. by intros [n ->] ->. Qed.

Lemma DigestSize_Fail hash e : DigestSize hash = Fail e → e = ErrNew "unsupported hash algorithm".
Proof. unfold DigestSize. repeat case_match; congruence. Qed.

Lemma signWithFileStore_found rnd s tp digest hash p f :
  find_identity (cleanThumbprint tp) (fileStore s) = Some f →
  signWithFileStore rnd s tp digest hash p ≠ Fail ErrCertificateNotFound.
Proof.
  intros Hf. unfold signWithFileStore. rewrite Hf.
  destruct (DigestSize hash) as [n|e|] eqn:Hd; simpl; [|by apply DigestSize_Fail in Hd as ->|done].
  destruct (negb _); [done|]. rewrite (DigestSize_CryptoHash _ _ Hd). simpl.
  destruct (sign_with_key _ _ _ _ _) eqn:Hk; simpl; [done| |done].
  by apply sign_with_key_Fail in Hk as [(-> & _ & _)|[(m & c & ->)|(m & ->)]].
Qed.

Lemma signWithFileStore_Ret rnd s tp digest hash p r :
  signWithFileStore rnd s tp digest hash p = Ret r →
  DigestSize hash = Ret (Z.of_nat (length digest)) ∧
  ∃ f h, find_identity (cleanThumbprint tp) (fileStore s) = Some f ∧
    CryptoHash hash = Ret h ∧ Padding r = effective_padding p ∧
    sign_with_key rnd (signer f) digest h (effective_padding p) =
      Ret (Signature r, SignatureAlgorithm r).
Proof.
  unfold signWithFileStore. intros Hs. go_inv.
  destruct (Z.eqb_spec (Z.of_nat (length digest)) x) as [<-|]; simpl in *; [|done].
  destruct (find_identity _ _) as [f|] eqn:Hf; [|done]. go_inv. subst.
  match goal with Hc : CryptoHash _ = Ret ?h |- _ => split; [done|]; exists f, h end.
  simpl. repeat split; try done. match goal with p : list Z * string |- _ => by destruct p end.
Qed.
End signing.

Module LinuxLaws.
Import Linux.

Lemma SignHash_Ret `{Unicode} `{Crypto} rnd s tp digest hash p r :
  SignHash rnd s tp digest hash p = Ret r → signWithFileStore rnd s tp digest hash p = Ret r.
Proof. unfold SignHash. by case_bool_decide. Qed.

#[global] Instance backend_laws `{Unicode} `{Crypto} : CertBackendLaws (FileStore * Z).
Proof.
  split; intros w tp digest h p r (Hd & f & h' & _ & _ & Hp & Hs)%SignHash_Ret%signWithFileStore_Ret;
    [done|done|by eapply sign_with_key_algorithm].
Qed.
End LinuxLaws.

(** ** Properties *)

(** C5: in every store a process reaches through [SetCertDir], whatever the
    file system held at each call, every identity carries the SHA-1 and
    SHA-256 thumbprints of its certificate and a private key that belongs to
    that certificate, and no identity is served while no directory is set. *)
Theorem reachable_store_ok `{Unicode} `{Crypto} s : reachable s → store_ok s.
Proof. induction 1; auto with golib. Qed.

Lemma reachable_store_ok_witness :
  let U := sample_unicode in let C := sample_crypto in let F := sample_dir in
  let s := snd (SetCertDir "certs" init_FileStore) in
  length (fileStore s) = 2%nat ∧ store_ok s.
Proof.
  intros U C F s. split; [vm_compute; reflexivity|].
  apply (@reachable_store_ok U C), reach_SetCertDir, reach_init.
Defined.

(** C7: [SetCertDir] is all or nothing.  On success the store holds, in the
    byte order of the file names, exactly what the certificate files of the
    directory yielded (a file without a certificate yields nothing, no other
    file is skipped); on any failure the previous store stays in force. *)
Theorem SetCertDir_all_or_nothing `{Unicode} `{Crypto} `{FileSystem} dir s :
  dir ≠ "" →
  match SetCertDir dir s with
  | (Ret _, s') =>
      fileStoreDir s' = dir ∧
      ∃ entries loaded,
        os_ReadDir dir = Ret entries ∧
        Forall2 (λ name o, load_one dir name = Ret o) (cert_files entries) loaded ∧
        fileStore s' = omap id loaded ∧
        Sorted String.le (cert_files entries) ∧
        ∀ name, name ∈ cert_files entries ↔
          ∃ e, e ∈ entries ∧ entry_Name e = name ∧ entry_IsDir e = false ∧ is_cert_name name = true
  | (_, s') => s' = s
  end.
Proof.
  intros Hd. unfold SetCertDir. rewrite bool_decide_eq_false_2 by done.
  destruct (loadCertDir dir) as [l| |] eqn:Hl; [|done..]. split; [done|].
  unfold loadCertDir in Hl. go_inv. rename x into entries.
  match goal with Hc : collect _ _ = Ret _ |- _ =>
    apply collect_Ret_iff in Hc as (os & Hos & ->) end.
  exists entries, os. repeat split; try done.
  - apply Sorted_merge_sort, _.
  - intros Hn. unfold cert_files in Hn. rewrite merge_sort_Permutation in Hn.
    apply list_elem_of_fmap in Hn as (e & -> & [[? ?] ?]%list_elem_of_filter). eauto.
  - intros (e & He & <- & ? & ?). unfold cert_files. rewrite merge_sort_Permutation.
    apply list_elem_of_fmap. exists e. by rewrite list_elem_of_filter.
Qed.

Lemma SetCertDir_all_or_nothing_witness :
  let U := sample_unicode in let C := sample_crypto in let F := sample_dir in
  fst (SetCertDir "certs" init_FileStore) = Ret () ∧ snd (SetCertDir "x" init_FileStore) = init_FileStore.
Proof.
  intros U C F. split; [vm_compute; reflexivity|].
  exact (@SetCertDir_all_or_nothing U C F "x" init_FileStore ltac:(discriminate)).
Defined.

(** The two PEM scanning loops end on every file: with the fuel the model
    gives them (one more than the number of bytes) they return what the
    unbounded loops of [certFromFile] and [parseKeyBytes] return. *)
Lemma pem_loops_terminate `{Unicode} `{Crypto} `{!PemLaws} data :
  PemLoop cert_block data (pem_scan cert_block (S (length data)) data) ∧
  PemLoop key_block data (pem_scan key_block (S (length data)) data).
Proof. split; (apply pem_scan_loop; [exact _|apply Nat.lt_succ_diag_r]). Qed.

Lemma pem_loops_terminate_witness :
  let C := sample_crypto in
  @PemLoop C _ cert_block [45; 9; 1; 0; 45; 1; 2; 48; 7]%Z (Some [48; 7]%Z).
Proof.
  exact (proj1 (@pem_loops_terminate sample_unicode sample_crypto sample_pem_laws
    [45; 9; 1; 0; 45; 1; 2; 48; 7]%Z)).
Defined.

(** A signature the file store returns was made, over the caller's digest
    of the right length for the hash, by the identity the selection rule names:
    the first exact match of the normalised thumbprint, or without one the
    first identity it is a prefix of. *)
Lemma signWithFileStore_selects `{Unicode} `{Crypto} rnd s tp digest hash p r :
  signWithFileStore rnd s tp digest hash p = Ret r →
  DigestSize hash = Ret (Z.of_nat (length digest)) ∧
  Padding r = effective_padding p ∧
  ∃ f opts, chosen (cleanThumbprint tp) (fileStore s) f ∧
    signer_Sign rnd (signer f) digest opts = Ret (Signature r) ∧
    (opts = PSSOptions (hash + 4) ∧ SignatureAlgorithm r = "RSASSA-PSS" ∨
     opts = HashOpts (hash + 4) ∧ effective_padding p ≠ RSAPaddingPSS).
Proof.
  intros (Hd & f & h & Hf & Hh & Hp & Hs)%signWithFileStore_Ret. split_and!; [done..|].
  rewrite (DigestSize_CryptoHash _ _ Hd) in Hh. injection Hh as <-.
  exists f. apply find_identity_Some in Hf. unfold sign_with_key in Hs.
  destruct (signer f); [| |done];
    destruct (Z.eqb_spec (effective_padding p) RSAPaddingPSS); go_inv; simplify_eq; eauto 10.
Qed.

Lemma signWithFileStore_selects_witness :
  let U := sample_unicode in let C := sample_crypto in let F := sample_dir in
  let s := snd (SetCertDir "certs" init_FileStore) in
  ∃ f, chosen (cleanThumbprint "30:02:09") (fileStore s) f.
Proof.
  intros U C F s.
  destruct (@signWithFileStore_selects U C 5 s "30:02:09" sample_digest 1 0
    {| Signature := [5; 1; 171; 171; 171; 171]%Z; SignatureAlgorithm := "ECDSA"; Padding := 1 |})
    as (_ & _ & f & opts & Hf & _); [vm_compute; reflexivity|]. exists f. exact Hf.
Defined.

(** When the file store refuses, each sentinel error means what its name
    says: a wrong digest length for a known hash; no identity either of whose
    thumbprints the normalised thumbprint is a prefix of; PSS asked of an ECDSA
    key.  The two other sentinels never come out of it. *)
Lemma signWithFileStore_errors `{Unicode} `{Crypto} rnd s tp digest hash p :
  let res := signWithFileStore rnd s tp digest hash p in
  let len := Z.of_nat (length digest) in
  let target := cleanThumbprint tp in
  (res = Fail ErrInvalidDigest ↔ ∃ n, DigestSize hash = Ret n ∧ n ≠ len) ∧
  (res = Fail ErrCertificateNotFound ↔
     DigestSize hash = Ret len ∧ Forall (λ f, matches_prefix target f = false) (fileStore s)) ∧
  (res = Fail ErrInvalidPadding ↔
     DigestSize hash = Ret len ∧ p = RSAPaddingPSS ∧
     ∃ f k, find_identity target (fileStore s) = Some f ∧ signer f = ECDSAPrivateKey k) ∧
  res ≠ Fail ErrNoPrivateKey ∧ res ≠ Fail ErrUnsupportedPlatform.
Proof.
  intros res len target. subst res. unfold signWithFileStore.
  destruct (DigestSize hash) as [n|e|] eqn:Hd; simpl;
    [|unfold DigestSize in Hd; repeat case_match; simplify_eq; naive_solver..].
  fold len target. destruct (Z.eqb_spec len n) as [Heq|Hne]; simpl; [subst n|naive_solver].
  destruct (find_identity target (fileStore s)) as [f|] eqn:Hf.
  2: { apply find_identity_None in Hf. naive_solver. }
  assert (¬ Forall (λ f, matches_prefix target f = false) (fileStore s)) as Hex.
  { rewrite <- find_identity_None. congruence. }
  rewrite (DigestSize_CryptoHash _ _ Hd). simpl.
  pose proof (effective_padding_PSS p) as Heff.
  pose proof (sign_with_key_ECDSA_PSS rnd (signer f) digest (hash + 4) (effective_padding p)) as Hpss.
  assert (∀ e, sign_with_key rnd (signer f) digest (hash + 4) (effective_padding p) = Fail e →
    e ≠ ErrInvalidDigest ∧ e ≠ ErrCertificateNotFound ∧ e ≠ ErrNoPrivateKey ∧
    e ≠ ErrUnsupportedPlatform ∧
    (e = ErrInvalidPadding → p = RSAPaddingPSS ∧ ∃ k, signer f = ECDSAPrivateKey k)) as Hfail.
  { intros e He. apply sign_with_key_Fail in He as [(-> & ? & ?)|[(m & c & ->)|(m & ->)]];
      split_and!; try done. by rewrite <- Heff. }
  destruct (sign_with_key _ _ _ _ _) as [[sig alg]|e|] eqn:Hk; simpl;
    [|destruct (Hfail e eq_refl) as (? & ? & ? & ? & ?)|];
    split_and!; try congruence; split; try (intros; congruence).
  all: try (intros (? & ? & ?); congruence).
  all: try (intros [_ ?]; congruence).
  all: try (intros (_ & Hp%Heff & g & k & Hg & Hsg); injection Hg as <-; specialize (Hpss (ex_intro _ k Hsg) Hp); congruence).
  intros He. injection He as He. naive_solver.
Qed.

(** Every certificate [ListCertificates] reports can be named to sign: its
    thumbprint selects an identity with that same thumbprint, never a prefix
    match of another certificate and never [ErrCertificateNotFound]. *)
Lemma listed_certificate_is_selected `{Unicode} `{Crypto} `{!HashLaws} s c l :
  store_ok s → Linux.ListCertificates s = Ret l → c ∈ l →
  ∃ f, find_identity (cleanThumbprint (Thumbprint c)) (fileStore s) = Some f ∧
    Thumbprint (info f) = Thumbprint c ∧
    ∀ rnd digest hash p,
      signWithFileStore rnd s (Thumbprint c) digest hash p ≠ Fail ErrCertificateNotFound.
Proof.
  intros Hs Hl Hc. unfold Linux.ListCertificates in Hl. case_bool_decide; [done|].
  injection Hl as <-. apply list_elem_of_fmap in Hc as (g & -> & Hg).
  pose proof (ok_identities _ Hs) as Hall. pose proof Hall as Hok. rewrite Forall_forall in Hok.
  destruct (clean_stored _ _ (Hok _ Hg)) as [Hclean _].
  destruct (find_identity_own _ _ _ Hall Hg) as (f & Hf & Heq).
  rewrite (ok_thumbprint _ _ (Hok _ Hg)), Hclean. exists f. split_and!; [done| |].
  - by rewrite (ok_thumbprint _ _ (Hok f (find_identity_elem_of _ _ _ Hf))).
  - intros rnd digest hash p. apply (signWithFileStore_found _ _ _ _ _ _ f). by rewrite Hclean.
Qed.

Lemma listed_certificate_is_selected_witness :
  let U := sample_unicode in let C := sample_crypto in let F := sample_dir in
  let s := snd (SetCertDir "certs" init_FileStore) in
  ∃ c f, find_identity (cleanThumbprint (Thumbprint c)) (fileStore s) = Some f ∧
    Thumbprint c = "3002096262000000000000000000000000000000".
Proof.
  intros U C F s.
  assert (store_ok s) as Hs by (apply SetCertDir_ok, store_ok_init).
  destruct (Linux.ListCertificates s) as [l| |] eqn:Hl; [|vm_compute in Hl; discriminate..].
  destruct l as [|c1 [|c2 l]]; [vm_compute in Hl; discriminate..|].
  destruct (@listed_certificate_is_selected U C sample_hash_laws s c2 _ Hs Hl) as (f & Hf & _).
  { right. left. }
  exists c2, f. split; [exact Hf|]. vm_compute in Hl. injection Hl as <- <- _. reflexivity.
Defined.
