(* ===== verification/CertService.v ===== *)
(** * [internal/server/service.go] and [logging.go]: the gRPC service

    The two handlers of [CertService] are written against the interface
    [CertBackend] of package [certstore], so their theorems hold on every
    platform that discharges its laws.  The logging interceptor returns the
    handler's result together with the lines it logged. *)

From stdpp Require Import base list strings.
From Stdlib Require Import ZArith Lia Ascii.
From S2P Require Import Prelude GoStrings GoCrypto Samples CertTypes CertFileStore.

(** ** Messages of [cert.proto]

    The generated structs, without the fields of the protobuf runtime; the
    enums are [int32] values, any of which can arrive on the wire. *)

Record PbCertificateInfo := {
  pb_Thumbprint : string;
  pb_Subject : string;
  pb_Issuer : string;
  pb_NotBefore : Z * Z;
  pb_NotAfter : Z * Z;
  pb_KeyAlgorithm : string;
  pb_KeySize : Z;
  pb_HasPrivateKey : bool;
  pb_IsTpm : bool;
  pb_ProviderName : string;
  pb_CertificateDer : list Z;
}.

Definition ListCertificatesResponse : Type := list PbCertificateInfo.

Record SignHashRequest := {
  req_Thumbprint : string;
  req_Digest : list Z;
  req_HashAlgorithm : Z;
  req_RsaPadding : Z;
}.

Record SignHashResponse := {
  resp_Signature : list Z;
  resp_SignatureAlgorithm : string;
  resp_RsaPadding : Z;
}.

Definition RSAPadding_RSA_PADDING_UNSPECIFIED : Z := 0.
Definition RSAPadding_PKCS1 : Z := 1.
Definition RSAPadding_PSS : Z := 2.
Definition HashAlgorithm_SHA256 : Z := 1.
Definition HashAlgorithm_SHA384 : Z := 2.
Definition HashAlgorithm_SHA512 : Z := 3.

(** The getters accept a nil message. *)
Definition GetThumbprint (r : option SignHashRequest) : string := from_option req_Thumbprint "" r.
Definition GetDigest (r : option SignHashRequest) : list Z := from_option req_Digest [] r.
Definition GetHashAlgorithm (r : option SignHashRequest) : Z := from_option req_HashAlgorithm 0%Z r.
Definition GetRsaPadding (r : option SignHashRequest) : Z := from_option req_RsaPadding 0%Z r.

(** gRPC status codes. *)
Definition codes_InvalidArgument : Z := 3.
Definition codes_NotFound : Z := 5.
Definition codes_Internal : Z := 13.

(** The protobuf and gRPC runtime the handlers call. *)
Class GrpcRuntime := {
  timestamppb_New : Z → Z * Z;
  HashAlgorithm_String : Z → string;
  RSAPadding_String : Z → string;
  code_String : Z → string;
  status_FromError : error → Z * string;
}.

(** ** [service.go] *)

Definition certstorePaddingToProto (p : Z) : Z :=
  if (p =? RSAPaddingPSS)%Z then RSAPadding_PSS else RSAPadding_PKCS1.

Definition protoPaddingToCertstore (p : Z) : outcome Z :=
  if ((p =? RSAPadding_RSA_PADDING_UNSPECIFIED) || (p =? RSAPadding_PKCS1))%Z
  then Ret RSAPaddingPKCS1
  else if (p =? RSAPadding_PSS)%Z then Ret RSAPaddingPSS
  else Fail (ErrNew "rsa padding must be PKCS1 or PSS").

Definition protoHashToCertstore (h : Z) : outcome Z :=
  if (h =? HashAlgorithm_SHA256)%Z then Ret HashSHA256
  else if (h =? HashAlgorithm_SHA384)%Z then Ret HashSHA384
  else if (h =? HashAlgorithm_SHA512)%Z then Ret HashSHA512
  else Fail (ErrNew "hash algorithm is required (SHA256, SHA384, or SHA512)").

(** [return nil, status.Error(code, err.Error())]. *)
Definition status_of {A} (code : Z) (m : outcome A) : outcome A :=
  match m with
  | Fail e => Fail (Status code (Error e))
  | _ => m
  end.

(** The switch on the error of [certstore.SignHash]. *)
Definition sign_error_status (e : error) : error :=
  if decide (e = ErrCertificateNotFound) then Status codes_NotFound (Error e)
  else if decide (e ∈ [ErrInvalidDigest; ErrNoPrivateKey; ErrInvalidPadding])
  then Status codes_InvalidArgument (Error e)
  else Status codes_Internal ("sign hash: " +:+ Error e).

Section service.
Context `{GrpcRuntime} {W : Type} `{CertBackend W}.

Definition pb_of_info (c : CertificateInfo) : PbCertificateInfo :=
  {| pb_Thumbprint := Thumbprint c;
     pb_Subject := Subject c;
     pb_Issuer := Issuer c;
     pb_NotBefore := timestamppb_New (NotBefore c);
     pb_NotAfter := timestamppb_New (NotAfter c);
     pb_KeyAlgorithm := KeyAlgorithm c;
     pb_KeySize := to_i32 (KeySize c);
     pb_HasPrivateKey := HasPrivateKey c;
     pb_IsTpm := IsTPM c;
     pb_ProviderName := ProviderName c;
     pb_CertificateDer := CertificateDER c |}.

Definition CertService_ListCertificates (w : W) : outcome ListCertificatesResponse :=
  match ListCertificates w with
  | Fail e => Fail (Status codes_Internal ("list certificates: " +:+ Error e))
  | Panic => Panic
  | Ret certs => Ret (pb_of_info <$> certs)
  end.

Definition CertService_SignHash (w : W) (req : option SignHashRequest) : outcome SignHashResponse :=
  if bool_decide (GetThumbprint req = "")
  then Fail (Status codes_InvalidArgument "thumbprint is required")
  else if (length (GetDigest req) =? 0)%nat
  then Fail (Status codes_InvalidArgument "digest is required")
  else
    hash ← status_of codes_InvalidArgument (protoHashToCertstore (GetHashAlgorithm req));
    padding ← status_of codes_InvalidArgument (protoPaddingToCertstore (GetRsaPadding req));
    match SignHash w (GetThumbprint req) (GetDigest req) hash padding with
    | Fail e => Fail (sign_error_status e)
    | Panic => Panic
    | Ret result =>
        Ret {| resp_Signature := Signature result;
               resp_SignatureAlgorithm := SignatureAlgorithm result;
               resp_RsaPadding := certstorePaddingToProto (Padding result) |}
    end.
End service.

(** ** [logging.go] *)

(** What [peer.FromContext] finds: the address, and for a TLS peer the
    subjects of its certificates. *)
Record Peer := {
  peer_Addr : string;
  peer_TLS : option (list string);
}.

(** The [any] request and response of an interceptor, by dynamic type. *)
Inductive any_request :=
  | AnyListRequest
  | AnySignRequest (r : option SignHashRequest)
  | AnyOtherRequest (ty : string).
Inductive any_response :=
  | AnyListResponse (r : ListCertificatesResponse)
  | AnySignResponse (r : option SignHashResponse)
  | AnyOtherResponse (ty : string).

Definition ListCertificates_FullMethodName : string := "/cert.v1.CertService/ListCertificates".
Definition SignHash_FullMethodName : string := "/cert.v1.CertService/SignHash".

(** The verb [%T]. *)
Definition request_type (r : any_request) : string :=
  match r with
  | AnyListRequest => "*certv1.ListCertificatesRequest"
  | AnySignRequest _ => "*certv1.SignHashRequest"
  | AnyOtherRequest ty => ty
  end.
Definition response_type (r : any_response) : string :=
  match r with
  | AnyListResponse _ => "*certv1.ListCertificatesResponse"
  | AnySignResponse _ => "*certv1.SignHashResponse"
  | AnyOtherResponse ty => ty
  end.

Section logging.
Context `{Unicode} `{GrpcRuntime}.

Definition clientInfo (ctx : option Peer) : string :=
  match ctx with
  | None => "unknown"
  | Some p =>
      match peer_TLS p with
      | Some (subject :: _) => peer_Addr p +:+ " subject=" +:+ strconv_Quote subject
      | _ => peer_Addr p
      end
  end.

Definition formatRequest (method : string) (req : any_request) : string :=
  if bool_decide (method = ListCertificates_FullMethodName) then "ListCertificates"
  else if bool_decide (method = SignHash_FullMethodName) then
    match req with
    | AnySignRequest r =>
        "SignHash thumbprint=" +:+ GetThumbprint r +:+
        " hash=" +:+ HashAlgorithm_String (GetHashAlgorithm r) +:+
        " padding=" +:+ RSAPadding_String (GetRsaPadding r) +:+
        " digest_len=" +:+ Itoa (Z.of_nat (length (GetDigest r)))
    | _ => request_type req
    end
  else request_type req.

Definition formatResponse (method : string) (resp : any_response) : string :=
  if bool_decide (method = ListCertificates_FullMethodName) then
    match resp with
    | AnyListResponse r => "certificates=" +:+ Itoa (Z.of_nat (length r))
    | _ => "response=" +:+ response_type resp
    end
  else if bool_decide (method = SignHash_FullMethodName) then
    match resp with
    | AnySignResponse r =>
        "signature_len=" +:+ Itoa (Z.of_nat (length (from_option resp_Signature [] r))) +:+
        " algorithm=" +:+ from_option resp_SignatureAlgorithm "" r +:+
        " padding=" +:+ RSAPadding_String (from_option resp_RsaPadding 0%Z r)
    | _ => "response=" +:+ response_type resp
    end
  else "response=" +:+ response_type resp.

(** [VerboseUnaryInterceptor(verbose)] applied to a call: the handler's result
    and the lines logged; [duration] is the measured time as printed. *)
Definition VerboseUnaryInterceptor (verbose : bool) (duration : string) (ctx : option Peer)
    (req : any_request) (method : string) (handler : any_request → outcome any_response)
    : outcome any_response * list string :=
  if negb verbose then (handler req, [])
  else
    let client := clientInfo ctx in
    let first := "grpc request: method=" +:+ method +:+ " client=" +:+ client +:+
      " request=" +:+ formatRequest method req in
    let head := "grpc response: method=" +:+ method +:+ " client=" +:+ client +:+
      " duration=" +:+ duration in
    match handler req with
    | Panic => (Panic, [first])
    | Fail err =>
        let st := status_FromError err in
        (Fail err, [first; head +:+ " status=" +:+ code_String (fst st) +:+
           " error=" +:+ strconv_Quote (snd st)])
    | Ret resp =>
        (Ret resp, [first; head +:+ " status=OK " +:+ formatResponse method resp])
    end.

(** A [grpc.UnaryServerInterceptor] for one call: request, method, handler. *)
Definition interceptor : Type :=
  any_request → string → (any_request → outcome any_response) → outcome any_response * list string.

(** [_CertService_ListCertificates_Handler]: [dec] is the outcome of decoding
    the request, [None] a nil interceptor. *)
Definition ListCertificates_Handler {W} `{CertBackend W} (w : W) (dec : outcome unit)
    (i : option interceptor) : outcome any_response * list string :=
  match dec with
  | Fail e => (Fail e, [])
  | Panic => (Panic, [])
  | Ret _ =>
      let handler req :=
        match req with
        | AnyListRequest => AnyListResponse <$> CertService_ListCertificates w
        | _ => Panic
        end in
      match i with
      | None => (handler AnyListRequest, [])
      | Some i => i AnyListRequest ListCertificates_FullMethodName handler
      end
  end.

(** [_CertService_SignHash_Handler]. *)
Definition SignHash_Handler {W} `{CertBackend W} (w : W) (dec : outcome SignHashRequest)
    (i : option interceptor) : outcome any_response * list string :=
  match dec with
  | Fail e => (Fail e, [])
  | Panic => (Panic, [])
  | Ret r =>
      let handler req :=
        match req with
        | AnySignRequest r => (λ x, AnySignResponse (Some x)) <$> CertService_SignHash w r
        | _ => Panic
        end in
      match i with
      | None => (handler (AnySignRequest (Some r)), [])
      | Some i => i (AnySignRequest (Some r)) SignHash_FullMethodName handler
      end
  end.
End logging.

(** ** Lemmas *)

Lemma protoHash_Ret h hash : protoHashToCertstore h = Ret hash → hash = h ∧ (1 ≤ h ≤ 3)%Z.
Proof.
  unfold protoHashToCertstore, HashAlgorithm_SHA256, HashAlgorithm_SHA384, HashAlgorithm_SHA512,
    HashSHA256, HashSHA384, HashSHA512.
  destruct (Z.eqb_spec h 1) as [->|]; [intros [= <-]; split; [done|lia]|].
  destruct (Z.eqb_spec h 2) as [->|]; [intros [= <-]; split; [done|lia]|].
  destruct (Z.eqb_spec h 3) as [->|]; [intros [= <-]; split; [done|lia]|done].
Qed.

Lemma protoPadding_Ret p padding :
  protoPaddingToCertstore p = Ret padding →
  (0 ≤ p ≤ 2)%Z ∧ padding = (if (p =? RSAPadding_PSS)%Z then RSAPaddingPSS else RSAPaddingPKCS1).
Proof.
  unfold protoPaddingToCertstore, RSAPadding_RSA_PADDING_UNSPECIFIED, RSAPadding_PKCS1,
    RSAPadding_PSS, RSAPaddingPSS, RSAPaddingPKCS1.
  destruct (Z.eqb_spec p 0) as [->|]; simpl; [intros [= <-]; split; [lia|done]|].
  destruct (Z.eqb_spec p 1) as [->|]; simpl; [intros [= <-]; split; [lia|done]|].
  destruct (Z.eqb_spec p 2) as [->|]; simpl; [intros [= <-]; split; [lia|done]|done].
Qed.

Lemma status_of_Ret {A} code (m : outcome A) a : status_of code m = Ret a → m = Ret a.
Proof. by destruct m. Qed.

(** The interceptor only logs. *)
Lemma VerboseUnaryInterceptor_result `{Unicode} `{GrpcRuntime} verbose d ctx req method handler :
  (VerboseUnaryInterceptor verbose d ctx req method handler).1 = handler req.
Proof. unfold VerboseUnaryInterceptor. destruct verbose; [|done]. simpl. by destruct (handler req). Qed.

Section service_lemmas.
Context `{GrpcRuntime} {W : Type} `{CertBackend W}.

(** What a request must be for the backend to be asked. *)
Definition valid_request (req : option SignHashRequest) : Prop :=
  GetThumbprint req ≠ "" ∧ GetDigest req ≠ [] ∧
  (1 ≤ GetHashAlgorithm req ≤ 3)%Z ∧ (0 ≤ GetRsaPadding req ≤ 2)%Z.

#[export] Instance valid_request_dec req : Decision (valid_request req).
Proof. unfold valid_request. apply _. Defined.

(** The padding the backend is asked for. *)
Definition requested_padding (req : option SignHashRequest) : Z :=
  if (GetRsaPadding req =? RSAPadding_PSS)%Z then RSAPaddingPSS else RSAPaddingPKCS1.

Lemma SignHash_valid (w : W) req :
  valid_request req →
  CertService_SignHash w req =
    match SignHash w (GetThumbprint req) (GetDigest req) (GetHashAlgorithm req)
            (requested_padding req) with
    | Fail e => Fail (sign_error_status e)
    | Panic => Panic
    | Ret result =>
        Ret {| resp_Signature := Signature result;
               resp_SignatureAlgorithm := SignatureAlgorithm result;
               resp_RsaPadding := certstorePaddingToProto (Padding result) |}
    end.
Proof.
  intros (Ht & Hd & Hh & Hp). unfold CertService_SignHash, requested_padding.
  rewrite bool_decide_eq_false_2 by done.
  destruct (GetDigest req) as [|d ds] eqn:E; [done|]. simpl.
  assert (protoHashToCertstore (GetHashAlgorithm req) = Ret (GetHashAlgorithm req)) as ->.
  { assert (GetHashAlgorithm req = 1 ∨ GetHashAlgorithm req = 2 ∨ GetHashAlgorithm req = 3)%Z
      as [->|[->| ->]] by lia; done. }
  simpl.
  assert (GetRsaPadding req = 0 ∨ GetRsaPadding req = 1 ∨ GetRsaPadding req = 2)%Z
    as [->|[->| ->]] by lia; done.
Qed.

Lemma SignHash_invalid (w : W) req :
  ¬ valid_request req → ∃ msg, CertService_SignHash w req = Fail (Status codes_InvalidArgument msg).
Proof.
  intros Hv. unfold CertService_SignHash. case_bool_decide as Ht; [eauto|].
  destruct (Nat.eqb_spec (length (GetDigest req)) 0) as [|Hd]; [eauto|].
  destruct (protoHashToCertstore _) as [hash|e|] eqn:Hh; simpl; [|eauto|].
  - destruct (protoPaddingToCertstore _) as [p|e|] eqn:Hp; simpl; [|eauto|].
    + destruct Hv. apply protoHash_Ret in Hh as [_ ?]. apply protoPadding_Ret in Hp as [? _].
      split_and!; try lia; [done|]. intros E. by rewrite E in Hd.
    + unfold protoPaddingToCertstore in Hp. by repeat case_match.
  - unfold protoHashToCertstore in Hh. by repeat case_match.
Qed.

Lemma SignHash_Ret_valid (w : W) req resp :
  CertService_SignHash w req = Ret resp →
  valid_request req ∧ ∃ r,
    SignHash w (GetThumbprint req) (GetDigest req) (GetHashAlgorithm req) (requested_padding req)
      = Ret r ∧
    resp = {| resp_Signature := Signature r; resp_SignatureAlgorithm := SignatureAlgorithm r;
              resp_RsaPadding := certstorePaddingToProto (Padding r) |}.
Proof.
  intros Hs. destruct (decide (valid_request req)) as [Hv|Hv].
  - split; [done|]. rewrite SignHash_valid in Hs by done.
    destruct (SignHash w _ _ _ _) as [r| |]; simplify_eq. eauto.
  - destruct (SignHash_invalid w req Hv) as [msg Hm]. congruence.
Qed.

Lemma requested_padding_effective req :
  effective_padding (requested_padding req) = requested_padding req.
Proof. unfold requested_padding. by destruct (_ =? _)%Z. Qed.
End service_lemmas.

#[export] Hint Resolve protoHash_Ret protoPadding_Ret : golib.

(** ** Properties *)

(** C4: on every platform that keeps its promises, a successful [SignHash]
    response answers exactly the request: the digest had the length of the
    requested hash, the reported padding is the requested one (PKCS#1 v1.5 when
    it was left unspecified), the algorithm name says PSS exactly when PSS was
    asked for, and the signature is the backend's, obtained for the request's
    thumbprint and digest. *)
Theorem SignHash_response_answers_request `{GrpcRuntime} {W} `{CertBackendLaws W} w req resp :
  CertService_SignHash w req = Ret resp →
  DigestSize (GetHashAlgorithm req) = Ret (Z.of_nat (length (GetDigest req))) ∧
  resp_RsaPadding resp =
    (if (GetRsaPadding req =? RSAPadding_PSS)%Z then RSAPadding_PSS else RSAPadding_PKCS1) ∧
  resp_SignatureAlgorithm resp ∈ signature_algorithms ∧
  (resp_SignatureAlgorithm resp = "RSASSA-PSS" ↔ GetRsaPadding req = RSAPadding_PSS) ∧
  ∃ r, SignHash w (GetThumbprint req) (GetDigest req) (GetHashAlgorithm req)
         (requested_padding req) = Ret r ∧ Signature r = resp_Signature resp.
Proof.
  intros (_ & r & Hr & ->)%SignHash_Ret_valid. simpl.
  pose proof (sign_digest_size _ _ _ _ _ _ Hr). pose proof (sign_padding _ _ _ _ _ _ Hr) as Hp.
  pose proof (sign_algorithm _ _ _ _ _ _ Hr) as [Hin Hpss].
  rewrite requested_padding_effective in Hp, Hpss. rewrite Hp.
  split_and!; [done| |done| |eauto]; unfold requested_padding, RSAPaddingPSS, RSAPadding_PSS in *.
  - by destruct (Z.eqb_spec (GetRsaPadding req) 2).
  - rewrite Hpss. by destruct (Z.eqb_spec (GetRsaPadding req) 2).
Qed.

Definition sample_runtime : GrpcRuntime := {|
  timestamppb_New t := (t / 10 ^ 9, t `mod` 10 ^ 9)%Z;
  HashAlgorithm_String h := if (h =? 1)%Z then "SHA256" else Itoa h;
  RSAPadding_String p := if (p =? 2)%Z then "PSS" else "PKCS1";
  code_String := Itoa;
  status_FromError e := match e with Status c m => (c, m) | _ => (2%Z, Error e) end;
|}.

Definition sample_store : FileStore :=
  snd (@SetCertDir sample_unicode sample_crypto sample_dir "certs" init_FileStore).

Definition sample_request : SignHashRequest :=
  {| req_Thumbprint := "30 01 07"; req_Digest := sample_digest;
     req_HashAlgorithm := 1; req_RsaPadding := 2 |}.

Lemma SignHash_response_answers_request_witness :
  let U := sample_unicode in let C := sample_crypto in let G := sample_runtime in
  ∃ resp, CertService_SignHash (sample_store, 5%Z) (Some sample_request) = Ret resp ∧
    resp_RsaPadding resp = 2%Z.
Proof.
  intros U C G.
  destruct (CertService_SignHash (sample_store, 5%Z) (Some sample_request)) as [resp| |] eqn:E;
    [|vm_compute in E; discriminate..].
  exists resp. split; [done|].
  exact (proj1 (proj2 (SignHash_response_answers_request _ _ _ E))).
Defined.

(** C6: the gRPC status of every refused [SignHash].  A refusal always carries
    one of three codes: InvalidArgument for a request without thumbprint or
    digest or with an unknown hash or padding, and for the backend's digest,
    key and padding sentinels; NotFound for its not-found sentinel; Internal
    for any other backend error, with the error's text after "sign hash: ". *)
Theorem SignHash_status `{GrpcRuntime} {W} `{CertBackend W} (w : W) req e :
  CertService_SignHash w req = Fail e →
  (¬ valid_request req ∧ ∃ msg, e = Status codes_InvalidArgument msg) ∨
  (valid_request req ∧ ∃ cause,
    SignHash w (GetThumbprint req) (GetDigest req) (GetHashAlgorithm req)
      (requested_padding req) = Fail cause ∧
    (cause = ErrCertificateNotFound ∧ e = Status codes_NotFound "certificate not found" ∨
     cause ∈ [ErrInvalidDigest; ErrNoPrivateKey; ErrInvalidPadding] ∧
       e = Status codes_InvalidArgument (Error cause) ∨
     (cause ∉ [ErrCertificateNotFound; ErrInvalidDigest; ErrNoPrivateKey; ErrInvalidPadding]) ∧
       e = Status codes_Internal ("sign hash: " +:+ Error cause))).
Proof.
  intros Hs. destruct (decide (valid_request req)) as [Hv|Hv].
  - right. split; [done|]. rewrite SignHash_valid in Hs by done.
    destruct (SignHash w _ _ _ _) as [|cause|]; simplify_eq. exists cause. split; [done|].
    unfold sign_error_status. destruct (decide _) as [->|Hnf]; [by left|]. right.
    destruct (decide _); [by left|]. right. split; [|done].
    rewrite list_elem_of_In in *. simpl in *. naive_solver.
  - left. split; [done|]. destruct (SignHash_invalid w req Hv) as [msg Hm].
    exists msg. congruence.
Qed.

Lemma SignHash_status_witness :
  let U := sample_unicode in let C := sample_crypto in let G := sample_runtime in
  let req := {| req_Thumbprint := "FF"; req_Digest := sample_digest;
                req_HashAlgorithm := 1; req_RsaPadding := 0 |} in
  let e := Status codes_NotFound "certificate not found" in
  CertService_SignHash (sample_store, 5%Z) (Some req) = Fail e ∧
  (valid_request (Some req) ∨ ∃ msg, e = Status codes_InvalidArgument msg).
Proof.
  intros U C G req e.
  assert (CertService_SignHash (sample_store, 5%Z) (Some req) = Fail e) as E
    by (vm_compute; reflexivity).
  split; [exact E|].
  destruct (SignHash_status _ _ _ E) as [[_ Hm]|[Hv _]]; [right; exact Hm|left; exact Hv].
Defined.

(** C9: a thumbprint that is nothing but separators (":", " ", "-") passes the
    handler's "thumbprint is required" check and is then a prefix of every
    stored thumbprint, so the Linux server signs with the first certificate of
    the store, exactly as if the caller had named it. *)
Theorem separator_thumbprint_names_first `{GrpcRuntime} `{Unicode} `{Crypto} `{!HashLaws}
    dir f rest rnd tp req :
  let s := {| fileStore := f :: rest; fileStoreDir := dir |} in
  let with_thumbprint tp :=
    Some {| req_Thumbprint := tp; req_Digest := req_Digest req;
            req_HashAlgorithm := req_HashAlgorithm req; req_RsaPadding := req_RsaPadding req |} in
  store_ok s → tp ≠ "" → string_forall is_sep tp = true →
  CertService_SignHash (s, rnd) (with_thumbprint tp) =
  CertService_SignHash (s, rnd) (with_thumbprint (Thumbprint (info f))).
Proof.
  intros s wt Hs Htp Hsep. pose proof (ok_identities _ Hs) as Hall. simpl in Hall.
  pose proof (proj1 (proj1 (Forall_cons _ _ _) Hall)) as Hf.
  assert (cleanThumbprint tp = "") as Hclean by (by apply clean_separators).
  destruct (find_identity_own_first _ _ _ Hall) as [Hown Hne].
  assert (∀ digest hash p,
    Linux.SignHash rnd s tp digest hash p =
    Linux.SignHash rnd s (Thumbprint (info f)) digest hash p) as Heq.
  { intros digest hash p. unfold Linux.SignHash, signWithFileStore. rewrite Hclean.
    simpl fileStore. by rewrite Hown, (find_identity_empty _ _ _ Hall). }
  unfold CertService_SignHash; simpl. rewrite !bool_decide_eq_false_2 by done.
  destruct (length _ =? 0)%nat; [done|]. destruct (status_of _ _); simpl; [|done..].
  destruct (status_of _ _); simpl; [|done..]. by rewrite Heq.
Qed.

Lemma separator_thumbprint_names_first_witness :
  let U := sample_unicode in let C := sample_crypto in let G := sample_runtime in
  let req tp := {| req_Thumbprint := tp; req_Digest := sample_digest;
                   req_HashAlgorithm := 1; req_RsaPadding := 0 |} in
  CertService_SignHash (sample_store, 5%Z) (Some (req ": -")) =
  CertService_SignHash (sample_store, 5%Z)
    (Some (req "3001076100000000000000000000000000000000")) ∧
  is_ret (CertService_SignHash (sample_store, 5%Z) (Some (req ": -"))) = true.
Proof.
  intros U C G req. split; [|vm_compute; reflexivity].
  assert (store_ok sample_store) as Hs by apply SetCertDir_ok, store_ok_init.
  destruct (fileStore sample_store) as [|f rest] eqn:E; [vm_compute in E; discriminate|].
  assert (sample_store = {| fileStore := f :: rest; fileStoreDir := "certs" |}) as Heq.
  { rewrite <- E. reflexivity. }
  assert (Thumbprint (info f) = "3001076100000000000000000000000000000000") as Ht.
  { assert (((λ g, Thumbprint (info g)) <$> head (fileStore sample_store)) =
      Some "3001076100000000000000000000000000000000") as Hh by (vm_compute; reflexivity).
    rewrite E in Hh. injection Hh as Hh. exact Hh. }
  rewrite Heq in *.
  rewrite <- Ht.
  exact (@separator_thumbprint_names_first G U C sample_hash_laws "certs" f rest 5 ": -" (req "")
    Hs ltac:(discriminate) eq_refl).
Defined.

(** The certificate list a client receives is the backend's list, one
    entry per certificate in the same order with every field carried over; a
    key size is exact whenever it fits 32 bits. *)
Lemma ListCertificates_carries_fields `{GrpcRuntime} {W} `{CertBackend W} (w : W) certs :
  ListCertificates w = Ret certs →
  ∃ out, CertService_ListCertificates w = Ret out ∧
    Forall2 (λ c p,
      pb_Thumbprint p = Thumbprint c ∧ pb_Subject p = Subject c ∧ pb_Issuer p = Issuer c ∧
      pb_KeyAlgorithm p = KeyAlgorithm c ∧ pb_HasPrivateKey p = HasPrivateKey c ∧
      pb_IsTpm p = IsTPM c ∧ pb_ProviderName p = ProviderName c ∧
      pb_CertificateDer p = CertificateDER c ∧
      pb_NotBefore p = timestamppb_New (NotBefore c) ∧
      pb_NotAfter p = timestamppb_New (NotAfter c) ∧
      (pb_KeySize p - KeySize c) `mod` 2 ^ 32 = 0 ∧
      ((- 2 ^ 31 ≤ KeySize c < 2 ^ 31) → pb_KeySize p = KeySize c))%Z certs out.
Proof.
  intros Hl. exists (pb_of_info <$> certs). unfold CertService_ListCertificates. rewrite Hl.
  split; [done|]. apply Forall2_fmap_r, Forall_Forall2_diag, Forall_true. intros c.
  split_and!; try done; simpl; [apply to_i32_congr|apply to_i32_id].
Qed.

Lemma ListCertificates_carries_fields_witness :
  let U := sample_unicode in let C := sample_crypto in let G := sample_runtime in
  ∃ out, CertService_ListCertificates (sample_store, 0%Z) = Ret out.
Proof.
  intros U C G.
  destruct (ListCertificates (sample_store, 0%Z)) as [certs| |] eqn:E; [|vm_compute in E; discriminate..].
  destruct (ListCertificates_carries_fields _ _ E) as (out & Ho & _). exists out. exact Ho.
Defined.

(** Requests that differ at most in the bytes of the digest. *)
Definition same_but_digest (a b : SignHashRequest) : Prop :=
  req_Thumbprint a = req_Thumbprint b ∧ length (req_Digest a) = length (req_Digest b) ∧
  req_HashAlgorithm a = req_HashAlgorithm b ∧ req_RsaPadding a = req_RsaPadding b.

(** Responses that differ at most in the bytes of the signature. *)
Definition same_but_signature (a b : SignHashResponse) : Prop :=
  length (resp_Signature a) = length (resp_Signature b) ∧
  resp_SignatureAlgorithm a = resp_SignatureAlgorithm b ∧ resp_RsaPadding a = resp_RsaPadding b.

(** Responses of which the log may show no difference. *)
Definition same_but_secret (x y : any_response) : Prop :=
  match x, y with
  | AnySignResponse (Some x), AnySignResponse (Some y) => same_but_signature x y
  | _, _ => x = y
  end.

(** Two outcomes alike: related results, the same error, or both a panic. *)
Definition alike {A} (R : A → A → Prop) (x y : outcome A) : Prop :=
  match x, y with
  | Ret a, Ret b => R a b
  | Fail e, Fail e' => e = e'
  | Panic, Panic => True
  | _, _ => False
  end.

Lemma formatRequest_same `{GrpcRuntime} method a b :
  same_but_digest a b →
  formatRequest method (AnySignRequest (Some a)) = formatRequest method (AnySignRequest (Some b)).
Proof. intros (Ht & Hl & Hh & Hp). unfold formatRequest. simpl. by rewrite Ht, Hl, Hh, Hp. Qed.

Lemma formatResponse_same `{GrpcRuntime} method x y :
  same_but_secret x y → formatResponse method x = formatResponse method y.
Proof.
  destruct x as [|[x|]|], y as [|[y|]|]; simpl; try congruence.
  intros (Hs & Ha & Hr). unfold formatResponse. simpl. by rewrite Hs, Ha, Hr.
Qed.

(** Whatever the two handlers do, alike outcomes on the two requests log the
    same lines: the request's, and that of the response or of the error. *)
Lemma VerboseUnaryInterceptor_alike `{Unicode} `{GrpcRuntime} verbose d ctx method a b ha hb :
  same_but_digest a b →
  alike same_but_secret (ha (AnySignRequest (Some a))) (hb (AnySignRequest (Some b))) →
  (VerboseUnaryInterceptor verbose d ctx (AnySignRequest (Some a)) method ha).2 =
  (VerboseUnaryInterceptor verbose d ctx (AnySignRequest (Some b)) method hb).2.
Proof.
  intros Hab Ho. unfold VerboseUnaryInterceptor. destruct verbose; [|done]. simpl.
  rewrite (formatRequest_same method a b Hab).
  destruct (ha _) as [x|e|], (hb _) as [y|e'|]; simpl in *; try done; [|by subst].
  by rewrite (formatResponse_same method x y).
Qed.

(** The service adds no digest byte to what the backend answers. *)
Lemma CertService_SignHash_alike `{GrpcRuntime} {W} `{CertBackend W} (w : W) a b :
  same_but_digest a b →
  (∀ hash padding, alike (λ r r', length (Signature r) = length (Signature r') ∧
       SignatureAlgorithm r = SignatureAlgorithm r' ∧ Padding r = Padding r')
     (SignHash w (req_Thumbprint a) (req_Digest a) hash padding)
     (SignHash w (req_Thumbprint b) (req_Digest b) hash padding)) →
  alike same_but_signature (CertService_SignHash w (Some a)) (CertService_SignHash w (Some b)).
Proof.
  intros (Ht & Hl & Hh & Hp) Hs. unfold CertService_SignHash. simpl.
  rewrite <- Hl, <- Hh, <- Hp. rewrite <- Ht in Hs |- *. case_bool_decide; [done|].
  destruct (_ =? 0)%nat; [done|].
  destruct (status_of _ (protoHashToCertstore _)) as [hash| |]; simpl; [|done..].
  destruct (status_of _ (protoPaddingToCertstore _)) as [padding| |]; simpl; [|done..].
  specialize (Hs hash padding).
  destruct (SignHash w _ (req_Digest a) _ _) as [r|e|], (SignHash w _ (req_Digest b) _ _) as [r'|e'|];
    simpl in *; try done; [|by subst]. destruct Hs as (? & ? & Hpd). split_and!; [done..|].
  simpl. by rewrite Hpd.
Qed.

(** C10: the logging interceptor only logs.  Verbose or not, the caller gets
    exactly what the handler returned; when not verbose nothing is logged; and
    the lines logged for a signing call, answered, refused or ended by a panic,
    do not depend on the bytes of the digest or of the signature: two requests
    that differ in the digest's bytes only, and whose handlers answer the same
    but for the signature's bytes, or with the same error, log the same lines.
    With the service's own handler they do when the backend answers so. *)
Theorem interceptor_transparent_and_discreet `{Unicode} `{GrpcRuntime} verbose d ctx method :
  (∀ req handler, (VerboseUnaryInterceptor verbose d ctx req method handler).1 = handler req) ∧
  (∀ req handler, (VerboseUnaryInterceptor false d ctx req method handler).2 = []) ∧
  (∀ a b ha hb, same_but_digest a b →
     alike same_but_secret (ha (AnySignRequest (Some a))) (hb (AnySignRequest (Some b))) →
     (VerboseUnaryInterceptor verbose d ctx (AnySignRequest (Some a)) method ha).2 =
     (VerboseUnaryInterceptor verbose d ctx (AnySignRequest (Some b)) method hb).2) ∧
  (∀ W (B : CertBackend W) (w : W) a b, same_but_digest a b →
     (∀ hash padding, alike (λ r r', length (Signature r) = length (Signature r') ∧
          SignatureAlgorithm r = SignatureAlgorithm r' ∧ Padding r = Padding r')
        (SignHash w (req_Thumbprint a) (req_Digest a) hash padding)
        (SignHash w (req_Thumbprint b) (req_Digest b) hash padding)) →
     (SignHash_Handler w (Ret a) (Some (VerboseUnaryInterceptor verbose d ctx))).2 =
     (SignHash_Handler w (Ret b) (Some (VerboseUnaryInterceptor verbose d ctx))).2).
Proof.
  split_and!.
  - intros req handler. apply VerboseUnaryInterceptor_result.
  - done.
  - intros a b ha hb. apply VerboseUnaryInterceptor_alike.
  - intros W B w a b Hab Hs. apply VerboseUnaryInterceptor_alike; [done|].
    pose proof (CertService_SignHash_alike w a b Hab Hs) as Ha.
    by destruct (CertService_SignHash w (Some a)), (CertService_SignHash w (Some b)).
Qed.

(** Two refused signing calls of a verbose server. *)
Lemma interceptor_transparent_and_discreet_witness :
  let U := sample_unicode in let C := sample_crypto in let G := sample_runtime in
  let req d := {| req_Thumbprint := "77"; req_Digest := replicate 32 d; req_HashAlgorithm := 1;
                  req_RsaPadding := 1 |} in
  let handler r :=
    match r with
    | AnySignRequest q => (λ x, AnySignResponse (Some x)) <$> CertService_SignHash (sample_store, 0%Z) q
    | _ => Panic
    end in
  let logged d := (VerboseUnaryInterceptor true "1ms" None (AnySignRequest (Some (req d)))
                     SignHash_FullMethodName handler).2 in
  length (logged 1%Z) = 2%nat ∧ logged 1%Z = logged 2%Z.
Proof.
  intros U C G req handler logged. split; [vm_compute; reflexivity|].
  apply (proj1 (proj2 (proj2 (@interceptor_transparent_and_discreet U G true "1ms" None
    SignHash_FullMethodName))) (req 1%Z) (req 2%Z) handler handler); [by split_and!|].
  vm_compute. reflexivity.
Defined.
