(* ===== verification/CertWindows.v ===== *)
(** * [internal/certstore/ncrypt.go] and [store_windows.go]

    The Windows platform.  The certificate stores, certificate contexts and
    key handles belong to crypt32.dll and ncrypt.dll: every call into them is
    an operation of [WinApi], which transforms the state of the operating
    system and is recorded in a trace of resource events.  The functions of
    the code are computations of the monad [M]: they may return, fail, panic
    or (an enumeration that never ends) be cut off. *)

From stdpp Require Import base list sets gmap strings.
From Stdlib Require Import ZArith Lia Ascii.
From S2P Require Import Prelude WinSys GoStrings GoCrypto Samples CertTypes CertFileStore.
From S2P Require Import CertService.

(** ** The Windows API *)

Definition winNcryptKeySpec : Z := 0xFFFFFFFF.
Definition winBCryptPadPKCS1 : Z := 0x2.
Definition winBCryptPadPSS : Z := 0x8.
Definition certKeyProvInfoPropID : Z := 2.
Definition winCertStoreCurrentUser : Z := 0x10000.
Definition winCertStoreLocalMachine : Z := 0x20000.
Definition winCertStoreReadOnly : Z := 0x8000.
Definition CRYPT_E_NOT_FOUND : Z := 0x80092004.

Definition providerMPCP : string := "Microsoft Platform Crypto Provider".

(** The padding information passed to [NCryptSignHash]. *)
Inductive PaddingInfo :=
  | NoPadding
  | pkcs1PaddingInfo (pszAlgID : string)
  | pssPaddingInfo (pszAlgID : string) (cbSalt : Z).

(** The calls with an output buffer take its size, [None] for the size query,
    and give a status, the bytes written and the size reported. *)
Class WinApi (OS : Type) := {
  CertOpenStore : Z → OS → outcome Z * OS;
  CertCloseStore : Z → OS → () * OS;
  CertEnumCertificatesInStore : Z → option Z → OS → outcome (option Z) * OS;
  CertFindCertificateInStore : Z → list Z → OS → outcome (option Z) * OS;
  CertFreeCertificateContext : Z → OS → () * OS;
  (** the fields [EncodedCert] (nil or the memory it points to) and [Length]. *)
  cert_context : Z → OS → (option (list Z) * Z) * OS;
  CertGetCertificateContextProperty : Z → Z → option Z → OS → (Z * list Z * Z) * OS;
  (** [ProvName] of the structure in the buffer, nil or the string it points to. *)
  cryptKeyProvInfo_ProvName : list Z → option string;
  (** status, handle, key spec, caller must free. *)
  CryptAcquireCertificatePrivateKey : Z → OS → (Z * Z * Z * bool) * OS;
  NCryptGetProperty : Z → string → option Z → OS → (Z * list Z * Z) * OS;
  NCryptSignHash : Z → PaddingInfo → list Z → Z → option Z → OS → (Z * list Z * Z) * OS;
  NCryptFreeObject : Z → OS → () * OS;
  UTF16ToString : list Z → string;
  UTF16PtrFromString : string → outcome (list Z);
  Errno_Error : Z → string;
  (** DER of a SEQUENCE of two INTEGERs, as [cryptobyte.Builder] writes it. *)
  asn1_two_integers : Z → Z → outcome (list Z);
  (** How many contexts an enumeration from here still yields. *)
  enum_left : OS → Z → option Z → nat;
}.

(** The documented behaviour of the calls that the proofs use. *)
Class WinLaws (OS : Type) `{WinApi OS} := {
  (** with [CRYPT_ACQUIRE_ONLY_NCRYPT_KEY_FLAG] the key is an NCrypt key, and a
      handle that must be freed is not null. *)
  acquire_ncrypt c w r k spec free w' :
    CryptAcquireCertificatePrivateKey c w = ((r, k, spec, free), w') →
    r ≠ 0%Z → spec = winNcryptKeySpec ∧ k ≠ 0%Z;
}.

(** A store holds finitely many certificates, and looking at a certificate
    does not lengthen the enumeration. *)
Class WinEnumLaws (OS : Type) `{WinApi OS} := {
  enum_decreases h prev w c w' :
    CertEnumCertificatesInStore h prev w = (Ret (Some c), w') →
    (enum_left w' h (Some c) < enum_left w h prev)%nat;
  enum_context h p c w : enum_left (cert_context c w).2 h p = enum_left w h p;
  enum_property h p c n b w :
    enum_left (CertGetCertificateContextProperty c n b w).2 h p = enum_left w h p;
  enum_acquire h p c w :
    enum_left (CryptAcquireCertificatePrivateKey c w).2 h p = enum_left w h p;
  enum_key_property h p k n b w : enum_left (NCryptGetProperty k n b w).2 h p = enum_left w h p;
  enum_free_key h p k w : enum_left (NCryptFreeObject k w).2 h p = enum_left w h p;
}.

(** ** [ncrypt.go] *)

Section ncrypt.
Context {OS : Type} `{WinApi OS}.

Definition errno (r : Z) : error := Foreign r (Errno_Error r).

(** [make([]byte, n)] after a call wrote [data] into it. *)
Definition filled (n : Z) (data : list Z) : list Z :=
  take (Z.to_nat n) (data ++ replicate (Z.to_nat n) 0%Z).

(** A key handle, with the resource that keeps it valid: the handle itself when
    the caller must free it, else the certificate context, in which the system
    caches the key. *)
Record key_handle := { kh_value : Z; kh_owner : resource }.

(** The size query, the allocation, the call with [&buf[0]] and [buf[:size]]
    that [getProperty], [signECDSA], [signRSAPKCS1] and [signRSAPSS] share; both
    calls use the key handle. *)
Definition sized_call (kh : key_handle) (call : option Z → OS → (Z * list Z * Z) * OS)
    : M OS (list Z) :=
  _ ← emit (Use (kh_owner kh));
  '(r, _, size) ← sys (call None);
  if negb (r =? 0)%Z then lift (Fail (errno r))
  else if (size =? 0)%Z then lift Panic
  else
    _ ← emit (Use (kh_owner kh));
    '(r, data, size') ← sys (call (Some size));
    if negb (r =? 0)%Z then lift (Fail (errno r))
    else if (size <? size')%Z then lift Panic
    else mret (take (Z.to_nat size') (filled size data)).

Definition getProperty (kh : key_handle) (property : string) : M OS (list Z) :=
  sized_call kh (NCryptGetProperty (kh_value kh) property).

(** The little-endian 16-bit units of a buffer, an odd last byte ignored. *)
Fixpoint utf16_units (buf : list Z) : list Z :=
  match buf with
  | lo :: hi :: buf => Z.lor lo (Z.shiftl hi 8) :: utf16_units buf
  | _ => []
  end.

Definition getPropertyString (kh : key_handle) (property : string) : M OS string :=
  buf ← getProperty kh property;
  if (length buf <? 2)%nat then lift (Fail (ErrNew "empty property value"))
  else mret (UTF16ToString (utf16_units buf)).

(** [(kh, algorithmGroup, callerMustFree)]. *)
Definition acquirePrivateKey (cert : Z) : M OS (key_handle * string * bool) :=
  _ ← emit (Use (RCtx cert));
  _ ← emit (KeyRequest cert);
  '(r, k, spec, mustFree) ← sys (CryptAcquireCertificatePrivateKey cert);
  _ ← (if negb (r =? 0)%Z && mustFree then emit (Acquire (RKey k)) else mret ());
  let kh := {| kh_value := k; kh_owner := if mustFree : bool then RKey k else RCtx cert |} in
  if (r =? 0)%Z || negb (spec =? winNcryptKeySpec)%Z then lift (Fail ErrNoPrivateKey)
  else
    algGroup ← try (getPropertyString kh "Algorithm Group");
    mret (kh, match algGroup with Ret g => g | _ => "RSA" end, mustFree).

Definition freeNCryptObject (handle : key_handle) : M OS () :=
  if negb (kh_value handle =? 0)%Z then
    _ ← emit (Release (RKey (kh_value handle))); sys (NCryptFreeObject (kh_value handle))
  else mret ().

Definition hasPrivateKey (cert : Z) : M OS bool :=
  o ← try (acquirePrivateKey cert);
  match o with
  | Ret (kh, _, callerMustFree) =>
      _ ← (if callerMustFree : bool then freeNCryptObject kh else mret ());
      mret true
  | _ => mret false
  end.

(** [new(big.Int).SetBytes]. *)
Definition SetBytes (l : list Z) : Z := be_value l.

Definition packECDSASignature (raw : list Z) (halfLen : Z) : outcome (list Z) :=
  if (Z.of_nat (length raw) <? halfLen * 2)%Z then Fail (ErrNew "invalid ECDSA signature length")
  else
    let n := Z.to_nat halfLen in
    asn1_two_integers (SetBytes (take n raw)) (SetBytes (take n (drop n raw))).

(** [&digest[0]]. *)
Definition needs_first (digest : list Z) (m : M OS (list Z)) : M OS (list Z) :=
  match digest with [] => lift Panic | _ => m end.

Definition signECDSA (kh : key_handle) (digest : list Z) : M OS (list Z) :=
  buf ← needs_first digest (sized_call kh (NCryptSignHash (kh_value kh) NoPadding digest 0));
  lift (packECDSASignature buf (Z.of_nat (length buf) / 2)).

Definition signRSAPKCS1 (kh : key_handle) (digest : list Z) (algID : string) : M OS (list Z) :=
  needs_first digest
    (sized_call kh (NCryptSignHash (kh_value kh) (pkcs1PaddingInfo algID) digest winBCryptPadPKCS1)).

Definition signRSAPSS (kh : key_handle) (digest : list Z) (algID : string) (saltLen : Z)
    : M OS (list Z) :=
  needs_first digest
    (sized_call kh
       (NCryptSignHash (kh_value kh) (pssPaddingInfo algID saltLen) digest winBCryptPadPSS)).

Definition winAlgIDs (h : Z) : option string :=
  if (h =? crypto_SHA256)%Z then Some "SHA256"
  else if (h =? crypto_SHA384)%Z then Some "SHA384"
  else if (h =? crypto_SHA512)%Z then Some "SHA512"
  else None.

(** The switch on the algorithm group. *)
Definition sign_in_group (kh : key_handle) (algGroup : string) (digest : list Z) (hash padding : Z)
    : M OS (list Z * string) :=
  if bool_decide (algGroup ∈ ["ECDSA"; "ECDH"]) then
    if (padding =? RSAPaddingPSS)%Z then lift (Fail ErrInvalidPadding)
    else sig ← signECDSA kh digest; mret (sig, "ECDSA")
  else if bool_decide (algGroup = "RSA") then
    match winAlgIDs hash with
    | None => lift (Fail (ErrNew "unsupported hash algorithm"))
    | Some algID =>
        if (padding =? RSAPaddingPSS)%Z then
          sig ← signRSAPSS kh digest algID (to_u32 (Z.of_nat (length digest)));
          mret (sig, "RSASSA-PSS")
        else sig ← signRSAPKCS1 kh digest algID; mret (sig, "RSASSA-PKCS1-v1_5")
    end
  else lift (Fail (ErrNew "unsupported signing algorithm")).

Definition signHashWithCert (cert : Z) (digest : list Z) (hash padding : Z)
    : M OS (list Z * string) :=
  let padding := effective_padding padding in
  '(kh, algGroup, callerMustFree) ← acquirePrivateKey cert;
  with_defer (if callerMustFree : bool then freeNCryptObject kh else mret ())
    (sign_in_group kh algGroup digest hash padding).

Definition certProviderName (cert : Z) : M OS string :=
  _ ← emit (Use (RCtx cert));
  '(r, _, size) ← sys (CertGetCertificateContextProperty cert certKeyProvInfoPropID None);
  if (r =? 0)%Z || (size =? 0)%Z then mret ""
  else
    _ ← emit (Use (RCtx cert));
    '(r, data, _) ← sys (CertGetCertificateContextProperty cert certKeyProvInfoPropID (Some size));
    if (r =? 0)%Z then mret ""
    else mret (default "" (cryptKeyProvInfo_ProvName (filled size data))).

Definition isTPMCert (providerName : string) : bool := bool_decide (providerName = providerMPCP).
End ncrypt.

(** ** [store_windows.go] *)

Section store_windows.
Context {OS : Type} `{WinApi OS} `{Unicode} `{Crypto}.

Definition keyMetadata (cert : Certificate) : string * Z :=
  match cert_PublicKey cert with
  | RSAPublicKey N _ => ("RSA", BitLen N)
  | ECDSAPublicKey bits => ("ECDSA", bits)
  | OtherPublicKey _ => (PublicKeyAlgorithm cert, 0%Z)
  end.

Definition thumbprintFromCert (cert : Certificate) : string :=
  ToUpper (hex_EncodeToString (sha1_Sum (Raw cert))).

(** The [CertificateInfo] literal of the two functions below. *)
Definition win_info (der : list Z) (cert : Certificate) (providerName : string)
    : CertificateInfo :=
  {| Thumbprint := thumbprintFromCert cert;
     Subject := cert_Subject cert;
     Issuer := cert_Issuer cert;
     NotBefore := cert_NotBefore cert;
     NotAfter := cert_NotAfter cert;
     KeyAlgorithm := fst (keyMetadata cert);
     KeySize := snd (keyMetadata cert);
     HasPrivateKey := true;
     IsTPM := isTPMCert providerName;
     ProviderName := providerName;
     CertificateDER := der |}.

Definition openStoreWithFlags (flags : Z) : M OS Z :=
  r ← sys (CertOpenStore flags);
  match r with
  | Ret store => _ ← emit (Acquire (RStore store)); mret store
  | Fail e => lift (Fail (Wrap "open certificate store" e))
  | Panic => lift Panic
  end.

Definition openMyStore : M OS Z :=
  openStoreWithFlags (Z.lor winCertStoreCurrentUser winCertStoreReadOnly).

Definition closeStore (store : Z) : M OS () :=
  _ ← emit (Release (RStore store)); sys (CertCloseStore store).

(** [CertEnumCertificatesInStore] always frees the previous context. *)
Definition enum_call (store : Z) (prev : option Z) : M OS (outcome (option Z)) :=
  _ ← emit (Use (RStore store));
  _ ← (match prev with Some c => emit (Release (RCtx c)) | None => mret () end);
  r ← sys (CertEnumCertificatesInStore store prev);
  _ ← (match r with Ret (Some c) => emit (Acquire (RCtx c)) | _ => mret () end);
  mret r.

(** [for { ctx, err := CertEnumCertificatesInStore(store, prev); if err != nil
    { on_err }; if ctx == nil { break }; body; prev = ctx }] on the variables
    [st] the body updates; [on_err] is [Ret tt] to break. *)
Fixpoint for_contexts {St} (fuel : nat) (store : Z) (on_err : error → outcome ())
    (body : Z → St → M OS St) (prev : option Z) (st : St) : M OS St :=
  match fuel with
  | O => λ w, (Cut, w, [])
  | S fuel =>
      r ← enum_call store prev;
      match r with
      | Fail e => _ ← lift (on_err e); mret st
      | Panic => lift Panic
      | Ret None => mret st
      | Ret (Some ctx) =>
          st ← body ctx st;
          for_contexts fuel store on_err body (Some ctx) st
      end
  end.

(** The loop with the fuel the enumeration needs. *)
Definition for_all_contexts {St} (store : Z) (on_err : error → outcome ())
    (body : Z → St → M OS St) (st : St) : M OS St :=
  λ w, for_contexts (S (enum_left w store None)) store on_err body None st w.

Definition certInfoFromContextWithoutKeyCheck (ctx : Z) (providerName : string)
    : M OS (option CertificateInfo) :=
  _ ← emit (Use (RCtx ctx));
  '(enc, len) ← sys (cert_context ctx);
  match enc with
  | None => mret None
  | Some mem =>
      if (len =? 0)%Z then mret None
      else
        let der := take (Z.to_nat len) mem in
        match x509_ParseCertificate der with
        | Ret cert => mret (Some (win_info der cert providerName))
        | Fail _ => mret None
        | Panic => lift Panic
        end
  end.

(** [unsafe.Slice(ctx.EncodedCert, ctx.Length)]. *)
Definition unsafe_Slice (enc : option (list Z)) (len : Z) : outcome (list Z) :=
  match enc with
  | Some mem => Ret (take (Z.to_nat len) mem)
  | None => if (len =? 0)%Z then Ret [] else Panic
  end.

Definition certInfoFromContext (ctx : Z) : M OS (option CertificateInfo) :=
  has ← hasPrivateKey ctx;
  if negb has then mret None
  else
    _ ← emit (Use (RCtx ctx));
    '(enc, len) ← sys (cert_context ctx);
    der ← lift (unsafe_Slice enc len);
    match x509_ParseCertificate der with
    | Ret cert =>
        providerName ← certProviderName ctx;
        mret (Some (win_info der cert providerName))
    | Fail _ => mret None
    | Panic => lift Panic
    end.

Definition is_not_found (e : error) : bool :=
  match e with Foreign id _ => (id =? CRYPT_E_NOT_FOUND)%Z | _ => false end.

Definition win_ListCertificates : M OS (list CertificateInfo) :=
  store ← openMyStore;
  with_defer (closeStore store)
    (for_all_contexts store
       (λ e, if is_not_found e then Ret () else Fail (Wrap "enumerate certificates" e))
       (λ ctx out, o ← certInfoFromContext ctx; mret (out ++ option_list o)) []).

(** The test of the loop of [ListCertificatesByProvider]. *)
Definition win_selects (providerName prov : string) : bool :=
  negb (bool_decide (prov = "")) &&
  (bool_decide (providerName = "") || EqualFold prov providerName).

(** The body of that loop, on [seen] and [out]. *)
Definition by_provider_step (providerName : string) (ctx : Z)
    (st : gset string * list CertificateInfo) : M OS (gset string * list CertificateInfo) :=
  prov ← certProviderName ctx;
  if win_selects providerName prov then
    o ← certInfoFromContextWithoutKeyCheck ctx prov;
    match o with
    | None => mret st
    | Some info =>
        let tp := NormalizeThumbprint (Thumbprint info) in
        if decide (tp ∈ fst st) then mret st
        else mret ({[ tp ]} ∪ fst st, snd st ++ [info])
    end
  else mret st.

Definition by_provider_store (providerName : string) (flags : Z)
    (st : gset string * list CertificateInfo) : M OS (gset string * list CertificateInfo) :=
  r ← try (openStoreWithFlags flags);
  match r with
  | Ret store =>
      st ← for_all_contexts store (λ _, Ret ()) (by_provider_step providerName) st;
      _ ← closeStore store;
      mret st
  | _ => mret st
  end.

Definition win_ListCertificatesByProvider (providerName : string) : M OS (list CertificateInfo) :=
  st ← by_provider_store providerName
    (Z.lor winCertStoreCurrentUser winCertStoreReadOnly) (∅, []);
  st ← by_provider_store providerName
    (Z.lor winCertStoreLocalMachine winCertStoreReadOnly) st;
  mret (snd st).

Definition findCertByThumbprint (store : Z) (thumbprint : string) : M OS Z :=
  let normalized := remove_byte " " (ToUpper thumbprint) in
  match UTF16PtrFromString normalized with
  | Ret ptr =>
      _ ← emit (Use (RStore store));
      r ← sys (CertFindCertificateInStore store ptr);
      match r with
      | Ret (Some ctx) => _ ← emit (Acquire (RCtx ctx)); mret ctx
      | Panic => lift Panic
      | _ => lift (Fail ErrCertificateNotFound)
      end
  | Fail _ => lift (Fail ErrCertificateNotFound)
  | Panic => lift Panic
  end.

Definition freeContext (ctx : Z) : M OS () :=
  _ ← emit (Release (RCtx ctx)); sys (CertFreeCertificateContext ctx).

Definition wrap_sign {A} (m : M OS A) : M OS A :=
  r ← try m; lift (wrapf "sign hash" r).

Definition win_SignHash (thumbprint : string) (digest : list Z) (hash padding : Z)
    : M OS SignResult :=
  cryptoHash ← lift (CryptoHash hash);
  expectedLen ← lift (DigestSize hash);
  if negb (Z.of_nat (length digest) =? expectedLen)%Z then lift (Fail ErrInvalidDigest)
  else
    let padding := effective_padding padding in
    store ← openMyStore;
    with_defer (closeStore store)
      (ctx ← findCertByThumbprint store thumbprint;
       with_defer (freeContext ctx)
         ('(sig, algName) ← wrap_sign (signHashWithCert ctx digest cryptoHash padding);
          mret {| Signature := sig; SignatureAlgorithm := algName; Padding := padding |})).
End store_windows.

(** The exported functions, on the operating system and the file store. *)
Module Windows.
Section Windows.
Context {OS : Type} `{WinApi OS} `{Unicode} `{Crypto}.

Definition outcome_of {A} (r : run A) : outcome A :=
  match r with Done o => o | Cut => Panic end.

Definition ListCertificates (s : FileStore) (w : OS) : run (list CertificateInfo) :=
  if negb (bool_decide (CertDir s = "")) then Done (Ret (listFromFileStore s))
  else result win_ListCertificates w.

Definition ListCertificatesByProvider (s : FileStore) (providerName : string) (w : OS)
    : run (list CertificateInfo) :=
  if negb (bool_decide (CertDir s = "")) then Done (Ret (listFromFileStoreByProvider providerName s))
  else result (win_ListCertificatesByProvider providerName) w.

Definition SignHash (rnd : Z) (s : FileStore) (thumbprint : string) (digest : list Z)
    (hash padding : Z) (w : OS) : run SignResult :=
  if negb (bool_decide (CertDir s = "")) then
    Done (signWithFileStore rnd s thumbprint digest hash padding)
  else result (win_SignHash thumbprint digest hash padding) w.
End Windows.

#[global] Instance backend {OS} `{WinApi OS} `{Unicode} `{Crypto} : CertBackend (FileStore * Z * OS) := {|
  CertTypes.ListCertificates w := outcome_of (ListCertificates w.1.1 w.2);
  CertTypes.ListCertificatesByProvider w p := outcome_of (ListCertificatesByProvider w.1.1 p w.2);
  CertTypes.SignHash w tp d h p := outcome_of (SignHash w.1.2 w.1.1 tp d h p w.2);
|}.
End Windows.

(** ** The resources of the operations *)

Section frames.
Context {OS : Type} `{WinApi OS}.

Lemma frame_sized_call L kh call : kh_owner kh ∈ L → frame L (sized_call kh call) (λ _, L) L.
Proof. intros Hk. unfold sized_call. repeat frame_step. Qed.

Lemma frame_getPropertyString L kh p :
  kh_owner kh ∈ L → frame L (getPropertyString kh p) (λ _, L) L.
Proof.
  intros Hk. unfold getPropertyString, getProperty.
  eapply frame_bind; [by apply frame_sized_call|intros buf; simpl]. repeat frame_step.
Qed.

Lemma frame_packed L (m : M OS (list Z)) f :
  frame L m (λ _, L) L → frame L (m ≫= λ b, lift (f b)) (λ _ : list Z, L) L.
Proof. intros Hm. eapply frame_bind; [exact Hm|intros b; simpl]. frame_step. Qed.

Lemma frame_needs_first L digest (m : M OS (list Z)) :
  frame L m (λ _, L) L → frame L (needs_first digest m) (λ _, L) L.
Proof. intros Hm. destruct digest; [apply frame_lift|exact Hm]. Qed.

Lemma frame_named L (m : M OS (list Z)) (alg : string) :
  frame L m (λ _, L) L → frame L (m ≫= λ sig, mret (sig, alg)) (λ _, L) L.
Proof. intros Hm. eapply frame_bind; [exact Hm|intros b; simpl]. apply (frame_ret _ (λ _, L)). Qed.

Lemma frame_sign_in_group L kh g digest hash padding :
  kh_owner kh ∈ L → frame L (sign_in_group kh g digest hash padding) (λ _, L) L.
Proof.
  intros Hk. unfold sign_in_group, signECDSA, signRSAPSS, signRSAPKCS1.
  repeat first [frame_step|apply frame_named|apply frame_packed|apply frame_needs_first
    |by apply frame_sized_call].
Qed.

Lemma frame_certProviderName L c : RCtx c ∈ L → frame L (certProviderName c) (λ _, L) L.
Proof. intros Hc. unfold certProviderName. repeat frame_step. Qed.

Context `{!WinLaws OS}.

Lemma sys_acquire_returns c :
  returns (sys (CryptAcquireCertificatePrivateKey c))
    (λ '(r, k, spec, free), r ≠ 0%Z → spec = winNcryptKeySpec ∧ k ≠ 0%Z).
Proof.
  intros w x Hx. unfold result, sys in Hx.
  destruct (CryptAcquireCertificatePrivateKey c w) as [[[[r k] spec] free] w1] eqn:E.
  injection Hx as <-. intros Hr. by eapply acquire_ncrypt.
Qed.

(** What keeps an acquired key valid. *)
Lemma acquire_returns c :
  returns (acquirePrivateKey c) (λ '(kh, _, free),
    kh_value kh ≠ 0%Z ∧ kh_owner kh = if free : bool then RKey (kh_value kh) else RCtx c).
Proof.
  unfold acquirePrivateKey. do 2 (apply (returns_bind _ _ (λ _, True)); [done|intros _ _]).
  eapply returns_bind; [apply sys_acquire_returns|intros [[[r k] spec] free] Hlaw].
  apply (returns_bind _ _ (λ _, True)); [done|intros _ _].
  destruct (Z.eqb_spec r 0) as [->|Hr]; simpl; [by apply returns_lift|].
  destruct (Hlaw Hr) as [-> Hk]. rewrite Z.eqb_refl. simpl.
  apply (returns_bind _ _ (λ _, True)); [done|intros g _]. by apply returns_ret.
Qed.

Lemma frame_acquire_key L c :
  RCtx c ∈ L →
  frame L (acquirePrivateKey c) (λ r, if r.2 : bool then RKey (kh_value r.1.1) :: L else L) L.
Proof.
  intros Hc. unfold acquirePrivateKey. do 2 frame_step.
  eapply frame_bind_returns; [apply sys_acquire_returns|apply frame_sys|].
  intros [[[r k] spec] free] Hlaw. simpl.
  destruct (Z.eqb_spec r 0) as [->|Hr]; simpl; [repeat frame_step|].
  destruct (Hlaw Hr) as [-> Hk]. rewrite Z.eqb_refl. simpl.
  destruct free; simpl; frame_step;
    (eapply frame_bind; [eapply frame_try, frame_getPropertyString; simpl; first [left|done]|]);
    intros []; intros ?; reflexivity.
Qed.

Lemma frame_free_key L k :
  kh_value k ≠ 0%Z → frame (RKey (kh_value k) :: L) (freeNCryptObject k) (λ _, L) L.
Proof.
  intros Hk. unfold freeNCryptObject. destruct (Z.eqb_spec (kh_value k) 0); [done|]. simpl.
  frame_step. apply frame_sys.
Qed.

Lemma free_key_done k w : result (freeNCryptObject k) w = Done (Ret ()).
Proof.
  unfold freeNCryptObject, result. destruct (negb _); [|done].
  rewrite bind_run. simpl. unfold sys. by destruct (NCryptFreeObject (kh_value k) w) as [[] ?].
Qed.

Lemma frame_hasPrivateKey L c : RCtx c ∈ L → frame L (hasPrivateKey c) (λ _, L) L.
Proof.
  intros Hc. unfold hasPrivateKey.
  eapply frame_bind_returns; [apply returns_try, acquire_returns|
    eapply frame_try, (frame_acquire_key L c Hc)|].
  intros [[[k g] []]| |]; simpl; intros Hk; [destruct Hk as [Hk _]|repeat frame_step..].
  eapply frame_bind; [by apply frame_free_key|intros []]. frame_step.
Qed.

Lemma frame_signHashWithCert L c digest hash padding :
  RCtx c ∈ L → frame L (signHashWithCert c digest hash padding) (λ _, L) L.
Proof.
  intros Hc. unfold signHashWithCert.
  eapply frame_bind_returns; [apply acquire_returns|by apply frame_acquire_key|].
  intros [[k g] []]; simpl; intros [Hk Ho].
  - eapply frame_conseq; [|done].
    eapply (frame_defer _ _ _ (RKey (kh_value k) :: L) L); [|apply free_key_done|by apply frame_free_key].
    apply frame_sign_in_group. rewrite Ho. left.
  - eapply (frame_defer _ _ _ L L); [apply frame_sign_in_group; by rewrite Ho|done|].
    apply (frame_ret _ (λ _, L)).
Qed.
End frames.

Section store_frames.
Context {OS : Type} `{WinApi OS} `{Unicode} `{Crypto}.

Lemma frame_nofail {A} L (m : M OS A) Q L1 L2 :
  fails m (λ _, False) → frame L m Q L1 → frame L m Q L2.
Proof.
  intros Hf Hm w. specialize (Hm w). specialize (Hf w).
  destruct (result m w) as [[a|e|]|]; try done. destruct (Hf e eq_refl).
Qed.

Lemma frame_openStore L flags :
  frame L (openStoreWithFlags flags) (λ h, RStore h :: L) L.
Proof.
  unfold openStoreWithFlags. eapply frame_bind; [apply frame_sys|intros [h|e|]; simpl].
  - frame_step. intros w. reflexivity.
  - apply frame_fail.
  - by intros w.
Qed.

Lemma frame_closeStore L h : frame (RStore h :: L) (closeStore h) (λ _, L) L.
Proof. unfold closeStore. frame_step. apply frame_sys. Qed.

Lemma closeStore_done h w : result (closeStore h) w = Done (Ret ()).
Proof.
  unfold closeStore, result. rewrite bind_run. simpl. unfold sys.
  by destruct (CertCloseStore h w) as [[] ?].
Qed.

Lemma frame_freeContext L c : frame (RCtx c :: L) (freeContext c) (λ _, L) L.
Proof. unfold freeContext. frame_step. apply frame_sys. Qed.

Lemma freeContext_done c w : result (freeContext c) w = Done (Ret ()).
Proof.
  unfold freeContext, result. rewrite bind_run. simpl. unfold sys.
  by destruct (CertFreeCertificateContext c w) as [[] ?].
Qed.

(** The resources live before a turn of an enumeration. *)
Definition with_prev (prev : option Z) (L : list resource) : list resource :=
  match prev with Some c => RCtx c :: L | None => L end.

Lemma frame_enum_call L h prev :
  RStore h ∈ L →
  frame (with_prev prev L) (enum_call h prev)
    (λ r, match r with Ret o => with_prev o L | _ => L end) L.
Proof.
  intros Hh. unfold enum_call.
  eapply frame_bind; [apply frame_use; destruct prev; [by right|done]|intros []; simpl].
  apply (frame_bind _ _ _ (λ _, L)).
  { destruct prev; simpl; [apply frame_release|intros w; reflexivity]. }
  intros []. eapply frame_bind; [apply frame_sys|intros r; simpl].
  destruct r as [[c|]|e|]; simpl; frame_step; intros w; reflexivity.
Qed.

Lemma frame_for_contexts {St} L fuel h on_err (body : Z → St → M OS St) prev st :
  RStore h ∈ L →
  (∀ c st, fails (body c st) (λ _, False)) →
  (∀ c st, frame (RCtx c :: L) (body c st) (λ _, RCtx c :: L) L) →
  frame (with_prev prev L) (for_contexts fuel h on_err body prev st) (λ _, L) L.
Proof.
  intros Hh Hf Hb. revert prev st. induction fuel as [|fuel IH]; intros prev st; simpl; [by intros w|].
  eapply frame_bind; [by apply frame_enum_call|].
  intros [[c|]|e|]; simpl; [|intros w; reflexivity| |by intros w].
  - eapply frame_bind; [apply Hb|intros st'; apply (IH (Some c))].
  - eapply frame_bind; [apply frame_lift|intros []; intros w; reflexivity].
Qed.

Lemma frame_info_without_check L c prov :
  RCtx c ∈ L → frame L (certInfoFromContextWithoutKeyCheck c prov) (λ _, L) L.
Proof.
  intros Hc. unfold certInfoFromContextWithoutKeyCheck. repeat frame_step.
Qed.

Lemma frame_findCert L h tp :
  RStore h ∈ L → frame L (findCertByThumbprint h tp) (λ c, RCtx c :: L) L.
Proof.
  intros Hh. unfold findCertByThumbprint. destruct (UTF16PtrFromString _); [|apply frame_fail|by intros w].
  frame_step. eapply frame_bind; [apply frame_sys|intros r].
  destruct r as [[c|]|e|]; simpl; [|apply frame_fail..|by intros w].
  frame_step. intros w; reflexivity.
Qed.

Lemma fails_match_info (o : outcome Certificate) (f : Certificate → M OS (option CertificateInfo)) :
  (∀ cert, fails (f cert) (λ _, False)) →
  fails (match o with Ret cert => f cert | Fail _ => mret None | Panic => lift Panic end)
    (λ _, False).
Proof. intros Hf. destruct o; [apply Hf|apply fails_ret|by apply fails_lift]. Qed.

Lemma fails_certProviderName c P : fails (certProviderName c) P.
Proof.
  unfold certProviderName. apply fails_bind; [apply fails_emit|intros _].
  apply fails_bind; [apply fails_sys|intros [[r ?] size]]. destruct (_ || _); [apply fails_ret|].
  apply fails_bind; [apply fails_emit|intros _].
  apply fails_bind; [apply fails_sys|intros [[r' data] ?]].
  destruct (_ =? _)%Z; apply fails_ret.
Qed.

Lemma fails_info_without_check c prov :
  fails (certInfoFromContextWithoutKeyCheck c prov) (λ _, False).
Proof.
  unfold certInfoFromContextWithoutKeyCheck. apply fails_bind; [apply fails_emit|intros _].
  apply fails_bind; [apply fails_sys|intros [[mem|] len]]; [|apply fails_ret].
  destruct (_ =? _)%Z; [apply fails_ret|]. apply fails_match_info. intros cert. apply fails_ret.
Qed.

Lemma fails_hasPrivateKey c : fails (hasPrivateKey c) (λ _, False).
Proof.
  unfold hasPrivateKey. apply fails_bind; [apply fails_try|].
  intros [[[k g] free]| |]; [|apply fails_ret..]. apply fails_bind; [|intros _; apply fails_ret].
  destruct free; [|apply fails_ret]. unfold freeNCryptObject. destruct (negb _); [|apply fails_ret].
  apply fails_bind; [apply fails_emit|intros _; apply fails_sys].
Qed.

Lemma fails_info c : fails (certInfoFromContext c) (λ _, False).
Proof.
  unfold certInfoFromContext. apply fails_bind; [apply fails_hasPrivateKey|intros has].
  destruct (negb has); [apply fails_ret|]. apply fails_bind; [apply fails_emit|intros _].
  apply fails_bind; [apply fails_sys|intros [enc len]]. apply fails_bind.
  { apply fails_lift. intros e. destruct enc; simpl; [done|]. by destruct (_ =? _)%Z. }
  intros der. apply fails_match_info. intros cert.
  apply fails_bind; [apply fails_certProviderName|intros prov; apply fails_ret].
Qed.

Context `{!WinLaws OS}.

Lemma frame_info L c : RCtx c ∈ L → frame L (certInfoFromContext c) (λ _, L) L.
Proof.
  intros Hc. unfold certInfoFromContext.
  eapply frame_bind; [by apply frame_hasPrivateKey|intros has; simpl].
  destruct (negb has); [by intros w|]. repeat frame_step.
  eapply frame_bind; [by apply frame_certProviderName|intros prov]. frame_step.
Qed.

Lemma frame_ListCertificates : frame [] win_ListCertificates (λ _, []) [].
Proof.
  unfold win_ListCertificates, openMyStore.
  eapply frame_bind; [apply frame_openStore|intros h; simpl].
  eapply frame_defer; [|apply closeStore_done|apply frame_closeStore].
  intros w. apply (frame_for_contexts [RStore h] _ h _ _ None); [by left| |].
  - intros c out. apply fails_bind; [apply fails_info|intros o; apply fails_ret].
  - intros c out. eapply frame_bind.
    + eapply frame_nofail; [apply fails_info|apply frame_info; left].
    + intros o. intros w'. reflexivity.
Qed.

Lemma fails_enum_call h prev P : fails (enum_call h prev) P.
Proof.
  unfold enum_call. apply fails_bind; [apply fails_emit|intros _].
  apply fails_bind; [destruct prev; [apply fails_emit|apply fails_ret]|intros _].
  apply fails_bind; [apply fails_sys|intros r].
  apply fails_bind; [|intros _; apply fails_ret].
  destruct r as [[c|]|e|]; [apply fails_emit|apply fails_ret..].
Qed.

Lemma fails_for_contexts {St} (P : error → Prop) fuel h on_err (body : Z → St → M OS St) prev st :
  (∀ e e', on_err e = Fail e' → P e') → (∀ c st, fails (body c st) P) →
  fails (for_contexts fuel h on_err body prev st) P.
Proof.
  intros He Hb. revert prev st. induction fuel as [|fuel IH]; intros prev st; simpl; [by intros w e|].
  apply fails_bind; [apply fails_enum_call|].
  intros [[c|]|e|]; [| |..].
  - apply fails_bind; [apply Hb|intros st'; apply IH].
  - apply fails_ret.
  - apply fails_bind; [apply fails_lift; eauto|intros _; apply fails_ret].
  - by apply fails_lift.
Qed.

Lemma fails_by_provider_step p c st : fails (by_provider_step p c st) (λ _, False).
Proof.
  unfold by_provider_step. apply fails_bind; [apply fails_certProviderName|intros prov].
  destruct (win_selects _ _); [|apply fails_ret].
  apply fails_bind; [apply fails_info_without_check|intros [info|]]; [|apply fails_ret].
  destruct (decide _); apply fails_ret.
Qed.

Lemma frame_by_provider_step L p c st :
  RCtx c ∈ L → frame L (by_provider_step p c st) (λ _, L) L.
Proof.
  intros Hc. unfold by_provider_step.
  eapply frame_bind; [by apply frame_certProviderName|intros prov; simpl].
  destruct (win_selects _ _); [|by intros w].
  eapply frame_bind; [by apply frame_info_without_check|intros [info|]; simpl]; [|by intros w].
  by destruct (decide _); intros w.
Qed.

Lemma frame_by_provider_store p flags st :
  frame [] (by_provider_store p flags st) (λ _, []) [].
Proof.
  unfold by_provider_store. eapply frame_bind; [eapply frame_try, frame_openStore|].
  intros [h| |]; simpl; [|by intros w..].
  apply (frame_bind _ _ _ (λ _, [RStore h])).
  - apply (frame_nofail _ _ _ [RStore h]).
    { intros w. apply fails_for_contexts; [done|apply fails_by_provider_step]. }
    intros w. apply (frame_for_contexts [RStore h] _ h _ _ None); [by left| |].
    + apply fails_by_provider_step.
    + intros c st'. eapply frame_nofail; [apply fails_by_provider_step|].
      apply frame_by_provider_step. left.
  - intros st'. eapply frame_bind; [apply frame_closeStore|intros []]. by intros w.
Qed.

Lemma frame_ListCertificatesByProvider p :
  frame [] (win_ListCertificatesByProvider p) (λ _, []) [].
Proof.
  unfold win_ListCertificatesByProvider.
  eapply frame_bind; [apply frame_by_provider_store|intros st1].
  eapply frame_bind; [apply frame_by_provider_store|intros st2]. by intros w.
Qed.

Lemma frame_SignHash tp digest hash p : frame [] (win_SignHash tp digest hash p) (λ _, []) [].
Proof.
  unfold win_SignHash. frame_step. frame_step. destruct (negb _); [apply frame_fail|].
  unfold openMyStore. eapply frame_bind; [apply frame_openStore|intros h; simpl].
  eapply frame_defer; [|apply closeStore_done|apply frame_closeStore].
  eapply frame_bind; [apply frame_findCert; left|intros c; simpl].
  eapply frame_defer; [|apply freeContext_done|apply frame_freeContext].
  apply (frame_bind _ _ _ (λ _, [RCtx c; RStore h])); [|intros [sig alg]; by intros w].
  unfold wrap_sign. eapply frame_bind.
  - eapply frame_try, frame_signHashWithCert. left.
  - intros [| |]; apply frame_lift.
Qed.

Lemma fails_by_provider p : fails (win_ListCertificatesByProvider p) (λ _, False).
Proof.
  assert (∀ flags st, fails (by_provider_store p flags st) (λ _, False)) as Hs.
  { intros flags st. unfold by_provider_store. apply fails_bind; [apply fails_try|].
    intros [h|e|]; [|apply fails_ret..]. apply fails_bind.
    - intros w. apply fails_for_contexts; [done|apply fails_by_provider_step].
    - intros st'. apply fails_bind; [|intros _; apply fails_ret].
      apply fails_bind; [apply fails_emit|intros _; apply fails_sys]. }
  apply fails_bind; [apply Hs|intros st1]. apply fails_bind; [apply Hs|intros st2; apply fails_ret].
Qed.
End store_frames.

(** ** Enumerations end *)

Section ends.
Context {OS : Type} `{WinApi OS} `{Unicode} `{Crypto} `{!WinEnumLaws OS}.

(** [m] is never cut off, and leaves the enumerations of [h] where they are. *)
Definition steady {A} (h : Z) (m : M OS A) : Prop :=
  ∀ w, result m w ≠ Cut ∧ ∀ p, enum_left (m w).1.2 h p = enum_left w h p.

Lemma steady_bind {A B} h (m : M OS A) (f : A → M OS B) :
  steady h m → (∀ a, steady h (f a)) → steady h (m ≫= f).
Proof.
  intros Hm Hf w. destruct (Hm w) as [Hc Hl]. unfold result in *. rewrite bind_run.
  destruct (m w) as [[[[a|e|]|] w'] ev]; simpl in *; [|done..].
  destruct (Hf a w') as [Hc' Hl']. unfold result in *.
  destruct (f a w') as [[r w''] ev']; simpl in *. split; [done|]. intros q. by rewrite Hl', Hl.
Qed.

Lemma steady_lift {A} h (o : outcome A) : steady h (lift o).
Proof. done. Qed.
Lemma steady_ret {A} h (a : A) : steady h (mret a).
Proof. done. Qed.
Lemma steady_emit h e : steady h (emit e).
Proof. done. Qed.

Lemma steady_sys {A} h (f : OS → A * OS) :
  (∀ w p, enum_left (f w).2 h p = enum_left w h p) → steady h (sys f).
Proof.
  intros Hf w. specialize (Hf w). unfold result, sys in *. by destruct (f w) as [a w'].
Qed.

Lemma steady_try {A} h (m : M OS A) : steady h m → steady h (try m).
Proof.
  intros Hm w. destruct (Hm w) as [Hc Hl]. unfold result, try in *.
  by destruct (m w) as [[[[a|e|]|] w'] ev].
Qed.

Lemma steady_if {A} h (b : bool) (m1 m2 : M OS A) :
  steady h m1 → steady h m2 → steady h (if b then m1 else m2).
Proof. by destruct b. Qed.

Lemma steady_getProperty h k p : steady h (getProperty k p).
Proof.
  unfold getProperty, sized_call. apply steady_bind; [apply steady_emit|intros _]. apply steady_bind.
  { apply steady_sys. intros w q. apply enum_key_property. }
  intros [[r ?] size]. repeat apply steady_if; try apply steady_lift.
  apply steady_bind; [apply steady_emit|intros _].
  apply steady_bind; [apply steady_sys; intros; apply enum_key_property|].
  intros [[r' data] size']. repeat apply steady_if; first [apply steady_lift|apply steady_ret].
Qed.

Lemma steady_acquire h c : steady h (acquirePrivateKey c).
Proof.
  unfold acquirePrivateKey. do 2 (apply steady_bind; [apply steady_emit|intros _]).
  apply steady_bind; [apply steady_sys; intros; apply enum_acquire|].
  intros [[[r k] spec] free].
  apply steady_bind; [apply steady_if; [apply steady_emit|apply steady_ret]|intros _].
  apply steady_if; [apply steady_lift|].
  apply steady_bind; [|intros g; apply steady_ret]. apply steady_try.
  unfold getPropertyString. apply steady_bind; [apply steady_getProperty|intros buf].
  apply steady_if; [apply steady_lift|apply steady_ret].
Qed.

Lemma steady_hasPrivateKey h c : steady h (hasPrivateKey c).
Proof.
  unfold hasPrivateKey. apply steady_bind; [apply steady_try, steady_acquire|].
  intros [[[k g] free]|e|]; [|apply steady_ret..].
  apply steady_bind; [|intros _; apply steady_ret]. apply steady_if; [|apply steady_ret].
  apply steady_if; [|apply steady_ret]. apply steady_bind; [apply steady_emit|intros _].
  apply steady_sys. intros. apply enum_free_key.
Qed.

Lemma steady_certProviderName h c : steady h (certProviderName c).
Proof.
  unfold certProviderName. apply steady_bind; [apply steady_emit|intros _].
  apply steady_bind; [apply steady_sys; intros; apply enum_property|intros [[r ?] size]].
  apply steady_if; [apply steady_ret|]. apply steady_bind; [apply steady_emit|intros _].
  apply steady_bind; [apply steady_sys; intros; apply enum_property|intros [[r' data] ?]].
  apply steady_if; apply steady_ret.
Qed.

Lemma steady_context h c : steady h (sys (cert_context c)).
Proof. apply steady_sys. intros. apply enum_context. Qed.

Lemma steady_info h c : steady h (certInfoFromContext c).
Proof.
  unfold certInfoFromContext. apply steady_bind; [apply steady_hasPrivateKey|intros has].
  apply steady_if; [apply steady_ret|]. apply steady_bind; [apply steady_emit|intros _].
  apply steady_bind; [apply steady_context|intros [enc len]].
  apply steady_bind; [apply steady_lift|intros der].
  destruct (x509_ParseCertificate der); [|apply steady_ret|apply steady_lift].
  apply steady_bind; [apply steady_certProviderName|intros prov; apply steady_ret].
Qed.

Lemma steady_by_provider_step h p c st : steady h (by_provider_step p c st).
Proof.
  unfold by_provider_step. apply steady_bind; [apply steady_certProviderName|intros prov].
  apply steady_if; [|apply steady_ret]. apply steady_bind.
  - unfold certInfoFromContextWithoutKeyCheck. apply steady_bind; [apply steady_emit|intros _].
    apply steady_bind; [apply steady_context|intros [[mem|] len]]; [|apply steady_ret].
    apply steady_if; [apply steady_ret|]. simpl.
    destruct (x509_ParseCertificate _); first [apply steady_ret|apply steady_lift].
  - intros [info|]; [|apply steady_ret]. simpl. destruct (decide _); apply steady_ret.
Qed.

Lemma enum_call_run h prev w :
  ∃ ev, enum_call h prev w =
    let r := CertEnumCertificatesInStore h prev w in (Done (Ret r.1), r.2, ev).
Proof.
  unfold enum_call, mbind, M_bind, emit, sys, mret, M_ret, result. simpl.
  destruct prev as [c|]; simpl;
    destruct (CertEnumCertificatesInStore h _ w) as [[[c'|]|e|] w']; simpl; eauto.
Qed.

Lemma for_contexts_ends {St} h on_err (body : Z → St → M OS St) fuel prev st w :
  (∀ c st, steady h (body c st)) → (enum_left w h prev < fuel)%nat →
  result (for_contexts fuel h on_err body prev st) w ≠ Cut.
Proof.
  intros Hb. revert prev st w. induction fuel as [|fuel IH]; intros prev st w Hlt; [lia|].
  simpl. unfold result. rewrite bind_run.
  destruct (enum_call_run h prev w) as [ev ->]. simpl.
  destruct (CertEnumCertificatesInStore h prev w) as [[[c|]|e|] w'] eqn:E; simpl;
    [|done|by destruct (on_err e)|done].
  apply enum_decreases in E. rewrite bind_run. destruct (Hb c st w') as [Hc Hl].
  unfold result in Hc. destruct (body c st w') as [[[[st'|e|]|] w''] ev']; simpl in *; try done.
  assert (enum_left w'' h (Some c) < fuel)%nat as Hlt' by (rewrite Hl; lia).
  specialize (IH (Some c) st' w'' Hlt'). unfold result in IH.
  by destruct (for_contexts _ _ _ _ _ _ w'') as [[r ?] ?].
Qed.

Lemma for_all_contexts_ends {St} h on_err (body : Z → St → M OS St) st w :
  (∀ c st, steady h (body c st)) → result (for_all_contexts h on_err body st) w ≠ Cut.
Proof. intros Hb. apply for_contexts_ends; [done|lia]. Qed.

Lemma ends_bind {A B} (m : M OS A) (f : A → M OS B) :
  (∀ w, result m w ≠ Cut) → (∀ a w, result (f a) w ≠ Cut) → ∀ w, result (m ≫= f) w ≠ Cut.
Proof.
  intros Hm Hf w. specialize (Hm w). unfold result in *. rewrite bind_run.
  destruct (m w) as [[[[a|e|]|] w'] ev]; simpl in *; [|done..].
  specialize (Hf a w'). unfold result in Hf. by destruct (f a w') as [[r w''] ev'].
Qed.

Lemma ends_sys {A} (f : OS → A * OS) w : result (sys f) w ≠ Cut.
Proof. unfold result, sys. by destruct (f w). Qed.

Lemma ends_openStore flags w : result (openStoreWithFlags flags) w ≠ Cut.
Proof.
  revert w. unfold openStoreWithFlags. apply ends_bind; [apply ends_sys|intros [h|e|] w]; done.
Qed.

Lemma ends_closeStore h w : result (closeStore h) w ≠ Cut.
Proof. by rewrite closeStore_done. Qed.

Lemma ends_defer {A} c (m : M OS A) w :
  result m w ≠ Cut → result (with_defer c m) w ≠ Cut.
Proof.
  unfold result, with_defer. destruct (m w) as [[[o|] w'] ev]; simpl; [|done]. intros _.
  by destruct (c w') as [[? ?] ?].
Qed.

Lemma ends_ListCertificates w : result win_ListCertificates w ≠ Cut.
Proof.
  revert w. unfold win_ListCertificates, openMyStore. apply ends_bind; [apply ends_openStore|].
  intros h w. apply ends_defer, for_all_contexts_ends. intros c out.
  apply steady_bind; [apply steady_info|intros o; apply steady_ret].
Qed.

Lemma ends_by_provider_store p flags st w : result (by_provider_store p flags st) w ≠ Cut.
Proof.
  revert w. unfold by_provider_store. apply ends_bind.
  - intros w. pose proof (ends_openStore flags w). unfold result, try in *.
    by destruct (openStoreWithFlags flags w) as [[[[]|] ?] ?].
  - intros [h|e|] w; [|done..]. revert w. apply ends_bind.
    + intros w. apply for_all_contexts_ends, steady_by_provider_step.
    + intros st'. apply ends_bind; [apply ends_closeStore|done].
Qed.

Lemma ends_ListCertificatesByProvider p w : result (win_ListCertificatesByProvider p) w ≠ Cut.
Proof.
  revert w. unfold win_ListCertificatesByProvider.
  apply ends_bind; [apply ends_by_provider_store|intros st1].
  apply ends_bind; [apply ends_by_provider_store|intros st2 w]. done.
Qed.
End ends.

(** ** What the operations return *)

Section contents.
Context {OS : Type} `{WinApi OS} `{Unicode} `{Crypto}.

(** A certificate as both listings report it. *)
Definition reported (c : CertificateInfo) : Prop :=
  ∃ cert, x509_ParseCertificate (CertificateDER c) = Ret cert ∧
    c = win_info (CertificateDER c) cert (ProviderName c).

(** The invariant of the loops of [ListCertificatesByProvider]. *)
Record by_provider_ok (providerName : string) (st : gset string * list CertificateInfo) : Prop := {
  bp_seen : fst st = list_to_set (Thumbprint <$> snd st);
  bp_nodup : NoDup (Thumbprint <$> snd st);
  bp_selected : Forall (λ c, win_selects providerName (ProviderName c) = true ∧ reported c) (snd st);
}.

Lemma reported_normal c : reported c → NormalizeThumbprint (Thumbprint c) = Thumbprint c.
Proof. intros (cert & _ & ->). simpl. apply upper_hex_normal. Qed.

Lemma returns_info_without_check c prov :
  returns (certInfoFromContextWithoutKeyCheck c prov)
    (λ o, ∀ i, o = Some i → reported i ∧ ProviderName i = prov).
Proof.
  unfold certInfoFromContextWithoutKeyCheck.
  apply (returns_bind _ _ (λ _, True)); [done|intros _ _].
  apply (returns_bind _ _ (λ _, True)); [done|intros [[mem|] len] _]; [|by apply returns_ret].
  destruct (_ =? _)%Z; [by apply returns_ret|]. simpl.
  destruct (x509_ParseCertificate _) as [cert| |] eqn:E; [|by apply returns_ret|by apply returns_lift].
  apply returns_ret. intros i [= <-]. split; [|done]. by exists cert.
Qed.

Lemma by_provider_step_ok p c st :
  by_provider_ok p st → returns (by_provider_step p c st) (by_provider_ok p).
Proof.
  intros Hst. unfold by_provider_step. apply (returns_bind _ _ (λ _, True)); [done|intros prov _].
  destruct (win_selects p prov) eqn:Hsel; [|by apply returns_ret].
  eapply returns_bind; [apply returns_info_without_check|intros [info|] Hi]; [|by apply returns_ret].
  destruct (Hi _ eq_refl) as [Hrep Hprov]. simpl. rewrite (reported_normal _ Hrep).
  destruct (decide _) as [|Hnew]; apply returns_ret; [done|].
  destruct Hst as [Hseen Hnd Hall]. rewrite Hseen in Hnew.
  split; simpl; rewrite ?fmap_app; simpl.
  - rewrite Hseen, list_to_set_app_L. simpl. set_solver.
  - apply NoDup_app. split_and!; [done| |apply NoDup_singleton].
    intros x Hx ->%list_elem_of_singleton. apply Hnew. by apply elem_of_list_to_set.
  - apply Forall_app. split; [done|]. apply Forall_singleton. by rewrite Hprov.
Qed.

Lemma returns_for_contexts {St} (I : St → Prop) fuel h on_err (body : Z → St → M OS St) prev st :
  (∀ c st, I st → returns (body c st) I) → I st →
  returns (for_contexts fuel h on_err body prev st) I.
Proof.
  intros Hb. revert prev st. induction fuel as [|fuel IH]; intros prev st Hst; simpl; [by intros w a|].
  apply (returns_bind _ _ (λ _, True)); [done|].
  intros [[c|]|e|] _; [| |..].
  - eapply returns_bind; [by apply Hb|intros st' Hst'; by apply IH].
  - by apply returns_ret.
  - apply (returns_bind _ _ (λ _, True)); [done|intros _ _; by apply returns_ret].
  - by apply returns_lift.
Qed.

Lemma by_provider_store_ok p flags st :
  by_provider_ok p st → returns (by_provider_store p flags st) (by_provider_ok p).
Proof.
  intros Hst. unfold by_provider_store. apply (returns_bind _ _ (λ _, True)); [done|].
  intros [h| |] _; [|by apply returns_ret..].
  eapply (returns_bind _ _ (by_provider_ok p)).
  - intros w. apply returns_for_contexts; [|done]. intros c st'. apply by_provider_step_ok.
  - intros st' Hst'. apply (returns_bind _ _ (λ _, True)); [done|intros _ _; by apply returns_ret].
Qed.

Lemma by_provider_returns p :
  returns (win_ListCertificatesByProvider p)
    (λ out, NoDup (Thumbprint <$> out) ∧
       Forall (λ c, win_selects p (ProviderName c) = true ∧ reported c) out).
Proof.
  unfold win_ListCertificatesByProvider.
  assert (by_provider_ok p (∅, [])) as Hinit by (split; simpl; [done|apply NoDup_nil_2|constructor]).
  eapply returns_bind; [by apply by_provider_store_ok|intros st1 H1'].
  eapply returns_bind; [by apply by_provider_store_ok|intros st2 [_ Hnd Hall]].
  by apply returns_ret.
Qed.

(** [m] asks for no private key. *)
Definition no_request {A} (m : M OS A) : Prop := ∀ w c, KeyRequest c ∉ trace m w.

Lemma no_request_bind {A B} (m : M OS A) (f : A → M OS B) :
  no_request m → (∀ a, no_request (f a)) → no_request (m ≫= f).
Proof.
  intros Hm Hf w c. specialize (Hm w c). unfold trace in *. rewrite bind_run.
  destruct (m w) as [[[[a|e|]|] w'] ev]; simpl in *; [|done..].
  specialize (Hf a w' c). unfold trace in Hf.
  destruct (f a w') as [[r w''] ev']. simpl in *. by rewrite elem_of_app; intros [].
Qed.

Lemma no_request_nil {A} (m : M OS A) : (∀ w, trace m w = []) → no_request m.
Proof. intros Hm w c. rewrite Hm. apply not_elem_of_nil. Qed.

Lemma no_request_lift {A} (o : outcome A) : no_request (lift o).
Proof. by apply no_request_nil. Qed.
Lemma no_request_ret {A} (a : A) : no_request (mret a).
Proof. by apply no_request_nil. Qed.
Lemma no_request_sys {A} (f : OS → A * OS) : no_request (sys f).
Proof. apply no_request_nil. intros w. unfold trace, sys. by destruct (f w). Qed.
Lemma no_request_emit ev : (∀ c, ev ≠ KeyRequest c) → no_request (emit ev).
Proof. intros Hev w c ?%list_elem_of_singleton. by apply (Hev c). Qed.
Lemma no_request_try {A} (m : M OS A) : no_request m → no_request (try m).
Proof.
  intros Hm w c. specialize (Hm w c). unfold trace, try in *.
  by destruct (m w) as [[[[a|e|]|] w'] ev].
Qed.
End contents.

#[export] Hint Resolve no_request_bind no_request_lift no_request_ret no_request_sys
  no_request_emit no_request_try : golib.

(** Walk through a computation that asks for no key. *)
Ltac no_request_step :=
  lazymatch goal with
  | |- no_request (_ ≫= _) => apply no_request_bind; [|intros ?]
  | |- no_request (emit _) => apply no_request_emit; discriminate
  | |- no_request (match ?x with _ => _ end) => destruct x
  | |- no_request (if ?x then _ else _) => destruct x
  | |- no_request (let _ := _ in _) => cbv zeta
  | |- _ => solve [auto with golib nocore]
  end.

Section no_requests.
Context {OS : Type} `{WinApi OS} `{Unicode} `{Crypto}.

Lemma no_request_certProviderName c : no_request (certProviderName c).
Proof. unfold certProviderName. repeat no_request_step. Qed.

Lemma no_request_by_provider_step p c st : no_request (by_provider_step p c st).
Proof.
  unfold by_provider_step. apply no_request_bind; [apply no_request_certProviderName|intros prov].
  unfold certInfoFromContextWithoutKeyCheck. repeat no_request_step.
Qed.

Lemma no_request_for_contexts {St} fuel h on_err (body : Z → St → M OS St) prev st :
  (∀ c st, no_request (body c st)) → no_request (for_contexts fuel h on_err body prev st).
Proof.
  intros Hb. revert prev st. induction fuel as [|fuel IH]; intros prev st; simpl.
  - by apply no_request_nil.
  - unfold enum_call. repeat first [apply Hb|apply IH|no_request_step].
Qed.

Lemma no_request_by_provider p : no_request (win_ListCertificatesByProvider p).
Proof.
  assert (∀ flags st, no_request (by_provider_store p flags st)) as Hs.
  { intros flags st. unfold by_provider_store, openStoreWithFlags, closeStore.
    apply no_request_bind; [apply no_request_try; repeat no_request_step|intros [h| |]];
      [|apply no_request_ret..].
    apply no_request_bind; [|intros ?; repeat no_request_step].
    intros w. apply no_request_for_contexts, no_request_by_provider_step. }
  unfold win_ListCertificatesByProvider.
  apply no_request_bind; [apply Hs|intros ?]. apply no_request_bind; [apply Hs|intros ?].
  apply no_request_ret.
Qed.
End no_requests.

Section signing.
Context {OS : Type} `{WinApi OS}.

(** The bytes [raw] were produced by one [NCryptSignHash] over [digest]. *)
Definition signed_by (kh : Z) (pad : PaddingInfo) (digest : list Z) (flags : Z) (raw : list Z)
    : Prop :=
  ∃ w size data size' w',
    NCryptSignHash kh pad digest flags (Some size) w = ((0, data, size')%Z, w') ∧
    (size' ≤ size)%Z ∧ raw = take (Z.to_nat size') (filled size data).

(** What a signature and its algorithm name are, by key group and padding. *)
Definition signature_of (kh : Z) (digest : list Z) (hash padding : Z) (r : list Z * string) : Prop :=
  (r.2 = "ECDSA" ∧ padding ≠ RSAPaddingPSS ∧ ∃ raw, signed_by kh NoPadding digest 0 raw ∧
     packECDSASignature raw (Z.of_nat (length raw) / 2) = Ret r.1) ∨
  (∃ a, winAlgIDs hash = Some a ∧
     (r.2 = "RSASSA-PSS" ∧ padding = RSAPaddingPSS ∧
        signed_by kh (pssPaddingInfo a (to_u32 (Z.of_nat (length digest)))) digest
          winBCryptPadPSS r.1 ∨
      r.2 = "RSASSA-PKCS1-v1_5" ∧ padding ≠ RSAPaddingPSS ∧
        signed_by kh (pkcs1PaddingInfo a) digest winBCryptPadPKCS1 r.1)).

Lemma returns_sys {A} (f : OS → A * OS) :
  returns (sys f) (λ a, ∃ w w', f w = (a, w')).
Proof.
  intros w a. unfold result, sys. destruct (f w) as [b w'] eqn:E. simpl. intros [= <-]. eauto.
Qed.

Lemma returns_sign_call kh pad digest flags :
  returns (sized_call kh (NCryptSignHash (kh_value kh) pad digest flags))
    (signed_by (kh_value kh) pad digest flags).
Proof.
  unfold sized_call. apply (returns_bind _ _ (λ _, True)); [done|intros _ _]. apply (returns_bind _ _ (λ _, True)); [done|intros [[r ?] size] _].
  destruct (negb _); [by apply returns_lift|]. destruct (_ =? 0)%Z; [by apply returns_lift|].
  apply (returns_bind _ _ (λ _, True)); [done|intros _ _].
  eapply returns_bind; [apply returns_sys|intros [[r' data] size'] (w & w' & E)].
  destruct (Z.eqb_spec r' 0) as [->|]; simpl; [|by apply returns_lift].
  destruct (Z.ltb_spec size size'); [by apply returns_lift|].
  apply returns_ret. by exists w, size, data, size', w'.
Qed.

Lemma returns_needs_first digest (m : M OS (list Z)) P :
  returns m P → returns (needs_first digest m) P.
Proof. intros Hm. destruct digest; [by apply returns_lift|done]. Qed.

Lemma returns_named (m : M OS (list Z)) (alg : string) P Q :
  returns m P → (∀ sig, P sig → Q (sig, alg)) → returns (m ≫= λ sig, mret (sig, alg)) Q.
Proof. intros Hm HQ. eapply returns_bind; [done|intros sig Hs]. apply returns_ret. auto. Qed.

Lemma sign_in_group_returns kh g digest hash padding :
  returns (sign_in_group kh g digest hash padding) (signature_of (kh_value kh) digest hash padding).
Proof.
  unfold sign_in_group. destruct (bool_decide _).
  - destruct (Z.eqb_spec padding RSAPaddingPSS); [by apply returns_lift|].
    unfold signECDSA. eapply returns_named.
    + eapply returns_bind; [apply returns_needs_first, returns_sign_call|].
      intros raw Hraw. apply (returns_lift _ (λ sig, ∃ raw, signed_by (kh_value kh) NoPadding digest 0 raw ∧
        packECDSASignature raw (Z.of_nat (length raw) / 2) = Ret sig)). eauto.
    + intros sig (raw & ? & ?). left. eauto.
  - destruct (bool_decide _); [|by apply returns_lift].
    destruct (winAlgIDs hash) as [a|] eqn:Ha; [|by apply returns_lift].
    destruct (Z.eqb_spec padding RSAPaddingPSS) as [->|].
    + eapply returns_named; [apply returns_needs_first, returns_sign_call|].
      intros sig Hs. right. eauto 6.
    + eapply returns_named; [apply returns_needs_first, returns_sign_call|].
      intros sig Hs. right. eauto 6.
Qed.

Lemma signHashWithCert_returns c digest hash padding :
  returns (signHashWithCert c digest hash padding)
    (λ r, ∃ kh, signature_of kh digest hash (effective_padding padding) r).
Proof.
  unfold signHashWithCert. apply (returns_bind _ _ (λ _, True)); [done|].
  intros [[kh g] free] _. apply returns_defer.
  eapply returns_mono; [apply sign_in_group_returns|eauto].
Qed.

Lemma effective_padding_idemp p : effective_padding (effective_padding p) = effective_padding p.
Proof. unfold effective_padding, RSAPaddingPKCS1. destruct (p =? 0)%Z eqn:E; [done|]. by rewrite E. Qed.

Lemma win_SignHash_returns `{Unicode} tp digest hash p :
  returns (win_SignHash tp digest hash p) (λ r,
    DigestSize hash = Ret (Z.of_nat (length digest)) ∧ Padding r = effective_padding p ∧
    ∃ kh, signature_of kh digest (hash + 4) (effective_padding p) (Signature r, SignatureAlgorithm r)).
Proof.
  unfold win_SignHash.
  apply (returns_bind _ _ (λ h, CryptoHash hash = Ret h)); [by apply returns_lift|intros h Hh].
  apply (returns_bind _ _ (λ n, DigestSize hash = Ret n)); [by apply returns_lift|intros n Hn].
  destruct (Z.eqb_spec (Z.of_nat (length digest)) n) as [<-|]; simpl; [|by apply returns_lift].
  rewrite (DigestSize_CryptoHash _ _ Hn) in Hh. injection Hh as <-.
  apply (returns_bind _ _ (λ _, True)); [done|intros st _]. apply returns_defer.
  apply (returns_bind _ _ (λ _, True)); [done|intros c _]. apply returns_defer.
  eapply (returns_bind _ _ (λ r, ∃ kh, signature_of kh digest (hash + 4) (effective_padding p) r)).
  - unfold wrap_sign. eapply returns_bind; [apply returns_try, signHashWithCert_returns|].
    rewrite effective_padding_idemp. intros [r|e|]; intros Hr; apply returns_lift; [|done..].
    by intros ? [= <-].
  - intros [sig alg] Hr. by apply returns_ret.
Qed.




(** Every refusal of the Windows [SignHash]. *)
Definition win_refusal (digest : list Z) (hash : Z) (e : error) : Prop :=
  e ∈ [ErrNew "unsupported hash algorithm"; ErrCertificateNotFound] ∨
  (∃ prefix cause, e = Wrap prefix cause) ∨
  e = ErrInvalidDigest ∧ DigestSize hash ≠ Ret (Z.of_nat (length digest)).

Lemma win_SignHash_fails `{Unicode} tp digest hash p :
  fails (win_SignHash tp digest hash p) (win_refusal digest hash).
Proof.
  unfold win_SignHash, openMyStore, openStoreWithFlags, findCertByThumbprint, wrap_sign.
  apply fails_bind.
  { apply fails_lift. intros e He. left.
    unfold CryptoHash in He. repeat case_match; simplify_eq. left. }
  intros h. apply (fails_bind_returns _ _ (λ n, DigestSize hash = Ret n)).
  { apply fails_lift. intros e ->%DigestSize_Fail. left. left. }
  { by apply returns_lift. }
  intros n Hn. destruct (Z.eqb_spec (Z.of_nat (length digest)) n) as [|Hne]; simpl.
  2: { apply fails_lift. intros e [= <-]. right. right. split; [done|]. congruence. }
  apply fails_bind.
  { apply fails_bind; [apply fails_sys|intros [st0|e0|]].
    - apply fails_bind; [apply fails_emit|intros _; apply fails_ret].
    - apply fails_lift. intros e' [= <-]. right. left. eauto.
    - by apply fails_lift. }
  intros st. apply fails_defer, fails_bind.
  - destruct (UTF16PtrFromString _) as [ptr|e0|]; [|apply fails_lift; intros e' [= <-]; left; set_solver|
      by apply fails_lift].
    apply fails_bind; [apply fails_emit|intros _]. apply fails_bind; [apply fails_sys|].
    intros [[c|]|e1|]; [apply fails_bind; [apply fails_emit|intros _; apply fails_ret]| | |
      by apply fails_lift]; apply fails_lift; intros e' [= <-]; left; set_solver.
  - intros c. apply fails_defer, fails_bind; [|intros [sig alg]; apply fails_ret].
    apply fails_bind; [apply fails_try|intros [r|e0|]]; apply fails_lift; [done| |done].
    intros e' [= <-]. right. left. eauto.
Qed.
End signing.

Module WindowsLaws.
Import Windows.

Lemma win_SignHash_Ret {OS} `{WinApi OS} `{Unicode} `{Crypto} rnd s tp digest hash p (w : OS) r :
  outcome_of (SignHash rnd s tp digest hash p w) = Ret r →
  signWithFileStore rnd s tp digest hash p = Ret r ∨
  result (win_SignHash tp digest hash p) w = Done (Ret r).
Proof.
  unfold SignHash. destruct (negb _); [by left|]. right.
  by destruct (result _ w) as [[]|]; simplify_eq/=.
Qed.

Lemma signature_of_algorithm {OS} `{WinApi OS} kh digest hash p r :
  signature_of (OS := OS) kh digest hash p r →
  r.2 ∈ signature_algorithms ∧ (r.2 = "RSASSA-PSS" ↔ p = RSAPaddingPSS).
Proof.
  unfold signature_algorithms.
  intros [(-> & Hp & _)|(a & _ & [(-> & Hp & _)|(-> & Hp & _)])]; (split; [set_solver|done]).
Qed.

#[global] Instance backend_laws {OS} `{WinApi OS} `{Unicode} `{Crypto} :
  CertBackendLaws (FileStore * Z * OS).
Proof.
  split; intros [[s rnd] w] tp digest h p r [Hr|Hr]%win_SignHash_Ret.
  - by apply signWithFileStore_Ret in Hr as [? _].
  - by apply win_SignHash_returns in Hr as [? _].
  - by apply signWithFileStore_Ret in Hr as (_ & f & h' & _ & _ & ? & _).
  - by apply win_SignHash_returns in Hr as (_ & ? & _).
  - apply signWithFileStore_Ret in Hr as (_ & f & h' & _ & _ & _ & Hs).
    by eapply sign_with_key_algorithm.
  - apply win_SignHash_returns in Hr as (_ & _ & kh & Hs).
    by eapply signature_of_algorithm in Hs.
Qed.
End WindowsLaws.

(** ** A concrete Windows

    Two stores, [CurrentUser] with the certificates 1 and 2 and [LocalMachine]
    with 2 and 3; certificate 2 has an ECDSA key, and the handle of key 1 must
    be freed. *)

Fixpoint after (c : Z) (l : list Z) : list Z :=
  match l with [] => [] | x :: l => if (x =? c)%Z then l else after c l end.

Definition sample_rest (h : Z) (prev : option Z) : list Z :=
  let certs := (if h =? 98304 then [1; 2] else if h =? 163840 then [2; 3] else [])%Z in
  match prev with None => certs | Some c => after c certs end.

Definition sample_win : WinApi () := {|
  CertOpenStore flags w := (Ret flags, w);
  CertCloseStore _ w := ((), w);
  CertEnumCertificatesInStore h prev w :=
    (match sample_rest h prev with
     | [] => Fail (Foreign CRYPT_E_NOT_FOUND "not found")
     | c :: _ => Ret (Some c)
     end, w);
  CertFindCertificateInStore h ptr w :=
    (match ptr with
     | [49]%Z => Ret (Some 1%Z)
     | [50]%Z => Ret (Some 2%Z)
     | _ => Fail (Foreign CRYPT_E_NOT_FOUND "not found")
     end, w);
  CertFreeCertificateContext _ w := ((), w);
  cert_context c w := ((Some [48; 1; c; 64 + c; 0]%Z, 4%Z), w);
  CertGetCertificateContextProperty c _ _ w := ((1, [c], 1)%Z, w);
  cryptKeyProvInfo_ProvName buf :=
    match buf with [2%Z] => Some providerMPCP | _ => Some "Fred Proxy Key Storage Provider" end;
  CryptAcquireCertificatePrivateKey c w :=
    (((1, 100 + Z.abs c, winNcryptKeySpec)%Z, (c =? 1)%Z), w);
  NCryptGetProperty k _ _ w :=
    (if (k =? 102)%Z then (0, [69; 0; 67; 0; 68; 0; 83; 0; 65; 0], 10)%Z
     else (0, [82; 0; 83; 0; 65; 0], 6)%Z, w);
  NCryptSignHash k _ _ _ _ w := ((0, [k; 1; 2; 3], 4)%Z, w);
  NCryptFreeObject _ w := ((), w);
  UTF16ToString := string_of_bytes;
  UTF16PtrFromString s := Ret (bytes_of_string s);
  Errno_Error := Itoa;
  asn1_two_integers r s := Ret [48; r; s]%Z;
  enum_left _ h prev := length (sample_rest h prev);
|}.

Lemma sample_win_laws : @WinLaws () sample_win.
Proof.
  split. simpl. intros c w r k spec free w' E Hr. injection E as <- <- <- _ _.
  split; [done|lia].
Qed.

Lemma sample_win_enum_laws : @WinEnumLaws () sample_win.
Proof.
  split; try done. simpl. unfold sample_rest. intros h prev w c w' E.
  destruct (h =? 98304)%Z, (h =? 163840)%Z, prev as [p|]; simpl in *;
    repeat (case_match; simpl in *; simplify_eq); simpl; try done; lia.
Qed.

(** ** Properties *)

(** C11: no operation of the Windows backend leaks or misuses a handle.  When it
    returns or fails, every store handle, certificate context and key handle it
    obtained has been released exactly once, in the reverse order, and was live
    at each use: each query of a key's properties and each signing call finds
    the key handle not yet freed or, for a key the system caches with its
    certificate, the certificate's context not yet freed. *)
Theorem windows_handles_balanced {OS} `{WinLaws OS} `{Unicode} `{Crypto} (w : OS) p tp d h pad :
  let balanced A (m : M OS A) :=
    ∀ o, result m w = Done o → o ≠ Panic → track [] (trace m w) = Some [] in
  balanced _ win_ListCertificates ∧ balanced _ (win_ListCertificatesByProvider p) ∧
  balanced _ (win_SignHash tp d h pad).
Proof.
  intros balanced.
  assert (∀ A (m : M OS A), frame [] m (λ _, []) [] → balanced A m) as Hb.
  { intros A m Hm o Ho Hp. specialize (Hm w). rewrite Ho in Hm. by destruct o. }
  split_and!; apply Hb;
    [apply frame_ListCertificates|apply frame_ListCertificatesByProvider|apply frame_SignHash].
Qed.

Lemma windows_handles_balanced_witness :
  let W := sample_win in let U := sample_unicode in let C := sample_crypto in
  let m := win_SignHash "1" sample_digest 1 2 in
  result m tt = Done (Ret {| Signature := [101; 1; 2; 3]%Z; SignatureAlgorithm := "RSASSA-PSS";
                             Padding := 2 |}) ∧
  trace m tt = [Acquire (RStore 98304); Use (RStore 98304); Acquire (RCtx 1); Use (RCtx 1);
    KeyRequest 1; Acquire (RKey 101); Use (RKey 101); Use (RKey 101); Use (RKey 101);
    Use (RKey 101); Release (RKey 101); Release (RCtx 1); Release (RStore 98304)] ∧
  track [] (trace m tt) = Some [].
Proof.
  intros W U C m.
  assert (result m tt = Done (Ret {| Signature := [101; 1; 2; 3]%Z;
    SignatureAlgorithm := "RSASSA-PSS"; Padding := 2 |})) as E by (vm_compute; reflexivity).
  split; [exact E|]. split; [vm_compute; reflexivity|].
  exact (proj2 (proj2 (@windows_handles_balanced () W sample_win_laws U C tt "" "1"
    sample_digest 1 2)) _ E ltac:(discriminate)).
Defined.

(** What [ListCertificatesByProvider] returns on Windows: it never fails
    and asks for no private key; no two entries have the same thumbprint; each
    entry describes a certificate that parses, and its provider name is not
    empty and, when one was asked for, equal to it up to case. *)
Lemma windows_by_provider_result {OS} `{WinApi OS} `{Unicode} `{Crypto} (w : OS) p :
  let m := win_ListCertificatesByProvider p in
  (∀ e, result m w ≠ Done (Fail e)) ∧
  (∀ c, KeyRequest c ∉ trace m w) ∧
  ∀ out, result m w = Done (Ret out) →
    NoDup (Thumbprint <$> out) ∧
    Forall (λ c, ProviderName c ≠ "" ∧ (p = "" ∨ EqualFold (ProviderName c) p = true) ∧
      reported c) out.
Proof.
  intros m. split_and!.
  - intros e He. exact (fails_by_provider p w e He).
  - apply no_request_by_provider.
  - intros out [Hnd Hall]%by_provider_returns. split; [done|].
    apply (Forall_impl _ _ _ Hall). intros c [Hsel Hrep]. unfold win_selects in Hsel.
    destruct (decide (ProviderName c = "")) as [E|E]; [by rewrite E in Hsel|].
    rewrite bool_decide_eq_false_2 in Hsel by done. simpl in Hsel.
    split_and!; [done| |done]. by apply orb_prop in Hsel as [?%bool_decide_eq_true|?]; [left|right].
Qed.

Lemma windows_by_provider_result_witness :
  let W := sample_win in let U := sample_unicode in let C := sample_crypto in
  let m := win_ListCertificatesByProvider "" in
  ∃ out, result m tt = Done (Ret out) ∧ length out = 3%nat ∧ NoDup (Thumbprint <$> out).
Proof.
  intros W U C m. destruct (result m tt) as [[out| |]|] eqn:E; [|vm_compute in E; discriminate..].
  exists out. split; [done|]. split.
  - assert (match result m tt with Done (Ret o) => length o | _ => 0%nat end = 3%nat) as Hl
      by (vm_compute; reflexivity). rewrite E in Hl. exact Hl.
  - exact (proj1 (proj2 (proj2 (@windows_by_provider_result () W U C tt "")) out E)).
Defined.

(** The enumeration loops of the Windows backend end, on stores that hold
    finitely many certificates. *)
Lemma windows_listings_terminate {OS} `{WinEnumLaws OS} `{Unicode} `{Crypto} (w : OS) p :
  result win_ListCertificates w ≠ Cut ∧ result (win_ListCertificatesByProvider p) w ≠ Cut.
Proof.
  split; [apply ends_ListCertificates|apply ends_ListCertificatesByProvider].
Qed.

Lemma windows_listings_terminate_witness :
  let W := sample_win in let U := sample_unicode in let C := sample_crypto in
  result win_ListCertificates tt ≠ Cut.
Proof.
  intros W U C.
  exact (proj1 (@windows_listings_terminate () W sample_win_enum_laws U C tt "")).
Defined.



(** C13: what a refused signing request is answered on Windows.  A server that
    signs from the system's store (no certificate directory is set) answers
    Internal where the Linux server answers InvalidArgument: [SignHash] wraps
    the error of the key ("sign hash: %w"), so the service's comparison with
    [ErrNoPrivateKey] and [ErrInvalidPadding] never succeeds, and a well-formed
    request with a digest of the right length is only ever refused with NotFound
    or Internal.  With a certificate directory the errors are not wrapped, and
    the refusal is the one the Linux server gives over the same directory. *)
Theorem windows_key_errors_are_internal {OS} `{WinApi OS} `{Unicode} `{Crypto} `{GrpcRuntime}
    s rnd (w : OS) req e :
  valid_request req →
  DigestSize (GetHashAlgorithm req) = Ret (Z.of_nat (length (GetDigest req))) →
  CertService_SignHash (s, rnd, w) req = Fail e →
  (CertDir s = "" →
     e = Status codes_NotFound (Error ErrCertificateNotFound) ∨
     ∃ cause, e = Status codes_Internal ("sign hash: " +:+ Error cause) ∧
       SignHash (s, rnd, w) (GetThumbprint req) (GetDigest req) (GetHashAlgorithm req)
         (requested_padding req) = Fail cause) ∧
  (CertDir s ≠ "" → CertService_SignHash (s, rnd) req = Fail e).
Proof.
  intros Hv Hd. rewrite !SignHash_valid by done. simpl. unfold Windows.SignHash, Linux.SignHash.
  destruct (decide (CertDir s = "")) as [Hdir|Hdir].
  - rewrite Hdir, bool_decide_eq_true_2 by done. simpl. intros E. split; [intros _|done]. revert E.
    destruct (result _ w) as [[r|cause|]|] eqn:E; simpl; [done| |done..]. intros [= <-].
    apply win_SignHash_fails in E as [Hin|[(m & c & ->)|[-> Hn]]]; [|right; eauto|done].
    repeat (apply elem_of_cons in Hin as [->|Hin]); [right; eauto|by left|set_solver].
  - rewrite !bool_decide_eq_false_2 by done. simpl. intros E. by split.
Qed.

(** PSS asked of an ECDSA key: of the system's store, and of a directory. *)
Lemma windows_key_errors_are_internal_witness :
  let W := sample_win in let U := sample_unicode in let C := sample_crypto in
  let G := sample_runtime in
  let req tp := Some {| req_Thumbprint := tp; req_Digest := sample_digest; req_HashAlgorithm := 1;
                        req_RsaPadding := 2 |} in
  let internal := Status codes_Internal
    "sign hash: sign hash: PSS padding is only supported for RSA keys" in
  let invalid := Status codes_InvalidArgument "PSS padding is only supported for RSA keys" in
  let dir := snd (@SetCertDir U C (sample_fs "certs"
    [("a.pem", [45; 1; 4; 48; 2; 9; 98; 45; 2; 3; 49; 2; 9]%Z)]) "certs" init_FileStore) in
  CertService_SignHash (init_FileStore, 0%Z, tt) (req "2") = Fail internal ∧
  (internal = Status codes_NotFound (Error ErrCertificateNotFound) ∨
   ∃ cause, internal = Status codes_Internal ("sign hash: " +:+ Error cause)) ∧
  CertService_SignHash (dir, 0%Z, tt) (req "3002") = Fail invalid ∧
  CertService_SignHash (dir, 0%Z) (req "3002") = Fail invalid.
Proof.
  intros W U C G req internal invalid dir.
  assert (CertService_SignHash (init_FileStore, 0%Z, tt) (req "2") = Fail internal) as E
    by (vm_compute; reflexivity).
  assert (CertService_SignHash (dir, 0%Z, tt) (req "3002") = Fail invalid) as E'
    by (vm_compute; reflexivity).
  split; [exact E|]. split; [|split; [exact E'|]].
  - destruct (proj1 (@windows_key_errors_are_internal () W U C G init_FileStore 0 tt (req "2")
      internal ltac:(vm_compute; intuition discriminate) eq_refl E) eq_refl) as [Hn|(cause & Hc & _)];
      [left; exact Hn|right; exists cause; exact Hc].
  - exact (proj2 (@windows_key_errors_are_internal () W U C G dir 0 tt (req "3002") invalid
      ltac:(vm_compute; intuition discriminate) eq_refl E') ltac:(vm_compute; discriminate)).
Defined.
