(* ===== verification/CertDarwin.v ===== *)
(** * [internal/certstore/store_darwin.go]

    The macOS platform: the C helpers that enumerate the keychain's identities
    and sign with one, the parser of the output of [sc_auth identities], and
    the three exported functions.  The Security framework and the [sc_auth]
    process are the operations of [Keychain].  Reference counts are not
    modelled, nor is C memory but for the copy of the signature into Go. *)

From stdpp Require Import base list sets gmap strings.
From Stdlib Require Import ZArith Lia Ascii.
From S2P Require Import Prelude GoStrings CMem GoCrypto Samples CertTypes CertFileStore CertService CertWindows.

(** ** The Security framework *)

(** [SecKeyAlgorithm], the values the code uses; the number is the digest size
    in bits. *)
Inductive SecKeyAlgorithm :=
  | ECDSASignatureDigestX962 (bits : Z)
  | RSASignatureDigestPSS (bits : Z)
  | RSASignatureDigestPKCS1v15 (bits : Z).
#[export] Instance SecKeyAlgorithm_eq_dec : EqDecision SecKeyAlgorithm.
Proof. solve_decision. Defined.

(** What [SecKeyCreateSignature] gives: the signature, or NULL with or without
    an error, whose description is given as the code reads it. *)
Inductive SecSignature :=
  | SecData (sig : list Z)
  | SecError (description : string)
  | SecNull.

(** Identities, certificates and keys are references, numbers here. *)
Class Keychain := {
  (** [SecItemCopyMatching] for all identities; [None] when it fails. *)
  SecItemCopyMatching : option (list Z);
  SecIdentityCopyCertificate : Z → option Z;
  SecCertificateCopyData : Z → option (list Z);
  (** the key type and size of the certificate's key, as read into
      [MacCertItem]; the empty string and 0 where the key has none. *)
  SecCertificate_key : Z → string * Z;
  (** the status, and the key unless it is NULL. *)
  SecIdentityCopyPrivateKey : Z → Z * option Z;
  SecKeyCreateSignature : Z → SecKeyAlgorithm → list Z → SecSignature;
  (** the standard output of [sc_auth identities]. *)
  sc_auth_identities : outcome string;
}.

Section darwin.
Context `{Keychain} `{Unicode} `{Crypto}.

(** ** The C helpers *)

Record MacCertItem := {
  cert_data : list Z;
  item_identity : Z;
  key_type : string;
  key_size : Z;
}.

(** One turn of the loop of [get_mac_identities]. *)
Definition mac_item (identity : Z) : option MacCertItem :=
  cert ← SecIdentityCopyCertificate identity;
  data ← SecCertificateCopyData cert;
  Some {| cert_data := data; item_identity := identity;
          key_type := fst (SecCertificate_key cert); key_size := snd (SecCertificate_key cert) |}.

Definition get_mac_identities : list MacCertItem :=
  match SecItemCopyMatching with
  | None => []
  | Some result => omap mac_item result
  end.

(** The switches of [mac_sign_hash] on the C [int]s [keyType], [padding] and
    [hashAlg]. *)
Definition mac_algorithm (keyType hashAlg padding : Z) : SecKeyAlgorithm + string :=
  let by_hash (f : Z → SecKeyAlgorithm) (e : string) :=
    if (hashAlg =? 1)%Z then inl (f 256%Z)
    else if (hashAlg =? 2)%Z then inl (f 384%Z)
    else if (hashAlg =? 3)%Z then inl (f 512%Z)
    else inr e in
  if (keyType =? 1)%Z then by_hash ECDSASignatureDigestX962 "unsupported hash algorithm for ECDSA"
  else if (padding =? 2)%Z
  then by_hash RSASignatureDigestPSS "unsupported hash algorithm for RSA-PSS"
  else by_hash RSASignatureDigestPKCS1v15 "unsupported hash algorithm for RSA-PKCS1".

(** [snprintf(errOut, errMax, ...)]: what a buffer of [errMax] bytes holds. *)
Definition snprintf (errMax : nat) (text : string) : string := string_take (errMax - 1) text.

(** The signature (the buffer returned, whose length is left in [outSigLen]), or
    the text left in [errOut]. *)
Definition mac_sign_hash (identity : Z) (digest : list Z) (keyType hashAlg padding : Z)
    (errMax : nat) : list Z + string :=
  match SecIdentityCopyPrivateKey identity with
  | (0%Z, Some privKey) =>
      match mac_algorithm keyType hashAlg padding with
      | inr e => inr (snprintf errMax e)
      | inl alg =>
          match SecKeyCreateSignature privKey alg digest with
          | SecData sig => inl sig
          | SecError d => inr (snprintf errMax ("SecKeyCreateSignature error: " +:+ d))
          | SecNull => inr (snprintf errMax "SecKeyCreateSignature returned NULL")
          end
      end
  | (status, _) =>
      inr (snprintf errMax ("SecIdentityCopyPrivateKey failed with status " +:+ Itoa status))
  end.

(** ** [sc_auth identities] *)

Record scAuthIdentity := { sc_Hash : string; sc_Subject : string; SmartCard : string }.

(** One line of the loop of [parseSCAuthIdentities], on [currentSmartCard] and
    [result]. *)
Definition sc_line (st : string * gmap string scAuthIdentity) (line : string)
    : string * gmap string scAuthIdentity :=
  let trimmed := TrimSpace line in
  if bool_decide (trimmed = "") then st
  else if HasPrefix trimmed "SmartCard:" then
    (TrimSpace (TrimPrefix trimmed "SmartCard:"), snd st)
  else if HasPrefix trimmed "Paired identities:" || HasPrefix trimmed "Unpaired identities:" then st
  else
    match Fields trimmed with
    | p :: rest =>
        if (String.length p =? 40)%nat then
          let hash := ToUpper p in
          (fst st, <[hash := {| sc_Hash := hash; sc_Subject := Join rest " ";
                                SmartCard := fst st |}]> (snd st))
        else st
    | [] => st
    end.

Definition parse_sc_auth (out : string) : gmap string scAuthIdentity :=
  snd (foldl sc_line ("CryptoTokenKit", ∅) (Split out newline)).

(** [None] is the nil map. *)
Definition parseSCAuthIdentities : option (gmap string scAuthIdentity) :=
  match sc_auth_identities with
  | Ret out => Some (parse_sc_auth out)
  | _ => None
  end.

(** ** Identities *)

Record internalMacIdentity := {
  mac_info : CertificateInfo;
  mac_sha1 : string;
  mac_sha256 : string;
  identityRef : Z;
}.

(** [keyAlg] and [keySize], with the fall-back to what the keychain says. *)
Definition mac_key (item : MacCertItem) (cert : Certificate) : string * Z :=
  let k := keyMetadata cert in
  if bool_decide (fst k = "") then
    (if Contains (ToLower (key_type item)) "ec" then "ECDSA" else "RSA", key_size item)
  else k.

(** [isSmartCard] and [providerName]. *)
Definition mac_provider (scIdentities : option (gmap string scAuthIdentity)) (certSHA1 : string)
    : bool * string :=
  match scIdentities ≫= λ m, m !! certSHA1 with
  | Some sc => (true, if bool_decide (SmartCard sc = "") then "CryptoTokenKit" else SmartCard sc)
  | None => (false, "macOS Keychain")
  end.

(** One turn of the loop of [getMacIdentitiesInternal]. *)
Definition mac_identity (scIdentities : option (gmap string scAuthIdentity)) (item : MacCertItem)
    : outcome (option internalMacIdentity) :=
  let der := cert_data item in
  match x509_ParseCertificate der with
  | Panic => Panic
  | Fail _ => Ret None
  | Ret cert =>
      let certSHA1 := ToUpper (hex_EncodeToString (sha1_Sum der)) in
      let certSHA256 := ToUpper (hex_EncodeToString (sha256_Sum der)) in
      let prov := mac_provider scIdentities certSHA1 in
      Ret (Some {|
        mac_info :=
          {| Thumbprint := certSHA1;
             Subject := cert_Subject cert;
             Issuer := cert_Issuer cert;
             NotBefore := cert_NotBefore cert;
             NotAfter := cert_NotAfter cert;
             KeyAlgorithm := fst (mac_key item cert);
             KeySize := snd (mac_key item cert);
             HasPrivateKey := true;
             IsTPM := fst prov;
             ProviderName := snd prov;
             CertificateDER := der |};
        mac_sha1 := certSHA1;
        mac_sha256 := certSHA256;
        identityRef := item_identity item |})
  end.

(** The conversion to an array of [1 << 20] items panics on a longer list. *)
Definition getMacIdentitiesInternal : outcome (list internalMacIdentity) :=
  let items := get_mac_identities in
  if (length items =? 0)%nat then Ret []
  else
    let scIdentities := parseSCAuthIdentities in
    if (2 ^ 20 <? Z.of_nat (length items))%Z then Panic
    else collect (mac_identity scIdentities) items.

(** ** The exported functions *)

Definition mac_ListCertificates : outcome (list CertificateInfo) :=
  identities ← getMacIdentitiesInternal; Ret (fmap (M:=list) mac_info identities).

(** The test of the loop of [ListCertificatesByProvider]. *)
Definition mac_selects (providerName : string) (c : CertificateInfo) : bool :=
  EqualFold (ProviderName c) providerName ||
  Contains (ToLower (ProviderName c)) (ToLower providerName).

Definition mac_ListCertificatesByProvider (s : FileStore) (providerName : string)
    : outcome (list CertificateInfo) :=
  if negb (bool_decide (CertDir s = "")) then Ret (listFromFileStoreByProvider providerName s)
  else
    all ← mac_ListCertificates;
    if bool_decide (providerName = "") then Ret all
    else Ret (filter (λ c, mac_selects providerName c = true) all).

Definition mac_matches_exactly (target : string) (i : internalMacIdentity) : bool :=
  bool_decide (cleanThumbprint (mac_sha1 i) = target) ||
  bool_decide (cleanThumbprint (mac_sha256 i) = target).

Definition mac_matches_prefix (target : string) (i : internalMacIdentity) : bool :=
  HasPrefix (cleanThumbprint (mac_sha1 i)) target ||
  HasPrefix (cleanThumbprint (mac_sha256 i)) target.

(** The two matching loops of [SignHash]. *)
Definition mac_find (target : string) (l : list internalMacIdentity) : option internalMacIdentity :=
  match find_first (mac_matches_exactly target) l with
  | Some i => Some i
  | None => find_first (mac_matches_prefix target) l
  end.

(** The switch on the key algorithm: [keyTypeInt] and [sigAlg]. *)
Definition mac_sig_alg (keyAlgorithm : string) (padding : Z) : outcome (Z * string) :=
  if bool_decide (keyAlgorithm = "ECDSA") then
    if (padding =? RSAPaddingPSS)%Z then Fail ErrInvalidPadding else Ret (1%Z, "ECDSA")
  else if bool_decide (keyAlgorithm = "RSA") then
    Ret (0%Z, if (padding =? RSAPaddingPSS)%Z then "RSASSA-PSS" else "RSASSA-PKCS1-v1_5")
  else Fail (ErrNew ("unsupported key algorithm " +:+ strconv_Quote keyAlgorithm)).

Definition mac_SignHash (thumbprint : string) (digest : list Z) (hash padding : Z)
    : outcome SignResult :=
  expectedLen ← DigestSize hash;
  if negb (Z.of_nat (length digest) =? expectedLen)%Z then Fail ErrInvalidDigest
  else
    let padding := effective_padding padding in
    identities ← getMacIdentitiesInternal;
    match mac_find (cleanThumbprint thumbprint) identities with
    | None => Fail ErrCertificateNotFound
    | Some matched =>
        '(keyTypeInt, sigAlg) ← mac_sig_alg (KeyAlgorithm (mac_info matched)) padding;
        match mac_sign_hash (identityRef matched) digest keyTypeInt (to_i32 hash) (to_i32 padding)
                512 with
        | inr err => Fail (ErrNew ("sign hash: " +:+ err))
        | inl buf =>
            sig ← GoBytes buf (to_i32 (Z.of_nat (length buf)));
            Ret {| Signature := sig; SignatureAlgorithm := sigAlg; Padding := padding |}
        end
    end.
End darwin.

(** ** The output of [sc_auth], printed *)

(** One smart card: the words of its name, whether its identities are paired,
    and each identity's hash and the words of its subject. *)
Record sc_group := {
  g_card : list string;
  g_paired : bool;
  g_identities : list (string * list string);
}.

Definition render_group (g : sc_group) : list string :=
  Join ("SmartCard:" :: g_card g) " " ::
  (if g_paired g then "Paired identities:" else "Unpaired identities:") ::
  ((λ i, Join (fst i :: snd i) " ") <$> g_identities g).

Definition render_sc_auth (gs : list sc_group) : string :=
  Join (concat (render_group <$> gs)) (String newline "").

(** A name, a 40-digit hexadecimal hash, a subject, all in ASCII words. *)
Definition sc_identity_wf (i : string * list string) : Prop :=
  String.length (fst i) = 40%nat ∧ string_forall is_hex_byte (fst i) = true ∧
  Forall is_word (snd i).
Definition sc_group_wf (g : sc_group) : Prop :=
  g_card g ≠ [] ∧ Forall is_word (g_card g) ∧ Forall sc_identity_wf (g_identities g).

#[export] Instance sc_identity_wf_dec i : Decision (sc_identity_wf i).
Proof. unfold sc_identity_wf. apply _. Defined.
#[export] Instance sc_group_wf_dec g : Decision (sc_group_wf g).
Proof. unfold sc_group_wf. apply _. Defined.

Section sc_auth_lemmas.
Context `{Unicode}.

(** The entries the printed text stands for. *)
Definition sc_entry (card : list string) (i : string * list string) : string * scAuthIdentity :=
  (ToUpper (fst i), {| sc_Hash := ToUpper (fst i); sc_Subject := Join (snd i) " ";
                       SmartCard := Join card " " |}).
Definition sc_entries (g : sc_group) : list (string * scAuthIdentity) :=
  sc_entry (g_card g) <$> g_identities g.

Lemma hash_is_word h :
  String.length h = 40%nat → string_forall is_hex_byte h = true → is_word h.
Proof.
  intros Hl Hh. split; [by destruct h|]. revert Hh. apply string_forall_impl.
  intros c. byte_cases c.
Qed.

Lemma TrimSpace_Join s l : is_word s → Forall is_word l → TrimSpace (Join (s :: l) " ") = Join (s :: l) " ".
Proof. intros. unfold TrimSpace. by rewrite is_ascii_Join, trim_Join. Qed.

Lemma Join_head c s l : ∃ t, Join (String c s :: l) " " = String c t.
Proof. destruct l; [by eexists|]. rewrite Join_cons, append_cons. eauto. Qed.

Lemma hex_line_no_header h l :
  String.length h = 40%nat → string_forall is_hex_byte h = true →
  let line := Join (h :: l) " " in
  line ≠ "" ∧ HasPrefix line "SmartCard:" = false ∧ HasPrefix line "Paired identities:" = false ∧
  HasPrefix line "Unpaired identities:" = false.
Proof.
  intros Hl Hh. destruct h as [|c h]; [done|]. destruct (Join_head c h l) as [t Ht].
  simpl in Hh. apply andb_prop in Hh as [Hc _]. cbv zeta. rewrite Ht. split; [done|].
  repeat split; apply prefix_head; by intros ->.
Qed.

Lemma sc_line_identity st i :
  sc_identity_wf i →
  sc_line st (Join (fst i :: snd i) " ") =
    (fst st, <[ToUpper (fst i) := {| sc_Hash := ToUpper (fst i); sc_Subject := Join (snd i) " ";
                                     SmartCard := fst st |}]> (snd st)).
Proof.
  intros (Hl & Hh & Hs). pose proof (hash_is_word _ Hl Hh) as Hw. unfold sc_line.
  destruct (hex_line_no_header _ (snd i) Hl Hh) as (Hne & H1 & H2 & H3).
  rewrite TrimSpace_Join by done. rewrite bool_decide_eq_false_2, H1, H2, H3 by done. cbn [orb].
  unfold Fields. rewrite is_ascii_Join, words_Join by done. by rewrite Hl.
Qed.

Lemma sc_line_card st card :
  card ≠ [] → Forall is_word card →
  sc_line st (Join ("SmartCard:" :: card) " ") = (Join card " ", snd st).
Proof.
  intros Hne Hall. unfold sc_line. rewrite TrimSpace_Join by (done || by vm_compute).
  destruct card as [|w card]; [done|]. apply Forall_cons in Hall as [Hw Hall].
  rewrite Join_cons. rewrite bool_decide_eq_false_2 by done.
  unfold TrimPrefix.
  assert (HasPrefix ("SmartCard:" +:+ " " +:+ Join (w :: card) " ") "SmartCard:" = true) as ->.
  { unfold HasPrefix. simpl. by destruct (Join (w :: card) " "). }
  change (string_drop _ _) with (" " +:+ Join (w :: card) " "). unfold TrimSpace.
  assert (is_ascii (" " +:+ Join (w :: card) " ") = true) as ->
    by (apply (is_ascii_Join w card); done).
  by rewrite <- (trim_Join w card) at 2.
Qed.

Lemma sc_group_lines st g :
  sc_group_wf g →
  foldl sc_line st (render_group g) = (Join (g_card g) " ", foldl insert_pair (snd st) (sc_entries g)).
Proof.
  intros (Hne & Hc & Hids). unfold render_group. cbn [foldl]. rewrite sc_line_card by done.
  assert (∀ m, sc_line (Join (g_card g) " ", m)
    (if g_paired g then "Paired identities:" else "Unpaired identities:") = (Join (g_card g) " ", m))
    as -> by (intros m; by destruct (g_paired g)).
  unfold sc_entries. generalize (snd st) as m.
  induction (g_identities g) as [|i l IH]; intros m; [done|]. apply Forall_cons in Hids as [Hi Hl].
  rewrite !fmap_cons. cbn [foldl]. rewrite sc_line_identity by done. by apply IH.
Qed.

Lemma sc_groups_lines st gs :
  Forall sc_group_wf gs →
  snd (foldl sc_line st (concat (render_group <$> gs))) =
    foldl insert_pair (snd st) (concat (sc_entries <$> gs)).
Proof.
  intros Hgs. revert st. induction Hgs as [|g gs Hg _ IH]; intros st; [done|].
  rewrite !fmap_cons. cbn [concat]. by rewrite !foldl_app, sc_group_lines, IH by done.
Qed.

Lemma no_newline_Join s l :
  is_word s → Forall is_word l →
  string_forall (λ d, negb (bool_decide (d = newline))) (Join (s :: l) " ") = true.
Proof.
  assert (∀ s, is_word s → string_forall (λ d, negb (bool_decide (d = newline))) s = true) as Hw.
  { intros t [_ Ht]. revert Ht. apply string_forall_impl. intros c. byte_cases c. }
  intros Hs Hl. revert s Hs. induction Hl as [|t l Ht _ IH]; intros s Hs; [by apply Hw|].
  by rewrite Join_cons, !string_forall_app, Hw, (IH t Ht).
Qed.

Lemma render_group_lines g :
  sc_group_wf g →
  Forall (λ s, string_forall (λ d, negb (bool_decide (d = newline))) s = true) (render_group g).
Proof.
  intros (Hne & Hc & Hids). constructor; [apply no_newline_Join; [by vm_compute|done]|].
  constructor; [by destruct (g_paired g)|]. apply Forall_fmap, (Forall_impl _ _ _ Hids).
  intros i (Hl & Hh & Hs). by apply no_newline_Join; [apply hash_is_word|].
Qed.

Lemma parse_render gs :
  Forall sc_group_wf gs →
  parse_sc_auth (render_sc_auth gs) = foldl insert_pair ∅ (concat (sc_entries <$> gs)).
Proof.
  intros Hgs. unfold parse_sc_auth, render_sc_auth. destruct gs as [|g gs]; [done|].
  rewrite Split_Join; [by rewrite sc_groups_lines| |]; [done|].
  apply Forall_concat, Forall_fmap, (Forall_impl _ _ _ Hgs), render_group_lines.
Qed.
End sc_auth_lemmas.

(** ** Lemmas on the identities *)

Section identity_lemmas.
Context `{Keychain} `{Unicode} `{Crypto}.

(** The identity as the file store would hold it. *)
Definition as_file (i : internalMacIdentity) : fileIdentity :=
  {| info := mac_info i; thumbSHA1 := mac_sha1 i; thumbSHA256 := mac_sha256 i;
     signer := OtherSigner "SecIdentityRef" (identityRef i) |}.

Lemma find_first_fmap {A B} (f : A → B) (p : B → bool) l :
  find_first p (f <$> l) = f <$> find_first (λ x, p (f x)) l.
Proof. induction l as [|x l IH]; [done|]. simpl. by destruct (p (f x)). Qed.

Lemma mac_find_as_file target l :
  find_identity target (as_file <$> l) = as_file <$> mac_find target l.
Proof.
  unfold find_identity, mac_find. rewrite !find_first_fmap.
  change (λ i, matches_exactly target (as_file i)) with (mac_matches_exactly target).
  change (λ i, matches_prefix target (as_file i)) with (mac_matches_prefix target).
  by destruct (find_first (mac_matches_exactly target) l).
Qed.

Lemma mac_find_None target l :
  Forall (λ i, mac_matches_prefix target i = false) l → mac_find target l = None.
Proof.
  intros Hall. assert (find_identity target (as_file <$> l) = None) as Hn.
  { by apply find_identity_None, Forall_fmap. }
  rewrite mac_find_as_file in Hn. by destruct (mac_find target l).
Qed.

Lemma mac_find_elem_of target l i : mac_find target l = Some i → i ∈ l.
Proof.
  unfold mac_find. destruct (find_first _ l) eqn:E.
  - intros [= <-]. by eapply find_first_elem_of.
  - intros Hf. by eapply find_first_elem_of.
Qed.

Lemma get_identities_elem_of ids i :
  getMacIdentitiesInternal = Ret ids → i ∈ ids →
  ∃ item, item ∈ get_mac_identities ∧ mac_identity parseSCAuthIdentities item = Ret (Some i).
Proof.
  unfold getMacIdentitiesInternal. intros Hg Hi.
  destruct (length get_mac_identities =? 0)%nat; [injection Hg as <-; set_solver|].
  destruct (_ <? _)%Z; [done|]. by eapply collect_Ret_elem_of.
Qed.

(** What is reported of an identity. *)
Lemma mac_identity_info sc item i :
  mac_identity sc item = Ret (Some i) →
  CertificateDER (mac_info i) = cert_data item ∧ identityRef i = item_identity item ∧
  mac_sha1 i = ToUpper (hex_EncodeToString (sha1_Sum (cert_data item))) ∧
  mac_sha256 i = ToUpper (hex_EncodeToString (sha256_Sum (cert_data item))) ∧
  Thumbprint (mac_info i) = mac_sha1 i ∧
  (IsTPM (mac_info i), ProviderName (mac_info i)) = mac_provider sc (mac_sha1 i).
Proof.
  unfold mac_identity. destruct (x509_ParseCertificate _) as [cert| |]; [|done..].
  intros [= <-]. simpl. by rewrite <- surjective_pairing.
Qed.

Lemma mac_algorithm_bits keyType hash n padding alg :
  DigestSize hash = Ret n → mac_algorithm keyType (to_i32 hash) padding = inl alg →
  alg = (if keyType =? 1 then ECDSASignatureDigestX962 (8 * n)
         else if padding =? 2 then RSASignatureDigestPSS (8 * n)
         else RSASignatureDigestPKCS1v15 (8 * n))%Z.
Proof.
  intros Hd Ha. unfold mac_algorithm in Ha.
  apply DigestSize_valid in Hd as [[-> ->]|[[-> ->]|[-> ->]]]; simpl in Ha;
    destruct (keyType =? 1)%Z, (padding =? 2)%Z; by injection Ha as <-.
Qed.

Lemma mac_sign_hash_inl identity digest kt h p n sig :
  mac_sign_hash identity digest kt h p n = inl sig →
  ∃ key alg, SecIdentityCopyPrivateKey identity = (0%Z, Some key) ∧
    mac_algorithm kt h p = inl alg ∧ SecKeyCreateSignature key alg digest = SecData sig.
Proof.
  unfold mac_sign_hash. destruct (SecIdentityCopyPrivateKey identity) as [[] [key|]]; try done.
  destruct (mac_algorithm kt h p) as [alg|]; [|done].
  destruct (SecKeyCreateSignature key alg digest) eqn:E; intros [= <-]. eauto.
Qed.

Lemma mac_sig_alg_Ret ka p kt alg :
  mac_sig_alg ka p = Ret (kt, alg) →
  kt = 1%Z ∧ ka = "ECDSA" ∧ alg = "ECDSA" ∧ p ≠ RSAPaddingPSS ∨
  kt = 0%Z ∧ ka = "RSA" ∧
    (alg = "RSASSA-PSS" ∧ p = RSAPaddingPSS ∨ alg = "RSASSA-PKCS1-v1_5" ∧ p ≠ RSAPaddingPSS).
Proof.
  unfold mac_sig_alg. case_bool_decide; [|case_bool_decide; [|done]];
    destruct (Z.eqb_spec p RSAPaddingPSS); intros [= <- <-]; eauto 10.
Qed.

Lemma mac_SignHash_Ret tp digest hash p r :
  mac_SignHash tp digest hash p = Ret r →
  DigestSize hash = Ret (Z.of_nat (length digest)) ∧ Padding r = effective_padding p ∧
  ∃ ids i kt, getMacIdentitiesInternal = Ret ids ∧ mac_find (cleanThumbprint tp) ids = Some i ∧
    mac_sig_alg (KeyAlgorithm (mac_info i)) (effective_padding p) = Ret (kt, SignatureAlgorithm r) ∧
    ∃ sig, mac_sign_hash (identityRef i) digest kt (to_i32 hash) (to_i32 (effective_padding p)) 512 =
      inl sig ∧ GoBytes sig (to_i32 (Z.of_nat (length sig))) = Ret (Signature r).
Proof.
  unfold mac_SignHash. intros Hs. go_inv.
  match goal with Hd : DigestSize _ = Ret ?n |- _ =>
    destruct (Z.eqb_spec (Z.of_nat (length digest)) n) as [<-|]; simpl in *; [|done] end.
  go_inv. destruct (mac_find _ _) as [i|] eqn:Hf; [|done]. go_inv.
  match goal with Hk : mac_sig_alg _ _ = Ret ?x |- _ => destruct x as [kt alg] end. simpl in *.
  destruct (mac_sign_hash _ _ _ _ _ _) as [sig|] eqn:Hm; [|done]. go_inv. simpl. eauto 12.
Qed.

(** A signature of less than 2 GB is copied whole. *)
Lemma GoBytes_whole l b :
  GoBytes l (to_i32 (Z.of_nat (length l))) = Ret b → (Z.of_nat (length l) < 2 ^ 31)%Z → b = l.
Proof.
  unfold GoBytes. intros Hb Hl. rewrite to_i32_id in Hb by lia.
  destruct (_ || _)%bool; [done|]. injection Hb as <-. by rewrite Nat2Z.id, take_ge.
Qed.
End identity_lemmas.

(** The macOS platform. *)
Module Darwin.
#[global] Instance backend `{Keychain} `{Unicode} `{Crypto} : CertBackend FileStore := {|
  CertTypes.ListCertificates _ := mac_ListCertificates;
  CertTypes.ListCertificatesByProvider s p := mac_ListCertificatesByProvider s p;
  CertTypes.SignHash _ tp d h p := mac_SignHash tp d h p;
|}.

#[global] Instance backend_laws `{Keychain} `{Unicode} `{Crypto} : CertBackendLaws FileStore.
Proof.
  split; intros s tp d h p r (Hd & Hp & ids & i & kt & _ & _ & Ha & _)%mac_SignHash_Ret;
    [done..|].
  unfold signature_algorithms.
  apply mac_sig_alg_Ret in Ha as [(_ & _ & -> & Hne)|(_ & _ & [(-> & Hpss)|(-> & Hne)])];
    (split; [set_solver|done]).
Qed.
End Darwin.

(** A keychain with an RSA identity on a smart card and an ECDSA one. *)
Definition sample_keychain : Keychain := {|
  SecItemCopyMatching := Some [1; 2; 3]%Z;
  SecIdentityCopyCertificate i := if (i =? 3)%Z then None else Some (10 + i)%Z;
  SecCertificateCopyData c := Some [48; c - 10; c; 64]%Z;
  SecCertificate_key _ := ("", 0%Z);
  SecIdentityCopyPrivateKey i := (0%Z, Some (100 + i)%Z);
  SecKeyCreateSignature k a d :=
    SecData (match a with
             | ECDSASignatureDigestX962 b => [k; 1; b]
             | RSASignatureDigestPSS b => [k; 2; b]
             | RSASignatureDigestPKCS1v15 b => [k; 3; b]
             end)%Z;
  sc_auth_identities := Ret (render_sc_auth
    [{| g_card := ["My"; "Card"]; g_paired := true;
        g_identities := [("30010b4000000000000000000000000000000000", ["CN=x"; "y"])] |}]);
|}.

(** ** Properties *)

(** C23: a signature of the macOS backend was made over the caller's digest,
    whose length is that of the hash, by the private key of the identity the
    thumbprint selects, with the algorithm the response names and the hash of
    the digest's own size.  (The code passes the length of the signature through
    a C [int]: the response holds the signature whole when it has fewer than
    [2 ^ 31] bytes.) *)
Theorem mac_SignHash_signature `{Keychain} `{Unicode} `{Crypto} tp d h p r :
  (- 2 ^ 31 ≤ p < 2 ^ 31)%Z →
  mac_SignHash tp d h p = Ret r →
  DigestSize h = Ret (Z.of_nat (length d)) ∧ Padding r = effective_padding p ∧
  ∃ ids i key alg sig, getMacIdentitiesInternal = Ret ids ∧
    mac_find (cleanThumbprint tp) ids = Some i ∧
    SecIdentityCopyPrivateKey (identityRef i) = (0%Z, Some key) ∧
    SecKeyCreateSignature key alg d = SecData sig ∧
    ((Z.of_nat (length sig) < 2 ^ 31)%Z → Signature r = sig) ∧
    let bits := (8 * Z.of_nat (length d))%Z in
    (alg = ECDSASignatureDigestX962 bits ∧ SignatureAlgorithm r = "ECDSA" ∧
       KeyAlgorithm (mac_info i) = "ECDSA" ∧ p ≠ RSAPaddingPSS ∨
     alg = RSASignatureDigestPSS bits ∧ SignatureAlgorithm r = "RSASSA-PSS" ∧
       KeyAlgorithm (mac_info i) = "RSA" ∧ p = RSAPaddingPSS ∨
     alg = RSASignatureDigestPKCS1v15 bits ∧ SignatureAlgorithm r = "RSASSA-PKCS1-v1_5" ∧
       KeyAlgorithm (mac_info i) = "RSA" ∧ p ≠ RSAPaddingPSS).
Proof.
  intros Hr (Hd & Hp & ids & i & kt & Hids & Hf & Ha & sig & Hs & Hb)%mac_SignHash_Ret.
  split; [done|]. split; [done|].
  apply mac_sign_hash_inl in Hs as (key & alg & Hkey & Halg & Hsig).
  exists ids, i, key, alg, sig. split_and!; try done; [by apply GoBytes_whole|].
  apply (mac_algorithm_bits _ _ _ _ _ Hd) in Halg. rewrite to_i32_id in Halg.
  2: { unfold effective_padding, RSAPaddingPKCS1. destruct (p =? 0)%Z; lia. }
  pose proof (effective_padding_PSS p) as Heff.
  apply mac_sig_alg_Ret in Ha as [(-> & Hk & Ha & Hne)|(-> & Hk & [(Ha & Hpss)|(Ha & Hne)])].
  - left. rewrite <- Heff. auto.
  - right. left. rewrite <- Heff. rewrite Hpss in Halg. auto.
  - right. right. rewrite <- Heff. destruct (Z.eqb_spec (effective_padding p) 2); [done|auto].
Qed.

Lemma mac_SignHash_signature_witness :
  let K := sample_keychain in let U := sample_unicode in let C := sample_crypto in
  let r := {| Signature := [101; 2; 256]%Z; SignatureAlgorithm := "RSASSA-PSS"; Padding := 2 |} in
  mac_SignHash "30:01:0b" sample_digest 1 2 = Ret r ∧ Padding r = effective_padding 2.
Proof.
  intros K U C r.
  assert (mac_SignHash "30:01:0b" sample_digest 1 2 = Ret r) as E by (vm_compute; reflexivity).
  split; [exact E|].
  exact (proj1 (proj2 (@mac_SignHash_signature K U C "30:01:0b" sample_digest 1 2 r ltac:(lia) E))).
Defined.

(** macOS selects the signing identity by the same rule as the file store:
    on identities with the same thumbprints both searches stop at the same
    one, or both find none. *)
Lemma mac_selection_is_file_store_selection `{Keychain} `{Unicode} `{Crypto} target l :
  find_identity target (as_file <$> l) = as_file <$> mac_find target l.
Proof. apply mac_find_as_file. Qed.

(** C24: the parser of [sc_auth identities] understands what it is meant to
    read: of a printed list of smart cards it keeps, for each upper-cased hash,
    the last identity printed with that hash, with its subject and the name of
    the card it is printed under, and nothing else. *)
Theorem sc_auth_round_trip `{Unicode} gs h :
  Forall sc_group_wf gs →
  parse_sc_auth (render_sc_auth gs) !! h =
    snd <$> find_first (λ e, bool_decide (fst e = h)) (reverse (concat (sc_entries <$> gs))).
Proof.
  intros Hgs. rewrite parse_render, foldl_insert_pair by done.
  destruct (find_first _ _); [done|apply lookup_empty].
Qed.

Definition sample_groups : list sc_group :=
  [{| g_card := ["Yubi"; "Key"]; g_paired := false;
      g_identities := [("00aa00aa00aa00aa00aa00aa00aa00aa00aa00aa", ["CN=a"; "b"])] |};
   {| g_card := ["Other"]; g_paired := true;
      g_identities := [("11bb11bb11bb11bb11bb11bb11bb11bb11bb11bb", [])] |}].

Lemma sc_auth_round_trip_witness :
  let U := sample_unicode in
  SmartCard <$> parse_sc_auth (render_sc_auth sample_groups)
    !! "00AA00AA00AA00AA00AA00AA00AA00AA00AA00AA" = Some "Yubi Key".
Proof.
  intros U. rewrite (sc_auth_round_trip sample_groups).
  - vm_compute. reflexivity.
  - apply (bool_decide_eq_true_1 (Forall sc_group_wf sample_groups)). vm_compute. reflexivity.
Defined.

(** What macOS reports of a certificate: its thumbprint is the SHA-1 of
    its bytes and in normal form, and it is flagged as a hardware key exactly
    when [sc_auth] lists that thumbprint, under the card's name, or
    "CryptoTokenKit" for a card without one; any other certificate is under
    "macOS Keychain". *)
Lemma mac_listing_providers `{Keychain} `{Unicode} `{Crypto} certs c :
  mac_ListCertificates = Ret certs → c ∈ certs →
  Thumbprint c = ToUpper (hex_EncodeToString (sha1_Sum (CertificateDER c))) ∧
  NormalizeThumbprint (Thumbprint c) = Thumbprint c ∧
  match parseSCAuthIdentities ≫= λ m, m !! Thumbprint c with
  | Some sc => IsTPM c = true ∧ ProviderName c ≠ "" ∧
      (SmartCard sc = "" ∧ ProviderName c = "CryptoTokenKit" ∨ ProviderName c = SmartCard sc)
  | None => IsTPM c = false ∧ ProviderName c = "macOS Keychain"
  end.
Proof.
  unfold mac_ListCertificates. intros Hl Hc. go_inv. subst.
  apply list_elem_of_fmap in Hc as (i & -> & Hi).
  destruct (get_identities_elem_of _ _ ltac:(eassumption) Hi) as (item & _ & Hitem).
  apply mac_identity_info in Hitem as (Hder & _ & Hs1 & _ & Ht & Hp).
  rewrite Ht, Hder, Hs1 in *. split; [done|]. split; [apply upper_hex_normal|].
  unfold mac_provider in Hp. destruct (_ ≫= _) as [sc|]; injection Hp as -> ->; [|done].
  case_bool_decide; auto.
Qed.

Lemma mac_listing_providers_witness :
  let K := sample_keychain in let U := sample_unicode in let C := sample_crypto in
  ∃ c, IsTPM c = true ∧ ProviderName c = "My Card" ∧
    NormalizeThumbprint (Thumbprint c) = Thumbprint c.
Proof.
  intros K U C.
  destruct mac_ListCertificates as [certs| |] eqn:E; [|vm_compute in E; discriminate..].
  destruct certs as [|c certs]; [vm_compute in E; discriminate|].
  pose proof (@mac_listing_providers K U C _ c E ltac:(left)) as (_ & Hn & _).
  exists c. split; [|split; [|exact Hn]]; vm_compute in E; injection E as <- _; reflexivity.
Defined.

(** A certificate that no identity's thumbprint starts with is not listed. *)
Lemma mac_not_listed `{Keychain} `{Unicode} `{Crypto} tp ids :
  getMacIdentitiesInternal = Ret ids →
  Forall (λ i, mac_matches_prefix (cleanThumbprint tp) i = false) ids →
  tp ∉ (Thumbprint <$> (mac_info <$> ids)).
Proof.
  intros Hids Hall (c & -> & (i & -> & Hi)%list_elem_of_fmap)%list_elem_of_fmap.
  destruct (get_identities_elem_of _ _ Hids Hi) as (item & _ & Hinfo).
  apply mac_identity_info in Hinfo as (_ & _ & _ & _ & Ht & _).
  rewrite Forall_forall in Hall. specialize (Hall i Hi). unfold mac_matches_prefix in Hall.
  by rewrite Ht, prefix_refl in Hall.
Qed.

(** C25: on macOS a configured certificate directory reaches only
    [ListCertificatesByProvider].  A certificate it lists is one of the
    directory; unless an identity of the keychain has its thumbprint,
    [ListCertificates] does not list it and [SignHash] answers that it is not
    found, although the Linux server over the same directory always finds it. *)
Theorem mac_cert_dir_not_signable `{Keychain} `{Unicode} `{Crypto} `{!HashLaws}
    s p listed c ids d h pad :
  reachable s → CertDir s ≠ "" →
  ListCertificatesByProvider s p = Ret listed → c ∈ listed →
  getMacIdentitiesInternal = Ret ids →
  Forall (λ i, mac_matches_prefix (cleanThumbprint (Thumbprint c)) i = false) ids →
  DigestSize h = Ret (Z.of_nat (length d)) →
  c ∈ (info <$> fileStore s) ∧
  (∃ certs, ListCertificates s = Ret certs ∧ Thumbprint c ∉ (Thumbprint <$> certs)) ∧
  SignHash s (Thumbprint c) d h pad = Fail ErrCertificateNotFound ∧
  ∀ rnd, SignHash (s, rnd) (Thumbprint c) d h pad ≠ Fail ErrCertificateNotFound.
Proof.
  intros Hre Hdir Hl Hc Hids Hall Hd. simpl in Hl |- *. unfold mac_ListCertificatesByProvider in Hl.
  rewrite bool_decide_eq_false_2 in Hl by done. injection Hl as <-.
  apply list_elem_of_filter in Hc as [_ Hc]. split; [done|]. split; [|split].
  - unfold mac_ListCertificates. rewrite Hids. eexists. split; [reflexivity|]. by apply mac_not_listed.
  - unfold mac_SignHash. rewrite Hd. simpl. rewrite Z.eqb_refl, Hids. simpl. by rewrite mac_find_None.
  - intros rnd. assert (store_ok s) as Hs by (clear -Hre; induction Hre; auto with golib).
    assert (Linux.ListCertificates s = Ret (info <$> fileStore s)) as Hlin.
    { unfold Linux.ListCertificates. by rewrite bool_decide_eq_false_2. }
    destruct (listed_certificate_is_selected s c _ Hs Hlin Hc) as (f & _ & _ & Hf).
    unfold Linux.SignHash. rewrite bool_decide_eq_false_2 by done. apply Hf.
Qed.

Lemma mac_cert_dir_not_signable_witness :
  let K := sample_keychain in let U := sample_unicode in let C := sample_crypto in
  ∃ listed c certs, ListCertificatesByProvider sample_store "" = Ret listed ∧ c ∈ listed ∧
    ListCertificates sample_store = Ret certs ∧ length certs = 2%nat ∧
    (Thumbprint c ∉ (Thumbprint <$> certs)) ∧
    SignHash sample_store (Thumbprint c) sample_digest 1 1 = Fail ErrCertificateNotFound.
Proof.
  intros K U C.
  destruct (ListCertificatesByProvider sample_store "") as [[|c l]| |] eqn:E;
    [vm_compute in E; discriminate| |vm_compute in E; discriminate..].
  assert (reachable sample_store) as Hre
    by (apply (@reach_SetCertDir sample_unicode sample_crypto), reach_init).
  destruct getMacIdentitiesInternal as [ids| |] eqn:Hids; [|vm_compute in Hids; discriminate..].
  destruct (@mac_cert_dir_not_signable K U C sample_hash_laws sample_store "" (c :: l) c ids
    sample_digest 1 1 Hre ltac:(vm_compute; discriminate) E ltac:(left) Hids) as
    (_ & (certs & Hcerts & Hn) & Hs & _); [|reflexivity|].
  - vm_compute in E. injection E as <- _. vm_compute in Hids. injection Hids as <-.
    repeat constructor.
  - exists (c :: l), c, certs. split_and!; [reflexivity|left|exact Hcerts| |exact Hn|exact Hs].
    vm_compute in Hcerts. by injection Hcerts as <-.
Defined.
