(* ===== verification/Discovery.v ===== *)
(** * [internal/server/discovery.go]

    The UDP responder.  What arrives on the socket is a list of events, one per
    turn of the receive loop: what [ReadFrom] reports, and for a datagram the
    interfaces of the machine and the outcome of the reply at that moment.  The
    loop is a function of the list; the verbose log lines are not modelled. *)

From stdpp Require Import base list sets strings.
From Stdlib Require Import ZArith Lia Ascii.
From S2P Require Import Prelude GoStrings GoNet Samples.

Definition defaultDiscoveryService : string := "tpm-cert-server".
Definition discoveryVersion : string := "1".

Record DiscoveryConfig := { ListenAddr : string; cfg_GRPCAddr : string; cfg_Service : string }.

Record discoverRequest := { dr_Op : string; dr_Service : string }.
Record announceResponse := {
  ar_Op : string;
  ar_Service : string;
  ar_Version : string;
  ar_Hostname : string;
  ar_GRPCAddr : string;
}.
#[export] Instance announceResponse_eq_dec : EqDecision announceResponse.
Proof. solve_decision. Defined.

(** [encoding/json] on the two messages. *)
Class Json := {
  Marshal_request : discoverRequest → outcome (list Z);
  Unmarshal_request : list Z → outcome discoverRequest;
  Marshal_announce : announceResponse → outcome (list Z);
  Unmarshal_announce : list Z → outcome announceResponse;
}.

(** Decoding undoes encoding, on messages of ASCII text. *)
Definition ascii_request (r : discoverRequest) : Prop :=
  is_ascii (dr_Op r) = true ∧ is_ascii (dr_Service r) = true.
Definition ascii_announce (r : announceResponse) : Prop :=
  is_ascii (ar_Op r) = true ∧ is_ascii (ar_Service r) = true ∧ is_ascii (ar_Version r) = true ∧
  is_ascii (ar_Hostname r) = true ∧ is_ascii (ar_GRPCAddr r) = true.
Class JsonLaws `{Json} := {
  request_round_trip r d :
    ascii_request r → Marshal_request r = Ret d → Unmarshal_request d = Ret r;
  announce_round_trip r d :
    ascii_announce r → Marshal_announce r = Ret d → Unmarshal_announce d = Ret r;
}.

(** ** Addresses *)

(** The loop of [sameSubnet]. *)
Fixpoint masked_equal (a b mask : list Z) : bool :=
  match a, b, mask with
  | x :: a, y :: b, m :: mask => (Z.land x m =? Z.land y m)%Z && masked_equal a b mask
  | _, _, _ => true
  end.

(** The mask of an IPv4 address, from its 4-byte or 16-byte form. *)
Definition mask4 (mask : IPMask) : IPMask := if (length mask =? 16)%nat then drop 12 mask else mask.

Definition sameSubnet (a b : IP) (mask : IPMask) : bool :=
  match To4 a, To4 b with
  | Some a4, Some b4 =>
      let mask := mask4 mask in
      if negb (length mask =? 4)%nat then false else masked_equal a4 b4 mask
  | _, _ => false
  end.

(** The loop of [localIPFor]: the first interface address on the subnet. *)
Fixpoint first_local (remote : IP) (addrs : list Addr) : IP :=
  match addrs with
  | [] => None
  | AddrIPNet n :: addrs =>
      if IsLoopback (net_IP n) then first_local remote addrs
      else
        match To4 (net_IP n) with
        | None => first_local remote addrs
        | Some local =>
            if sameSubnet (Some local) remote (net_Mask n) then Some local
            else first_local remote addrs
        end
  | _ :: addrs => first_local remote addrs
  end.

Section discovery.
Context `{NetText} `{Json}.

Definition localIPFor (addrs : outcome (list Addr)) (remote : IP) : outcome IP :=
  match To4 remote with
  | None => Fail (ErrNew "remote is not IPv4")
  | Some r =>
      addrs ← addrs;
      match first_local (Some r) addrs with
      | Some local => Ret (Some local)
      | None =>
          Fail (ErrNew ("no local interface on same subnet as " +:+ IP_String (Some r)))
      end
  end.

Definition grpcAddrForClient (addrs : outcome (list Addr)) (grpcAddr : string) (remote : UDPAddr)
    : outcome string :=
  '(host, port) ← SplitHostPort grpcAddr;
  match udp_IP remote with
  | None => Fail (ErrNew "remote has no IP")
  | Some _ =>
      let remoteIP := udp_IP remote in
      if bool_decide (host ∈ [""; "0.0.0.0"; "::"]) then
        localIP ← localIPFor addrs remoteIP;
        Ret (JoinHostPort (IP_String localIP) port)
      else if bool_decide (host ∈ ["127.0.0.1"; "::1"]) then
        if negb (IsLoopback remoteIP) then
          localIP ← localIPFor addrs remoteIP;
          Ret (JoinHostPort (IP_String localIP) port)
        else Ret (JoinHostPort host port)
      else Ret (JoinHostPort host port)
  end.

(** ** The receive loop *)

(** One turn of the loop: the read deadline cannot be set; the read times out
    ([done]: the context is cancelled); the read fails ([cancelled]: the
    context is); or a datagram arrives. *)
Inductive read_event :=
  | DeadlineError (e : error)
  | ReadTimeout (done : bool)
  | ReadError (e : error) (cancelled : bool)
  | Datagram (data : list Z) (remote : Addr) (addrs : outcome (list Addr)) (written : outcome ()).

(** A datagram sent: its bytes and its destination. *)
Definition packet : Type := list Z * UDPAddr.

(** What the loop does with a datagram: the reply it tries to send, if any. *)
Definition reply (cfg : DiscoveryConfig) (hostname : string) (data : list Z) (remote : Addr)
    (addrs : outcome (list Addr)) : option packet :=
  match Unmarshal_request (take 2048 data) with
  | Ret req =>
      if negb (bool_decide (dr_Op req = "discover")) then None
      else if negb (bool_decide (dr_Service req = "")) &&
              negb (bool_decide (dr_Service req = cfg_Service cfg)) then None
      else
        match remote with
        | AddrUDP remoteUDP =>
            match grpcAddrForClient addrs (cfg_GRPCAddr cfg) remoteUDP with
            | Ret grpcAddr =>
                let resp := {| ar_Op := "announce"; ar_Service := cfg_Service cfg;
                               ar_Version := discoveryVersion; ar_Hostname := hostname;
                               ar_GRPCAddr := grpcAddr |} in
                match Marshal_announce resp with
                | Ret data => Some (data, remoteUDP)
                | _ => None
                end
            | _ => None
            end
        | _ => None
        end
  | _ => None
  end.

(** The loop on the events of its turns: its result, [None] while it is still
    running, and the datagrams written. *)
Fixpoint discovery_loop (cfg : DiscoveryConfig) (hostname : string) (evs : list read_event)
    : option (outcome ()) * list packet :=
  match evs with
  | [] => (None, [])
  | DeadlineError e :: _ => (Some (Fail e), [])
  | ReadTimeout done :: evs =>
      if done then (Some (Ret ()), []) else discovery_loop cfg hostname evs
  | ReadError e cancelled :: _ =>
      (Some (if cancelled : bool then Ret () else Fail (Wrap "read" e)), [])
  | Datagram data remote addrs written :: evs =>
      let '(r, sent) := discovery_loop cfg hostname evs in
      match reply cfg hostname data remote addrs with
      | Some p => (r, (if is_ret written then [p] else []) ++ sent)
      | None => (r, sent)
      end
  end.

(** The defaults at the head of [RunDiscovery]. *)
Definition with_defaults (cfg : DiscoveryConfig) : DiscoveryConfig :=
  {| ListenAddr := if bool_decide (ListenAddr cfg = "") then ":6666" else ListenAddr cfg;
     cfg_GRPCAddr := cfg_GRPCAddr cfg;
     cfg_Service := if bool_decide (cfg_Service cfg = "") then defaultDiscoveryService
                    else cfg_Service cfg |}.

(** [RunDiscovery]: [listen] is the outcome of [net.ListenPacket] on an
    address. *)
Definition RunDiscovery (cfg : DiscoveryConfig) (listen : string → outcome ()) (hostname : string)
    (evs : list read_event) : option (outcome ()) * list packet :=
  let cfg := with_defaults cfg in
  match listen (ListenAddr cfg) with
  | Ret _ => discovery_loop cfg hostname evs
  | Fail e => (Some (Fail (Wrap ("listen udp " +:+ ListenAddr cfg) e)), [])
  | Panic => (Some Panic, [])
  end.
End discovery.

(** ** Lemmas *)

(** *** Subnets as numbers *)

Lemma testbit_concat k x u n :
  (0 ≤ k)%Z → (0 ≤ u < 2 ^ k)%Z → (0 ≤ n)%Z →
  Z.testbit (x * 2 ^ k + u) n = if (n <? k)%Z then Z.testbit u n else Z.testbit x (n - k).
Proof.
  intros Hk Hu Hn. destruct (Z.ltb_spec n k).
  - rewrite <- (Z.mod_pow2_bits_low (x * 2 ^ k + u) k n) by lia.
    by rewrite Z.add_comm, Z.mod_add, Z.mod_small by lia.
  - replace n with ((n - k) + k)%Z at 1 by lia. rewrite <- Z.shiftr_spec by lia.
    by rewrite Z.shiftr_div_pow2, Z.div_add_l, Z.div_small, Z.add_0_r by lia.
Qed.

Lemma land_range k u v : (0 ≤ k)%Z → (0 ≤ v < 2 ^ k)%Z → (0 ≤ Z.land u v < 2 ^ k)%Z.
Proof.
  intros Hk Hv. assert (Z.land u v = Z.land u v `mod` 2 ^ k)%Z as ->.
  { by rewrite <- Z.land_ones, <- Z.land_assoc, Z.land_ones, (Z.mod_small v) by lia. }
  apply Z.mod_pos_bound. lia.
Qed.

(** Bitwise conjunction acts byte by byte. *)
Lemma land_concat k x y u v :
  (0 ≤ k)%Z → (0 ≤ u < 2 ^ k)%Z → (0 ≤ v < 2 ^ k)%Z →
  Z.land (x * 2 ^ k + u) (y * 2 ^ k + v) = (Z.land x y * 2 ^ k + Z.land u v)%Z.
Proof.
  intros Hk Hu Hv. apply Z.bits_inj'. intros n Hn.
  assert (0 ≤ Z.land u v < 2 ^ k)%Z.
  { apply land_range; lia. }
  rewrite Z.land_spec, !testbit_concat by lia. destruct (n <? k)%Z; by rewrite Z.land_spec.
Qed.

(** The comparison of [sameSubnet] is that of the masked 32-bit numbers. *)
Lemma masked_equal_spec a b m :
  length a = length m → length b = length m →
  Forall is_byte a → Forall is_byte b → Forall is_byte m →
  masked_equal a b m = true ↔ Z.land (be32 a) (be32 m) = Z.land (be32 b) (be32 m).
Proof.
  revert a b. induction m as [|z m IH]; intros [|x a] [|y b] La Lb Ha Hb Hm; try done.
  simpl in La, Lb. injection La as La. injection Lb as Lb.
  apply Forall_cons in Ha as [Hx Ha], Hb as [Hy Hb], Hm as [Hz Hm].
  simpl. rewrite andb_true_iff, (IH a b), Z.eqb_eq by done. unfold be32. rewrite !be_value_cons, La, Lb.
  change 256%Z with (2 ^ 8)%Z. rewrite <- Z.pow_mul_r by lia.
  pose proof (be_value_range _ Ha) as Ra. pose proof (be_value_range _ Hb) as Rb.
  pose proof (be_value_range _ Hm) as Rm. rewrite La in Ra. rewrite Lb in Rb.
  change 256%Z with (2 ^ 8)%Z in Ra, Rb, Rm. rewrite <- Z.pow_mul_r in Ra, Rb, Rm by lia.
  set (k := (8 * Z.of_nat (length m))%Z) in *. assert (0 ≤ k)%Z as Hk by lia. clearbody k.
  rewrite !land_concat by lia.
  pose proof (land_range k (be_value a) (be_value m) Hk Rm). pose proof (land_range k (be_value b) (be_value m) Hk Rm).
  split; [by intros [-> ->]|]. intros E. apply (Z.div_mod_unique (2 ^ k)); lia.
Qed.

Lemma sameSubnet_numbers a b m a4 b4 :
  To4 a = Some a4 → To4 b = Some b4 → length (mask4 m) = 4%nat →
  Forall is_byte (ip_bytes a) → Forall is_byte (ip_bytes b) → Forall is_byte m →
  sameSubnet a b m = true ↔
    Z.land (be32 a4) (be32 (mask4 m)) = Z.land (be32 b4) (be32 (mask4 m)).
Proof.
  intros Ha Hb Hm Ba Bb Bm. unfold sameSubnet. rewrite Ha, Hb. cbv zeta. rewrite Hm. simpl.
  pose proof (To4_length _ _ Ha). pose proof (To4_length _ _ Hb).
  apply masked_equal_spec; [congruence..|by eapply To4_bytes|by eapply To4_bytes|].
  unfold mask4. destruct (_ =? _)%nat; [by apply Forall_drop|done].
Qed.

(** *** The announced address *)

Lemma first_local_Some remote addrs ip :
  first_local remote addrs = Some ip →
  ∃ n, AddrIPNet n ∈ addrs ∧ IsLoopback (net_IP n) = false ∧ To4 (net_IP n) = Some ip ∧
    sameSubnet (Some ip) remote (net_Mask n) = true.
Proof.
  induction addrs as [|[a|n|] addrs IH]; simpl; [done| | |].
  - intros (n & ? & ?)%IH. exists n. split; [by right|done].
  - destruct (IsLoopback (net_IP n)) eqn:El.
    { intros (n' & ? & ?)%IH. exists n'. split; [by right|done]. }
    destruct (To4 (net_IP n)) as [l|] eqn:Et.
    + destruct (sameSubnet (Some l) remote (net_Mask n)) eqn:Es.
      * intros [= <-]. exists n. split_and!; [by left|done..].
      * intros (n' & ? & ?)%IH. exists n'. split; [by right|done].
    + intros (n' & ? & ?)%IH. exists n'. split; [by right|done].
  - intros (n & ? & ?)%IH. exists n. split; [by right|done].
Qed.

(** Decimal and dotted text holds no bracket and no colon. *)
Definition is_digit_or_dash (c : ascii) : bool := byte_in 48 57 c || byte_in 45 46 c.

Lemma itoa_go_digits fuel n acc :
  string_forall is_digit_or_dash acc = true → string_forall is_digit_or_dash (itoa_go fuel n acc) = true.
Proof.
  revert n acc. induction fuel as [|fuel IH]; intros n acc Hacc; simpl; [done|].
  assert (is_digit_or_dash (ascii_of_N (Z.to_N (48 + n `mod` 10)%Z)) = true) as Hd.
  { pose proof (Z.mod_pos_bound n 10 ltac:(lia)) as Hr.
    assert (n `mod` 10 = 0 ∨ n `mod` 10 = 1 ∨ n `mod` 10 = 2 ∨ n `mod` 10 = 3 ∨ n `mod` 10 = 4 ∨
      n `mod` 10 = 5 ∨ n `mod` 10 = 6 ∨ n `mod` 10 = 7 ∨ n `mod` 10 = 8 ∨ n `mod` 10 = 9)%Z
      as Hcases by lia.
    by repeat destruct Hcases as [->|Hcases]; rewrite ?Hcases; vm_compute. }
  destruct (n <? 10)%Z; [|apply IH]; simpl; by rewrite Hd, Hacc.
Qed.

Lemma Itoa_digits n : string_forall is_digit_or_dash (Itoa n) = true.
Proof.
  unfold Itoa. destruct (n <? 0)%Z; [cbn [string_forall]|]; by rewrite ?itoa_go_digits.
Qed.

Lemma dotted_digits b : string_forall is_digit_or_dash (dotted b) = true.
Proof.
  unfold dotted. induction b as [|x b IH]; [done|]. destruct b as [|y b]; [apply Itoa_digits|].
  rewrite !fmap_cons in *. by rewrite Join_cons, !string_forall_app, Itoa_digits, IH.
Qed.

Lemma digits_no_byte c s :
  is_digit_or_dash c = false → string_forall is_digit_or_dash s = true → no_byte c s.
Proof.
  intros Hc. unfold no_byte. induction s as [|d s IH]; [done|]. simpl. intros [Hd Hs]%andb_prop.
  rewrite has_byte_cons, IH by done. rewrite bool_decide_eq_false_2; [done|]. intros ->. congruence.
Qed.

Lemma dotted_plain b : plain_host (dotted b).
Proof. split; apply digits_no_byte; [done|apply dotted_digits|done|apply dotted_digits]. Qed.

(** *** The loop *)

Section loop.
Context `{NetText} `{Json}.

(** The result of a turn that ends the loop. *)
Definition stops (ev : read_event) : option (outcome ()) :=
  match ev with
  | DeadlineError e => Some (Fail e)
  | ReadTimeout done => if done then Some (Ret ()) else None
  | ReadError e cancelled => Some (if cancelled : bool then Ret () else Fail (Wrap "read" e))
  | Datagram _ _ _ _ => None
  end.

(** The datagram written in a turn. *)
Definition answered (cfg : DiscoveryConfig) (hostname : string) (ev : read_event) : option packet :=
  match ev with
  | Datagram data remote addrs (Ret _) => reply cfg hostname data remote addrs
  | _ => None
  end.

(** The events before the first that ends the loop. *)
Fixpoint before_stop (evs : list read_event) : list read_event :=
  match evs with
  | [] => []
  | ev :: evs => match stops ev with Some _ => [] | None => ev :: before_stop evs end
  end.

Lemma discovery_loop_run cfg hostname evs :
  discovery_loop cfg hostname evs =
    (head (omap stops evs), omap (answered cfg hostname) (before_stop evs)).
Proof.
  induction evs as [|[e|[]|e []|data remote addrs written] evs IH]; try done.
  simpl. rewrite IH. destruct (reply cfg hostname data remote addrs) eqn:E, written; simpl;
    by rewrite ?E.
Qed.

Lemma before_stop_elem_of ev evs : ev ∈ before_stop evs → ev ∈ evs.
Proof.
  induction evs as [|ev' evs IH]; simpl; [done|]. destruct (stops ev'); [set_solver|].
  intros [->|?]%elem_of_cons; [by left|right; auto].
Qed.

Lemma reply_Some cfg hostname data remote addrs d to :
  reply cfg hostname data remote addrs = Some (d, to) →
  remote = AddrUDP to ∧ ∃ req grpcAddr,
    Unmarshal_request (take 2048 data) = Ret req ∧ dr_Op req = "discover" ∧
    (dr_Service req = "" ∨ dr_Service req = cfg_Service cfg) ∧
    grpcAddrForClient addrs (cfg_GRPCAddr cfg) to = Ret grpcAddr ∧
    Marshal_announce {| ar_Op := "announce"; ar_Service := cfg_Service cfg;
      ar_Version := discoveryVersion; ar_Hostname := hostname; ar_GRPCAddr := grpcAddr |} = Ret d.
Proof.
  unfold reply. destruct (Unmarshal_request _) as [req| |]; [|done..].
  case_bool_decide as Hop; simpl; [|done].
  assert ((negb (bool_decide (dr_Service req = "")) &&
    negb (bool_decide (dr_Service req = cfg_Service cfg))) = false →
    dr_Service req = "" ∨ dr_Service req = cfg_Service cfg) as Hsv.
  { case_bool_decide; [by left|]. case_bool_decide; [by right|done]. }
  destruct (_ && _); [done|]. destruct remote as [to'| |]; [|done..].
  destruct (grpcAddrForClient _ _ _) as [g| |] eqn:Hg; [|done..].
  destruct (Marshal_announce _) as [d'| |] eqn:Hm; [|done..]. intros [= <- <-].
  split; [done|]. exists req, g. eauto 10.
Qed.

Lemma localIPFor_Ret addrs remote ip :
  localIPFor addrs remote = Ret ip →
  ∃ l n local r4, addrs = Ret l ∧ AddrIPNet n ∈ l ∧ ip = Some local ∧
    To4 remote = Some r4 ∧ IsLoopback (net_IP n) = false ∧ To4 (net_IP n) = Some local ∧
    sameSubnet (Some local) (Some r4) (net_Mask n) = true.
Proof.
  unfold localIPFor. destruct (To4 remote) as [r4|] eqn:Hr; [|done].
  destruct addrs as [l| |]; simpl; [|done..].
  destruct (first_local (Some r4) l) as [local|] eqn:Hf; [|done]. intros [= <-].
  apply first_local_Some in Hf as (n & ? & ? & ? & ?). eauto 12.
Qed.
End loop.

(** ** Properties *)

(** [sameSubnet] holds exactly of two IPv4 addresses, in 4-byte or
    16-byte form, and an IPv4 mask, in either form, when the two 32-bit numbers
    agree on the bits of the mask. *)
Lemma sameSubnet_is_masked_equality a b m :
  Forall is_byte (ip_bytes a) → Forall is_byte (ip_bytes b) → Forall is_byte m →
  sameSubnet a b m = true ↔
    ∃ a4 b4, To4 a = Some a4 ∧ To4 b = Some b4 ∧ length (mask4 m) = 4%nat ∧
      Z.land (be32 a4) (be32 (mask4 m)) = Z.land (be32 b4) (be32 (mask4 m)).
Proof.
  intros Ba Bb Bm. split.
  - intros Hs. pose proof Hs as Hs'. unfold sameSubnet in Hs'.
    destruct (To4 a) as [a4|] eqn:Ha, (To4 b) as [b4|] eqn:Hb; [|done..]. simpl in Hs'.
    destruct (Nat.eqb_spec (length (mask4 m)) 4); [|done].
    exists a4, b4. split_and!; [done..|]. by rewrite <- (sameSubnet_numbers a b m).
  - intros (a4 & b4 & Ha & Hb & Hm & E). by rewrite (sameSubnet_numbers a b m a4 b4).
Qed.

Lemma sameSubnet_is_masked_equality_witness :
  sameSubnet (Some [192; 168; 1; 7]%Z) (Some (v4InV6Prefix ++ [192; 168; 1; 99]%Z)) [255; 255; 255; 0]%Z
    = true.
Proof.
  apply (proj2 (sameSubnet_is_masked_equality (Some [192; 168; 1; 7]%Z)
    (Some (v4InV6Prefix ++ [192; 168; 1; 99]%Z)) [255; 255; 255; 0]%Z
    ltac:(by apply (bool_decide_eq_true_1 (Forall is_byte _)))
    ltac:(by apply (bool_decide_eq_true_1 (Forall is_byte _)))
    ltac:(by apply (bool_decide_eq_true_1 (Forall is_byte _))))).
  exists [192; 168; 1; 7]%Z, [192; 168; 1; 99]%Z. repeat split; reflexivity.
Defined.

(** C26: the address announced to a client has the configured port, and a host
    the client can reach: the configured one when it names a host (a loopback
    name only for a client on the same machine), and otherwise the address of a
    non-loopback interface of this machine on the client's own subnet. *)
Theorem announced_address_reachable `{NetText} addrs g remote addr :
  grpcAddrForClient addrs g remote = Ret addr →
  ∃ host port h, SplitHostPort g = Ret (host, port) ∧ SplitHostPort addr = Ret (h, port) ∧
    ((h = host ∧ (host ∉ [""; "0.0.0.0"; "::"]) ∧
        (host ∈ ["127.0.0.1"; "::1"] → IsLoopback (udp_IP remote) = true)) ∨
     ((host ∈ [""; "0.0.0.0"; "::"] ∨
         host ∈ ["127.0.0.1"; "::1"] ∧ IsLoopback (udp_IP remote) = false) ∧
      ∃ l n local r4, addrs = Ret l ∧ AddrIPNet n ∈ l ∧ h = dotted local ∧
        To4 (udp_IP remote) = Some r4 ∧ IsLoopback (net_IP n) = false ∧
        To4 (net_IP n) = Some local ∧ sameSubnet (Some local) (Some r4) (net_Mask n) = true)).
Proof.
  unfold grpcAddrForClient. intros Hg. go_inv. destruct x as [host port].
  match goal with Hs : SplitHostPort g = _ |- _ =>
    pose proof (SplitHostPort_Ret _ _ _ Hs) as [Hh Hp] end.
  exists host, port.
  destruct (udp_IP remote) as [rip|] eqn:Hr; [|done]. rewrite <- Hr in *.
  assert (∀ ip, localIPFor addrs (udp_IP remote) = Ret ip →
    Ret (JoinHostPort (IP_String ip) port) = Ret addr →
    ∃ h, SplitHostPort addr = Ret (h, port) ∧
      ∃ l n local r4, addrs = Ret l ∧ AddrIPNet n ∈ l ∧ h = dotted local ∧
        To4 (udp_IP remote) = Some r4 ∧ IsLoopback (net_IP n) = false ∧
        To4 (net_IP n) = Some local ∧ sameSubnet (Some local) (Some r4) (net_Mask n) = true) as Hloc.
  { intros ip (l & n & local & r4 & ? & ? & -> & ? & ? & Ht & ?)%localIPFor_Ret [= <-].
    unfold IP_String. rewrite <- Ht, To4_idemp, Ht.
    exists (dotted local). split; [by apply SplitHostPort_Join; [apply dotted_plain|]|].
    exists l, n, local, r4. by rewrite Ht. }
  case_bool_decide as Hw; [|case_bool_decide as Hl; [destruct (IsLoopback _) eqn:El; simpl in *|]].
  - go_inv. destruct (Hloc _ ltac:(eassumption) eq_refl) as (h & ? & ?). eauto 10.
  - go_inv. exists host. split; [done|]. split; [by apply SplitHostPort_Join|]. left. auto.
  - go_inv. destruct (Hloc _ ltac:(eassumption) eq_refl) as (h & ? & ?). eauto 12.
  - go_inv. exists host. split; [done|]. split; [by apply SplitHostPort_Join|]. left. done.
Qed.

Definition sample_net : NetText := {| ipv6_String := hex_EncodeToString |}.

Definition sample_addrs : outcome (list Addr) :=
  Ret [AddrIPNet {| net_IP := Some [127; 0; 0; 1]%Z; net_Mask := [255; 0; 0; 0]%Z |};
       AddrOther;
       AddrIPNet {| net_IP := Some [10; 0; 0; 5]%Z; net_Mask := [255; 0; 0; 0]%Z |};
       AddrIPNet {| net_IP := Some [192; 168; 1; 7]%Z; net_Mask := [255; 255; 255; 0]%Z |}].

Definition sample_client : UDPAddr := {| udp_IP := Some [192; 168; 1; 99]%Z; udp_Port := 4000 |}.

Lemma announced_address_reachable_witness :
  let T := sample_net in
  grpcAddrForClient sample_addrs ":50051" sample_client = Ret "192.168.1.7:50051" ∧
  ∃ h port, SplitHostPort "192.168.1.7:50051" = Ret (h, port).
Proof.
  intros T.
  assert (grpcAddrForClient sample_addrs ":50051" sample_client = Ret "192.168.1.7:50051") as E
    by (vm_compute; reflexivity).
  split; [exact E|].
  destruct (announced_address_reachable _ _ _ _ E) as (_ & port & h & _ & Hs & _).
  exists h, port. exact Hs.
Defined.

(** C27: the responder only answers discovery requests.  Every datagram it
    sends goes to the sender of a datagram whose text is a "discover" request
    for its service, or for any; it is the announcement of that service, with
    the address chosen for that client. *)
Theorem discovery_answers_only_requests `{NetText} `{Json} cfg hostname evs r sent d to :
  discovery_loop cfg hostname evs = (r, sent) → (d, to) ∈ sent →
  ∃ data addrs w req grpcAddr, Datagram data (AddrUDP to) addrs w ∈ evs ∧
    Unmarshal_request (take 2048 data) = Ret req ∧ dr_Op req = "discover" ∧
    (dr_Service req = "" ∨ dr_Service req = cfg_Service cfg) ∧
    grpcAddrForClient addrs (cfg_GRPCAddr cfg) to = Ret grpcAddr ∧
    Marshal_announce {| ar_Op := "announce"; ar_Service := cfg_Service cfg;
      ar_Version := discoveryVersion; ar_Hostname := hostname; ar_GRPCAddr := grpcAddr |} = Ret d.
Proof.
  rewrite discovery_loop_run. intros [= _ <-].
  intros ([e|b|e b|data remote addrs [u|e|]] & Hin & Ha)%list_elem_of_omap; try done.
  apply before_stop_elem_of in Hin. apply reply_Some in Ha as [-> (req & g & Hreq)].
  exists data, addrs, (Ret u), req, g. split; [done|exact Hreq].
Qed.

(** A toy encoding: each field followed by the byte 255. *)
Definition encode (l : list string) : list Z := concat ((λ s, bytes_of_string s ++ [255%Z]) <$> l).

Fixpoint decode_go (cur : list Z) (d : list Z) : list string :=
  match d with
  | [] => []
  | x :: d => if (x =? 255)%Z then string_of_bytes (reverse cur) :: decode_go [] d
              else decode_go (x :: cur) d
  end.
Definition decode : list Z → list string := decode_go [].

Definition sample_json : Json := {|
  Marshal_request r := Ret (encode [dr_Op r; dr_Service r]);
  Unmarshal_request d :=
    match decode d with
    | [op; sv] => Ret {| dr_Op := op; dr_Service := sv |}
    | _ => Fail (Foreign 5 "invalid character")
    end;
  Marshal_announce r :=
    Ret (encode [ar_Op r; ar_Service r; ar_Version r; ar_Hostname r; ar_GRPCAddr r]);
  Unmarshal_announce d :=
    match decode d with
    | [op; sv; v; h; g] => Ret {| ar_Op := op; ar_Service := sv; ar_Version := v;
                                  ar_Hostname := h; ar_GRPCAddr := g |}
    | _ => Fail (Foreign 5 "invalid character")
    end;
|}.

Lemma decode_string cur s d :
  is_ascii s = true →
  decode_go cur (bytes_of_string s ++ 255%Z :: d) =
    string_of_bytes (reverse cur ++ bytes_of_string s) :: decode_go [] d.
Proof.
  revert cur. induction s as [|c s IH]; intros cur Hs; [simpl; by rewrite app_nil_r|].
  simpl in Hs. apply andb_prop in Hs as [Hc%Z.ltb_lt Hs]. simpl.
  destruct (Z.eqb_spec (code c) 255); [lia|]. rewrite IH by done.
  by rewrite reverse_cons, <- app_assoc.
Qed.

Lemma decode_encode l : Forall (λ s, is_ascii s = true) l → decode (encode l) = l.
Proof.
  unfold decode, encode. induction 1 as [|s l Hs _ IH]; [done|].
  rewrite fmap_cons. cbn [concat]. rewrite <- app_assoc. simpl.
  rewrite decode_string, IH by done. change (reverse []) with (@nil Z). simpl.
  by rewrite string_of_bytes_of_string.
Qed.

Lemma sample_json_laws : @JsonLaws sample_json.
Proof.
  split; intros [] d Ha; injection 1 as <-; unfold ascii_request, ascii_announce in Ha; simpl in *.
  - rewrite decode_encode; [done|]. repeat constructor; tauto.
  - rewrite decode_encode; [done|]. repeat constructor; tauto.
Qed.

Definition sample_discovery : DiscoveryConfig :=
  {| ListenAddr := ""; cfg_GRPCAddr := ":50051"; cfg_Service := "svc" |}.

Lemma discovery_answers_only_requests_witness :
  let T := sample_net in let J := sample_json in
  let evs := [ReadTimeout false;
    Datagram (encode ["discover"; "svc"]) (AddrUDP sample_client) sample_addrs (Ret ());
    Datagram (encode ["discover"; "other"]) (AddrUDP sample_client) sample_addrs (Ret ());
    ReadTimeout true] in
  let d := encode ["announce"; "svc"; "1"; "host"; "192.168.1.7:50051"] in
  discovery_loop sample_discovery "host" evs = (Some (Ret ()), [(d, sample_client)]) ∧
  ∃ data addrs w, Datagram data (AddrUDP sample_client) addrs w ∈ evs.
Proof.
  intros T J evs d.
  assert (discovery_loop sample_discovery "host" evs = (Some (Ret ()), [(d, sample_client)])) as E
    by (vm_compute; reflexivity).
  split; [exact E|].
  destruct (@discovery_answers_only_requests T J _ _ _ _ _ d sample_client E ltac:(left))
    as (data & addrs & w & _ & _ & Hin & _). exists data, addrs, w. exact Hin.
Defined.

(** C28: the receive loop runs until the first turn that ends it and no
    further: its result is that turn's (nil on a time-out or a read error after
    cancellation, otherwise the error), and what it sends is the replies to the
    datagrams before that turn, in order.  A bad datagram or a failed reply
    never ends it. *)
Theorem discovery_runs_until_stopped `{NetText} `{Json} cfg hostname evs :
  discovery_loop cfg hostname evs =
    (head (omap stops evs), omap (answered cfg hostname) (before_stop evs)) ∧
  (fst (discovery_loop cfg hostname evs) = Some (Ret ()) ↔
     ∃ pre ev post, evs = pre ++ ev :: post ∧ Forall (λ e, stops e = None) pre ∧
       (ev = ReadTimeout true ∨ ∃ e, ev = ReadError e true)).
Proof.
  split; [apply discovery_loop_run|]. rewrite discovery_loop_run. simpl.
  induction evs as [|ev evs IH]; simpl.
  - split; [done|]. intros ([|] & ev & post & E & _); discriminate.
  - destruct (stops ev) as [r|] eqn:Es; simpl.
    + split.
      * intros [= ->]. exists [], ev, evs. split_and!; [done|constructor|].
        destruct ev as [e|[]|e []|]; simplify_eq/=; eauto.
      * intros ([|p pre] & ev' & post & E & Hpre & Hev); simplify_eq/=.
        -- by destruct Hev as [->|[e ->]]; simplify_eq/=.
        -- apply Forall_cons in Hpre as [? _]. congruence.
    + rewrite IH. split.
      * intros (pre & ev' & post & -> & Hpre & Hev). exists (ev :: pre), ev', post.
        split_and!; [done|by constructor|done].
      * intros ([|p pre] & ev' & post & E & Hpre & Hev); simplify_eq/=.
        -- by destruct Hev as [->|[e ->]]; simplify_eq/=.
        -- apply Forall_cons in Hpre as [_ ?]. eauto 10.
Qed.
