(* ===== verification/DiscoveryClient.v ===== *)
(** * [internal/server/discovery_client.go]

    The discovery client: the addresses it broadcasts its probe to, the replies
    it collects, and the list it returns.  The network is given by the outcome
    of each call and by the events of the receive loop. *)

From stdpp Require Import base list sets gmap strings sorting.
From Stdlib Require Import ZArith Lia Ascii.
From S2P Require Import Prelude GoStrings GoNet Samples Discovery.

Record DiscoveredServer := {
  ds_Hostname : string;
  ds_GRPCAddr : string;
  ds_Version : string;
  ds_Service : string;
  ds_SourceIP : string;
}.
#[export] Instance DiscoveredServer_eq_dec : EqDecision DiscoveredServer.
Proof. solve_decision. Defined.

(** [Timeout] in nanoseconds. *)
Record DiscoverClientConfig := {
  dc_Port : Z;
  dc_Service : string;
  dc_Timeout : Z;
  dc_ProbeAddrs : list UDPAddr;
}.

Definition client_defaults (cfg : DiscoverClientConfig) : DiscoverClientConfig :=
  {| dc_Port := if (dc_Port cfg =? 0)%Z then 6666%Z else dc_Port cfg;
     dc_Service := if bool_decide (dc_Service cfg = "") then defaultDiscoveryService
                   else dc_Service cfg;
     dc_Timeout := if (dc_Timeout cfg <=? 0)%Z then (3 * 10 ^ 9)%Z else dc_Timeout cfg;
     dc_ProbeAddrs := dc_ProbeAddrs cfg |}.

(** ** Broadcast targets *)

(** The loop of [broadcastAddr]. *)
Definition broadcast_bytes (ip mask : list Z) : list Z :=
  zip_with (λ x m, Z.lor x (Z.lxor m 255)) ip mask.

Definition broadcastAddr (ip : IP) (mask : IPMask) : IP :=
  let ip := To4 ip in
  let mask := mask4 mask in
  if negb (length mask =? 4)%nat then None
  else Some (broadcast_bytes (ip_bytes ip) mask ++ drop (length (ip_bytes ip)) (replicate 4 0%Z)).

(** A network interface: its flags and the outcome of its [Addrs]. *)
Record Interface := { if_Up : bool; if_Loopback : bool; if_Addrs : outcome (list Addr) }.

Section targets.
Context `{NetText}.

(** [add], on [seen] and [targets]. *)
Definition add_target (port : Z) (st : gset string * list UDPAddr) (ip : IP)
    : gset string * list UDPAddr :=
  match To4 ip with
  | None => st
  | Some _ =>
      let key := IP_String ip in
      if decide (key ∈ fst st) then st
      else ({[ key ]} ∪ fst st, snd st ++ [{| udp_IP := ip; udp_Port := port |}])
  end.

(** One address of an interface. *)
Definition add_addr (port : Z) (st : gset string * list UDPAddr) (addr : Addr)
    : gset string * list UDPAddr :=
  match addr with
  | AddrIPNet n =>
      match To4 (net_IP n) with
      | None => st
      | Some ip4 => add_target port st (broadcastAddr (Some ip4) (net_Mask n))
      end
  | _ => st
  end.

(** One interface. *)
Definition add_iface (port : Z) (st : gset string * list UDPAddr) (iface : Interface)
    : gset string * list UDPAddr :=
  if negb (if_Up iface) || if_Loopback iface then st
  else
    match if_Addrs iface with
    | Ret addrs => foldl (add_addr port) st addrs
    | _ => st
    end.

Definition broadcastTargets (interfaces : outcome (list Interface)) (port : Z)
    : outcome (list UDPAddr) :=
  let st := add_target port (∅, []) IPv4bcast in
  match interfaces with
  | Ret ifaces =>
      let targets := snd (foldl (add_iface port) st ifaces) in
      if (length targets =? 0)%nat then Fail (ErrNew "no broadcast targets") else Ret targets
  | Fail _ => Ret (snd st)
  | Panic => Panic
  end.
End targets.

(** ** Collecting replies *)

(** One turn of the reader: the read times out ([done]: the context is over),
    fails, or yields a datagram. *)
Inductive reply_event :=
  | ReplyTimeout (done : bool)
  | ReplyError
  | ReplyDatagram (data : list Z) (remote : Addr).

Section client.
Context `{NetText} `{Json}.

(** A datagram the reader accepts: the key and the entry. *)
Definition accept (service : string) (data : list Z) (remote : Addr)
    : option (string * DiscoveredServer) :=
  match Unmarshal_announce (take 2048 data) with
  | Ret resp =>
      if negb (bool_decide (ar_Op resp = "announce")) ||
         negb (bool_decide (ar_Service resp = service)) then None
      else
        let sourceIP :=
          match remote with
          | AddrUDP u => match udp_IP u with Some _ => IP_String (udp_IP u) | None => "" end
          | _ => ""
          end in
        let key := if bool_decide (ar_GRPCAddr resp = "") then sourceIP else ar_GRPCAddr resp in
        Some (key, {| ds_Hostname := ar_Hostname resp; ds_GRPCAddr := ar_GRPCAddr resp;
                      ds_Version := ar_Version resp; ds_Service := ar_Service resp;
                      ds_SourceIP := sourceIP |})
  | _ => None
  end.

(** The reader goroutine, on [seen]. *)
Fixpoint read_replies (service : string) (seen : gmap string DiscoveredServer)
    (evs : list reply_event) : gmap string DiscoveredServer :=
  match evs with
  | [] => seen
  | ReplyTimeout done :: evs => if done then seen else read_replies service seen evs
  | ReplyError :: _ => seen
  | ReplyDatagram data remote :: evs =>
      match accept service data remote with
      | Some (key, s) => read_replies service (<[key := s]> seen) evs
      | None => read_replies service seen evs
      end
  end.

(** The order of [sort.Slice]: [le a b] is "not [less b a]". *)
Definition server_le (a b : DiscoveredServer) : Prop :=
  if decide (ds_GRPCAddr b = ds_GRPCAddr a) then String.le (ds_Hostname a) (ds_Hostname b)
  else String.le (ds_GRPCAddr a) (ds_GRPCAddr b).
#[export] Instance server_le_dec : RelDecision server_le.
Proof. intros a b. unfold server_le. destruct (decide _); apply _. Defined.

(** What [sort.Slice] may make of the entries of the map, which Go visits in
    any order. *)
Definition sorted_servers (seen : gmap string DiscoveredServer) (out : list DiscoveredServer)
    : Prop :=
  out ≡ₚ (snd <$> map_to_list seen) ∧ Sorted server_le out.

Definition server_list (seen : gmap string DiscoveredServer) : list DiscoveredServer :=
  merge_sort server_le (snd <$> map_to_list seen).

(** [for _, target := range targets { conn.WriteTo(probe, target) }]; [write]
    gives the outcome of each write, by its position. *)
Fixpoint send_probes (write : nat → outcome ()) (i : nat) (targets : list UDPAddr) : outcome () :=
  match targets with
  | [] => Ret ()
  | t :: targets =>
      _ ← wrapf ("broadcast to " +:+ UDPAddr_String t) (write i);
      send_probes write (S i) targets
  end.

(** What [enableBroadcast] finds: whether the connection is a UDP one, and the
    outcomes of [SyscallConn], [Control] and [setSOBroadcast]. *)
Record socket := {
  is_udp : bool;
  SyscallConn : outcome ();
  Control : outcome ();
  setSOBroadcast : outcome ();
}.

Definition enableBroadcast (s : socket) : outcome () :=
  if negb (is_udp s) then Fail (ErrNew "expected UDP connection")
  else
    _ ← wrapf "syscall conn" (SyscallConn s);
    _ ← wrapf "control" (Control s);
    setSOBroadcast s.

(** The datagram that is sent to every target. *)
Definition discover_probe (cfg : DiscoverClientConfig) : outcome (list Z) :=
  Marshal_request {| dr_Op := "discover"; dr_Service := dc_Service cfg |}.

Definition DiscoverServers (cfg : DiscoverClientConfig) (listen : outcome ()) (s : socket)
    (interfaces : outcome (list Interface)) (write : nat → outcome ()) (evs : list reply_event)
    : outcome (list DiscoveredServer) :=
  let cfg := client_defaults cfg in
  _ ← wrapf "listen udp" listen;
  _ ← enableBroadcast s;
  probe ← discover_probe cfg;
  targets ← broadcastTargets interfaces (dc_Port cfg);
  _ ← send_probes write 0 (targets ++ dc_ProbeAddrs cfg);
  Ret (server_list (read_replies (dc_Service cfg) ∅ evs)).
End client.

(** ** Lemmas *)

(** *** Broadcast addresses *)

Lemma lor_lxor_byte x m :
  is_byte x → is_byte m →
  Z.land (Z.lor x (Z.lxor m 255)) m = Z.land x m ∧ Z.lor (Z.lor x (Z.lxor m 255)) m = 255%Z.
Proof.
  unfold is_byte. intros Hx Hm.
  assert (∀ v n, (0 ≤ v < 256)%Z → (8 ≤ n)%Z → Z.testbit v n = false) as Hhigh.
  { intros v n Hv Hn. destruct (decide (v = 0)%Z) as [->|]; [apply Z.bits_0|].
    apply Z.bits_above_log2; [lia|]. apply Z.lt_le_trans with 8%Z; [|done].
    apply Z.log2_lt_pow2; lia. }
  assert (∀ n, (0 ≤ n < 8)%Z → Z.testbit 255 n = true) as Hones.
  { intros n Hn. apply (Z.ones_spec_low 8). lia. }
  split; apply Z.bits_inj'; intros n Hn;
    rewrite ?Z.land_spec, ?Z.lor_spec, ?Z.lxor_spec, ?Z.land_spec.
  - destruct (decide (n < 8)%Z).
    + rewrite (Hones n) by lia. by destruct (Z.testbit x n), (Z.testbit m n).
    + by rewrite (Hhigh m n), !andb_false_r by lia.
  - destruct (decide (n < 8)%Z).
    + rewrite (Hones n) by lia. by destruct (Z.testbit x n), (Z.testbit m n).
    + by rewrite (Hhigh x n), (Hhigh m n), (Hhigh 255%Z n) by lia.
Qed.

Lemma broadcast_bytes_spec ip mask :
  length ip = length mask → Forall is_byte ip → Forall is_byte mask →
  masked_equal ip (broadcast_bytes ip mask) mask = true ∧
  Forall2 (λ b m, Z.lor b m = 255%Z) (broadcast_bytes ip mask) mask ∧
  length (broadcast_bytes ip mask) = length mask.
Proof.
  revert mask. induction ip as [|x ip IH]; intros [|m mask] Hl Hip Hm; try done.
  apply Forall_cons in Hip as [Hx Hip], Hm as [Hm Hmask]. injection Hl as Hl.
  destruct (IH mask Hl Hip Hmask) as (H1 & H2 & H3).
  destruct (lor_lxor_byte x m Hx Hm) as [E1 E2].
  unfold broadcast_bytes in *. simpl. rewrite E1, Z.eqb_refl, H1. split; [done|].
  split; [by constructor|]. by rewrite H3.
Qed.

Lemma broadcastAddr_4 ip4 mask :
  length ip4 = 4%nat → length (mask4 mask) = 4%nat →
  broadcastAddr (Some ip4) mask = Some (broadcast_bytes ip4 (mask4 mask)).
Proof.
  intros Hl Hm. unfold broadcastAddr. rewrite To4_4 by done. cbv zeta. rewrite Hm. simpl.
  by rewrite Hl, app_nil_r.
Qed.

(** *** The targets *)

Section targets_ok.
Context `{NetText}.

Definition target_key (t : UDPAddr) : string := IP_String (udp_IP t).

Record targets_ok (P : IP → Prop) (port : Z) (st : gset string * list UDPAddr) : Prop := {
  tg_seen : fst st = list_to_set (target_key <$> snd st);
  tg_nodup : NoDup (target_key <$> snd st);
  tg_all : Forall (λ t, udp_Port t = port ∧ is_Some (To4 (udp_IP t)) ∧ P (udp_IP t)) (snd st);
  tg_head : head (snd st) = Some {| udp_IP := IPv4bcast; udp_Port := port |};
}.

Lemma add_target_ok P port st ip :
  targets_ok P port st → (is_Some ip → P ip) → targets_ok P port (add_target port st ip).
Proof.
  intros Hst Hip. unfold add_target. destruct (To4 ip) as [b|] eqn:Ht; [|done].
  destruct (decide _) as [|Hnew]; [done|]. destruct Hst as [Hs Hnd Hall Hh].
  rewrite Hs in Hnew. split; simpl; rewrite ?fmap_app; simpl.
  - rewrite Hs, list_to_set_app_L. simpl. set_solver.
  - apply NoDup_app. split_and!; [done| |apply NoDup_singleton].
    intros x Hx ->%list_elem_of_singleton. apply Hnew. by apply elem_of_list_to_set.
  - apply Forall_app. split; [done|]. apply Forall_singleton. simpl. rewrite Ht.
    split_and!; [done|done|]. apply Hip. by destruct ip.
  - by destruct (snd st).
Qed.

Lemma foldl_targets_ok {A} (f : gset string * list UDPAddr → A → gset string * list UDPAddr)
    P port l st :
  targets_ok P port st → (∀ st x, x ∈ l → targets_ok P port st → targets_ok P port (f st x)) →
  targets_ok P port (foldl f st l).
Proof.
  revert st. induction l as [|x l IH]; intros st Hst Hf; [done|]. simpl. apply IH.
  - apply Hf; [left|done].
  - intros st' y Hy. apply Hf. by right.
Qed.

(** Where a target comes from. *)
Definition target_origin (ifaces : list Interface) (ip : IP) : Prop :=
  ip = IPv4bcast ∨ ∃ iface l n ip4, iface ∈ ifaces ∧ if_Up iface = true ∧ if_Loopback iface = false ∧
    if_Addrs iface = Ret l ∧ AddrIPNet n ∈ l ∧ To4 (net_IP n) = Some ip4 ∧
    length (mask4 (net_Mask n)) = 4%nat ∧ ip = Some (broadcast_bytes ip4 (mask4 (net_Mask n))).

Lemma add_iface_ok ifaces port st iface :
  iface ∈ ifaces → targets_ok (target_origin ifaces) port st →
  targets_ok (target_origin ifaces) port (add_iface port st iface).
Proof.
  intros Hi Hst. unfold add_iface. destruct (if_Up iface) eqn:Hup, (if_Loopback iface) eqn:Hlo; try done.
  simpl. destruct (if_Addrs iface) as [l| |] eqn:Hl; [|done..].
  apply foldl_targets_ok; [done|]. intros st' [u|n|] Hx Hst'; simpl; [done| |done].
  destruct (To4 (net_IP n)) as [ip4|] eqn:H4; [|done]. apply add_target_ok; [done|].
  intros Hs. right. exists iface, l, n, ip4. split_and!; try done.
  - unfold broadcastAddr in Hs. destruct (Nat.eqb_spec (length (mask4 (net_Mask n))) 4); [done|].
    simpl in Hs. by destruct Hs.
  - apply broadcastAddr_4; [by apply (To4_length (net_IP n))|].
    unfold broadcastAddr in Hs. destruct (Nat.eqb_spec (length (mask4 (net_Mask n))) 4); [done|].
    simpl in Hs. by destruct Hs.
Qed.

Lemma first_target_ok P port : P IPv4bcast → targets_ok P port (add_target port (∅, []) IPv4bcast).
Proof.
  intros HP. split; simpl; [set_solver|apply NoDup_singleton| |done].
  apply Forall_singleton. simpl. eauto.
Qed.

Lemma broadcastTargets_ok interfaces port :
  interfaces ≠ Panic →
  ∃ targets seen, broadcastTargets interfaces port = Ret targets ∧
    targets_ok (target_origin (match interfaces with Ret l => l | _ => [] end)) port (seen, targets).
Proof.
  intros Hp. unfold broadcastTargets. destruct interfaces as [ifaces|e|]; [| |done].
  - assert (targets_ok (target_origin ifaces) port
      (foldl (add_iface port) (add_target port (∅, []) IPv4bcast) ifaces)) as Hok.
    { apply foldl_targets_ok; [apply first_target_ok; by left|]. intros st x. apply add_iface_ok. }
    destruct (foldl (add_iface port) _ ifaces) as [seen targets]. simpl.
    destruct targets as [|t targets]; [discriminate (tg_head _ _ _ Hok)|].
    by exists (t :: targets), seen.
  - eexists _, _. split; [done|]. rewrite <- surjective_pairing. apply first_target_ok. by left.
Qed.
End targets_ok.

(** *** The list of servers *)

#[export] Instance server_le_trans : Transitive server_le.
Proof.
  intros a b c. unfold server_le.
  destruct (decide (ds_GRPCAddr b = ds_GRPCAddr a)) as [E1|N1],
    (decide (ds_GRPCAddr c = ds_GRPCAddr b)) as [E2|N2],
    (decide (ds_GRPCAddr c = ds_GRPCAddr a)) as [E3|N3]; try congruence; intros H1 H2.
  - by trans (ds_Hostname b).
  - destruct N1. apply (anti_symm String.le); [congruence|done].
  - by trans (ds_GRPCAddr b).
Qed.

#[export] Instance server_le_total : Total server_le.
Proof.
  intros a b. unfold server_le.
  destruct (decide (ds_GRPCAddr b = ds_GRPCAddr a)) as [E|N].
  - rewrite decide_True by done. apply (total String.le).
  - rewrite decide_False by congruence. apply (total String.le).
Qed.

Section replies.
Context `{NetText} `{Json}.

(** The announcements the reader accepts before it stops, in order. *)
Fixpoint accepted (service : string) (evs : list reply_event) : list (string * DiscoveredServer) :=
  match evs with
  | [] => []
  | ReplyTimeout done :: evs => if done then [] else accepted service evs
  | ReplyError :: _ => []
  | ReplyDatagram data remote :: evs => option_list (accept service data remote) ++ accepted service evs
  end.

Lemma read_replies_foldl service seen evs :
  read_replies service seen evs = foldl insert_pair seen (accepted service evs).
Proof.
  revert seen. induction evs as [|[[]| |data remote] evs IH]; intros seen; try done; simpl; auto.
  destruct (accept service data remote) as [[k s]|]; simpl; auto.
Qed.

Lemma accept_key service data remote k s :
  accept service data remote = Some (k, s) →
  ds_Service s = service ∧ k = if bool_decide (ds_GRPCAddr s = "") then ds_SourceIP s else ds_GRPCAddr s.
Proof.
  unfold accept. destruct (Unmarshal_announce _) as [r| |]; [|done..].
  case_bool_decide; simpl; [|done]. case_bool_decide as Hs; simpl; [|done].
  by intros [= <- <-].
Qed.

Lemma accepted_keys service evs k s :
  (k, s) ∈ accepted service evs →
  ds_Service s = service ∧ k = if bool_decide (ds_GRPCAddr s = "") then ds_SourceIP s else ds_GRPCAddr s.
Proof.
  induction evs as [|[[]| |data remote] evs IH]; simpl; try set_solver.
  rewrite elem_of_app. intros [Hin|?]; [|auto].
  destruct (accept service data remote) as [e|] eqn:E; simpl in Hin; [|set_solver].
  apply list_elem_of_singleton in Hin as <-. by eapply accept_key.
Qed.

Lemma seen_lookup service evs k s :
  read_replies service ∅ evs !! k = Some s ↔
  snd <$> find_first (λ e, bool_decide (fst e = k)) (reverse (accepted service evs)) = Some s.
Proof.
  rewrite read_replies_foldl, foldl_insert_pair. destruct (find_first _ _); simpl; [done|].
  by rewrite lookup_empty.
Qed.

Lemma seen_key service evs k s :
  read_replies service ∅ evs !! k = Some s → (k, s) ∈ accepted service evs.
Proof.
  rewrite seen_lookup. destruct (find_first _ _) as [[k' s']|] eqn:E; [|done]. intros [= <-].
  pose proof (find_first_true _ _ _ E) as Hk. apply bool_decide_eq_true in Hk as <-.
  apply find_first_elem_of in E. by rewrite elem_of_reverse in E.
Qed.

(** Entries that carry an address are told apart by it. *)
Lemma seen_injective service evs a b :
  Forall (λ e, ds_GRPCAddr (snd e) ≠ "") (accepted service evs) →
  a ∈ snd <$> map_to_list (read_replies service ∅ evs) →
  b ∈ snd <$> map_to_list (read_replies service ∅ evs) →
  ds_GRPCAddr a = ds_GRPCAddr b → a = b.
Proof.
  intros Hall Ha Hb E.
  apply list_elem_of_fmap in Ha as ([k1 s1] & -> & H1%elem_of_map_to_list).
  apply list_elem_of_fmap in Hb as ([k2 s2] & -> & H2%elem_of_map_to_list). simpl in *.
  assert (∀ k s, read_replies service ∅ evs !! k = Some s → k = ds_GRPCAddr s) as Hk.
  { intros k s Hl. apply seen_key in Hl. rewrite Forall_forall in Hall. pose proof (Hall _ Hl) as Hne.
    apply accepted_keys in Hl as [_ ->]. by rewrite bool_decide_eq_false_2. }
  pose proof (Hk _ _ H1). pose proof (Hk _ _ H2). congruence.
Qed.

Lemma server_list_sorted seen : sorted_servers seen (server_list seen).
Proof.
  split; [apply merge_sort_Permutation|]. apply Sorted_merge_sort. apply _.
Qed.

Lemma sorted_servers_unique service evs out :
  Forall (λ e, ds_GRPCAddr (snd e) ≠ "") (accepted service evs) →
  sorted_servers (read_replies service ∅ evs) out →
  out = server_list (read_replies service ∅ evs).
Proof.
  intros Hall [Hperm Hsorted]. destruct (server_list_sorted (read_replies service ∅ evs)) as [Hp Hs].
  apply (Sorted_unique_strong server_le); [|done..|by rewrite Hperm, Hp].
  intros a b Ha Hb. rewrite Hperm in Ha. rewrite Hp in Hb. unfold server_le.
  destruct (decide (ds_GRPCAddr b = ds_GRPCAddr a)) as [E|N].
  - intros _ _. by apply (seen_injective service evs).
  - rewrite decide_False by congruence. intros H1 H2. destruct N. by apply (anti_symm String.le).
Qed.
End replies.

(** ** Properties *)

(** The probe always has somewhere to go.  [broadcastTargets] never fails
    (its error branch is dead): the first target is the limited broadcast
    address, every other one is the broadcast address of an IPv4 address of an
    interface that is up and not a loopback, all with the configured port, and
    no two targets are the same address. *)
Lemma broadcast_targets_complete `{NetText} interfaces port :
  interfaces ≠ Panic →
  ∃ targets, broadcastTargets interfaces port = Ret targets ∧
    head targets = Some {| udp_IP := IPv4bcast; udp_Port := port |} ∧
    NoDup (target_key <$> targets) ∧
    Forall (λ t, udp_Port t = port ∧ is_Some (To4 (udp_IP t)) ∧
      target_origin (match interfaces with Ret l => l | _ => [] end) (udp_IP t)) targets.
Proof.
  intros Hp. destruct (broadcastTargets_ok interfaces port Hp) as (targets & seen & E & [_ Hnd Hall Hh]).
  eauto 10.
Qed.

Definition sample_ifaces : outcome (list Interface) :=
  Ret [{| if_Up := true; if_Loopback := true; if_Addrs := sample_addrs |};
       {| if_Up := true; if_Loopback := false; if_Addrs := sample_addrs |};
       {| if_Up := false; if_Loopback := false; if_Addrs := sample_addrs |};
       {| if_Up := true; if_Loopback := false; if_Addrs := sample_addrs |}].

Lemma broadcast_targets_complete_witness :
  let T := sample_net in
  ∃ targets, broadcastTargets sample_ifaces 6666 = Ret targets ∧
    target_key <$> targets = ["255.255.255.255"; "127.255.255.255"; "10.255.255.255"; "192.168.1.255"] ∧
    NoDup (target_key <$> targets).
Proof.
  intros T.
  destruct (@broadcast_targets_complete T sample_ifaces 6666 ltac:(discriminate))
    as (targets & E & _ & Hnd & _).
  exists targets. split; [exact E|]. split; [|exact Hnd].
  vm_compute in E. injection E as <-. vm_compute. reflexivity.
Defined.

(** [broadcastAddr] of an IPv4 address and mask is the address on the same
    subnet whose host bits are all ones. *)
Lemma broadcastAddr_spec ip ip4 mask :
  To4 ip = Some ip4 → length (mask4 mask) = 4%nat → Forall is_byte ip4 → Forall is_byte mask →
  ∃ b, broadcastAddr ip mask = Some b ∧ length b = 4%nat ∧ sameSubnet ip (Some b) mask = true ∧
    Forall2 (λ x m, Z.lor x m = 255%Z) b (mask4 mask).
Proof.
  intros Hip Hm Bip Bm. pose proof (To4_length _ _ Hip) as Hl.
  assert (Forall is_byte (mask4 mask)) as Bm4.
  { unfold mask4. destruct (_ =? _)%nat; [by apply Forall_drop|done]. }
  destruct (broadcast_bytes_spec ip4 (mask4 mask) ltac:(congruence) Bip Bm4) as (H1 & H2 & H3).
  exists (broadcast_bytes ip4 (mask4 mask)). split_and!; [|congruence| |done].
  - rewrite <- (broadcastAddr_4 ip4 mask Hl Hm). unfold broadcastAddr. by rewrite Hip, To4_4.
  - unfold sameSubnet. rewrite Hip, To4_4 by congruence. cbv zeta. by rewrite Hm.
Qed.

Lemma broadcastAddr_spec_witness :
  ∃ b, broadcastAddr (Some [192; 168; 1; 7]%Z) [255; 255; 254; 0]%Z = Some b ∧
    b = [192; 168; 1; 255]%Z.
Proof.
  destruct (broadcastAddr_spec (Some [192; 168; 1; 7]%Z) [192; 168; 1; 7]%Z [255; 255; 254; 0]%Z
    eq_refl eq_refl ltac:(by apply (bool_decide_eq_true_1 (Forall is_byte _)))
    ltac:(by apply (bool_decide_eq_true_1 (Forall is_byte _)))) as (b & E & _).
  exists b. split; [exact E|]. vm_compute in E. injection E as <-. reflexivity.
Defined.

(** The list a successful discovery returns is sorted, and holds for each
    address the last accepted announcement that came under it, and nothing
    else.  When every accepted announcement carries an address, the list has no
    address twice and does not depend on the order in which Go visits the map
    or on the sort being unstable. *)
Lemma discovery_result_deterministic `{NetText} `{Json} cfg listen s ifs write evs out :
  DiscoverServers cfg listen s ifs write evs = Ret out →
  let service := dc_Service (client_defaults cfg) in
  let acc := accepted service evs in
  Sorted server_le out ∧
  (∀ x, x ∈ out ↔ ∃ k, snd <$> find_first (λ e, bool_decide (fst e = k)) (reverse acc) = Some x) ∧
  (Forall (λ e, ds_GRPCAddr (snd e) ≠ "") acc →
     NoDup (ds_GRPCAddr <$> out) ∧
     ∀ out', sorted_servers (read_replies service ∅ evs) out' → out' = out).
Proof.
  intros Hd service acc. unfold DiscoverServers in Hd. go_inv.
  match goal with |- context [server_list ?m] => change m with (read_replies service ∅ evs) end.
  destruct (server_list_sorted (read_replies service ∅ evs)) as [Hp Hs].
  split_and!; [done| |intros Hall; split].
  - intros y. rewrite Hp, list_elem_of_fmap. split.
    + intros ([k y'] & -> & Hk%elem_of_map_to_list). exists k. by apply seen_lookup.
    + intros (k & Hk). exists (k, y). split; [done|]. by apply elem_of_map_to_list, seen_lookup.
  - rewrite Hp. rewrite <- list_fmap_compose. apply NoDup_fmap_2_strong; [|apply NoDup_map_to_list].
    intros [k1 s1] [k2 s2] K1 K2 E. simpl in E.
    assert (s1 = s2) as ->.
    { apply (seen_injective service evs); [done|..|done]; apply list_elem_of_fmap;
        [by exists (k1, s1)|by exists (k2, s2)]. }
    apply elem_of_map_to_list, seen_key, accepted_keys in K1 as [_ ->].
    by apply elem_of_map_to_list, seen_key, accepted_keys in K2 as [_ ->].
  - intros out'. by apply sorted_servers_unique.
Qed.

Definition sample_socket : socket :=
  {| is_udp := true; SyscallConn := Ret (); Control := Ret (); setSOBroadcast := Ret () |}.
Definition sample_client_config : DiscoverClientConfig :=
  {| dc_Port := 0; dc_Service := "svc"; dc_Timeout := 0; dc_ProbeAddrs := [sample_client] |}.
Definition sample_announce (h g : string) : reply_event :=
  ReplyDatagram (encode ["announce"; "svc"; "1"; h; g]) (AddrUDP sample_client).

Lemma discovery_result_deterministic_witness :
  let T := sample_net in let J := sample_json in
  let evs := [sample_announce "b" "10.0.0.2:1"; ReplyTimeout false; sample_announce "a" "10.0.0.1:1";
              ReplyDatagram [1]%Z AddrOther; sample_announce "c" "10.0.0.2:1"; ReplyTimeout true] in
  ∃ out, DiscoverServers sample_client_config (Ret ()) sample_socket sample_ifaces (λ _, Ret ()) evs
      = Ret out ∧ ds_Hostname <$> out = ["a"; "c"] ∧ Sorted server_le out.
Proof.
  intros T J evs.
  destruct (DiscoverServers sample_client_config (Ret ()) sample_socket sample_ifaces (λ _, Ret ()) evs)
    as [out| |] eqn:E; [|vm_compute in E; discriminate..].
  exists out. split; [reflexivity|]. split; [vm_compute in E; injection E as <-; reflexivity|].
  exact (proj1 (@discovery_result_deterministic T J _ _ _ _ _ _ _ E)).
Defined.

(** C29: client and responder understand each other.  The probe a client sends
    ([DiscoverServers] after its defaults are filled in) is answered by a
    responder for the same service, whenever it has an address
    for that client; and the client reads the answer back as a server with that
    address, the responder's host name and version, and the sender's IP. *)
Theorem discovery_protocol_round_trip `{NetText} `{JsonLaws} ccfg cfg hostname service probe
    client addrs g data server :
  dc_Service (client_defaults ccfg) = service → cfg_Service cfg = service → is_ascii service = true → is_ascii hostname = true →
  is_ascii g = true →
  discover_probe (client_defaults ccfg) = Ret probe →
  (length probe ≤ 2048)%nat →
  grpcAddrForClient addrs (cfg_GRPCAddr cfg) client = Ret g →
  Marshal_announce {| ar_Op := "announce"; ar_Service := service; ar_Version := discoveryVersion;
                      ar_Hostname := hostname; ar_GRPCAddr := g |} = Ret data →
  (length data ≤ 2048)%nat →
  reply cfg hostname probe (AddrUDP client) addrs = Some (data, client) ∧
  (g ≠ "" → is_Some (udp_IP server) →
   accept service data (AddrUDP server) =
     Some (g, {| ds_Hostname := hostname; ds_GRPCAddr := g; ds_Version := discoveryVersion;
                 ds_Service := service; ds_SourceIP := IP_String (udp_IP server) |})).
Proof.
  intros Hc Hsv As Ah Ag Hp Lp Hg Hd Ld. unfold discover_probe in Hp. rewrite Hc in Hp. split.
  - unfold reply. rewrite take_ge by done.
    assert (Unmarshal_request probe = Ret {| dr_Op := "discover"; dr_Service := service |}) as ->
      by (eapply request_round_trip; [by split|done]).
    simpl. rewrite Hsv.
    rewrite (bool_decide_eq_true_2 (service = service)) by done. rewrite andb_false_r, Hg. simpl.
    by rewrite Hd.
  - intros Hne [ip Hip]. unfold accept. rewrite take_ge by done.
    rewrite (announce_round_trip _ data) with (2 := Hd) by (by repeat split). simpl.
    rewrite (bool_decide_eq_true_2 (service = service)) by done. simpl.
    by rewrite bool_decide_eq_false_2, Hip.
Qed.

Lemma discovery_protocol_round_trip_witness :
  let T := sample_net in let J := sample_json in
  reply sample_discovery "host" (encode ["discover"; "svc"]) (AddrUDP sample_client) sample_addrs =
    Some (encode ["announce"; "svc"; "1"; "host"; "192.168.1.7:50051"], sample_client).
Proof.
  intros T J.
  exact (proj1 (@discovery_protocol_round_trip T J sample_json_laws
    {| dc_Port := 0; dc_Service := "svc"; dc_Timeout := 0; dc_ProbeAddrs := [] |} sample_discovery "host" "svc"
    (encode ["discover"; "svc"]) sample_client sample_addrs "192.168.1.7:50051"
    (encode ["announce"; "svc"; "1"; "host"; "192.168.1.7:50051"]) sample_client
    eq_refl eq_refl eq_refl eq_refl eq_refl eq_refl ltac:(vm_compute; lia) ltac:(vm_compute; reflexivity)
    eq_refl ltac:(vm_compute; lia))).
Defined.
