(* ===== verification/TlsUtil.v ===== *)
(** * [internal/tlsutil/tls.go]

    The TLS configurations of the server and of its clients.  Certificate
    pools, key pairs and chain verification are the operations of [Tls]. *)

From stdpp Require Import base list strings.
From Stdlib Require Import ZArith Lia Ascii.
From S2P Require Import Prelude GoStrings GoCrypto Samples.

(** [tls.RequireAndVerifyClientCert], [tls.VersionTLS12]. *)
Definition RequireAndVerifyClientCert : Z := 4.
Definition VersionTLS12 : Z := 0x303.

Class Tls := {
  (** the certificates [CertPool.AppendCertsFromPEM] adds to an empty pool,
      [None] when it adds none. *)
  AppendCertsFromPEM : list Z → option (list Certificate);
  X509KeyPair : list Z → list Z → outcome Z;
  (** [cert.Verify(opts)]: the roots, the intermediates and [DNSName]. *)
  Certificate_Verify : list Certificate → list Certificate → string → Certificate → outcome ();
}.

(** [tls.Config], the fields the code sets. *)
Record Config := {
  Certificates : list Z;
  ClientCAs : list Certificate;
  ClientAuth : Z;
  RootCAs : list Certificate;
  ServerName : string;
  InsecureSkipVerify : bool;
  VerifyPeerCertificate : list (list Z) → outcome ();
  MinVersion : Z;
}.

Section tlsutil.
Context `{Unicode} `{Crypto} `{FileSystem} `{Tls}.

Definition loadPEMOrFile (input : string) : outcome (list Z) :=
  let input := TrimSpace input in
  if Contains input "-----BEGIN" then Ret (bytes_of_string input) else os_ReadFile input.

(** The pool and the key pair both configurations load; [who] is "server" or
    "client". *)
Definition load_material (who caPath certPath keyPath : string) : outcome (list Certificate * Z) :=
  caPEM ← wrapf "read CA cert" (loadPEMOrFile caPath);
  match AppendCertsFromPEM caPEM with
  | None => Fail (ErrNew "parse CA cert")
  | Some caPool =>
      certPEM ← wrapf ("read " +:+ who +:+ " cert") (loadPEMOrFile certPath);
      keyPEM ← wrapf ("read " +:+ who +:+ " key") (loadPEMOrFile keyPath);
      cert ← wrapf ("load " +:+ who +:+ " key pair") (X509KeyPair certPEM keyPEM);
      Ret (caPool, cert)
  end.

Definition LoadServerTLSConfig (caPath certPath keyPath : string) : outcome Config :=
  '(caPool, cert) ← load_material "server" caPath certPath keyPath;
  Ret {| Certificates := [cert]; ClientCAs := caPool; ClientAuth := RequireAndVerifyClientCert;
         RootCAs := []; ServerName := ""; InsecureSkipVerify := false;
         VerifyPeerCertificate _ := Ret (); MinVersion := VersionTLS12 |}.

(** The loop of the client's [VerifyPeerCertificate]. *)
Fixpoint parse_peer (rawCerts : list (list Z)) : outcome (list Certificate) :=
  match rawCerts with
  | [] => Ret []
  | der :: rest =>
      c ← wrapf "parse peer certificate" (x509_ParseCertificate der);
      cs ← parse_peer rest;
      Ret (c :: cs)
  end.

Definition verify_peer (caPool : list Certificate) (rawCerts : list (list Z)) : outcome () :=
  if (length rawCerts =? 0)%nat then Fail (ErrNew "no peer certificates presented")
  else
    certs ← parse_peer rawCerts;
    match certs with
    | [] => Panic
    | leaf :: intermediates => Certificate_Verify caPool intermediates "" leaf
    end.

Definition LoadClientTLSConfig (caPath certPath keyPath serverName : string) : outcome Config :=
  '(caPool, cert) ← load_material "client" caPath certPath keyPath;
  Ret {| Certificates := [cert]; ClientCAs := []; ClientAuth := 0%Z; RootCAs := caPool;
         ServerName := serverName; InsecureSkipVerify := true;
         VerifyPeerCertificate := verify_peer caPool; MinVersion := VersionTLS12 |}.

(** ** Lemmas *)

Lemma parse_peer_Ret raw certs :
  parse_peer raw = Ret certs ↔ Forall2 (λ der c, x509_ParseCertificate der = Ret c) raw certs.
Proof.
  revert certs. induction raw as [|der raw IH]; intros certs; simpl.
  - split; [by intros [= <-]|]. by intros ->%Forall2_nil_inv_l.
  - split.
    + intros Hp. go_inv. constructor; [done|]. by apply IH.
    + intros (c & cs & Hc & Hcs & ->)%Forall2_cons_inv_l. rewrite Hc. simpl.
      by rewrite (proj2 (IH cs) Hcs).
Qed.

Lemma load_material_Ret who ca cert key pool kp :
  load_material who ca cert key = Ret (pool, kp) →
  ∃ caPEM certPEM keyPEM, loadPEMOrFile ca = Ret caPEM ∧ AppendCertsFromPEM caPEM = Some pool ∧
    loadPEMOrFile cert = Ret certPEM ∧ loadPEMOrFile key = Ret keyPEM ∧
    X509KeyPair certPEM keyPEM = Ret kp.
Proof.
  unfold load_material. intros Hl. go_inv. destruct (AppendCertsFromPEM _) eqn:E; [|done].
  go_inv. simplify_eq. eauto 10.
Qed.
End tlsutil.

(** ** Properties *)

(** C39: both sides of a connection authenticate the other against the
    configured CA.  A loaded server configuration demands a client certificate
    and verifies it against the CA file; a loaded client configuration accepts
    a server exactly when it presents certificates that all parse and whose
    first verifies against the CA file with the others as intermediates, for
    any host name; neither speaks a version below TLS 1.2. *)
Theorem mutual_authentication `{Unicode} `{Crypto} `{FileSystem} `{Tls} ca cert key name :
  (∀ cfg, LoadServerTLSConfig ca cert key = Ret cfg →
     ∃ pem, loadPEMOrFile ca = Ret pem ∧ AppendCertsFromPEM pem = Some (ClientCAs cfg) ∧
       ClientAuth cfg = RequireAndVerifyClientCert ∧ MinVersion cfg = VersionTLS12) ∧
  (∀ cfg, LoadClientTLSConfig ca cert key name = Ret cfg →
     ∃ pem, loadPEMOrFile ca = Ret pem ∧ AppendCertsFromPEM pem = Some (RootCAs cfg) ∧
       MinVersion cfg = VersionTLS12 ∧
       ∀ raw, VerifyPeerCertificate cfg raw = Ret () ↔
         ∃ leaf rest, Forall2 (λ der c, x509_ParseCertificate der = Ret c) raw (leaf :: rest) ∧
           Certificate_Verify (RootCAs cfg) rest "" leaf = Ret ()).
Proof.
  split.
  - intros cfg Hl. unfold LoadServerTLSConfig in Hl. go_inv. destruct x as [pool kp].
    match goal with Hm : load_material _ _ _ _ = _ |- _ =>
      apply load_material_Ret in Hm as (pem & _ & _ & ? & ? & _) end.
    go_inv. by exists pem.
  - intros cfg Hl. unfold LoadClientTLSConfig in Hl. go_inv. destruct x as [pool kp].
    match goal with Hm : load_material _ _ _ _ = _ |- _ =>
      apply load_material_Ret in Hm as (pem & _ & _ & ? & ? & _) end.
    go_inv. exists pem. split_and!; try done. simpl. intros raw. unfold verify_peer.
    destruct raw as [|der raw].
    { split; [done|]. intros (leaf & rest & Hf & _). by apply Forall2_nil_inv_l in Hf. }
    simpl (length _ =? 0)%nat. cbv iota. split.
    + intros Hv. go_inv. match goal with Hp : parse_peer _ = Ret ?l |- _ =>
        apply parse_peer_Ret in Hp; destruct l as [|leaf rest]; [done|] end. eauto.
    + intros (leaf & rest & Hf%parse_peer_Ret & Hv). by rewrite Hf.
Qed.

Definition sample_tls : Tls := {|
  AppendCertsFromPEM pem :=
    match sample_parse_cert pem with Ret c => Some [c] | _ => None end;
  X509KeyPair _ _ := Ret 1%Z;
  Certificate_Verify roots _ _ c :=
    if bool_decide (RawSubjectPublicKeyInfo c ∈ (RawSubjectPublicKeyInfo <$> roots))
    then Ret () else Fail (Foreign 6 "x509: certificate signed by unknown authority");
|}.

Definition sample_tls_files : FileSystem := sample_fs "tls"
  [("ca.pem", [48; 1; 7; 97]%Z); ("cert.pem", [48; 1; 9; 98]%Z); ("key.pem", [49; 1; 9]%Z)].

Lemma mutual_authentication_witness :
  let U := sample_unicode in let C := sample_crypto in let F := sample_tls_files in
  let T := sample_tls in
  ∃ cfg, LoadClientTLSConfig "tls/ca.pem" "tls/cert.pem" "tls/key.pem" "host" = Ret cfg ∧
    VerifyPeerCertificate cfg [[48; 1; 7; 99]%Z] = Ret ().
Proof.
  intros U C F T.
  assert (is_ret (LoadClientTLSConfig "tls/ca.pem" "tls/cert.pem" "tls/key.pem" "host") = true)
    as Hr by (vm_compute; reflexivity).
  destruct (LoadClientTLSConfig "tls/ca.pem" "tls/cert.pem" "tls/key.pem" "host") as [cfg| |] eqn:E;
    [|discriminate Hr..].
  exists cfg. split; [reflexivity|].
  destruct (proj2 (@mutual_authentication U C F T "tls/ca.pem" "tls/cert.pem" "tls/key.pem" "host")
    cfg E) as (pem & Hpem & Happ & _ & Hv).
  apply Hv. eexists _, []. split; [constructor; [reflexivity|constructor]|].
  assert (loadPEMOrFile "tls/ca.pem" = Ret [48; 1; 7; 97]%Z) as Hca by (vm_compute; reflexivity).
  rewrite Hca in Hpem. injection Hpem as <-. simpl in Happ. injection Happ as <-. reflexivity.
Defined.
