(* ===== verification/KspClient.v ===== *)
(** * [internal/kspclient] and [internal/kspcommon]

    The client every key storage provider uses: its configuration, the global
    client and its connection, the cached list of remote keys, the keys
    installed for the provider, and signing.  The remote service is the outcome
    of its two calls ([Rpc]); the platform's certificate store is any
    [CertBackend]. *)

From stdpp Require Import base list sets gmap strings.
From Stdlib Require Import ZArith Lia Ascii.
From S2P Require Import Prelude GoStrings GoNet GoCrypto Samples CertTypes CertFileStore CertService.
From S2P Require Import TlsUtil.

Definition ProviderName_ksp : string := "Fred Proxy Key Storage Provider".
Definition KSPLibrary : string := "fredprx_ksp.dll".
Definition ConfigDir : string := "fredprx-ksp".

(** ** [config.go] and [paths.go] *)

Record KspConfig := { Addr_ : string; CA : string; Cert : string; Key : string }.
#[export] Instance KspConfig_eq_dec : EqDecision KspConfig.
Proof. solve_decision. Defined.

(** The process environment and the calls that write configuration. *)
Class Host := {
  os_Getenv : string → string;
  filepath_Abs : string → outcome string;
  Unmarshal_config : list Z → outcome KspConfig;
  MarshalIndent_config : KspConfig → outcome (list Z);
  os_MkdirAll : string → outcome ();
}.

Definition os_ErrInvalid : error := ErrVar "os.ErrInvalid" "invalid argument".

Section config.
Context `{FileSystem} `{Host}.

Definition DataDir : string :=
  let base := os_Getenv "ProgramData" in
  let base := if bool_decide (base = "") then "C:\ProgramData" else base in
  filepath_Join base ConfigDir.

Definition ConfigPath : string := filepath_Join DataDir "config.json".

Definition LoadConfig (path : string) : outcome KspConfig :=
  let path := if bool_decide (path = "") then ConfigPath else path in
  data ← os_ReadFile path;
  cfg ← Unmarshal_config data;
  if bool_decide (Addr_ cfg = "") then Fail os_ErrInvalid else Ret cfg.

(** [None] is the nil configuration. *)
Definition LoadConfigFromEnv : option KspConfig :=
  let addr := os_Getenv "KSP11_ADDR" in
  if bool_decide (addr = "") then None
  else Some {| Addr_ := addr; CA := os_Getenv "KSP11_CA"; Cert := os_Getenv "KSP11_CERT";
               Key := os_Getenv "KSP11_KEY" |}.

(** [if p != "" { abs, err := filepath.Abs(p); ... p = abs }]. *)
Definition abs_if_set (p : string) : outcome string :=
  if bool_decide (p = "") then Ret p else filepath_Abs p.

(** [SaveConfig]: the configuration as the caller finds it afterwards, and on
    success the file written; [write] is the outcome of [os.WriteFile]. *)
Definition SaveConfig (write : string → list Z → outcome ()) (cfg : KspConfig) (path : string)
    : outcome (string * list Z) * KspConfig :=
  let path := if bool_decide (path = "") then ConfigPath else path in
  match os_MkdirAll DataDir with
  | Fail e => (Fail e, cfg)
  | Panic => (Panic, cfg)
  | Ret _ =>
      match abs_if_set (CA cfg) with
      | Fail e => (Fail e, cfg)
      | Panic => (Panic, cfg)
      | Ret ca =>
          let cfg := {| Addr_ := Addr_ cfg; CA := ca; Cert := Cert cfg; Key := Key cfg |} in
          match abs_if_set (Cert cfg) with
          | Fail e => (Fail e, cfg)
          | Panic => (Panic, cfg)
          | Ret cert =>
              let cfg := {| Addr_ := Addr_ cfg; CA := CA cfg; Cert := cert; Key := Key cfg |} in
              match abs_if_set (Key cfg) with
              | Fail e => (Fail e, cfg)
              | Panic => (Panic, cfg)
              | Ret key =>
                  let cfg := {| Addr_ := Addr_ cfg; CA := CA cfg; Cert := Cert cfg; Key := key |} in
                  (data ← MarshalIndent_config cfg; _ ← write path data; Ret (path, data), cfg)
              end
          end
      end
  end.
End config.

(** ** [client.go] *)

Definition ErrNotInstalled : error :=
  ErrVar "kspclient.ErrNotInstalled" "certificate not installed in store for KSP provider".

(** In nanoseconds, as are all times. *)
Definition listCacheTTL : Z := 30 * 10 ^ 9.

Record KeyInfo := {
  ki_Thumbprint : string;
  ki_Subject : string;
  ki_Issuer : string;
  ki_KeyAlgorithm : string;
  ki_KeySize : Z;
  ki_CertificateDER : list Z;
  ki_RSAPublicBlob : list Z;
}.

(** The outcomes of the two calls of the service, at one moment. *)
Record Rpc := {
  rpc_ListCertificates : outcome ListCertificatesResponse;
  rpc_SignHash : SignHashRequest → outcome SignHashResponse;
}.

(** The connection is a number, [None] for nil; [cachedAt] is [None] for the
    zero time, which is more than any [listCacheTTL] ago. *)
Record Client := {
  cfg : KspConfig;
  conn : option Z;
  cachedList : list KeyInfo;
  cachedAt : option Z;
}.

(** [big.Int.Bytes] of a non-negative integer. *)
Definition Bytes (n : Z) : list Z := be_bytes (Z.to_nat ((BitLen n + 7) / 8)) n.

Section client.
Context `{Unicode} `{Crypto}.

Definition rsaPublicBlobFromDER (der : list Z) : outcome (list Z) :=
  cert ← x509_ParseCertificate der;
  match cert_PublicKey cert with
  | RSAPublicKey N E =>
      let modulus := Bytes N in
      let exp := be_bytes 4 E in
      Ret (le_bytes 4 0x31415352 ++ le_bytes 4 (BitLen N) ++ le_bytes 4 (Z.of_nat (length exp)) ++
           le_bytes 4 (Z.of_nat (length modulus)) ++ replicate 8 0%Z ++ exp ++ modulus)
  | _ => Fail (ErrNew "not RSA")
  end.

(** [blob, err := rsaPublicBlobFromDER(der); if err == nil { ... }], for an RSA
    certificate. *)
Definition rsa_blob_if (keyAlgorithm : string) (der : list Z) : outcome (list Z) :=
  if bool_decide (keyAlgorithm = "RSA") && negb (length der =? 0)%nat then
    match rsaPublicBlobFromDER der with
    | Ret blob => Ret blob
    | Fail _ => Ret []
    | Panic => Panic
    end
  else Ret [].

(** The issuer of a remote certificate, read from its bytes when the server
    gave none. *)
Definition issuer_of (issuer : string) (der : list Z) : outcome string :=
  if bool_decide (issuer = "") && negb (length der =? 0)%nat then
    match x509_ParseCertificate der with
    | Ret parsed =>
        Ret (if bool_decide (cert_Issuer_CommonName parsed = "") then cert_Issuer parsed
             else "CN=" +:+ cert_Issuer_CommonName parsed)
    | Fail _ => Ret issuer
    | Panic => Panic
    end
  else Ret issuer.

(** One turn of the loop of [refreshRemoteListLocked]. *)
Definition remote_key (cert : PbCertificateInfo) : outcome (option KeyInfo) :=
  if negb (pb_HasPrivateKey cert) then Ret None
  else
    issuer ← issuer_of (pb_Issuer cert) (pb_CertificateDer cert);
    blob ← rsa_blob_if (pb_KeyAlgorithm cert) (pb_CertificateDer cert);
    Ret (Some {| ki_Thumbprint := NormalizeThumbprint (pb_Thumbprint cert);
                 ki_Subject := pb_Subject cert; ki_Issuer := issuer;
                 ki_KeyAlgorithm := pb_KeyAlgorithm cert; ki_KeySize := pb_KeySize cert;
                 ki_CertificateDER := pb_CertificateDer cert; ki_RSAPublicBlob := blob |}).

(** [time.Since(c.cachedAt) < listCacheTTL]. *)
Definition is_fresh (now : Z) (c : Client) : bool :=
  match cachedAt c with Some t => (now - t <? listCacheTTL)%Z | None => false end.

(** [now] is the time when the call is made, [later] when the reply is in. *)
Definition refreshRemoteListLocked (rpc : Rpc) (now later : Z) (c : Client) : outcome () * Client :=
  if is_fresh now c && negb (length (cachedList c) =? 0)%nat then (Ret (), c)
  else
    match resp ← rpc_ListCertificates rpc; collect remote_key resp with
    | Ret out => (Ret (), {| cfg := cfg c; conn := conn c; cachedList := out;
                             cachedAt := Some later |})
    | Fail e => (Fail e, c)
    | Panic => (Panic, c)
    end.

Definition AllKeys (rpc : Rpc) (now later : Z) (c : Client) : outcome (list KeyInfo) * Client :=
  match refreshRemoteListLocked rpc now later c with
  | (Ret _, c) => (Ret (cachedList c), c)
  | (Fail e, c) => (Fail e, c)
  | (Panic, c) => (Panic, c)
  end.

Definition Ping (rpc : Rpc) : outcome () := _ ← rpc_ListCertificates rpc; Ret ().

Definition ReloadManifest : outcome () := Ret ().

(** One turn of the loop of [InstalledKeys]. *)
Definition installed_key (sc : CertificateInfo) : outcome (option KeyInfo) :=
  blob ← rsa_blob_if (KeyAlgorithm sc) (CertificateDER sc);
  Ret (Some {| ki_Thumbprint := NormalizeThumbprint (Thumbprint sc); ki_Subject := Subject sc;
               ki_Issuer := Issuer sc; ki_KeyAlgorithm := KeyAlgorithm sc;
               ki_KeySize := to_i32 (KeySize sc); ki_CertificateDER := CertificateDER sc;
               ki_RSAPublicBlob := blob |}).

Section installed.
Context {W : Type} `{CertBackend W}.

Definition InstalledKeys (w : W) (rpc : Rpc) (now later : Z) (c : Client)
    : outcome (list KeyInfo) * Client :=
  match ListCertificatesByProvider w ProviderName_ksp with
  | Ret (sc :: scs) => (collect installed_key (sc :: scs), c)
  | Ret [] => (Ret [], c)
  | Fail err =>
      if decide (err = ErrUnsupportedPlatform) then AllKeys rpc now later c else (Ret [], c)
  | Panic => (Panic, c)
  end.

(** The loop of [FindInstalled]. *)
Definition find_key (tp : string) (keys : list KeyInfo) : outcome KeyInfo :=
  match find_first (λ k, bool_decide (ki_Thumbprint k = tp)) keys with
  | Some k => Ret k
  | None => Fail ErrNotInstalled
  end.

Definition FindInstalled (w : W) (rpc : Rpc) (now later : Z) (thumbprint : string) (c : Client)
    : outcome KeyInfo * Client :=
  let tp := NormalizeThumbprint thumbprint in
  let '(keys, c) := InstalledKeys w rpc now later c in
  (keys ← keys; find_key tp keys, c).

Definition SignHashDirect (rpc : Rpc) (thumbprint : string) (digest : list Z) (hashAlg padding : Z)
    : outcome (list Z) :=
  let tp := NormalizeThumbprint thumbprint in
  resp ← rpc_SignHash rpc {| req_Thumbprint := tp; req_Digest := digest;
                             req_HashAlgorithm := hashAlg; req_RsaPadding := padding |};
  Ret (resp_Signature resp).

Definition Client_SignHash (w : W) (rpc : Rpc) (now later : Z) (thumbprint : string)
    (digest : list Z) (hashAlg padding : Z) (c : Client) : outcome (list Z) * Client :=
  let tp := NormalizeThumbprint thumbprint in
  let '(k, c) := FindInstalled w rpc now later tp c in
  (_ ← k; SignHashDirect rpc tp digest hashAlg padding, c).
End installed.
End client.

Definition HashAlgFromInt (v : Z) : Z :=
  if (v =? 2)%Z then HashAlgorithm_SHA384
  else if (v =? 3)%Z then HashAlgorithm_SHA512
  else HashAlgorithm_SHA256.

Definition PaddingFromInt (v : Z) : Z :=
  if (v =? 2)%Z then RSAPadding_PSS else RSAPadding_PKCS1.

(** ** The global client *)

(** The package variable, the connections that are open, and the number of
    connections made so far. *)
Record Process := {
  global : option Client;
  open_conns : list Z;
  next_conn : Z;
}.

Definition init_Process : Process := {| global := None; open_conns := []; next_conn := 0 |}.

Section global.
Context `{Unicode} `{Crypto} `{FileSystem} `{Tls}.

(** [New]; [dial] is the outcome of [grpc.NewClient]. *)
Definition New (dial : outcome ()) (cfg : KspConfig) (p : Process) : outcome Client * Process :=
  let host := match SplitHostPort (Addr_ cfg) with Ret (host, _) => host | _ => Addr_ cfg end in
  match wrapf "tls config" (LoadClientTLSConfig (CA cfg) (Cert cfg) (Key cfg) host) with
  | Fail e => (Fail e, p)
  | Panic => (Panic, p)
  | Ret _ =>
      match wrapf "grpc dial" dial with
      | Fail e => (Fail e, p)
      | Panic => (Panic, p)
      | Ret _ =>
          (Ret {| KspClient.cfg := cfg; conn := Some (next_conn p); cachedList := [];
                  cachedAt := None |},
           {| global := global p; open_conns := next_conn p :: open_conns p;
              next_conn := next_conn p + 1 |})
      end
  end.

(** [Close]: closing a connection always closes it. *)
Definition Close (c : Client) (p : Process) : Process :=
  match conn c with
  | Some n => {| global := global p; open_conns := filter (λ m, m ≠ n) (open_conns p);
                 next_conn := next_conn p |}
  | None => p
  end.

Definition ShutdownGlobal (p : Process) : Process :=
  match global p with
  | Some c =>
      let p := Close c p in
      {| global := None; open_conns := open_conns p; next_conn := next_conn p |}
  | None => p
  end.

Definition InitGlobal (dial : outcome ()) (cfg : KspConfig) (p : Process) : outcome () * Process :=
  let p := ShutdownGlobal p in
  match New dial cfg p with
  | (Ret c, p) =>
      (Ret (), {| global := Some c; open_conns := open_conns p; next_conn := next_conn p |})
  | (Fail e, p) => (Fail e, p)
  | (Panic, p) => (Panic, p)
  end.

(** A call on the global client changes the client, not the connections. *)
Definition set_global (c : Client) (p : Process) : Process :=
  {| global := Some c; open_conns := open_conns p; next_conn := next_conn p |}.
End global.

(** ** Lemmas *)

(** *** The public key blob *)

Lemma BitLen_bound n : (0 ≤ n)%Z → (n < 2 ^ BitLen n)%Z.
Proof.
  intros Hn. unfold BitLen. destruct (Z.leb_spec n 0); [lia|].
  pose proof (Z.log2_spec n ltac:(lia)). replace (Z.log2 n + 1)%Z with (Z.succ (Z.log2 n)) by lia. lia.
Qed.

Lemma BitLen_le N w : (0 ≤ w)%Z → (0 ≤ N < 2 ^ w)%Z → (BitLen N ≤ w)%Z.
Proof.
  intros Hw HN. unfold BitLen. destruct (Z.leb_spec N 0); [done|].
  assert (Z.log2 N < w)%Z by (apply Z.log2_lt_pow2; lia). lia.
Qed.

Lemma BitLen_nonneg n : (0 ≤ BitLen n)%Z.
Proof. unfold BitLen. destruct (Z.leb_spec n 0); [lia|]. pose proof (Z.log2_nonneg n). lia. Qed.

Lemma SetBytes_Bytes n : (0 ≤ n)%Z → be_value (Bytes n) = n.
Proof.
  intros Hn. unfold Bytes. rewrite be_value_bytes. apply Z.mod_small.
  pose proof (BitLen_bound n Hn). pose proof (BitLen_nonneg n) as Hb.
  assert (0 ≤ (BitLen n + 7) / 8)%Z by (apply Z.div_pos; lia). rewrite Z2Nat.id by lia.
  change 256%Z with (2 ^ 8)%Z. rewrite <- Z.pow_mul_r by lia.
  split; [lia|]. apply Z.lt_le_trans with (2 ^ BitLen n)%Z; [done|].
  apply Z.pow_le_mono_r; [lia|].
  pose proof (Z.div_mod (BitLen n + 7) 8 ltac:(lia)).
  pose proof (Z.mod_pos_bound (BitLen n + 7) 8 ltac:(lia)). lia.
Qed.

(** A little-endian 32-bit field. *)
Definition le32 (l : list Z) : Z := be_value (reverse l).

Lemma le32_le_bytes x : (0 ≤ x < 2 ^ 32)%Z → le32 (le_bytes 4 x) = x.
Proof.
  intros Hx. unfold le32, le_bytes. rewrite reverse_involutive, be_value_bytes.
  apply Z.mod_small. lia.
Qed.

(** How Windows reads a [BCRYPT_RSAPUBLIC_BLOB]: magic number, bit length, and
    the exponent and modulus whose sizes the header gives. *)
Definition read_rsa_blob (blob : list Z) : option (Z * Z * Z) :=
  let field i := le32 (take 4 (drop i blob)) in
  let cbExp := Z.to_nat (field 8%nat) in
  let cbMod := Z.to_nat (field 12%nat) in
  if (field 0%nat =? 0x31415352)%Z && (length blob =? 24 + cbExp + cbMod)%nat then
    Some (field 4%nat, be_value (take cbExp (drop 24 blob)),
          be_value (take cbMod (drop (24 + cbExp) blob)))
  else None.

Lemma read_blob_fields bits exp modulus :
  (0 ≤ bits < 2 ^ 32)%Z → (Z.of_nat (length exp) < 2 ^ 32)%Z →
  (Z.of_nat (length modulus) < 2 ^ 32)%Z →
  read_rsa_blob (le_bytes 4 0x31415352 ++ le_bytes 4 bits ++ le_bytes 4 (Z.of_nat (length exp)) ++
    le_bytes 4 (Z.of_nat (length modulus)) ++ replicate 8 0%Z ++ exp ++ modulus) =
  Some (bits, be_value exp, be_value modulus).
Proof.
  intros Hb He Hm. unfold read_rsa_blob.
  set (a := le_bytes 4 0x31415352). set (b := le_bytes 4 bits).
  set (c := le_bytes 4 (Z.of_nat (length exp))). set (d := le_bytes 4 (Z.of_nat (length modulus))).
  set (z := replicate 8 0%Z).
  assert (length a = 4%nat) as La by done. assert (length b = 4%nat) as Lb by apply le_bytes_length.
  assert (length c = 4%nat) as Lc by apply le_bytes_length.
  assert (length d = 4%nat) as Ld by apply le_bytes_length.
  assert (length z = 8%nat) as Lz by done.
  assert (take 4 (drop 0 (a ++ b ++ c ++ d ++ z ++ exp ++ modulus)) = a) as ->
    by (rewrite drop_0, take_app_length'; done).
  assert (take 4 (drop 4 (a ++ b ++ c ++ d ++ z ++ exp ++ modulus)) = b) as ->
    by (rewrite (drop_app_length' a) by done; by rewrite take_app_length').
  assert (drop 8 (a ++ b ++ c ++ d ++ z ++ exp ++ modulus) = c ++ d ++ z ++ exp ++ modulus) as E8.
  { rewrite (app_assoc a b). apply drop_app_length'. rewrite length_app. lia. }
  rewrite E8, take_app_length' by done.
  assert (drop 12 (a ++ b ++ c ++ d ++ z ++ exp ++ modulus) = d ++ z ++ exp ++ modulus) as ->.
  { rewrite !(app_assoc _ _ (d ++ _)), drop_app_length'; [done|]. rewrite !length_app. lia. }
  rewrite take_app_length' by done.
  assert (drop 24 (a ++ b ++ c ++ d ++ z ++ exp ++ modulus) = exp ++ modulus) as E24.
  { rewrite !(app_assoc _ _ (exp ++ _)), drop_app_length'; [done|]. rewrite !length_app. lia. }
  unfold b, c, d. rewrite !le32_le_bytes by lia. rewrite !Nat2Z.id.
  change (le32 a =? 0x31415352)%Z with true. cbn [andb].
  rewrite !length_app, !le_bytes_length, La, Lz.
  rewrite (proj2 (Nat.eqb_eq _ _)) by lia. cbv iota.
  fold b c d. rewrite <- drop_drop, E24. rewrite take_app_length, drop_app_length.
  by rewrite take_ge.
Qed.

(** *** The cached list *)

Section cache.
Context `{Unicode} `{Crypto}.

(** The call asks the server. *)
Definition asks (now : Z) (c : Client) : bool :=
  negb (is_fresh now c && negb (length (cachedList c) =? 0)%nat).

(** The replies a client has received, latest first, with their times. *)
Definition reply_log (rpc : Rpc) (now later : Z) (c : Client) : list (Z * ListCertificatesResponse) :=
  if asks now c then
    match rpc_ListCertificates rpc with Ret resp => [(later, resp)] | _ => [] end
  else [].

(** The clients reached from a new one by [AllKeys] calls. *)
Inductive client_reachable : list (Z * ListCertificatesResponse) → Client → Prop :=
  | cr_new k n : client_reachable [] {| cfg := k; conn := n; cachedList := []; cachedAt := None |}
  | cr_AllKeys hist c rpc now later :
      client_reachable hist c →
      client_reachable (reply_log rpc now later c ++ hist) (snd (AllKeys rpc now later c)).

(** What is cached is the list of some reply, at the time of that reply. *)
Definition cache_ok (hist : list (Z * ListCertificatesResponse)) (c : Client) : Prop :=
  match cachedAt c with
  | Some t => ∃ resp, (t, resp) ∈ hist ∧ collect remote_key resp = Ret (cachedList c)
  | None => cachedList c = []
  end.

Lemma AllKeys_cached rpc now later c :
  asks now c = false → AllKeys rpc now later c = (Ret (cachedList c), c).
Proof. unfold asks, AllKeys, refreshRemoteListLocked. by destruct (_ && _). Qed.

Lemma AllKeys_asks rpc now later c :
  asks now c = true →
  AllKeys rpc now later c =
    match resp ← rpc_ListCertificates rpc; collect remote_key resp with
    | Ret out => (Ret out, {| cfg := cfg c; conn := conn c; cachedList := out;
                              cachedAt := Some later |})
    | Fail e => (Fail e, c)
    | Panic => (Panic, c)
    end.
Proof.
  unfold asks, AllKeys, refreshRemoteListLocked. destruct (_ && _); [done|]. intros _.
  by destruct (resp ← rpc_ListCertificates rpc; collect remote_key resp).
Qed.

Lemma AllKeys_conn rpc now later c : conn (snd (AllKeys rpc now later c)) = conn c.
Proof.
  destruct (asks now c) eqn:E; [rewrite AllKeys_asks by done|by rewrite AllKeys_cached].
  by destruct (resp ← rpc_ListCertificates rpc; collect remote_key resp).
Qed.

Lemma client_reachable_ok hist c : client_reachable hist c → cache_ok hist c.
Proof.
  induction 1 as [|hist c rpc now later _ IH]; [done|]. unfold reply_log.
  destruct (asks now c) eqn:E; [|by rewrite AllKeys_cached].
  rewrite AllKeys_asks by done. destruct (rpc_ListCertificates rpc) as [resp| |]; simpl; [|done..].
  assert (cache_ok ((later, resp) :: hist) c).
  { unfold cache_ok in *. destruct (cachedAt c); [|done]. destruct IH as (r & ? & ?).
    exists r. split; [by right|done]. }
  destruct (collect remote_key resp) eqn:Hc; simpl; [|done..].
  exists resp. split; [by left|done].
Qed.
End cache.

(** *** Installed keys *)

Section installed_lemmas.
Context `{Unicode} `{Crypto} {W : Type} `{CertBackend W}.

Lemma InstalledKeys_client (w : W) rpc now later c :
  let c' := snd (InstalledKeys w rpc now later c) in
  c' = c ∨ c' = snd (AllKeys rpc now later c).
Proof.
  unfold InstalledKeys. destruct (ListCertificatesByProvider _ _) as [[|]|e|]; simpl; auto.
  destruct (decide _); auto.
Qed.

Lemma find_key_Ret tp keys k : find_key tp keys = Ret k → k ∈ keys ∧ ki_Thumbprint k = tp.
Proof.
  unfold find_key. destruct (find_first _ keys) as [k'|] eqn:E; [|done]. intros [= <-].
  split; [by eapply find_first_elem_of|]. apply find_first_true in E. by apply bool_decide_eq_true in E.
Qed.

Lemma find_key_Fail tp keys e :
  find_key tp keys = Fail e → e = ErrNotInstalled ∧ Forall (λ k, ki_Thumbprint k ≠ tp) keys.
Proof.
  unfold find_key. destruct (find_first _ keys) eqn:E; [done|]. intros [= <-]. split; [done|].
  apply find_first_None in E. apply (Forall_impl _ _ _ E). intros k Hk Heq.
  by rewrite bool_decide_eq_true_2 in Hk.
Qed.

Lemma NormalizeThumbprint_twice tp :
  printable tp = true →
  NormalizeThumbprint (NormalizeThumbprint tp) = NormalizeThumbprint tp.
Proof.
  intros Hp. rewrite (NormalizeThumbprint_printable tp Hp).
  rewrite NormalizeThumbprint_printable by (by apply canonical_thumbprint_printable).
  apply canonical_thumbprint_idemp.
Qed.

Lemma Client_SignHash_run (w : W) rpc now later tp digest h p c :
  printable tp = true →
  Client_SignHash w rpc now later tp digest h p c =
    (keys ← fst (InstalledKeys w rpc now later c);
     _ ← find_key (NormalizeThumbprint tp) keys;
     resp ← rpc_SignHash rpc {| req_Thumbprint := NormalizeThumbprint tp; req_Digest := digest;
                                req_HashAlgorithm := h; req_RsaPadding := p |};
     Ret (resp_Signature resp), snd (InstalledKeys w rpc now later c)).
Proof.
  intros Hp. unfold Client_SignHash, FindInstalled, SignHashDirect.
  rewrite !(NormalizeThumbprint_twice tp Hp).
  destruct (InstalledKeys w rpc now later c) as [[keys| |] c']; simpl; [|done..].
  by destruct (find_key _ keys).
Qed.

Lemma Client_SignHash_client (w : W) rpc now later tp digest h p c :
  snd (Client_SignHash w rpc now later tp digest h p c) = snd (InstalledKeys w rpc now later c).
Proof. unfold Client_SignHash, FindInstalled. by destruct (InstalledKeys w rpc now later c). Qed.

Lemma rsa_blob_if_Ret alg der blob :
  rsa_blob_if alg der = Ret blob → blob = [] ∨ alg = "RSA" ∧ rsaPublicBlobFromDER der = Ret blob.
Proof.
  unfold rsa_blob_if. case_bool_decide; simpl; [|intros [= <-]; by left].
  destruct (_ =? 0)%nat; simpl; [intros [= <-]; by left|].
  destruct (rsaPublicBlobFromDER der); intros [= <-]; auto.
Qed.

Lemma installed_key_thumbprint sc o :
  installed_key sc = Ret o → ∃ k, o = Some k ∧ ki_Thumbprint k = NormalizeThumbprint (Thumbprint sc).
Proof. unfold installed_key. intros Hi. go_inv. eauto. Qed.

Lemma collect_installed_thumbprints scs keys :
  collect installed_key scs = Ret keys →
  ki_Thumbprint <$> keys = (NormalizeThumbprint ∘ Thumbprint) <$> scs.
Proof.
  intros (os & Hos & ->)%collect_Ret_iff. induction Hos as [|sc o scs os Ho _ IH]; [done|].
  apply installed_key_thumbprint in Ho as (k & -> & Hk).
  change (ki_Thumbprint k :: (ki_Thumbprint <$> omap id os) = NormalizeThumbprint (Thumbprint sc) ::
    ((NormalizeThumbprint ∘ Thumbprint) <$> scs)).
  by rewrite Hk, IH.
Qed.
End installed_lemmas.

(** *** The global client *)

Section global_lemmas.
Context `{Unicode} `{Crypto} `{FileSystem} `{Tls}.

(** Exactly the global client's connection is open. *)
Record process_ok (p : Process) : Prop := {
  po_open : open_conns p = match global p with
                           | Some c => option_list (conn c)
                           | None => []
                           end;
  po_next : Forall (λ n, n < next_conn p)%Z (open_conns p);
}.

Lemma ShutdownGlobal_ok p :
  process_ok p → process_ok (ShutdownGlobal p) ∧ global (ShutdownGlobal p) = None ∧
    open_conns (ShutdownGlobal p) = [].
Proof.
  intros [Ho Hn]. unfold ShutdownGlobal, Close. destruct (global p) as [c|] eqn:Hg.
  2: { rewrite Hg. split_and!; try done. split; by rewrite ?Hg. }
  destruct (conn c) as [n|] eqn:Hc; simpl in *.
  - rewrite Ho. rewrite filter_cons_False by auto. by split_and!.
  - rewrite Ho. by split_and!.
Qed.

Lemma New_ok dial k p :
  process_ok p → global p = None →
  match New dial k p with
  | (Ret c, p') => conn c = Some (next_conn p) ∧ open_conns p' = [next_conn p] ∧
      next_conn p' = (next_conn p + 1)%Z
  | (_, p') => p' = p
  end.
Proof.
  intros [Ho _] Hg. rewrite Hg in Ho. unfold New.
  destruct (wrapf "tls config" _); [|done..]. destruct (wrapf "grpc dial" _); simpl; [|done..].
  by rewrite Ho.
Qed.

Lemma InitGlobal_ok dial k p :
  process_ok p →
  match InitGlobal dial k p with
  | (Ret _, p') => process_ok p' ∧ is_Some (global p')
  | (_, p') => process_ok p' ∧ global p' = None
  end.
Proof.
  intros Hp. unfold InitGlobal. destruct (ShutdownGlobal_ok p Hp) as (Hs & Hg & _).
  pose proof (New_ok dial k _ Hs Hg) as Hn.
  destruct (New dial k (ShutdownGlobal p)) as [[c|e|] p'].
  - destruct Hn as (Hc & Ho & Hnext). simpl. split; [|done]. split; simpl; rewrite Ho; [by rewrite Hc|].
    rewrite Hnext. repeat constructor. lia.
  - by subst.
  - by subst.
Qed.

(** The processes reached by (re-)initialising, shutting down, and calling the
    global client. *)
Inductive process_reachable : Process → Prop :=
  | pr_init : process_reachable init_Process
  | pr_InitGlobal dial k p : process_reachable p → process_reachable (snd (InitGlobal dial k p))
  | pr_ShutdownGlobal p : process_reachable p → process_reachable (ShutdownGlobal p)
  | pr_AllKeys p c rpc now later :
      process_reachable p → global p = Some c →
      process_reachable (set_global (snd (AllKeys rpc now later c)) p).

Lemma set_global_ok p c c' :
  process_ok p → global p = Some c → conn c' = conn c → process_ok (set_global c' p).
Proof. intros [Ho Hn] Hg Hc. split; simpl; [by rewrite Hc, Ho, Hg|done]. Qed.

Lemma process_reachable_ok p : process_reachable p → process_ok p.
Proof.
  induction 1 as [|dial k p _ IH|p _ IH|p c rpc now later _ IH Hg].
  - split; [done|constructor].
  - pose proof (InitGlobal_ok dial k p IH) as Hi. by destruct (InitGlobal dial k p) as [[] ?], Hi.
  - by apply ShutdownGlobal_ok.
  - apply (set_global_ok p c); [done..|apply AllKeys_conn].
Qed.
End global_lemmas.

(** ** Properties *)

(** C30: at every moment at most one connection to a server is open, the global
    client's, and none when there is no global client: re-initialising closes
    the old one first, and when it fails there is neither client nor connection
    left. *)
Theorem one_connection_at_most `{Unicode} `{Crypto} `{FileSystem} `{Tls} p :
  process_reachable p →
  open_conns p = match global p with Some c => option_list (conn c) | None => [] end ∧
  ∀ dial k e p', InitGlobal dial k p = (Fail e, p') → global p' = None ∧ open_conns p' = [].
Proof.
  intros Hp%process_reachable_ok. split; [apply (po_open _ Hp)|]. intros dial k e p' Hi.
  pose proof (InitGlobal_ok dial k p Hp) as Hok. rewrite Hi in Hok. destruct Hok as [Hok Hg].
  split; [done|]. by rewrite (po_open _ Hok), Hg.
Qed.

Definition sample_ksp_config : KspConfig :=
  {| Addr_ := "host:443"; CA := "tls/ca.pem"; Cert := "tls/cert.pem"; Key := "tls/key.pem" |}.

Lemma one_connection_at_most_witness :
  let U := sample_unicode in let C := sample_crypto in let F := sample_tls_files in
  let T := sample_tls in
  let p := snd (InitGlobal (Ret ()) sample_ksp_config
             (snd (InitGlobal (Ret ()) sample_ksp_config init_Process))) in
  open_conns p = [1%Z] ∧
  open_conns p = match global p with Some c => option_list (conn c) | None => [] end.
Proof.
  intros U C F T p. split; [vm_compute; reflexivity|].
  apply (@one_connection_at_most U C F T p).
  apply pr_InitGlobal, pr_InitGlobal, pr_init.
Defined.

(** C31: the list of remote keys is never stale.  Whatever calls a client has
    made, a list [AllKeys] returns is the list of the keys of one reply of the
    server, received during this call or less than 30 seconds before it; and a
    failed call changes nothing. *)
Theorem AllKeys_is_recent `{Unicode} `{Crypto} hist c rpc now later :
  client_reachable hist c →
  (∀ keys c', AllKeys rpc now later c = (Ret keys, c') →
     ∃ t resp, collect remote_key resp = Ret keys ∧
       ((t, resp) ∈ hist ∧ (now - t < listCacheTTL)%Z ∧ keys ≠ [] ∨
        t = later ∧ rpc_ListCertificates rpc = Ret resp)) ∧
  (∀ e c', AllKeys rpc now later c = (Fail e, c') → c' = c).
Proof.
  intros Hr%client_reachable_ok. destruct (asks now c) eqn:Ha.
  - rewrite AllKeys_asks by done. split.
    + intros keys c'. destruct (rpc_ListCertificates rpc) as [resp| |]; simpl; [|done..].
      destruct (collect remote_key resp) eqn:Hc; [|done..]. intros [= <- _]. eauto 6.
    + intros e c'. by destruct (resp ← rpc_ListCertificates rpc; collect remote_key resp); intros [= _ <-].
  - rewrite AllKeys_cached by done. split; [|done]. intros keys c' [= <- <-].
    unfold asks, is_fresh in Ha. unfold cache_ok in Hr.
    apply negb_false_iff, andb_prop in Ha as [Hf Hne].
    destruct (cachedAt c) as [t|]; [|done]. destruct Hr as (resp & Hin & Hc).
    exists t, resp. split; [done|]. left. split; [done|]. split; [by apply Z.ltb_lt|].
    by destruct (cachedList c).
Qed.

Definition sample_pb : PbCertificateInfo :=
  {| pb_Thumbprint := "aa:bb"; pb_Subject := "CN=x"; pb_Issuer := ""; pb_NotBefore := (0, 0)%Z;
     pb_NotAfter := (0, 0)%Z; pb_KeyAlgorithm := "RSA"; pb_KeySize := 2048; pb_HasPrivateKey := true;
     pb_IsTpm := false; pb_ProviderName := ""; pb_CertificateDer := [48; 2; 5; 5]%Z |}.

Lemma AllKeys_is_recent_witness :
  let U := sample_unicode in let C := sample_crypto in
  let rpc := {| rpc_ListCertificates := Ret [sample_pb]; rpc_SignHash _ := Panic |} in
  let rpc' := {| rpc_ListCertificates := Panic; rpc_SignHash _ := Panic |} in
  let c0 := {| cfg := sample_ksp_config; conn := Some 0%Z; cachedList := []; cachedAt := None |} in
  let c1 := snd (AllKeys rpc 0 0 c0) in
  is_ret (fst (AllKeys rpc' (29 * 10 ^ 9) 0 c1)) = true ∧
  ∀ e c', AllKeys rpc' (29 * 10 ^ 9) 0 c1 = (Fail e, c') → c' = c1.
Proof.
  intros U C rpc rpc' c0 c1. split; [vm_compute; reflexivity|].
  exact (proj2 (@AllKeys_is_recent U C _ c1 rpc' (29 * 10 ^ 9)%Z 0%Z
    (cr_AllKeys _ c0 rpc 0 0 (cr_new _ _)))).
Defined.

(** C32: a client signs only with an installed key.  [SignHash] returns a
    signature exactly when the normalised thumbprint is that of an installed
    key and the server signs the one request it is sent, with that thumbprint
    and the caller's digest, hash and padding; for any other thumbprint the
    answer is [ErrNotInstalled], and the server is not asked to sign. *)
Theorem Client_SignHash_installed_only `{Unicode} `{Crypto} {W} `{CertBackend W} (w : W)
    rpc now later tp d h p c keys :
  printable tp = true → fst (InstalledKeys w rpc now later c) = Ret keys →
  let ntp := NormalizeThumbprint tp in
  let req := {| req_Thumbprint := ntp; req_Digest := d; req_HashAlgorithm := h; req_RsaPadding := p |} in
  let res := fst (Client_SignHash w rpc now later tp d h p c) in
  (∀ sig, res = Ret sig ↔
     ntp ∈ (ki_Thumbprint <$> keys) ∧ ∃ resp, rpc_SignHash rpc req = Ret resp ∧ resp_Signature resp = sig) ∧
  (ntp ∉ (ki_Thumbprint <$> keys) → res = Fail ErrNotInstalled) ∧
  (∀ e, ntp ∈ (ki_Thumbprint <$> keys) → rpc_SignHash rpc req = Fail e → res = Fail e).
Proof.
  intros Hp Hk ntp req res. subst res. rewrite Client_SignHash_run, Hk by done. simpl. fold ntp req.
  destruct (find_key ntp keys) as [k|e|] eqn:Hf; simpl.
  - apply find_key_Ret in Hf as [Hin Ht].
    assert (ntp ∈ (ki_Thumbprint <$> keys)) as Hin' by (apply list_elem_of_fmap; eauto).
    split_and!; [|done|by intros e _ ->]. intros sig.
    destruct (rpc_SignHash rpc req) as [resp|e|]; simpl; split; try done.
    + intros [= <-]. eauto.
    + by intros (_ & resp' & [= <-] & <-).
    + by intros (_ & resp' & ? & _).
    + by intros (_ & resp' & ? & _).
  - apply find_key_Fail in Hf as [-> Hall].
    assert (ntp ∉ (ki_Thumbprint <$> keys)) as Hnin.
    { intros (k & Ek & Hkin)%list_elem_of_fmap. rewrite Forall_forall in Hall.
      by apply (Hall k Hkin). }
    split_and!; [|done|by intros e Hin]. intros sig. split; [done|]. by intros [? _].
  - unfold find_key in Hf. by destruct (find_first _ keys).
Qed.

Definition sample_rpc : Rpc :=
  {| rpc_ListCertificates := Ret []; rpc_SignHash r :=
    Ret {| resp_Signature := [1; 2]%Z; resp_SignatureAlgorithm := ""; resp_RsaPadding := 1 |} |}.
Definition sample_client_0 : Client :=
  {| cfg := sample_ksp_config; conn := None; cachedList := []; cachedAt := None |}.
(** A store with one ECDSA identity. *)
Definition sample_ec_store : FileStore :=
  snd (@SetCertDir sample_unicode sample_crypto
    (sample_fs "certs" [("a.pem", [45; 1; 4; 48; 2; 9; 98; 45; 2; 3; 49; 2; 9]%Z)]) "certs"
    init_FileStore).
Definition sample_backend : CertBackend (FileStore * Z) :=
  let U := sample_unicode in let C := sample_crypto in _.
Definition sample_installed : list KeyInfo :=
  match fst (@InstalledKeys sample_unicode sample_crypto _ sample_backend (sample_ec_store, 0%Z) sample_rpc 0 0 sample_client_0) with
  | Ret l => l
  | _ => []
  end.

Lemma Client_SignHash_installed_only_witness :
  let U := sample_unicode in let C := sample_crypto in let B := sample_backend in
  fst (Client_SignHash (sample_ec_store, 0%Z) sample_rpc 0 0
         "30:02:09:62:00:00:00:00:00:00:00:00:00:00:00:00:00:00:00:00" [] 1 1 sample_client_0) =
    Ret [1; 2]%Z ∧
  fst (Client_SignHash (sample_ec_store, 0%Z) sample_rpc 0 0 "3001" [] 1 1 sample_client_0) =
    Fail ErrNotInstalled.
Proof.
  cbv zeta. split; [vm_compute; reflexivity|].
  assert (fst (@InstalledKeys sample_unicode sample_crypto _ sample_backend (sample_ec_store, 0%Z) sample_rpc 0 0
    sample_client_0) = Ret sample_installed) as Hk by (vm_compute; reflexivity).
  pose proof (@Client_SignHash_installed_only sample_unicode sample_crypto _ sample_backend (sample_ec_store, 0%Z)
    sample_rpc 0%Z 0%Z "3001" [] 1%Z 1%Z sample_client_0 sample_installed eq_refl Hk) as Ht.
  cbv zeta in Ht. destruct Ht as (_ & Ht & _). apply Ht.
  apply (bool_decide_eq_true_1 (@NormalizeThumbprint sample_unicode "3001" ∉ ki_Thumbprint <$> sample_installed)).
  vm_compute. reflexivity.
Defined.

(** Where the installed keys come from: the platform's store when it lists
    any, under their normalised thumbprints and in its order; the remote list
    exactly when the platform has no store; and otherwise, on an empty store or
    any other error of it, none at all. *)
Lemma InstalledKeys_sources `{Unicode} `{Crypto} {W} `{CertBackend W} (w : W) rpc now later c :
  match ListCertificatesByProvider w ProviderName_ksp with
  | Ret [] => InstalledKeys w rpc now later c = (Ret [], c)
  | Ret certs => ∀ keys c', InstalledKeys w rpc now later c = (Ret keys, c') →
      c' = c ∧ ki_Thumbprint <$> keys = (NormalizeThumbprint ∘ Thumbprint) <$> certs
  | Fail e =>
      InstalledKeys w rpc now later c =
        if decide (e = ErrUnsupportedPlatform) then AllKeys rpc now later c else (Ret [], c)
  | Panic => True
  end.
Proof.
  unfold InstalledKeys. destruct (ListCertificatesByProvider w _) as [[|sc scs]|e|]; try done.
  intros keys c' [= Hc <-]. split; [done|].
  by apply (collect_installed_thumbprints (sc :: scs)).
Qed.

(** C33: the public key blob of an RSA certificate is what Windows expects: it
    reads back as the bit length, public exponent and modulus of the
    certificate's key. *)
Theorem rsa_blob_round_trip `{Crypto} der cert N E :
  x509_ParseCertificate der = Ret cert → cert_PublicKey cert = RSAPublicKey N E →
  (0 ≤ N < 2 ^ (2 ^ 32 - 1))%Z → (0 ≤ E < 2 ^ 32)%Z →
  ∃ blob, rsaPublicBlobFromDER der = Ret blob ∧ read_rsa_blob blob = Some (BitLen N, E, N).
Proof.
  intros Hp Hk HN HE. unfold rsaPublicBlobFromDER. rewrite Hp.
  cbv beta iota delta [mbind outcome_bind]. rewrite Hk. cbv zeta. eexists. split; [reflexivity|].
  assert (0 ≤ BitLen N < 2 ^ 32)%Z as Hb.
  { split; [apply BitLen_nonneg|]. pose proof (BitLen_le N (2 ^ 32 - 1) ltac:(done) HN) as Hl. clear -Hl. lia. }
  destruct HN as [HN _].
  rewrite read_blob_fields; [|done|done|].
  - rewrite be_value_bytes, SetBytes_Bytes by lia. do 2 f_equal. f_equal. apply Z.mod_small. lia.
  - unfold Bytes. rewrite be_bytes_length.
    assert (0 ≤ (BitLen N + 7) / 8)%Z by (apply Z.div_pos; lia). rewrite Z2Nat.id by done.
    apply Z.div_lt_upper_bound; lia.
Qed.

Lemma rsa_blob_round_trip_witness :
  let C := sample_crypto in
  ∃ blob, rsaPublicBlobFromDER [48; 1; 7; 97]%Z = Ret blob ∧
    read_rsa_blob blob = Some (2048, 65537, 2 ^ 2047 + 7)%Z.
Proof.
  intros C.
  destruct (@rsa_blob_round_trip C [48; 1; 7; 97]%Z _ (2 ^ 2047 + 7) 65537 eq_refl eq_refl)
    as (blob & E & Hr).
  - split; [apply Z.leb_le; vm_compute; reflexivity|].
    apply Z.lt_le_trans with (2 ^ 2048)%Z; [apply Z.ltb_lt; vm_compute; reflexivity|].
    apply Z.pow_le_mono_r; apply Z.ltb_lt || apply Z.leb_le; vm_compute; reflexivity.
  - split; [apply Z.leb_le|apply Z.ltb_lt]; vm_compute; reflexivity.
  - exists blob. split; [exact E|]. rewrite Hr. vm_compute. reflexivity.
Defined.

(** A configuration that is saved is the one that is loaded: with the
    paths of the credentials made absolute, from the file [SaveConfig] wrote,
    provided it names an address. *)
Lemma config_round_trip `{Host} (fs fs' : FileSystem) write k path file data k' :
  (∀ c d, MarshalIndent_config c = Ret d → Unmarshal_config d = Ret c) →
  @SaveConfig fs _ write k path = (Ret (file, data), k') → Addr_ k ≠ "" →
  @os_ReadFile fs' file = Ret data → @ConfigPath fs' _ = @ConfigPath fs _ →
  @LoadConfig fs' _ path = Ret k' ∧ Addr_ k' = Addr_ k ∧
  abs_if_set (CA k) = Ret (CA k') ∧ abs_if_set (Cert k) = Ret (Cert k') ∧
  abs_if_set (Key k) = Ret (Key k').
Proof.
  intros Hjson Hs Ha Hr Hpath. unfold SaveConfig in Hs.
  destruct (os_MkdirAll _); [|done..].
  destruct (abs_if_set (CA k)) as [ca| |] eqn:Eca; [|done..]. simpl in Hs.
  destruct (abs_if_set (Cert k)) as [cert| |] eqn:Ecert; [|done..]. simpl in Hs.
  destruct (abs_if_set (Key k)) as [key| |] eqn:Ekey; [|done..]. injection Hs as Hs <-. go_inv.
  match goal with Hm : MarshalIndent_config _ = Ret _ |- _ => pose proof (Hjson _ _ Hm) as Hu end.
  match goal with Hpd : (_, _) = (_, _) |- _ => injection Hpd as <- <- | _ => idtac end.
  split_and!; try done. unfold LoadConfig. rewrite Hpath. simplify_eq. rewrite Hr. simpl. rewrite Hu.
  simpl. by rewrite bool_decide_eq_false_2.
Qed.

Definition sample_host : Host := {|
  os_Getenv v := "";
  filepath_Abs p := Ret ("/abs/" +:+ p);
  Unmarshal_config d :=
    match d with [1%Z] => Ret {| Addr_ := "h:1"; CA := "/abs/ca"; Cert := ""; Key := "/abs/k" |}
    | _ => Fail (Foreign 7 "json") end;
  MarshalIndent_config c :=
    if decide (c = {| Addr_ := "h:1"; CA := "/abs/ca"; Cert := ""; Key := "/abs/k" |})
    then Ret [1%Z] else Fail (Foreign 7 "json");
  os_MkdirAll _ := Ret ();
|}.

Lemma config_round_trip_witness :
  let O := sample_host in
  @LoadConfig (sample_fs "d" [("c.json", [1%Z])]) O "d/c.json" =
    Ret {| Addr_ := "h:1"; CA := "/abs/ca"; Cert := ""; Key := "/abs/k" |}.
Proof.
  intros O.
  apply (@config_round_trip O (sample_fs "d" []) (sample_fs "d" [("c.json", [1%Z])]) (λ _ _, Ret ())
    {| Addr_ := "h:1"; CA := "ca"; Cert := ""; Key := "k" |} "d/c.json" "d/c.json" [1%Z] _).
  - intros c d. simpl. destruct (decide _) as [->|]; [|discriminate]. intros [= <-]. reflexivity.
  - vm_compute. reflexivity.
  - discriminate.
  - vm_compute. reflexivity.
  - reflexivity.
Defined.
