(* ===== verification/ClientWorld.v ===== *)
(** * The world of the client-side programs

    The commands and the installer talk to a server, look names up, write
    configuration files and read the clock.  This file holds the classes of
    those operations and what the programs share: the choice of the address of
    a server ([resolveOrTestHostname] and [hostFromAddr], which
    [cmd/ksp-install-cert] and [cmd/ksp-install-ui] both contain), and a
    connection that is closed when the function that opened it is left. *)

From stdpp Require Import base list sets gmap strings.
From Stdlib Require Import ZArith Lia Ascii.
From S2P Require Import Prelude WinSys GoStrings GoNet GoText GoCrypto Samples CertTypes.
From S2P Require Import CertService Discovery DiscoveryClient TlsUtil KspClient.

(** ** Classes *)

(** Connections are numbers. [grpc_NewClient] does not wait for the server,
    [grpc_DialContext] (with [WithBlock]) does. *)
Class Grpc (W : Type) := {
  grpc_NewClient : string → Config → W → outcome Z * W;
  grpc_DialContext : string → Config → W → outcome Z * W;
  grpc_Close : Z → W → () * W;
  call_ListCertificates : Z → W → outcome ListCertificatesResponse * W;
  call_SignHash : Z → SignHashRequest → W → outcome SignHashResponse * W;
}.

Class Network (W : Type) := {
  net_LookupAddr : string → W → outcome (list string) * W;
  net_DialTimeout : string → W → outcome Z * W;
  net_Close : Z → W → () * W;
}.

(** The file system as the world has it, and [os.WriteFile]. *)
Class Disk (W : Type) := {
  files : W → FileSystem;
  os_WriteFile : string → list Z → W → outcome () * W;
}.

(** What [os.Stat] tells of a file: its size and its permission bits. *)
Record FileInfo := { fi_Size : Z; fi_Perm : Z }.
Class Stat (W : Type) := { os_Stat : string → W → outcome FileInfo }.

Class Clock (W : Type) := { time_Now : W → Z * W }.

(** What one run of the discovery meets on the local network: the outcomes of
    its system calls and the datagrams it receives. *)
Record local_network := {
  ln_listen : outcome ();
  ln_socket : socket;
  ln_interfaces : outcome (list Interface);
  ln_write : nat → outcome ();
  ln_replies : list reply_event;
}.
Class Lan (W : Type) := { discovery_run : Z → W → local_network * W }.

(** [server.DiscoverServers], with a configuration and with a timeout alone. *)
Definition discover_with {W} `{NetText} `{Json} `{Lan W} (cfg : DiscoverClientConfig)
    : M W (list DiscoveredServer) :=
  n ← sys (discovery_run (dc_Timeout cfg));
  lift (DiscoverServers cfg (ln_listen n) (ln_socket n) (ln_interfaces n) (ln_write n) (ln_replies n)).

Definition discover {W} `{NetText} `{Json} `{Lan W} (timeout : Z) : M W (list DiscoveredServer) :=
  discover_with {| dc_Port := 0; dc_Service := ""; dc_Timeout := timeout; dc_ProbeAddrs := [] |}.

(** A function of the file system of the moment. *)
Definition with_files {W A} `{Disk W} (f : FileSystem → A) : M W A :=
  λ w, (Done (Ret (f (files w))), w, []).

(** [kspclient.SaveConfig]: the configuration with absolute paths. *)
Definition save_config {W} `{Disk W} `{Host} (cfg : KspConfig) (path : string) : M W KspConfig :=
  r ← with_files (λ fs, SaveConfig (λ _ _, Ret ()) cfg path);
  pd ← lift r.1;
  o ← sys (os_WriteFile pd.1 pd.2);
  _ ← lift o;
  mret r.2.

(** The certificate store of the platform, as the world has it. *)
Definition with_store {W A} (f : W → outcome A) : M W A := λ w, (Done (f w), w, []).

Section client.
Context {W : Type} `{Unicode} `{Network W}.

(** [if conn, err := net.DialTimeout(...); err == nil { conn.Close(); ... }]. *)
Definition test_dial (addr : string) : M W bool :=
  r ← sys (net_DialTimeout addr);
  match r with
  | Ret c =>
      _ ← emit (Dialed addr);
      _ ← emit (Acquire (RConn c));
      _ ← emit (Release (RConn c));
      _ ← sys (net_Close c);
      mret true
  | Fail _ => mret false
  | Panic => lift Panic
  end.

(** The loop over the names of an address. *)
Fixpoint first_reachable (port : string) (names : list string) : M W (option string) :=
  match names with
  | [] => mret None
  | name :: names =>
      let testAddr := JoinHostPort (TrimSuffix name ".") port in
      ok ← test_dial testAddr;
      if ok : bool then mret (Some testAddr) else first_reachable port names
  end.

Definition resolveOrTestHostname (host port hostname : string) : M W string :=
  ok ← (if bool_decide (hostname = "") then mret false
        else test_dial (JoinHostPort hostname port));
  if ok : bool then mret (JoinHostPort hostname port)
  else
    found ← (match ParseIP host with
             | None => mret None
             | Some _ =>
                 names ← sys (net_LookupAddr host);
                 match names with
                 | Ret names => first_reachable port names
                 | Fail _ => mret None
                 | Panic => lift Panic
                 end
             end);
    match found with
    | Some testAddr => mret testAddr
    | None => mret (JoinHostPort host port)
    end.

Definition hostFromAddr (addr : string) : string :=
  match SplitHostPort addr with
  | Ret (h, _) => h
  | _ => addr
  end.

(** An address as it is typed: with a port, or a host alone, which can be an
    IPv6 address in brackets. *)
Definition default_port : string := "50051".

Definition typed_host_port (addr : string) : string * string :=
  match SplitHostPort addr with
  | Ret (host, port) => (host, port)
  | _ =>
      (if HasPrefix addr "[" && HasSuffix addr "]"
       then string_take (String.length addr - 2) (string_drop 1 addr) else addr, default_port)
  end.

(** *** Connections *)

Context `{Grpc W}.

(** [conn, err := dial(...); if err != nil { return ... }; defer conn.Close()]. *)
Definition with_conn {A} (wrap : outcome Z → outcome Z) (dial : W → outcome Z * W) (m : Z → M W A) : M W A :=
  r ← sys dial;
  match wrap r with
  | Ret c =>
      _ ← emit (Acquire (RConn c));
      with_defer (_ ← emit (Release (RConn c)); sys (grpc_Close c)) (m c)
  | Fail e => lift (Fail e)
  | Panic => lift Panic
  end.
End client.

(** ** Lemmas *)

Section resolve_proofs.
Context {W : Type} `{Unicode} `{Network W}.

Lemma test_dial_traced addr :
  traced (test_dial addr) (λ ok ev, ok = true → Dialed addr ∈ ev).
Proof.
  unfold test_dial. eapply traced_bind; [apply traced_sys|]. intros [c|e|] ev ->; simpl.
  - apply (traced_bind _ _ (λ _ ev, Dialed addr ∈ ev)); [apply traced_emit; by left|].
    intros [] ev Hev w a _ _. apply elem_of_app. by left.
  - by apply traced_ret.
  - apply traced_panic.
Qed.

Lemma first_reachable_traced port names :
  traced (first_reachable port names) (λ o ev, ∀ a, o = Some a →
    Dialed a ∈ ev ∧ ∃ h, a = JoinHostPort h port).
Proof.
  induction names as [|name names IH]; simpl; [by apply traced_ret|].
  eapply traced_bind; [apply test_dial_traced|]. intros [] ev Hev.
  - apply traced_ret. intros a [= <-]. rewrite app_nil_r. eauto.
  - eapply traced_conseq; [apply IH|]. intros o ev' Ho a Ha. simpl in *.
    destruct (Ho a Ha) as [? ?]. rewrite elem_of_app. auto.
Qed.

(** The address that is chosen has the port asked for, and it is that of the
    host asked for unless it is one that accepted a connection. *)
Lemma resolve_traced host port hostname :
  traced (resolveOrTestHostname host port hostname) (λ a ev,
    ∃ h, a = JoinHostPort h port ∧ (h = host ∨ Dialed a ∈ ev)).
Proof.
  unfold resolveOrTestHostname.
  apply (traced_bind _ _ (λ ok ev, ok = true → Dialed (JoinHostPort hostname port) ∈ ev)).
  { case_bool_decide; [by apply traced_ret|apply test_dial_traced]. }
  intros [] ev Hev; [apply traced_ret; rewrite app_nil_r; eauto|].
  apply (traced_bind _ _ (λ o ev, ∀ a, o = Some a → Dialed a ∈ ev ∧ ∃ h, a = JoinHostPort h port)).
  { destruct (ParseIP host); [|by apply traced_ret].
    eapply traced_bind; [apply traced_sys|]. intros [names|e|] ev' ->; simpl;
      [apply first_reachable_traced|by apply traced_ret|apply traced_panic]. }
  intros [a|] ev' Ha; apply traced_ret; [|eauto].
  destruct (Ha a eq_refl) as (? & h & ->). exists h. rewrite app_nil_r, elem_of_app. auto.
Qed.

(** Only test connections are made, and each is closed. *)
Lemma frame_test_dial L addr L' : frame L (test_dial addr) (λ _, L) L'.
Proof.
  unfold test_dial. frame_step. destruct a as [c|e|]; [|by intros w|by intros w].
  do 3 frame_step. frame_step. by intros w.
Qed.

Lemma frame_first_reachable L port names L' : frame L (first_reachable port names) (λ _, L) L'.
Proof.
  induction names as [|name names IH]; simpl; [by intros w|].
  eapply frame_bind; [apply frame_test_dial|]. intros []; [by intros w|apply IH].
Qed.

Lemma frame_resolve L host port hostname L' :
  frame L (resolveOrTestHostname host port hostname) (λ _, L) L'.
Proof.
  unfold resolveOrTestHostname. apply (frame_bind _ _ _ (λ _, L)).
  { case_bool_decide; [by intros w|apply frame_test_dial]. }
  intros []; [by intros w|]. apply (frame_bind _ _ _ (λ _, L)).
  { destruct (ParseIP host); [|by intros w]. frame_step.
    destruct a as [names|e|]; [apply frame_first_reachable|by intros w|by intros w]. }
  intros [a|]; by intros w.
Qed.

Lemma resolve_never_fails host port hostname :
  fails (resolveOrTestHostname host port hostname) (λ _, False).
Proof.
  assert (∀ addr, fails (test_dial addr) (λ _, False)) as Hd.
  { intros addr. apply fails_bind; [apply fails_sys|]. intros [c|e|]; [|apply fails_ret|by intros w].
    repeat (apply fails_bind; [apply fails_emit|intros _]).
    apply fails_bind; [apply fails_sys|intros _; apply fails_ret]. }
  unfold resolveOrTestHostname. apply fails_bind.
  { case_bool_decide; [apply fails_ret|apply Hd]. }
  intros []; [apply fails_ret|]. apply fails_bind; [|intros [a|]; apply fails_ret].
  destruct (ParseIP host); [|apply fails_ret]. apply fails_bind; [apply fails_sys|].
  intros [names|e|]; [|apply fails_ret|by intros w].
  induction names as [|name names IH]; [apply fails_ret|].
  apply fails_bind; [apply Hd|]. intros []; [apply fails_ret|apply IH].
Qed.

(** The server name the TLS configuration is built for is the host of the
    address. *)
Lemma hostFromAddr_Join host port :
  plain_host host → plain_port port → hostFromAddr (JoinHostPort host port) = host.
Proof. intros Hh Hp. unfold hostFromAddr. by rewrite SplitHostPort_Join. Qed.

Lemma default_port_plain : plain_port default_port.
Proof. done. Qed.

(** A typed address gives a host and a port without brackets or colons, when
    it has brackets only around it. *)
Lemma typed_port_plain addr : plain_port (typed_host_port addr).2.
Proof.
  unfold typed_host_port. destruct (SplitHostPort addr) as [[h p]|e|] eqn:E; try apply default_port_plain.
  by apply SplitHostPort_Ret in E as [_ ?].
Qed.
End resolve_proofs.

Section conn_proofs.
Context {W : Type} `{Grpc W}.

Lemma frame_with_conn {A} L wrap dial (m : Z → M W A) :
  (∀ c, frame (RConn c :: L) (m c) (λ _, RConn c :: L) (RConn c :: L)) →
  frame L (with_conn wrap dial m) (λ _, L) L.
Proof.
  intros Hm. unfold with_conn. frame_step. destruct (wrap a) as [c|e|]; [|apply frame_fail|by intros w].
  frame_step. eapply frame_defer; [apply Hm| |].
  - intros w. unfold result. rewrite bind_run. simpl. unfold sys. by destruct (grpc_Close c w) as [[] ?].
  - frame_step. apply frame_sys.
Qed.
End conn_proofs.

(** ** A concrete world

    A server at every address, with one certificate; no name or address
    resolves and nothing accepts a test connection; nothing is discovered. *)

Definition sample_remote : PbCertificateInfo :=
  {| pb_Thumbprint := "30:02:09:62"; pb_Subject := "CN=b"; pb_Issuer := "CN=ca"; pb_NotBefore := (0, 0)%Z;
     pb_NotAfter := (0, 0)%Z; pb_KeyAlgorithm := "ECDSA"; pb_KeySize := 256; pb_HasPrivateKey := true;
     pb_IsTpm := false; pb_ProviderName := ""; pb_CertificateDer := [48; 2; 9; 98]%Z |}.

(** The files do not change. *)
Definition sample_disk {W} (fs : FileSystem) : Disk W := {|
  files _ := fs;
  os_WriteFile _ _ w := (Ret (), w);
|}.

Section sample_world.
Context {W : Type}.

Definition sample_grpc : Grpc W := {|
  grpc_NewClient _ _ w := (Ret 1%Z, w);
  grpc_DialContext _ _ w := (Ret 1%Z, w);
  grpc_Close _ w := ((), w);
  call_ListCertificates _ w := (Ret [sample_remote], w);
  call_SignHash _ _ w := (Fail (Foreign 1 "refused"), w);
|}.

Definition sample_network : Network W := {|
  net_LookupAddr _ w := (Fail (Foreign 1 "no such host"), w);
  net_DialTimeout _ w := (Fail (Foreign 2 "refused"), w);
  net_Close _ w := ((), w);
|}.

Definition sample_lan : Lan W := {|
  discovery_run _ w :=
    ({| ln_listen := Ret (); ln_socket := sample_socket; ln_interfaces := Ret [];
        ln_write _ := Ret (); ln_replies := [] |}, w);
|}.
End sample_world.

Definition sample_client_host : Host := {|
  os_Getenv _ := "";
  filepath_Abs p := Ret p;
  Unmarshal_config d := Fail (Foreign 7 "json");
  MarshalIndent_config c := Ret (bytes_of_string (Addr_ c));
  os_MkdirAll _ := Ret ();
|}.
