(* ===== verification/Console.v ===== *)
(** * Terminal programs

    The interactive commands read the terminal through [bufio.Reader]s and
    write to it.  What the reads of standard input return is a list of chunks,
    in the sizes the operating system delivers; a reader buffers the rest of the
    chunk it took a line from.  The prompts that several commands share word for
    word ([readChoice], [resolvePadding], the message to sign) are here, with
    the theorems that say which line of the input they accept. *)

From stdpp Require Import base list strings.
From Stdlib Require Import ZArith Lia Ascii.
From S2P Require Import Prelude WinSys GoStrings GoNet GoText Samples CertTypes.

(** ** The terminal *)

(** The chunks the reads of standard input will return before its end, what was
    written to standard output, and the rest of the world. *)
Record Tty (W : Type) := { tty_in : list string; tty_out : string; tty_sys : W }.
Arguments Build_Tty {W}.
Arguments tty_in {W}.
Arguments tty_out {W}.
Arguments tty_sys {W}.

(** A [bufio.Reader] on standard input: the bytes it has taken and not yet
    given. *)
Definition Reader : Type := string.
Definition NewReader : Reader := EmptyString.

Definition io_EOF : error := ErrVar "io.EOF" "EOF".

(** [ReadString('\n')] on the buffered bytes and the chunks to come. *)
Fixpoint read_line (r : Reader) (chunks : list string) : outcome string * Reader * list string :=
  match IndexByte r newline with
  | Some i => (Ret (string_take (S i) r), string_drop (S i) r, chunks)
  | None =>
      match chunks with
      | [] => (Fail io_EOF, EmptyString, [])
      | c :: cs => read_line (r +:+ c) cs
      end
  end.

(** The chunks as one string. *)
Fixpoint flat (chunks : list string) : string :=
  match chunks with
  | [] => EmptyString
  | c :: cs => c +:+ flat cs
  end.

Section tty.
Context {W : Type}.

Definition print (s : string) : M (Tty W) () := λ t,
  (Done (Ret ()), Build_Tty (tty_in t) (tty_out t +:+ s) (tty_sys t), []).
Definition println (s : string) : M (Tty W) () := print (s +:+ String newline EmptyString).

(** Consecutive lines. *)
Fixpoint print_lines (l : list string) : M (Tty W) () :=
  match l with
  | [] => mret ()
  | s :: l => _ ← println s; print_lines l
  end.

(** A computation of the world behind the terminal. *)
Definition on_sys {A} (m : M W A) : M (Tty W) A := λ t,
  let '(r, w, ev) := m (tty_sys t) in (r, Build_Tty (tty_in t) (tty_out t) w, ev).

(** A call of the world, an error of which is fatal. *)
Definition call {A} (f : W → outcome A * W) : M (Tty W) A := r ← on_sys (sys f); lift r.

Definition ReadString (r : Reader) : M (Tty W) (outcome string * Reader) := λ t,
  let '(line, r, chunks) := read_line r (tty_in t) in
  (Done (Ret (line, r)), Build_Tty chunks (tty_out t) (tty_sys t), []).

(** [line, err := reader.ReadString('\n'); if err != nil { return err }]. *)
Definition must_read (r : Reader) : M (Tty W) (string * Reader) :=
  lr ← ReadString r;
  match lr.1 with
  | Ret line => mret (line, lr.2)
  | Fail e => lift (Fail e)
  | Panic => lift Panic
  end.

(** [os.Exit] runs no deferred call: the clean-up of [main] runs only when
    [main] returns. *)
Definition on_return {A} (cleanup : M (Tty W) ()) (m : M (Tty W) A) : M (Tty W) A :=
  a ← m; _ ← cleanup; mret a.

Context `{Unicode}.

(** *** [readChoice] *)

(** The answer a line is, when it is one. *)
Definition valid_choice (max : Z) (line : string) : option Z :=
  match Atoi (TrimSpace line) with
  | Ret n => if (n <? 1)%Z || (max <? n)%Z then None else Some (n - 1)%Z
  | _ => None
  end.

Fixpoint choice_loop (prompt : string) (fuel : nat) (max : Z) (r : Reader) : M (Tty W) (Z * Reader) :=
  match fuel with
  | O => λ t, (Cut, t, [])
  | S fuel =>
      _ ← print (prompt +:+ Itoa max +:+ "): ");
      lr ← must_read r;
      match valid_choice max lr.1 with
      | None =>
          _ ← println "Invalid selection, try again.";
          choice_loop prompt fuel max lr.2
      | Some n => mret (n, lr.2)
      end
  end.

(** All that can still be read through the reader. *)
Definition pending (r : Reader) (t : Tty W) : string := r +:+ flat (tty_in t).

(** Every turn reads a byte at least. *)
Definition choose (prompt : string) (max : Z) (r : Reader) : M (Tty W) (Z * Reader) := λ t,
  choice_loop prompt (S (String.length (pending r t))) max r t.

Definition readChoice (r : Reader) (max : Z) : M (Tty W) (Z * Reader) :=
  choose "Enter certificate number (1-" max r.

(** *** [resolvePadding]; the constants are those of the package at hand *)

Definition padding_named (pkcs1 pss : Z) (value : string) : outcome Z :=
  if decide (value ∈ [""; "pkcs1"; "pkcs1v15"; "pkcs#1"]) then Ret pkcs1
  else if decide (value ∈ ["pss"; "rsapss"; "rsa-pss"]) then Ret pss
  else Fail (ErrNew "padding must be pkcs1 or pss").

Definition resolvePadding (pkcs1 pss : Z) (r : Reader) (flagValue : string) : M (Tty W) (Z * Reader) :=
  let value := ToLower (TrimSpace flagValue) in
  if bool_decide (value = "") then
    _ ← print "RSA padding [pkcs1/pss] (default pkcs1): ";
    lr ← must_read r;
    p ← lift (padding_named pkcs1 pss (ToLower (TrimSpace lr.1)));
    mret (p, lr.2)
  else p ← lift (padding_named pkcs1 pss value); mret (p, r).

(** *** The message to sign *)

Definition read_message (r : Reader) (message : string) : M (Tty W) (string * Reader) :=
  tr ← (if bool_decide (message = "") then
          _ ← print "Enter text to sign: ";
          lr ← must_read r;
          mret (TrimSpace lr.1, lr.2)
        else mret (message, r));
  if bool_decide (tr.1 = "") then lift (Fail (ErrNew "message must not be empty")) else mret tr.
End tty.

(** ** The lines of an input *)

(** The first line with its newline, and what follows; an unfinished line is
    none. *)
Definition first_line (s : string) : option (string * string) :=
  match IndexByte s newline with
  | Some i => Some (string_take (S i) s, string_drop (S i) s)
  | None => None
  end.

Section input.
Context `{Unicode}.

(** The first valid answer of an input is [n], and [rest] follows it. *)
Inductive Chosen (max : Z) : string → Z → string → Prop :=
  | chosen_here s line rest n :
      first_line s = Some (line, rest) → valid_choice max line = Some n → Chosen max s n rest
  | chosen_later s line rest n rest' :
      first_line s = Some (line, rest) → valid_choice max line = None →
      Chosen max rest n rest' → Chosen max s n rest'.

(** The text to sign is [text]: that of the flag, or the next line of the input
    without the white space around it. *)
Inductive Message (flag s : string) : string → string → Prop :=
  | message_flag : flag ≠ "" → Message flag s flag s
  | message_line line rest :
      flag = "" → first_line s = Some (line, rest) → TrimSpace line ≠ "" →
      Message flag s (TrimSpace line) rest.

(** The words for the two paddings, [true] for PSS; the empty one is the
    default. *)
Definition padding_word (pss : bool) (value : string) : Prop :=
  if pss then value = "pss" ∨ value = "rsapss" ∨ value = "rsa-pss"
  else value = "" ∨ value = "pkcs1" ∨ value = "pkcs1v15" ∨ value = "pkcs#1".

(** The padding asked for, by the flag or else by the next line of the input, in
    any letter case and with white space around it. *)
Inductive PaddingAsked (flag s : string) : bool → string → Prop :=
  | padding_flag pss :
      ToLower (TrimSpace flag) ≠ "" → padding_word pss (ToLower (TrimSpace flag)) →
      PaddingAsked flag s pss s
  | padding_line line rest pss :
      ToLower (TrimSpace flag) = "" → first_line s = Some (line, rest) →
      padding_word pss (ToLower (TrimSpace line)) → PaddingAsked flag s pss rest.

Lemma Chosen_det max s n1 r1 n2 r2 :
  Chosen max s n1 r1 → Chosen max s n2 r2 → n1 = n2 ∧ r1 = r2.
Proof.
  intros H1. revert n2 r2. induction H1; intros n2 r2; inversion 1; simplify_eq; eauto.
Qed.

Lemma Chosen_range max s n r : Chosen max s n r → (0 ≤ n < max)%Z.
Proof.
  induction 1 as [? line ? n _ Hv|]; [|done]. unfold valid_choice in Hv.
  destruct (Atoi (TrimSpace line)) as [m| |]; try done.
  destruct (Z.ltb_spec m 1); [done|]. destruct (Z.ltb_spec max m); [done|].
  injection Hv as <-. lia.
Qed.
End input.

(** ** Lemmas *)

Lemma first_line_cons c s :
  first_line (String c s) =
    if decide (c = newline) then Some (String c EmptyString, s)
    else '(l, r) ← first_line s; Some (String c l, r).
Proof.
  unfold first_line. simpl. destruct (decide (c = newline)); [by destruct s|].
  by destruct (IndexByte s newline).
Qed.

Lemma first_line_app s t l r : first_line s = Some (l, r) → first_line (s +:+ t) = Some (l, r +:+ t).
Proof.
  revert l r. induction s as [|c s IH]; intros l r; [done|]. rewrite append_cons, !first_line_cons.
  destruct (decide (c = newline)); [by intros [= <- <-]|].
  destruct (first_line s) as [[l' r']|]; [|done]. rewrite (IH l' r') by done. by intros [= <- <-].
Qed.

Lemma first_line_length s l r :
  first_line s = Some (l, r) → (String.length s = String.length l + String.length r)%nat ∧ (0 < String.length l)%nat.
Proof.
  revert l r. induction s as [|c s IH]; intros l r; [done|]. rewrite first_line_cons.
  destruct (decide (c = newline)); [intros [= <- <-]; simpl; lia|].
  destruct (first_line s) as [[l' r']|]; [|done]. destruct (IH l' r' eq_refl).
  intros [= <- <-]. simpl. lia.
Qed.

(** What a reader gives depends on the input, not on how it arrives. *)
Lemma read_line_spec r cs :
  match first_line (r +:+ flat cs) with
  | Some (line, rest) => ∃ r' cs', read_line r cs = (Ret line, r', cs') ∧ r' +:+ flat cs' = rest
  | None => read_line r cs = (Fail io_EOF, EmptyString, [])
  end.
Proof.
  revert r. induction cs as [|c cs IH]; intros r.
  - change (flat []) with EmptyString. rewrite append_nil_r. unfold first_line. simpl.
    destruct (IndexByte r newline) as [i|]; [|done]. eexists _, _. split; [done|]. apply append_nil_r.
  - change (flat (c :: cs)) with (c +:+ flat cs). cbn [read_line].
    destruct (IndexByte r newline) as [i|] eqn:Hi.
    + rewrite (first_line_app r (c +:+ flat cs) (string_take (S i) r) (string_drop (S i) r))
        by (unfold first_line; by rewrite Hi). by eexists _, _.
    + rewrite <- append_assoc. apply IH.
Qed.

Section console_proofs.
Context {W : Type} `{Unicode}.
Implicit Types (t : Tty W).

(** [must_read] takes the first line of what is pending, or fails at the end
    of the input; nothing but the input changes. *)
Lemma must_read_spec (r : Reader) t :
  match first_line (pending r t) with
  | Some (line, rest) => ∃ r' t', must_read r t = (Done (Ret (line, r')), t', []) ∧
      pending r' t' = rest ∧ tty_out t' = tty_out t ∧ tty_sys t' = tty_sys t
  | None => ∃ t', must_read r t = (Done (Fail io_EOF), t', []) ∧
      tty_out t' = tty_out t ∧ tty_sys t' = tty_sys t
  end.
Proof.
  pose proof (read_line_spec r (tty_in t)) as Hr. unfold pending, must_read, ReadString.
  destruct (first_line (r +:+ flat (tty_in t))) as [[line rest]|].
  - destruct Hr as (r' & cs' & Hr & <-). rewrite bind_run, Hr. simpl. by eexists _, _.
  - rewrite bind_run, Hr. simpl. by eexists.
Qed.

Lemma choice_loop_spec prompt fuel max r t :
  (String.length (pending r t) < fuel)%nat →
  (∃ n r' t', choice_loop prompt fuel max r t = (Done (Ret (n, r')), t', []) ∧
     Chosen max (pending r t) n (pending r' t') ∧ tty_sys t' = tty_sys t) ∨
  (∃ t', choice_loop prompt fuel max r t = (Done (Fail io_EOF), t', []) ∧
     (∀ n rest, ¬ Chosen max (pending r t) n rest) ∧ tty_sys t' = tty_sys t).
Proof.
  revert r t. induction fuel as [|fuel IH]; intros r t Hf; [lia|]. cbn [choice_loop].
  rewrite bind_run. unfold print at 1. simpl. rewrite bind_run.
  set (t1 := Build_Tty (tty_in t) _ (tty_sys t)).
  change (pending r t) with (pending r t1) in Hf |- *.
  pose proof (must_read_spec r t1) as Hm. destruct (first_line (pending r t1)) as [[line rest]|] eqn:Hl.
  - destruct Hm as (r' & t2 & -> & Hp & _ & Hs). cbn [fst snd].
    destruct (valid_choice max line) as [n|] eqn:Hv.
    + left. eexists n, r', t2. split; [done|]. split; [|done]. rewrite Hp. by eapply chosen_here.
    + apply first_line_length in Hl as Hlen. rewrite bind_run. unfold println, print. simpl.
      set (t3 := Build_Tty (tty_in t2) _ (tty_sys t2)).
      assert (pending r' t3 = rest) as Hp3 by exact Hp.
      destruct (IH r' t3) as [(n & r4 & t4 & -> & Hc & Hs4)|(t4 & -> & Hc & Hs4)]; [rewrite Hp3; lia|..].
      * left. eexists n, r4, t4. split; [done|]. split; [|by rewrite Hs4].
        eapply chosen_later; [done..|]. by rewrite <- Hp3.
      * right. exists t4. split; [done|]. split; [|by rewrite Hs4]. intros n rest'.
        inversion 1; simplify_eq. by eapply Hc; rewrite Hp3.
  - destruct Hm as (t2 & -> & _ & Hs). right. exists t2. split; [done|]. split; [|done].
    intros n rest. inversion 1; simplify_eq.
Qed.
End console_proofs.

(** What the lines look like on the terminal. *)
Definition lines_text (l : list string) : string := flat ((λ s, s +:+ String newline EmptyString) <$> l).

Section console_triples.
Context {W : Type}.
Implicit Types (t : Tty W).

Lemma print_lines_run l t :
  print_lines l t =
  (Done (Ret ()), Build_Tty (tty_in t) (tty_out t +:+ lines_text l) (tty_sys t), []).
Proof.
  revert t. induction l as [|s l IH]; intros t; simpl.
  - change (lines_text []) with EmptyString. rewrite append_nil_r. by destruct t.
  - rewrite bind_run. unfold println, print. rewrite IH. simpl. do 3 f_equal.
    change (lines_text (s :: l)) with ((s +:+ String newline EmptyString) +:+ lines_text l).
    by rewrite append_assoc.
Qed.

(** The rest of the world is [w], and [s] is what can still be read through the
    reader [r]. *)
Definition waits (w : W) (r : Reader) (s : string) t : Prop := tty_sys t = w ∧ pending r t = s.

Lemma print_triple s w r i E : triple (waits w r i) (print s) (λ _ : (), waits w r i) E.
Proof. by intros t Ht. Qed.

Lemma print_then {A} s w r i (m : M (Tty W) A) Q E :
  triple (waits w r i) m Q E → triple (waits w r i) (print s ≫= λ _, m) Q E.
Proof. intros Hm. eapply triple_bind; [apply print_triple|by intros []]. Qed.

Lemma must_read_triple r w s :
  triple (waits w r s) (must_read r)
    (λ lr t, ∃ rest, first_line s = Some (lr.1, rest) ∧ waits w lr.2 rest t) (λ _, True).
Proof.
  intros t [Hw <-]. pose proof (must_read_spec r t) as Hm.
  destruct (first_line (pending r t)) as [[line rest]|].
  - destruct Hm as (r' & t' & -> & Hp & _ & Hs). exists rest. unfold waits. simpl. by rewrite Hs, Hp.
  - by destruct Hm as (t' & -> & _).
Qed.

Context `{Unicode}.

Lemma readChoice_triple r max w s :
  triple (waits w r s) (readChoice r max)
    (λ nr t, ∃ rest, waits w nr.2 rest t ∧ Chosen max s nr.1 rest) (λ _, True).
Proof.
  intros t [Hw <-]. unfold readChoice, choose.
  destruct (choice_loop_spec "Enter certificate number (1-" (S (String.length (pending r t))) max r t)
    as [(n & r' & t' & -> & Hc & Hs)|(t' & -> & _)]; [lia| |done].
  exists (pending r' t'). unfold waits. simpl. by rewrite Hs.
Qed.

Lemma read_message_triple r message w s :
  triple (waits w r s) (read_message r message)
    (λ tr t, ∃ rest, waits w tr.2 rest t ∧ Message message s tr.1 rest) (λ _, True).
Proof.
  unfold read_message. case_bool_decide as Hm.
  - apply (triple_bind _ _ _ (λ tr t, ∃ line rest, first_line s = Some (line, rest) ∧
      tr.1 = TrimSpace line ∧ waits w tr.2 rest t)).
    + apply print_then. eapply triple_bind; [apply must_read_triple|]. intros [line r'].
      apply triple_mret. intros t (rest & Hl & Ht). by exists line, rest.
    + intros [text r']. cbn [fst snd]. case_bool_decide; [by apply triple_fail|]. apply triple_mret.
      intros t (line & rest & Hl & -> & Ht). exists rest. split; [done|]. by econstructor.
  - eapply triple_bind; [apply (triple_mret _ _ (λ tr t, tr = (message, r) ∧ waits w r s t)); by split|].
    intros tr t [-> Ht]. cbn [fst snd]. rewrite bool_decide_eq_false_2 by done.
    exists s. split; [done|]. by constructor.
Qed.

Lemma padding_named_word pkcs1 pss value p :
  padding_named pkcs1 pss value = Ret p →
  ∃ b : bool, padding_word b value ∧ p = if b then pss else pkcs1.
Proof.
  unfold padding_named. destruct (decide (value ∈ [""; "pkcs1"; "pkcs1v15"; "pkcs#1"])) as [Hv|_].
  - intros [= <-]. exists false. split; [|done].
    apply list_elem_of_In in Hv as [<-|[<-|[<-|[<-|[]]]]]; simpl; auto.
  - destruct (decide _) as [Hv|_]; [|done]. intros [= <-]. exists true. split; [|done].
    apply list_elem_of_In in Hv as [<-|[<-|[<-|[]]]]; simpl; auto.
Qed.

Lemma resolvePadding_triple pkcs1 pss r flag w s :
  triple (waits w r s) (resolvePadding pkcs1 pss r flag)
    (λ pr t, ∃ rest (b : bool), waits w pr.2 rest t ∧ PaddingAsked flag s b rest ∧
       pr.1 = if b then pss else pkcs1) (λ _, True).
Proof.
  unfold resolvePadding. case_bool_decide as Hf.
  - apply print_then. eapply triple_bind; [apply must_read_triple|]. intros [line r'].
    apply triple_lift_then; [done|]. intros p (b & Hb & ->)%padding_named_word. apply triple_mret.
    intros t (rest & Hl & Ht). exists rest, b. split; [done|]. split; [|done]. by econstructor.
  - apply triple_lift_then; [done|]. intros p (b & Hb & ->)%padding_named_word. apply triple_mret.
    intros t Ht. exists s, b. split; [done|]. split; [|done]. by constructor.
Qed.

(** *** Input that is used up

    The chunks still to come are [cs]. *)
Definition input_is (cs : list string) t : Prop := tty_in t = cs.

Lemma input_on_sys {A} cs (m : M W A) : triple (input_is cs) (on_sys m) (λ _, input_is cs) (λ _, True).
Proof.
  intros t Ht. unfold on_sys, input_is in *. by destruct (m (tty_sys t)) as [[[[a|e|]|] w] ev].
Qed.

Lemma input_print cs s : triple (input_is cs) (print s) (λ _ : (), input_is cs) (λ _, True).
Proof. by intros t Ht. Qed.

Lemma input_lift {A} cs (o : outcome A) : triple (input_is cs) (lift o) (λ _, input_is cs) (λ _, True).
Proof. intros t Ht. by destruct o. Qed.

Lemma input_call {A} cs (f : W → outcome A * W) : triple (input_is cs) (call f) (λ _, input_is cs) (λ _, True).
Proof. eapply triple_bind; [apply input_on_sys|intros a; apply input_lift]. Qed.

Lemma input_try {A} cs (m : M (Tty W) A) :
  (∀ t, tty_in (m t).1.2 = tty_in t) → triple (input_is cs) (try m) (λ _, input_is cs) (λ _, True).
Proof.
  intros Hm t Ht. specialize (Hm t). unfold try, input_is in *.
  destruct (m t) as [[[[a|e|]|] t'] ev]; simpl in *; [congruence..|done|done].
Qed.

Lemma on_sys_input {A} (m : M W A) t : tty_in (on_sys m t).1.2 = tty_in t.
Proof. unfold on_sys. by destruct (m (tty_sys t)) as [[r w] ev]. Qed.

Lemma must_read_run r t : must_read r t =
  match read_line r (tty_in t) with
  | (Ret line, r', cs) => (Done (Ret (line, r')), Build_Tty cs (tty_out t) (tty_sys t), [])
  | (Fail e, _, cs) => (Done (Fail e), Build_Tty cs (tty_out t) (tty_sys t), [])
  | (Panic, _, cs) => (Done Panic, Build_Tty cs (tty_out t) (tty_sys t), [])
  end.
Proof.
  unfold must_read, ReadString. rewrite bind_run.
  by destruct (read_line r (tty_in t)) as [[[line|e|] r'] cs].
Qed.

(** A reader takes whole chunks: once it has read, it holds the only chunk. *)
Lemma input_must_read r : triple (input_is []) (must_read r) (λ _, input_is []) (λ _, True).
Proof.
  intros t Ht. rewrite must_read_run. unfold input_is in Ht. rewrite Ht. simpl.
  by destruct (IndexByte r newline).
Qed.

Lemma input_must_read_first c :
  triple (input_is [c]) (must_read NewReader) (λ _, input_is []) (λ _, True).
Proof.
  intros t Ht. rewrite must_read_run. unfold input_is in Ht. rewrite Ht. simpl.
  by destruct (IndexByte (NewReader +:+ c) newline).
Qed.

Lemma input_choice_loop prompt fuel max r :
  triple (input_is []) (choice_loop prompt fuel max r) (λ _, input_is []) (λ _, True).
Proof.
  revert r. induction fuel as [|fuel IH]; intros r; [by intros t|]. cbn [choice_loop].
  eapply triple_bind; [apply input_print|]. intros [].
  eapply triple_bind; [apply input_must_read|]. intros [line r'].
  destruct (valid_choice max _); [by apply triple_mret|].
  eapply triple_bind; [apply input_print|]. intros []. apply IH.
Qed.

Lemma input_choose prompt max r :
  triple (input_is []) (choose prompt max r) (λ _, input_is []) (λ _, True).
Proof. intros t. apply input_choice_loop. Qed.

(** A new reader finds nothing of what another one holds. *)
Lemma input_choose_lost prompt max :
  triple (input_is []) (choose prompt max NewReader) (λ _ _, False) (λ _, True).
Proof.
  intros t Ht. unfold choose. destruct (choice_loop_spec prompt
    (S (String.length (pending NewReader t))) max NewReader t) as [(n & r' & t' & -> & Hc & _)|(t' & -> & _)];
    [lia| |done].
  unfold pending, input_is in *. rewrite Ht in Hc. inversion Hc; simplify_eq.
Qed.

(** A call of the world behind the terminal that does not change it. *)
Lemma on_sys_store_triple {A} (f : W → outcome A) w r s :
  triple (waits w r s) (on_sys (λ w, (Done (f w), w, [])))
    (λ a t, waits w r s t ∧ f w = Ret a) (λ _, True).
Proof. intros t [Hw Hs]. unfold on_sys, waits. simpl. rewrite Hw. by destruct (f w). Qed.
End console_triples.

(** ** Properties *)

(** C22: the prompt for a number ends on every input, however it is cut into
    reads: it returns the first complete line that is a number from 1 to [max],
    less 1 (so that the code's index is in range), and leaves what follows that
    line to the next prompt; and it fails with the end of the input exactly when
    no complete line is such a number. *)
Theorem readChoice_takes_first_valid_line {W} `{Unicode} (r : Reader) (max : Z) (t : Tty W) :
  let m := readChoice r max in
  (∃ n r', result m t = Done (Ret (n, r')) ∧ (0 ≤ n < max)%Z ∧
     Chosen max (pending r t) n (pending r' (world_after m t))) ∨
  (result m t = Done (Fail io_EOF) ∧ ∀ n rest, ¬ Chosen max (pending r t) n rest).
Proof.
  intros m. unfold m, readChoice, choose, result, world_after.
  destruct (choice_loop_spec "Enter certificate number (1-" (S (String.length (pending r t))) max r t)
    as [(n & r' & t' & -> & Hc & _)|(t' & -> & Hc & _)]; [lia|left|by right].
  exists n, r'. split; [done|]. split; [by eapply Chosen_range|done].
Qed.
