(* ===== verification/SignTest.v ===== *)
(** * [cmd/local-sign-test-win] and [cmd/local-sign-test-mac]

    Two programs that sign a message with a certificate of this machine, chosen
    by thumbprint or by number.  The Windows one calls [certstore]; the macOS
    one has its own copy of the keychain code. *)

From stdpp Require Import base list sets gmap strings.
From Stdlib Require Import ZArith Lia Ascii.
From S2P Require Import Prelude WinSys GoStrings GoNet GoText GoCrypto Samples CertTypes CertFileStore.
From S2P Require Import CertService CertWindows CertDarwin ClientWorld Console.

(** The flags of both commands, parsed. *)
Record sign_flags := {
  flag_message : string;
  flag_padding : string;
  flag_thumbprint : string;
  flag_cert : string;
}.

(** [targetThumbprint]: [-cert] is an alias for [-thumbprint]. *)
Definition target_thumbprint (f : sign_flags) : string :=
  if bool_decide (flag_thumbprint f = "") then flag_cert f else flag_thumbprint f.

(** Printing [[i] title] and the lines below it for every certificate. *)
Fixpoint print_list {W A} (f : A → string) (i : Z) (l : list A) : M (Tty W) () :=
  match l with
  | [] => mret ()
  | x :: l => _ ← println ("  [" +:+ Itoa i +:+ "] " +:+ f x); print_list f (i + 1) l
  end.

Definition nl : string := String newline EmptyString.
Definition yes_no (b : bool) : string := if b then "yes" else "no".

(** The part of [selectCertificate] after the matching: the only match, or an
    error. *)
Definition only_match {W A} `{Unicode} (title : A → string) (targetThumbprint : string) (matches : list A)
    : M (Tty W) A :=
  match matches with
  | [c] => _ ← print ("Selected certificate: " +:+ title c +:+ nl +:+ nl); mret c
  | [] => lift (Fail (ErrNew ("no certificate found matching thumbprint " +:+
                              strconv_Quote targetThumbprint)))
  | _ => lift (Fail (ErrNew ("ambiguous thumbprint " +:+ strconv_Quote targetThumbprint +:+
                             " matched " +:+ Itoa (Z.of_nat (length matches)) +:+ " certificates")))
  end.

(** The two matching loops: the prefixes count only when nothing matches
    exactly. *)
Definition matching {A} (exact prefix : A → bool) (certs : list A) : list A :=
  let matches := filter (λ c, exact c = true) certs in
  if (length matches =? 0)%nat then filter (λ c, prefix c = true) certs else matches.

Definition pick {W A} (certs : list A) (idx : Z) : M (Tty W) A :=
  lift (match certs !! Z.to_nat idx with Some c => Ret c | None => Panic end).

Definition report_signature {W} (sigAlg : string) (sig : list Z) : M (Tty W) () :=
  _ ← println ("Signature algorithm: " +:+ sigAlg);
  _ ← println ("Signature (base64): " +:+ base64_EncodeToString sig);
  println ("Signature (hex): " +:+ hex_EncodeToString sig).

(** ** [local-sign-test-win] *)

Module SignTestWin.
Section win.
Context {W : Type} `{Unicode} `{Crypto} `{CertBackend W}.

Definition cleanThumbprint (tp : string) : string :=
  let tp := ToUpper (TrimSpace tp) in
  let tp := remove_byte ":" tp in
  let tp := remove_byte " " tp in
  remove_byte "-" tp.

Definition matches (target : string) (certs : list CertificateInfo) : list CertificateInfo :=
  let cleaned := cleanThumbprint target in
  matching (λ c, bool_decide (cleanThumbprint (Thumbprint c) = cleaned))
           (λ c, HasPrefix (cleanThumbprint (Thumbprint c)) cleaned) certs.

Definition describe (c : CertificateInfo) : string :=
  Thumbprint c +:+ nl +:+ "      subject: " +:+ Subject c +:+ nl +:+
  "      key: " +:+ KeyAlgorithm c +:+ " " +:+ Itoa (KeySize c) +:+ "-bit  tpm: " +:+
  yes_no (IsTPM c) +:+ "  provider: " +:+ ProviderName c.

Definition selectCertificate (certs : list CertificateInfo) (targetThumbprint : string) (r : Reader)
    : M (Tty W) (CertificateInfo * Reader) :=
  if negb (bool_decide (targetThumbprint = "")) then
    c ← only_match (λ c, Subject c +:+ " (" +:+ Thumbprint c +:+ ")") targetThumbprint
          (matches targetThumbprint certs);
    mret (c, r)
  else
    _ ← println "Available certificates:";
    _ ← print_list describe 1 certs;
    nr ← readChoice r (Z.of_nat (length certs));
    c ← pick certs nr.1;
    mret (c, nr.2).

Definition paddingStr (p : Z) : string :=
  if (p =? RSAPaddingPKCS1)%Z then "PKCS1"
  else if (p =? RSAPaddingPSS)%Z then "PSS" else "UNSPECIFIED".

Definition main (f : sign_flags) : M (Tty W) () :=
  certs ← on_sys (with_store ListCertificates);
  if (length certs =? 0)%nat
  then lift (Fail (ErrNew "no certificates with private keys found in the Windows MY store"))
  else
    cr ← selectCertificate certs (target_thumbprint f) NewReader;
    let selected := cr.1 in
    tr ← read_message cr.2 (flag_message f);
    pr ← resolvePadding RSAPaddingPKCS1 RSAPaddingPSS tr.2 (flag_padding f);
    let digest := sha256_Sum (bytes_of_string tr.1) in
    signResp ← on_sys (with_store (λ w, SignHash w (Thumbprint selected) digest HashSHA256 pr.1));
    _ ← println "";
    _ ← println ("Certificate: " +:+ Subject selected);
    _ ← println ("Digest (SHA-256): " +:+ hex_EncodeToString digest);
    _ ← println ("RSA padding: " +:+ paddingStr (Padding signResp));
    report_signature (SignatureAlgorithm signResp) (Signature signResp).
End win.
End SignTestWin.

(** ** [local-sign-test-mac] *)

(** The key type of a private key's public key, and the bit string of a
    SubjectPublicKeyInfo. *)
Class KeychainKeys := {
  SecKey_is_EC : Z → bool;
  spki_PublicKey : list Z → outcome (list Z);
}.

Module SignTestMac.
Definition RSAPaddingPKCS1 : Z := 0.
Definition RSAPaddingPSS : Z := 1.

Record MacCertInfo := {
  Thumbprint : string;
  SHA1Thumbprint : string;
  Subject : string;
  KeyAlgorithm : string;
  KeySize : Z;
  IsSmartCard : bool;
  ProviderName : string;
  IdentityRef : Z;
}.

Section mac.
Context {W : Type} `{Unicode} `{Crypto} `{Keychain} `{KeychainKeys}.

(** [sec_sign_hash]: the signature, or the text left in [errOut]. *)
Definition sec_sign_hash (identity : Z) (digest : list Z) (isPSS : Z) (errMax : nat)
    : list Z + string :=
  match SecIdentityCopyPrivateKey identity with
  | (0%Z, Some privKey) =>
      let alg :=
        if SecKey_is_EC privKey then ECDSASignatureDigestX962 256
        else if negb (isPSS =? 0)%Z then RSASignatureDigestPSS 256
        else RSASignatureDigestPKCS1v15 256 in
      match SecKeyCreateSignature privKey alg digest with
      | SecData sig => inl sig
      | SecError d => inr (snprintf errMax ("SecKeyCreateSignature error: " +:+ d))
      | SecNull => inr (snprintf errMax "SecKeyCreateSignature returned NULL")
      end
  | (status, _) =>
      inr (snprintf errMax ("SecIdentityCopyPrivateKey failed with status " +:+ Itoa status))
  end.

(** The text of [get_mac_identities] and [parseSCAuthIdentities] is that of
    [certstore]'s (with a key type of at most 31 bytes, more than any has). *)
Definition get_identities : list MacCertItem := get_mac_identities.
Definition sc_identities : option (gmap string scAuthIdentity) := parseSCAuthIdentities.

Definition computePubKeySHA1 (cert : Certificate) : string :=
  match spki_PublicKey (RawSubjectPublicKeyInfo cert) with
  | Ret bytes => if (length bytes =? 0)%nat then "" else ToUpper (hex_EncodeToString (sha1_Sum bytes))
  | _ => ""
  end.

(** The loop over [checkHashes]. *)
Fixpoint check_hashes (m : gmap string scAuthIdentity) (hashes : list string) : option scAuthIdentity :=
  match hashes with
  | [] => None
  | h :: hashes =>
      if bool_decide (h = "") then check_hashes m hashes
      else match m !! h with
           | Some sc => Some sc
           | None => check_hashes m hashes
           end
  end.

Definition smart_card (scIdentities : option (gmap string scAuthIdentity)) (hashes : list string)
    : bool * string :=
  match scIdentities ≫= λ m, check_hashes m hashes with
  | Some sc => (true, if bool_decide (SmartCard sc = "") then "CryptoTokenKit" else SmartCard sc)
  | None => (false, "macOS Keychain")
  end.

(** One turn of the loop of [listCertificates]. *)
Definition list_item (scIdentities : option (gmap string scAuthIdentity)) (item : MacCertItem)
    : outcome (option MacCertInfo) :=
  let der := cert_data item in
  match x509_ParseCertificate der with
  | Panic => Panic
  | Fail _ => Ret None
  | Ret cert =>
      let thumb256 := hex_EncodeToString (sha256_Sum der) in
      let certSHA1 := ToUpper (hex_EncodeToString (sha1_Sum der)) in
      let spkiSHA1 := ToUpper (hex_EncodeToString (sha1_Sum (RawSubjectPublicKeyInfo cert))) in
      let subjKeyID := ToUpper (hex_EncodeToString (SubjectKeyId cert)) in
      let pubKeySHA1 := computePubKeySHA1 cert in
      let keyAlg :=
        if Contains (ToLower (key_type item)) "ec" || bool_decide (PublicKeyAlgorithm cert = "ECDSA")
        then "ECDSA" else "RSA" in
      let sc := smart_card scIdentities [subjKeyID; pubKeySHA1; certSHA1; spkiSHA1] in
      Ret (Some {| Thumbprint := ToUpper thumb256; SHA1Thumbprint := certSHA1;
                   Subject := cert_Subject cert; KeyAlgorithm := keyAlg; KeySize := key_size item;
                   IsSmartCard := sc.1; ProviderName := sc.2; IdentityRef := item_identity item |})
  end.

Definition listCertificates : outcome (list MacCertInfo) :=
  let scIdentities := sc_identities in
  let items := get_identities in
  if (length items =? 0)%nat then Ret []
  else if (2 ^ 20 <? Z.of_nat (length items))%Z then Panic
  else collect (list_item scIdentities) items.

(** [&digest[0]] panics on an empty digest. *)
Definition signHash (identity : Z) (digest : list Z) (padding : Z) : outcome (list Z) :=
  let isPSS := if (padding =? RSAPaddingPSS)%Z then 1%Z else 0%Z in
  if (length digest =? 0)%nat then Panic
  else match sec_sign_hash identity digest isPSS 512 with
       | inl sig => Ret sig
       | inr err => Fail (ErrNew err)
       end.

Definition cleanThumbprint (tp : string) : string :=
  let tp := ToUpper (TrimSpace tp) in
  let tp := remove_byte ":" tp in
  let tp := remove_byte " " tp in
  remove_byte "-" tp.

Definition matches (target : string) (certs : list MacCertInfo) : list MacCertInfo :=
  let cleaned := cleanThumbprint target in
  matching (λ c, bool_decide (cleanThumbprint (Thumbprint c) = cleaned) ||
                 bool_decide (cleanThumbprint (SHA1Thumbprint c) = cleaned))
           (λ c, HasPrefix (cleanThumbprint (Thumbprint c)) cleaned ||
                 HasPrefix (cleanThumbprint (SHA1Thumbprint c)) cleaned) certs.

Definition describe (c : MacCertInfo) : string :=
  Thumbprint c +:+ nl +:+ "      subject: " +:+ Subject c +:+ nl +:+
  "      key: " +:+ KeyAlgorithm c +:+ " " +:+ Itoa (KeySize c) +:+ "-bit  smartcard: " +:+
  yes_no (IsSmartCard c) +:+ "  provider: " +:+ ProviderName c.

Definition selectCertificate (certs : list MacCertInfo) (targetThumbprint : string) (r : Reader)
    : M (Tty W) (MacCertInfo * Reader) :=
  if negb (bool_decide (targetThumbprint = "")) then
    c ← only_match (λ c, Subject c +:+ " (" +:+ Thumbprint c +:+ ")") targetThumbprint
          (matches targetThumbprint certs);
    mret (c, r)
  else
    _ ← println "Available certificates:";
    _ ← print_list describe 1 certs;
    nr ← readChoice r (Z.of_nat (length certs));
    c ← pick certs nr.1;
    mret (c, nr.2).

(** [sigAlg] and [paddingStr]. *)
Definition report_names (keyAlgorithm : string) (rsaPadding : Z) : string * string :=
  if bool_decide (keyAlgorithm = "RSA") then
    if (rsaPadding =? RSAPaddingPKCS1)%Z then ("RSA-PKCS1v1.5-SHA256", "PKCS1")
    else if (rsaPadding =? RSAPaddingPSS)%Z then ("RSA-PSS-SHA256", "PSS")
    else (keyAlgorithm +:+ "-SHA256", "")
  else (keyAlgorithm +:+ "-SHA256", "").

Definition main (f : sign_flags) : M (Tty W) () :=
  certs ← lift listCertificates;
  if (length certs =? 0)%nat
  then lift (Fail (ErrNew "no certificates with private keys found in macOS Security framework"))
  else
    cr ← selectCertificate certs (target_thumbprint f) NewReader;
    let selected := cr.1 in
    tr ← read_message cr.2 (flag_message f);
    rsaPadding ← (if bool_decide (KeyAlgorithm selected = "RSA") then
                    pr ← resolvePadding RSAPaddingPKCS1 RSAPaddingPSS tr.2 (flag_padding f);
                    mret pr.1
                  else mret 0%Z);
    let digest := sha256_Sum (bytes_of_string tr.1) in
    signature ← lift (signHash (IdentityRef selected) digest rsaPadding);
    _ ← println "";
    _ ← println ("Certificate: " +:+ Subject selected);
    _ ← println ("Digest (SHA-256): " +:+ hex_EncodeToString digest);
    let names := report_names (KeyAlgorithm selected) rsaPadding in
    _ ← (if bool_decide (KeyAlgorithm selected = "RSA")
         then println ("RSA padding: " +:+ names.2) else mret ());
    report_signature names.1 signature.
End mac.
End SignTestMac.

(** ** Lemmas *)

Lemma matching_In {A} (e p : A → bool) l x : x ∈ matching e p l → x ∈ l.
Proof. unfold matching. destruct (_ =? _)%nat; rewrite list_elem_of_filter; naive_solver. Qed.

(** The first match is the one a search that stops at the first would find. *)
Lemma head_matching {A} (e p : A → bool) l :
  head (matching e p l) =
    match find_first e l with Some x => Some x | None => find_first p l end.
Proof.
  unfold matching. rewrite !find_first_head_filter.
  destruct (filter (λ c, e c = true) l) as [|x m]; done.
Qed.

(** What the test tool lists and what the store searches, from one keychain. *)
Definition same_identity (c : SignTestMac.MacCertInfo) (i : internalMacIdentity) : Prop :=
  SignTestMac.IdentityRef c = identityRef i ∧ SignTestMac.SHA1Thumbprint c = mac_sha1 i ∧
  SignTestMac.Thumbprint c = mac_sha256 i.

Section mac_proofs.
Context `{Unicode} `{Crypto} `{Keychain} `{KeychainKeys}.

Lemma lists_related certs :
  SignTestMac.listCertificates = Ret certs →
  ∃ ids, getMacIdentitiesInternal = Ret ids ∧ Forall2 same_identity certs ids.
Proof.
  unfold SignTestMac.listCertificates, SignTestMac.get_identities, getMacIdentitiesInternal.
  destruct (_ =? 0)%nat; [intros [= <-]; by exists []|]. destruct (_ <? _)%Z; [done|].
  apply collect_related. intros item o. unfold SignTestMac.list_item, mac_identity.
  destruct (x509_ParseCertificate (cert_data item)) as [cert|e|]; intros [= <-];
    [|by exists None; split; [|constructor]].
  eexists (Some _). split; [done|]. constructor. by repeat split.
Qed.

Lemma mac_find_related target certs ids :
  Forall2 same_identity certs ids →
  option_Forall2 same_identity (head (SignTestMac.matches target certs))
    (mac_find (cleanThumbprint target) ids).
Proof.
  intros HR. unfold SignTestMac.matches. rewrite head_matching. unfold mac_find.
  assert (∀ p q, (∀ c i, same_identity c i → p c = q i) →
    option_Forall2 same_identity (find_first p certs) (find_first q ids)) as Hff
    by (intros p q Hpq; by eapply find_first_related).
  match goal with |- context [find_first ?p certs] =>
    destruct (Hff p (mac_matches_exactly (cleanThumbprint target))) as [c i Hci|]; [|by constructor|] end.
  - intros c i (_ & Hs & Ht). unfold mac_matches_exactly. rewrite Hs, Ht. apply orb_comm.
  - apply Hff. intros c i (_ & Hs & Ht). unfold mac_matches_prefix. rewrite Hs, Ht. apply orb_comm.
Qed.

Lemma only_match_Ret {W A} (title : A → string) target matches (t : Tty W) c :
  result (only_match title target matches) t = Done (Ret c) → matches = [c].
Proof. by destruct matches as [|c' [|]]; intros [= <-]. Qed.

Lemma mac_select_Ret {W} certs target r (t : Tty W) c r' :
  target ≠ "" → result (SignTestMac.selectCertificate certs target r) t = Done (Ret (c, r')) →
  SignTestMac.matches target certs = [c].
Proof.
  intros Ht. unfold SignTestMac.selectCertificate, result. rewrite bool_decide_eq_false_2 by done. simpl.
  rewrite bind_run. destruct (only_match _ _ _ t) as [[[[c'|e|]|] t'] ev] eqn:E; try done.
  intros [= -> ->]. eapply only_match_Ret. unfold result. by rewrite E.
Qed.
End mac_proofs.

(** ** Properties *)

(** C19: the macOS signing tool selects as the server does.  On one keychain,
    the tool's list and the store's identities are the same certificates; for
    every thumbprint the identity the store would sign with is the first of the
    tool's matches (so the tool finds none exactly when the store finds none);
    and when the tool selects a certificate by thumbprint, it is the only match
    and the one the store would sign with. *)
Theorem mac_tool_selects_as_store {W} `{Unicode} `{Crypto} `{Keychain} `{KeychainKeys} certs :
  SignTestMac.listCertificates = Ret certs →
  ∃ ids, getMacIdentitiesInternal = Ret ids ∧ ∀ target,
    identityRef <$> mac_find (cleanThumbprint target) ids =
      SignTestMac.IdentityRef <$> head (SignTestMac.matches target certs) ∧
    ∀ r (t : Tty W) c r', target ≠ "" →
      result (SignTestMac.selectCertificate certs target r) t = Done (Ret (c, r')) →
      SignTestMac.matches target certs = [c] ∧ c ∈ certs ∧
      identityRef <$> mac_find (cleanThumbprint target) ids = Some (SignTestMac.IdentityRef c).
Proof.
  intros (ids & Hids & HR)%lists_related. exists ids. split; [done|]. intros target.
  assert (identityRef <$> mac_find (cleanThumbprint target) ids =
    SignTestMac.IdentityRef <$> head (SignTestMac.matches target certs)) as Hf.
  { destruct (mac_find_related target certs ids HR) as [c i [Hi _]|]; simpl; [by rewrite Hi|done]. }
  split; [done|]. intros r t c r' Ht Hs%mac_select_Ret; [|done]. split; [done|]. split.
  - eapply matching_In. unfold SignTestMac.matches in Hs. rewrite Hs. by left.
  - by rewrite Hf, Hs.
Qed.

Definition sample_keychain_keys : KeychainKeys := {|
  SecKey_is_EC k := (k =? 102)%Z;
  spki_PublicKey spki := Ret spki;
|}.

Lemma mac_tool_selects_as_store_witness :
  let K := sample_keychain in let U := sample_unicode in let C := sample_crypto in
  let KK := sample_keychain_keys in
  ∃ certs ids, SignTestMac.listCertificates = Ret certs ∧ getMacIdentitiesInternal = Ret ids ∧
    length certs = length ids ∧
    identityRef <$> mac_find (cleanThumbprint "30:01:0b") ids =
      SignTestMac.IdentityRef <$> head (SignTestMac.matches "30:01:0b" certs).
Proof.
  intros K U C KK.
  destruct SignTestMac.listCertificates as [certs| |] eqn:E; [|by vm_compute in E..].
  destruct (@mac_tool_selects_as_store unit U C K KK certs E) as (ids & Hids & Hsel).
  exists certs, ids. split; [done|]. split; [done|]. split; [|exact (proj1 (Hsel "30:01:0b"))].
  vm_compute in E, Hids. by injection E as <-; injection Hids as <-.
Defined.
