(* ===== verification/ExampleClient.v ===== *)
(** * [cmd/example-client]

    The sample client: it lists the server's certificates, asks for one of them,
    a message and a padding, and prints the signature the server makes. *)

From stdpp Require Import base list sets gmap strings.
From Stdlib Require Import ZArith Lia Ascii.
From S2P Require Import Prelude WinSys GoStrings GoNet GoText GoCrypto Samples CertTypes CertFileStore.
From S2P Require Import CertService TlsUtil KspClient ClientWorld Console SignTest.

Record client_flags := {
  cl_addr : string;
  cl_ca : string;
  cl_cert : string;
  cl_key : string;
  cl_message : string;
  cl_padding : string;
}.

Section example_client.
Context {W : Type} `{Unicode} `{Crypto} `{Tls} `{GrpcRuntime} `{Grpc W} `{Disk W}.

Definition describe (c : PbCertificateInfo) : string :=
  pb_Thumbprint c +:+ nl +:+ "      subject: " +:+ pb_Subject c +:+ nl +:+
  "      issuer: " +:+ pb_Issuer c +:+ nl +:+
  "      key: " +:+ pb_KeyAlgorithm c +:+ " " +:+ Itoa (pb_KeySize c) +:+ "-bit  tpm: " +:+
  yes_no (pb_IsTpm c) +:+ "  provider: " +:+ pb_ProviderName c.

Definition report (selected : PbCertificateInfo) (digest : list Z) (resp : SignHashResponse) : list string :=
  [""; "Certificate: " +:+ pb_Subject selected;
   "Digest (SHA-256): " +:+ hex_EncodeToString digest;
   "RSA padding: " +:+ RSAPadding_String (resp_RsaPadding resp);
   "Signature algorithm: " +:+ resp_SignatureAlgorithm resp;
   "Signature (base64): " +:+ base64_EncodeToString (resp_Signature resp);
   "Signature (hex): " +:+ hex_EncodeToString (resp_Signature resp)].

(** [main] after the connection is made. *)
Definition sign_with (f : client_flags) (conn : Z) : M (Tty W) () :=
  certs ← call (call_ListCertificates conn);
  if (length certs =? 0)%nat then lift (Fail (ErrNew "no certificates with private keys found"))
  else
    _ ← println "Available certificates:";
    _ ← print_list describe 1 certs;
    nr ← readChoice NewReader (Z.of_nat (length certs));
    selected ← pick certs nr.1;
    tr ← read_message nr.2 (cl_message f);
    pr ← resolvePadding RSAPadding_PKCS1 RSAPadding_PSS tr.2 (cl_padding f);
    let digest := sha256_Sum (bytes_of_string tr.1) in
    signResp ← call (call_SignHash conn
      {| req_Thumbprint := pb_Thumbprint selected; req_Digest := digest;
         req_HashAlgorithm := HashAlgorithm_SHA256; req_RsaPadding := pr.1 |});
    print_lines (report selected digest signResp).

Definition main (f : client_flags) : M (Tty W) () :=
  let host := match SplitHostPort (cl_addr f) with Ret (host, _) => host | _ => cl_addr f end in
  tlsConfig ← on_sys (with_files (λ fs, LoadClientTLSConfig (cl_ca f) (cl_cert f) (cl_key f) host));
  tlsConfig ← lift tlsConfig;
  conn ← call (grpc_NewClient (cl_addr f) tlsConfig);
  _ ← emit (Acquire (RConn conn));
  on_return (_ ← emit (Release (RConn conn)); on_sys (sys (grpc_Close conn))) (sign_with f conn).
End example_client.

(** ** Against the service *)

(** A server that runs [CertService] on the backend of the world. *)
Section served.
Context {W : Type} `{Unicode} `{Crypto} `{Tls} `{GrpcRuntime} `{CertBackend W}.
Implicit Types (w : W).

Definition served : Grpc W := {|
  grpc_NewClient _ _ w := (Ret 1%Z, w);
  grpc_DialContext _ _ w := (Ret 1%Z, w);
  grpc_Close _ w := ((), w);
  call_ListCertificates _ w := (CertService_ListCertificates w, w);
  call_SignHash _ req w := (CertService_SignHash w (Some req), w);
|}.

Lemma call_served {A} (g : W → outcome A) w r s :
  triple (waits w r s) (call (λ w, (g w, w))) (λ a t, waits w r s t ∧ g w = Ret a) (λ _, True).
Proof.
  intros t [Hw Hs]. unfold call, on_sys, sys, waits. rewrite bind_run. simpl. rewrite Hw.
  by destruct (g w).
Qed.

Lemma print_list_triple {A} (f : A → string) i l w r s E :
  triple (waits w r s) (print_list f i l) (λ _ : (), waits w r s) E.
Proof.
  revert i. induction l as [|x l IH]; intros i; simpl; [by apply triple_mret|]. by apply print_then.
Qed.

Lemma pick_triple {A} (l : list A) n w r s E :
  triple (waits w r s) (pick l n) (λ c t, waits w r s t ∧ l !! Z.to_nat n = Some c) E.
Proof. intros t Ht. unfold pick. by destruct (l !! Z.to_nat n) eqn:El. Qed.

(** What a run of the client asked the server for and printed, where [s] is its
    input: the number of the certificate, the message and the padding are the
    next answers in it. *)
Definition client_signed (f : client_flags) w (s : string) (t : Tty W) : Prop :=
  ∃ certs n c text (pss : bool) s1 s2 s3 resp before,
    CertService_ListCertificates w = Ret certs ∧
    Chosen (Z.of_nat (length certs)) s n s1 ∧ certs !! Z.to_nat n = Some c ∧
    Message (cl_message f) s1 text s2 ∧ PaddingAsked (cl_padding f) s2 pss s3 ∧
    let digest := sha256_Sum (bytes_of_string text) in
    CertService_SignHash w (Some {| req_Thumbprint := pb_Thumbprint c; req_Digest := digest;
      req_HashAlgorithm := HashAlgorithm_SHA256;
      req_RsaPadding := if pss then RSAPadding_PSS else RSAPadding_PKCS1 |}) = Ret resp ∧
    tty_out t = before +:+ lines_text (report c digest resp).

Lemma sign_with_triple (f : client_flags) conn w s :
  let G := served in
  triple (waits w NewReader s) (sign_with f conn) (λ _, client_signed f w s) (λ _, True).
Proof.
  intros G. unfold sign_with.
  eapply triple_bind_fact; [apply (call_served CertService_ListCertificates)|]. intros certs Hcerts.
  destruct (_ =? 0)%nat; [by apply triple_fail|].
  apply print_then. eapply triple_bind; [apply print_list_triple|]. intros [].
  eapply triple_bind; [apply readChoice_triple|]. intros nr. apply triple_exists. intros s1.
  apply triple_pure. intros Hn.
  eapply triple_bind_fact; [apply pick_triple|]. intros c Hc.
  eapply triple_bind; [apply read_message_triple|]. intros tr. apply triple_exists. intros s2.
  apply triple_pure. intros Htext.
  eapply triple_bind; [apply resolvePadding_triple|]. intros pr. apply triple_exists. intros s3.
  apply triple_exists. intros pss. apply triple_pure. intros [Hpad ->].
  eapply triple_bind_fact; [apply (call_served (λ w, CertService_SignHash w (Some _)))|]. intros resp Hresp.
  intros t Ht. rewrite print_lines_run. simpl.
  exists certs, nr.1, c, tr.1, pss, s1, s2, s3, resp, (tty_out t). by split_and!.
Qed.

Lemma main_triple `{Disk W} (f : client_flags) w s :
  let G := served in
  triple (waits w NewReader s) (main f) (λ _, client_signed f w s) (λ _, True).
Proof.
  intros G. unfold main.
  eapply triple_bind; [apply (on_sys_store_triple (λ w, Ret (LoadClientTLSConfig _ _ _ _)))|].
  intros cfg. apply triple_pure. intros _. apply triple_lift_then; [done|]. intros tls _.
  eapply triple_bind_fact; [apply (call_served (λ _, Ret 1%Z))|]. intros conn _.
  apply triple_emit_then. unfold on_return. eapply triple_bind; [apply sign_with_triple|].
  intros []. eapply triple_bind; [|intros []; apply triple_ret].
  intros t Ht. exact Ht.
Qed.
End served.

(** ** Properties *)

(** C18: the sample client prints what the server's keys answer.  Against a
    service on any backend, a run of the client that ends without an error
    ends its output with a report of: the certificate the service listed under
    the first valid number of the input, the SHA-256 digest of a non-empty
    message (that of the flag or, without one, the next line, trimmed), and the
    signature the backend makes over that digest with that certificate and the
    padding asked for (by the flag or, without one, the line after that), under
    the algorithm name of that padding. *)
Theorem example_client_prints_answer {W} `{Unicode} `{Crypto} `{Tls} `{GrpcRuntime} `{CertBackendLaws W}
    `{Disk W} (f : client_flags) (t : Tty W) :
  let G := served in
  result (main f) t = Done (Ret ()) →
  ∃ infos n c text (pss : bool) s1 s2 s3 r before,
    ListCertificates (tty_sys t) = Ret infos ∧
    Chosen (Z.of_nat (length infos)) (flat (tty_in t)) n s1 ∧ infos !! Z.to_nat n = Some c ∧
    Message (cl_message f) s1 text s2 ∧ text ≠ "" ∧ PaddingAsked (cl_padding f) s2 pss s3 ∧
    let p := if pss then RSAPaddingPSS else RSAPaddingPKCS1 in
    (SignatureAlgorithm r = "RSASSA-PSS" ↔ pss = true) ∧
    let digest := sha256_Sum (bytes_of_string text) in
    SignHash (tty_sys t) (Thumbprint c) digest HashSHA256 p = Ret r ∧
    tty_out (world_after (main f) t) = before +:+ lines_text (report (pb_of_info c) digest
      {| resp_Signature := Signature r; resp_SignatureAlgorithm := SignatureAlgorithm r;
         resp_RsaPadding := if pss then RSAPadding_PSS else RSAPadding_PKCS1 |}).
Proof.
  cbv zeta. pose proof (main_triple f (tty_sys t) (flat (tty_in t))) as Hm.
  apply (triple_run _ _ _ _ t) in Hm as [Hm _]; [|done]. intros Hok. specialize (Hm () Hok) as
    (certs & n & c & text & pss & s1 & s2 & s3 & resp & before & Hcerts & Hn & Hc & Ht & Hp & Hresp & Hout).
  unfold CertService_ListCertificates in Hcerts.
  destruct (ListCertificates (tty_sys t)) as [infos| |] eqn:Hinfos; try done. injection Hcerts as <-.
  rewrite length_fmap in Hn. apply list_lookup_fmap_Some in Hc as (info & -> & Hinfo).
  apply SignHash_Ret_valid in Hresp as (_ & r & Hsign & ->). simpl in Hsign.
  set (p' := requested_padding _) in Hsign.
  assert (p' = if pss then RSAPaddingPSS else RSAPaddingPKCS1) as Hpp by (by destruct pss).
  rewrite Hpp in Hsign. clear p' Hpp.
  exists infos, n, info, text, pss, s1, s2, s3, r, before. split_and!; try done.
  - by destruct Ht.
  - apply sign_algorithm in Hsign as [_ Ha]. by destruct pss; rewrite Ha.
  - rewrite Hout. apply sign_padding in Hsign. rewrite Hsign. by destruct pss.
Qed.

(** The input arrives in two reads; the padding is PSS. *)
Definition sample_flags : client_flags :=
  {| cl_addr := "localhost:50051"; cl_ca := "tls/ca.pem"; cl_cert := "tls/cert.pem";
     cl_key := "tls/key.pem"; cl_message := ""; cl_padding := "" |}.
Definition sample_tty : Tty (FileStore * Z) :=
  Build_Tty ["7" +:+ nl +:+ "1" +:+ nl +:+ "he"; "llo" +:+ nl +:+ "PSS" +:+ nl] "" (sample_store, 5%Z).

(** Its first valid number is 1, after the line "7". *)
Lemma sample_choice :
  @Chosen sample_unicode 2 (flat (tty_in sample_tty)) 0 ("hello" +:+ nl +:+ "PSS" +:+ nl).
Proof. by do 2 econstructor. Qed.

Lemma example_client_prints_answer_witness :
  let U := sample_unicode in let C := sample_crypto in let T := sample_tls in
  let G := sample_runtime in let B := @Linux.backend U C in
  let D := @sample_disk (FileStore * Z) sample_tls_files in
  let S := @served (FileStore * Z) G B in
  result (main sample_flags) sample_tty = Done (Ret ()) ∧
  ∃ infos n c text r before, ListCertificates (tty_sys sample_tty) = Ret infos ∧
    n = 0%Z ∧ infos !! Z.to_nat n = Some c ∧
    SignHash (tty_sys sample_tty) (Thumbprint c) (sha256_Sum (bytes_of_string text)) HashSHA256
      RSAPaddingPSS = Ret r ∧
    tty_out (world_after (main sample_flags) sample_tty) =
      before +:+ lines_text (report (pb_of_info c) (sha256_Sum (bytes_of_string text))
      {| resp_Signature := Signature r; resp_SignatureAlgorithm := SignatureAlgorithm r;
         resp_RsaPadding := RSAPadding_PSS |}).
Proof.
  intros U C T G B D S.
  assert (result (main sample_flags) sample_tty = Done (Ret ())) as Hm by (vm_compute; reflexivity).
  split; [exact Hm|].
  destruct (@example_client_prints_answer _ U C T G B (@LinuxLaws.backend_laws U C) D sample_flags sample_tty Hm)
    as (infos & n & c & text & pss & s1 & s2 & s3 & r & before & Hi & Hn & Hc & Ht & _ & Hp & _ & Hs & Ho).
  exists infos, n, c, text, r, before.
  assert (length infos = 2%nat) as Hl by (vm_compute in Hi; injection Hi as <-; reflexivity).
  rewrite Hl in Hn.
  destruct (Chosen_det _ _ _ _ _ _ Hn sample_choice) as [-> ->].
  assert (pss = true) as ->; [|by split_and!]. clear -Ht Hp.
  destruct Ht as [Hne|line rest _ Hline _]; [by destruct Hne|].
  vm_compute in Hline. injection Hline as <- <-.
  destruct Hp as [? Hne|line rest ? _ Hline Hw]; [by destruct Hne|].
  vm_compute in Hline. injection Hline as <- <-.
  destruct pss; [done|]. vm_compute in Hw. intuition discriminate.
Defined.
