(* ===== verification/CertGen.v ===== *)
(** * [cmd/gencerts]

    The command that makes a certificate authority and the credentials of one
    server and one client, as six PEM files, the ones the TLS configurations of
    [internal/tlsutil] load. *)

From stdpp Require Import base list gmap strings.
From Stdlib Require Import ZArith Lia Ascii.
From S2P Require Import Prelude WinSys GoStrings GoNet GoText GoCrypto Samples CertTypes CertFileStore.
From S2P Require Import CertService TlsUtil KspClient ClientWorld Console.

(** The fields of an [x509.Certificate] that the code sets in a template. *)
Record Template := {
  t_SerialNumber : Z;
  t_CommonName : string;
  t_NotBefore : Z;
  t_NotAfter : Z;
  t_KeyUsage : Z;
  t_ExtKeyUsage : list Z;
  t_BasicConstraintsValid : bool;
  t_IsCA : bool;
  t_DNSNames : list string;
  t_IPAddresses : list IP;
}.

(** A key is a number, and so is an open file. The parent of a certificate is
    a template or a parsed certificate. *)
Class Generator (W : Type) := {
  os_MkdirAll : string → Z → W → outcome () * W;
  rsa_GenerateKey : Z → W → outcome Z * W;
  x509_CreateCertificate : Template → Template + Certificate → Z → Z → W → outcome (list Z) * W;
  x509_MarshalPKCS1PrivateKey : Z → list Z;
  os_Create : string → W → outcome Z * W;
  pem_Encode : Z → Block → W → outcome () * W;
  gen_Close : Z → W → () * W;
}.

Record gen_flags := { gf_out : string; gf_cn : string; gf_force : bool }.

Definition gen_files : list string :=
  ["ca.crt"; "ca.key"; "server.crt"; "server.key"; "client.crt"; "client.key"].

Definition caTemplate (cn : string) (now : Z) : Template :=
  {| t_SerialNumber := 1; t_CommonName := cn +:+ " CA"; t_NotBefore := now - Hour;
     t_NotAfter := now + 10 * 365 * 24 * Hour; t_KeyUsage := Z.lor KeyUsageCertSign KeyUsageCRLSign;
     t_ExtKeyUsage := []; t_BasicConstraintsValid := true; t_IsCA := true; t_DNSNames := [];
     t_IPAddresses := [] |}.

Definition serverTemplate (cn : string) (now : Z) : Template :=
  {| t_SerialNumber := 2; t_CommonName := cn +:+ " Server"; t_NotBefore := now - Hour;
     t_NotAfter := now + 2 * 365 * 24 * Hour;
     t_KeyUsage := Z.lor KeyUsageDigitalSignature KeyUsageKeyEncipherment;
     t_ExtKeyUsage := [ExtKeyUsageServerAuth]; t_BasicConstraintsValid := false; t_IsCA := false;
     t_DNSNames := ["localhost"]; t_IPAddresses := [ParseIP "127.0.0.1"] |}.

Definition clientTemplate (cn : string) (now : Z) : Template :=
  {| t_SerialNumber := 3; t_CommonName := cn +:+ " Client"; t_NotBefore := now - Hour;
     t_NotAfter := now + 2 * 365 * 24 * Hour; t_KeyUsage := KeyUsageDigitalSignature;
     t_ExtKeyUsage := [ExtKeyUsageClientAuth]; t_BasicConstraintsValid := false; t_IsCA := false;
     t_DNSNames := []; t_IPAddresses := [] |}.

Section gencerts.
Context {W : Type} `{Crypto} `{Disk W} `{Stat W} `{Clock W} `{Generator W}.

(** [x, err := call(); if err != nil { fatal(err) }]. *)
Definition checked {A} (call : W → outcome A * W) : M W A := r ← sys call; lift r.

(** The loop over the files: only a successful [os.Stat] is one that exists. *)
Fixpoint check_absent (force : bool) (paths : list string) : M W () :=
  match paths with
  | [] => mret ()
  | path :: paths =>
      r ← with_store (λ w, Ret (os_Stat path w));
      match r with
      | Panic => lift Panic
      | Ret _ =>
          if force then check_absent force paths
          else lift (Fail (ErrNew (path +:+ " already exists (use -force to overwrite)")))
      | Fail _ => check_absent force paths
      end
  end.

(** [writeCert] and [writeKey], which differ in the block; [fatal] exits without
    the deferred [Close]. *)
Definition write_block (path : string) (b : Block) : M W () :=
  f ← checked (os_Create path);
  _ ← checked (pem_Encode f b);
  sys (gen_Close f).

Definition cert_pem (der : list Z) : Block := {| Block_Type := "CERTIFICATE"; Block_Bytes := der |}.
Definition key_pem (key : Z) : Block :=
  {| Block_Type := "RSA PRIVATE KEY"; Block_Bytes := x509_MarshalPKCS1PrivateKey key |}.
Definition writeCert (path : string) (der : list Z) : M W () := write_block path (cert_pem der).
Definition writeKey (path : string) (key : Z) : M W () := write_block path (key_pem key).

Definition generate (f : gen_flags) : M W () :=
  _ ← checked (os_MkdirAll (gf_out f) 493);
  join ← with_files (λ fs, filepath_Join (gf_out f));
  _ ← check_absent (gf_force f) (join <$> gen_files);
  caKey ← checked (rsa_GenerateKey 2048);
  now ← sys time_Now;
  let template := caTemplate (gf_cn f) now in
  caDER ← checked (x509_CreateCertificate template (inl template) caKey caKey);
  caCert ← lift (x509_ParseCertificate caDER);
  serverKey ← checked (rsa_GenerateKey 2048);
  serverDER ← checked (x509_CreateCertificate (serverTemplate (gf_cn f) now) (inr caCert) serverKey caKey);
  clientKey ← checked (rsa_GenerateKey 2048);
  clientDER ← checked (x509_CreateCertificate (clientTemplate (gf_cn f) now) (inr caCert) clientKey caKey);
  _ ← writeCert (join "ca.crt") caDER;
  _ ← writeKey (join "ca.key") caKey;
  _ ← writeCert (join "server.crt") serverDER;
  _ ← writeKey (join "server.key") serverKey;
  _ ← writeCert (join "client.crt") clientDER;
  writeKey (join "client.key") clientKey.

Definition usage_lines (out : string) : list string :=
  ["Generated mTLS certificates in " +:+ out; ""; "Start server:";
   "  go run ./cmd/cert-server -addr 127.0.0.1:50051 -ca " +:+ out +:+ "/ca.crt -cert " +:+ out +:+
     "/server.crt -key " +:+ out +:+ "/server.key";
   "Run client:";
   "  go run ./cmd/example-client -addr 127.0.0.1:50051 -ca " +:+ out +:+ "/ca.crt -cert " +:+ out +:+
     "/client.crt -key " +:+ out +:+ "/client.key"].

Definition main (f : gen_flags) : M (Tty W) () :=
  _ ← on_sys (generate f);
  print_lines (usage_lines (gf_out f)).
End gencerts.

(** ** The system and the library *)

(** What a file reads as. *)
Definition reads {W} `{Disk W} (w : W) (path : string) : outcome (list Z) :=
  @os_ReadFile (files w) path.

(** [gen_file w h] is the file an open handle writes to, [pem_text b] the PEM
    encoding of a block, [certifies c t p pub key] that [c] is the certificate
    made from template [t] under parent [p] for the public key of [pub],
    signed by [key]; [verified_at] is the time at which chains are verified. *)
Class GeneratorLaws (W : Type) `{Crypto} `{Tls} `{Disk W} `{Stat W} `{Clock W} `{Generator W} := {
  gen_file : W → Z → option string;
  pem_text : Block → list Z;
  certifies : Certificate → Template → Template + Certificate → Z → Z → Prop;
  verified_at : Z;
  mkdir_law d m w q : reads (os_MkdirAll d m w).2 q = reads w q;
  join_law d m w : @filepath_Join (files (os_MkdirAll d m w).2) = @filepath_Join (files w);
  stat_reads_law p d w : reads w p = Ret d → ∃ i, os_Stat p w = Ret i;
  key_law n w q : reads (rsa_GenerateKey n w).2 q = reads w q;
  clock_law w q : reads (time_Now w).2 q = reads w q;
  create_law t p pub key w r w' : x509_CreateCertificate t p pub key w = (r, w') →
    (∀ q, reads w' q = reads w q) ∧
    ∀ der, r = Ret der → ∃ c, x509_ParseCertificate der = Ret c ∧ certifies c t p pub key;
  open_law p w r w' : os_Create p w = (r, w') →
    (∀ q, q ≠ p → reads w' q = reads w q) ∧
    ∀ h, r = Ret h → reads w' p = Ret [] ∧ gen_file w' h = Some p;
  encode_law h b w r w' p : pem_Encode h b w = (r, w') → gen_file w h = Some p →
    (∀ q, q ≠ p → reads w' q = reads w q) ∧
    ∀ c, r = Ret () → reads w p = Ret c → reads w' p = Ret (c ++ pem_text b);
  gen_close_law h w q : reads (gen_Close h w).2 q = reads w q;
  pool_law der c : x509_ParseCertificate der = Ret c →
    AppendCertsFromPEM (pem_text (cert_pem der)) = Some [c];
  pair_law der c t p pub key : x509_ParseCertificate der = Ret c → certifies c t p pub key →
    ∃ kp, X509KeyPair (pem_text (cert_pem der)) (pem_text (key_pem pub)) = Ret kp;
  verify_law root troot kroot leaf t kleaf :
    certifies root troot (inl troot) kroot kroot → certifies leaf t (inr root) kleaf kroot →
    t_IsCA troot = true → t_BasicConstraintsValid troot = true →
    Z.land (t_KeyUsage troot) KeyUsageCertSign ≠ 0%Z → ExtKeyUsageServerAuth ∈ t_ExtKeyUsage t →
    (t_NotBefore troot ≤ verified_at ≤ t_NotAfter troot)%Z →
    (t_NotBefore t ≤ verified_at ≤ t_NotAfter t)%Z →
    Certificate_Verify [root] [] "" leaf = Ret ();
}.

(** ** Lemmas *)

Section generator_proofs.
Context {W : Type} `{GeneratorLaws W}.
Context (w0 : W).

(** The state after some files have been written. *)
Definition overlay (m : gmap string (list Z)) (w : W) : Prop :=
  ∀ q, reads w q = match m !! q with Some c => Ret c | None => reads w0 q end.

Lemma overlay_step m w w' : (∀ q, reads w' q = reads w q) → overlay m w → overlay m w'.
Proof. intros Hr Hw q. by rewrite Hr. Qed.

Lemma checked_triple {A} m (g : W → outcome A * W) (F : A → Prop) (E : W → Prop) :
  (∀ w r w', g w = (r, w') → (∀ q, reads w' q = reads w q) ∧ ∀ a, r = Ret a → F a) →
  (∀ w, overlay m w → E w) →
  triple (overlay m) (checked g) (λ a w, overlay m w ∧ F a) E.
Proof.
  intros Hg HE. apply (triple_sys_then _ _ _ (λ r w, overlay m w ∧ ∀ a, r = Ret a → F a)).
  - intros w Hw. destruct (g w) as [r w'] eqn:Eg. destruct (Hg _ _ _ Eg) as [Hr Hf].
    split; [by eapply overlay_step|done].
  - intros r w [Hw Hf]. destruct r; simpl; auto.
Qed.

Lemma key_triple m n (E : W → Prop) :
  (∀ w, overlay m w → E w) → triple (overlay m) (checked (rsa_GenerateKey n)) (λ _ w, overlay m w ∧ True) E.
Proof.
  intros HE. apply checked_triple; [|done]. intros w r w' Hg. split; [|done].
  intros q. by rewrite <- (key_law n w q), Hg.
Qed.

Lemma certificate_triple m t p pub key (E : W → Prop) :
  (∀ w, overlay m w → E w) →
  triple (overlay m) (checked (x509_CreateCertificate t p pub key))
    (λ der w, overlay m w ∧ ∃ c, x509_ParseCertificate der = Ret c ∧ certifies c t p pub key) E.
Proof. intros HE. apply checked_triple; [|done]. intros w r w' Hc. by apply (create_law t p pub key w). Qed.

(** Writing a block replaces one file; a failure touches no other. *)
Lemma write_triple m path b (E : W → Prop) :
  (∀ w, (∀ q, q ≠ path → reads w q = match m !! q with Some c => Ret c | None => reads w0 q end) → E w) →
  triple (overlay m) (write_block path b) (λ _, overlay (<[path := pem_text b]> m)) E.
Proof.
  intros HE. unfold write_block, checked.
  set (rest w := ∀ q, q ≠ path → reads w q = match m !! q with Some c => Ret c | None => reads w0 q end) in *.
  apply (triple_bind _ _ _ (λ h w, rest w ∧ reads w path = Ret [] ∧ gen_file w h = Some path)).
  { apply (triple_sys_then _ _ _ (λ r w, rest w ∧
      ∀ h, r = Ret h → reads w path = Ret [] ∧ gen_file w h = Some path)).
    - intros w Hw. destruct (os_Create path w) as [r w'] eqn:Ec. apply open_law in Ec as [Hq Hh]. simpl.
      split; [|done]. intros q Hne. by rewrite Hq.
    - intros r w [Hw Hh]. destruct r as [h|e|]; simpl; [|by apply HE|done]. split; [done|by apply Hh]. }
  intros h. apply (triple_bind _ _ _ (λ _, overlay (<[path := pem_text b]> m))).
  { apply (triple_sys_then _ _ _ (λ r w, rest w ∧ (r = Ret () → reads w path = Ret (pem_text b)))).
    - intros w (Hw & Hp & Hh). destruct (pem_Encode h b w) as [r w'] eqn:Ee.
      destruct (encode_law _ _ _ _ _ _ Ee Hh) as [Hq Hr]. simpl. split.
      + intros q Hne. by rewrite Hq, Hw.
      + intros Hr'. by apply (Hr []).
    - intros r w [Hw Hr]. destruct r as [[]|e|]; simpl; [|by apply HE|done].
      intros q. destruct (decide (q = path)) as [->|Hne]; [rewrite lookup_insert_eq; by apply Hr|].
      rewrite lookup_insert_ne by done. by apply Hw. }
  intros []. apply triple_sys. intros w. apply overlay_step. intros q. apply gen_close_law.
Qed.

Lemma check_absent_triple force paths :
  triple (overlay ∅) (check_absent force paths)
    (λ _ w, overlay ∅ w ∧ (force = false → ∀ p d, p ∈ paths → reads w0 p ≠ Ret d)) (overlay ∅).
Proof.
  induction paths as [|p paths IH]; intros w Hw; simpl.
  { split; [done|]. intros _ p d Hp. by apply elem_of_nil in Hp. }
  unfold with_store. rewrite bind_run. simpl.
  destruct (os_Stat p w) as [i|e|] eqn:Es; [destruct force; [|done]| |done].
  - specialize (IH w Hw). destruct (check_absent true paths w) as [[[[u|e|]|] w'] ev]; try done.
    simpl. naive_solver.
  - specialize (IH w Hw). destruct (check_absent force paths w) as [[[[u|e'|]|] w'] ev]; try done.
    simpl. destruct IH as [Hw' Hn]. split; [done|]. intros Hf p' d [->|Hp]%elem_of_cons; [|by apply Hn].
    intros Hr. assert (reads w p = Ret d) as Hr' by (by rewrite Hw, lookup_empty).
    destruct (stat_reads_law p d w Hr') as [i Hi]. congruence.
Qed.

(** *** The whole run *)

Definition paths (f : gen_flags) : list string :=
  @filepath_Join (files w0) (gf_out f) <$> gen_files.

(** The credentials that a run leaves: a CA, and the certificates of a server
    and of a client that it issued. *)
Record credentials (f : gen_flags) (w : W) (now : Z) (ca server client : list Z * Certificate * Z) : Prop := {
  cr_ca : x509_ParseCertificate ca.1.1 = Ret ca.1.2 ∧
    certifies ca.1.2 (caTemplate (gf_cn f) now) (inl (caTemplate (gf_cn f) now)) ca.2 ca.2;
  cr_server : x509_ParseCertificate server.1.1 = Ret server.1.2 ∧
    certifies server.1.2 (serverTemplate (gf_cn f) now) (inr ca.1.2) server.2 ca.2;
  cr_client : x509_ParseCertificate client.1.1 = Ret client.1.2 ∧
    certifies client.1.2 (clientTemplate (gf_cn f) now) (inr ca.1.2) client.2 ca.2;
  cr_files : (λ p, reads w p) <$> paths f =
    [Ret (pem_text (cert_pem ca.1.1)); Ret (pem_text (key_pem ca.2));
     Ret (pem_text (cert_pem server.1.1)); Ret (pem_text (key_pem server.2));
     Ret (pem_text (cert_pem client.1.1)); Ret (pem_text (key_pem client.2))];
}.

Definition others_kept (f : gen_flags) (w : W) : Prop := ∀ q, q ∉ paths f → reads w q = reads w0 q.
Definition guarded (f : gen_flags) : Prop :=
  gf_force f = false → ∀ p d, p ∈ paths f → reads w0 p ≠ Ret d.

(** The written files are among the six. *)
Definition within (f : gen_flags) (m : gmap string (list Z)) : Prop :=
  ∀ p, is_Some (m !! p) → p ∈ paths f.

Lemma within_empty f : within f ∅.
Proof. intros p. rewrite lookup_empty. by intros [? ?]. Qed.

Lemma within_insert f m p c : p ∈ paths f → within f m → within f (<[p := c]> m).
Proof. intros Hp Hm q [<-|[_ Hq]]%lookup_insert_is_Some; [done|by apply Hm]. Qed.

Lemma within_others f m q : within f m → q ∉ paths f → m !! q = None.
Proof. intros Hm Hq. destruct (m !! q) eqn:E; [|done]. destruct Hq. apply Hm. by rewrite E. Qed.

Lemma overlay_others f m w : within f m → overlay m w → others_kept f w.
Proof. intros Hm Hw q Hq. by rewrite (Hw q), (within_others f m q). Qed.

Lemma write_paths_triple f m path b (E : W → Prop) :
  path ∈ paths f → within f m → (∀ w, others_kept f w → E w) →
  triple (overlay m) (write_block path b)
    (λ _ w, overlay (<[path := pem_text b]> m) w ∧ within f (<[path := pem_text b]> m)) E.
Proof.
  intros Hp Hm HE. eapply triple_conseq; [apply (write_triple m path b (others_kept f))|done| |done].
  - intros w Hw q Hq. rewrite Hw, (within_others f m q); [done..|]. intros Heq. apply Hq. by rewrite Heq.
  - intros [] w Hw. split; [done|by apply within_insert].
Qed.

Lemma generate_triple f :
  NoDup (paths f) →
  triple (λ w, w = w0) (generate f)
    (λ _ w, guarded f ∧ others_kept f w ∧ ∃ w1 ca server client, credentials f w (time_Now w1).1 ca server client)
    (λ w, others_kept f w ∧ (guarded f ∨ ∀ q, reads w q = reads w0 q)).
Proof.
  intros Hnd. set (E w := others_kept f w ∧ (guarded f ∨ ∀ q, reads w q = reads w0 q)).
  assert (∀ w, overlay ∅ w → E w) as HE0.
  { intros w Hw. split; [apply (overlay_others f ∅); [apply within_empty|done]|]. right.
    intros q. by rewrite Hw, lookup_empty. }
  unfold generate, checked at 1.
  apply (triple_bind _ _ _ (λ _ w, overlay ∅ w ∧ @filepath_Join (files w) = @filepath_Join (files w0))).
  { apply (triple_sys_then _ _ _ (λ r w, overlay ∅ w ∧ @filepath_Join (files w) = @filepath_Join (files w0))).
    - intros w ->. split; [|apply join_law]. intros q. by rewrite mkdir_law, lookup_empty.
    - intros r w [Hw Hj]. destruct r; simpl; auto. }
  intros []. apply (triple_bind_fact _ _ _ (λ j, j = @filepath_Join (files w0) (gf_out f))).
  { intros w [Hw Hj]. simpl. by rewrite <- Hj. }
  intros join ->. fold (paths f).
  apply (triple_bind _ _ _ (λ _ w, overlay ∅ w ∧ guarded f)).
  { eapply triple_conseq; [apply check_absent_triple|by intros w [Hw _]|intros [] w Hw; exact Hw|exact HE0]. }
  intros []. apply triple_pure. intros Hg.
  assert (∀ w, others_kept f w → E w) as HE by (intros w Hw; split; [done|by left]).
  eapply triple_bind_fact; [by apply key_triple|]. intros caKey _.
  apply (triple_bind_fact _ _ _ (λ now, ∃ w1, now = (time_Now w1).1)).
  { apply triple_sys. intros w Hw. split; [|by exists w].
    eapply overlay_step; [|exact Hw]. intros q. apply clock_law. }
  intros now [w1 ->]. set (now := (time_Now w1).1). cbv zeta.
  eapply triple_bind_fact; [by apply certificate_triple|]. intros caDER (caCert & Hca & Hcca).
  rewrite Hca. apply triple_lift_then; [done|]. intros _ [= <-].
  eapply triple_bind_fact; [by apply key_triple|]. intros serverKey _.
  eapply triple_bind_fact; [by apply certificate_triple|]. intros serverDER (server & Hs & Hcs).
  eapply triple_bind_fact; [by apply key_triple|]. intros clientKey _.
  eapply triple_bind_fact; [by apply certificate_triple|]. intros clientDER (client & Hc & Hcc).
  pose proof (within_empty f) as Hm.
  unfold writeCert, writeKey.
  do 5 (eapply triple_bind;
    [apply (write_paths_triple f); [unfold paths, gen_files; set_solver|exact Hm|exact HE]|];
    clear Hm; intros []; apply triple_pure; intros Hm).
  eapply triple_conseq;
    [apply (write_paths_triple f); [unfold paths, gen_files; set_solver|exact Hm|exact HE]|done| |done].
  intros [] w [Hw Hm']. split; [done|]. split; [by eapply overlay_others|].
  exists w1, (caDER, caCert, caKey), (serverDER, server, serverKey), (clientDER, client, clientKey).
  split; [done..|]. unfold paths, gen_files in *. simpl in *.
  repeat (apply NoDup_cons in Hnd as [? Hnd]; rewrite ?not_elem_of_cons in *; destruct_and?).
  repeat f_equal; rewrite Hw; by simplify_map_eq.
Qed.

(** *** Loading the credentials *)

(** A path that [loadPEMOrFile] takes for a path. *)
Definition plain_path `{Unicode} (p : string) : Prop :=
  TrimSpace p = p ∧ Contains p "-----BEGIN" = false.

Lemma load_plain `{Unicode} w p : plain_path p → @loadPEMOrFile _ (files w) p = reads w p.
Proof. intros [Ht Hc]. unfold loadPEMOrFile. by rewrite Ht, Hc. Qed.

Lemma material_load `{Unicode} who w pca pcert pkey ca cacert der c t par key k :
  plain_path pca → plain_path pcert → plain_path pkey →
  reads w pca = Ret (pem_text (cert_pem ca)) → reads w pcert = Ret (pem_text (cert_pem der)) →
  reads w pkey = Ret (pem_text (key_pem key)) →
  x509_ParseCertificate ca = Ret cacert → x509_ParseCertificate der = Ret c → certifies c t par key k →
  ∃ kp, @load_material _ (files w) _ who pca pcert pkey = Ret ([cacert], kp).
Proof.
  intros Hp1 Hp2 Hp3 Hr1 Hr2 Hr3 Hca Hc Hce. destruct (pair_law _ _ _ _ _ _ Hc Hce) as [kp Hk].
  exists kp. unfold load_material. rewrite !load_plain, Hr1, Hr2, Hr3 by done. simpl.
  rewrite (pool_law _ _ Hca). simpl. by rewrite Hk.
Qed.

(** Both sides load what a run leaves, and the client takes the server's
    certificate while both certificates are in force. *)
Lemma credentials_load `{Unicode} f w now ca server client host :
  let path := @filepath_Join (files w0) (gf_out f) in
  credentials f w now ca server client → Forall plain_path (paths f) →
  ∃ scfg ccfg,
    @LoadServerTLSConfig _ (files w) _ (path "ca.crt") (path "server.crt") (path "server.key") = Ret scfg ∧
    @LoadClientTLSConfig _ _ (files w) _ (path "ca.crt") (path "client.crt") (path "client.key") host =
      Ret ccfg ∧
    ClientCAs scfg = [ca.1.2] ∧ RootCAs ccfg = [ca.1.2] ∧
    ((now - Hour ≤ verified_at ≤ now + 2 * 365 * 24 * Hour)%Z →
     VerifyPeerCertificate ccfg [server.1.1] = Ret ()).
Proof.
  intros path [[Hca Hcca] [Hs Hcs] [Hc Hcc] Hf] Hp.
  unfold paths, gen_files in Hf, Hp. simpl in Hf, Hp. fold path in Hf, Hp.
  injection Hf as Hf1 Hf2 Hf3 Hf4 Hf5 Hf6. rewrite !Forall_cons in Hp.
  destruct Hp as (Hp1 & Hp2 & Hp3 & Hp4 & Hp5 & Hp6 & _).
  destruct (material_load "server" w _ _ _ _ _ _ _ _ _ _ _ Hp1 Hp3 Hp4 Hf1 Hf3 Hf4 Hca Hs Hcs) as [k1 Hm1].
  destruct (material_load "client" w _ _ _ _ _ _ _ _ _ _ _ Hp1 Hp5 Hp6 Hf1 Hf5 Hf6 Hca Hc Hcc) as [k2 Hm2].
  unfold LoadServerTLSConfig, LoadClientTLSConfig. rewrite Hm1, Hm2.
  eexists _, _. split; [done|]. split; [done|]. split; [done|]. split; [done|].
  intros Hn. simpl. unfold verify_peer. simpl. rewrite Hs. simpl.
  eapply verify_law; [exact Hcca|exact Hcs|done|done|by vm_compute|by left|simpl; lia|simpl; lia].
Qed.
End generator_proofs.

(** ** Property *)

(** C40: the generated credentials are the ones the TLS configurations want.
    After a run that succeeds, the server's configuration loads from the CA,
    server certificate and server key files and the client's from the CA, client
    certificate and client key files; both trust one and the same certificate,
    which issued the client's certificate for client authentication; and the
    client's peer verification accepts the server's certificate as long as
    chains are verified between an hour before and two years after any reading of
    the clock.  Without [-force] a run that would overwrite a file fails and
    changes no file; and no run, successful or not, changes any other file. *)
Theorem generated_credentials_load {W} `{Unicode} `{GeneratorLaws W} (f : gen_flags) (host : string)
    (t : Tty W) :
  let w0 := tty_sys t in
  let w := tty_sys (world_after (main f) t) in
  let path := @filepath_Join (files w0) (gf_out f) in
  NoDup (path <$> gen_files) → Forall plain_path (path <$> gen_files) →
  (∀ o, result (main f) t = Done o → o ≠ Panic →
     (∀ q, q ∉ path <$> gen_files → reads w q = reads w0 q) ∧
     (gf_force f = false → (∃ name d, name ∈ gen_files ∧ reads w0 (path name) = Ret d) →
        o ≠ Ret () ∧ ∀ q, reads w q = reads w0 q)) ∧
  (result (main f) t = Done (Ret ()) →
     ∃ scfg ccfg ca der clientDER client caKey clientKey w1,
       @LoadServerTLSConfig _ (files w) _ (path "ca.crt") (path "server.crt") (path "server.key") = Ret scfg ∧
       @LoadClientTLSConfig _ _ (files w) _ (path "ca.crt") (path "client.crt") (path "client.key") host =
         Ret ccfg ∧
       ClientCAs scfg = [ca] ∧ RootCAs ccfg = [ca] ∧
       reads w (path "server.crt") = Ret (pem_text (cert_pem der)) ∧
       reads w (path "client.crt") = Ret (pem_text (cert_pem clientDER)) ∧
       x509_ParseCertificate clientDER = Ret client ∧
       certifies client (clientTemplate (gf_cn f) (time_Now w1).1) (inr ca) clientKey caKey ∧
       ((∀ w', (time_Now w').1 - Hour ≤ verified_at ≤ (time_Now w').1 + 2 * 365 * 24 * Hour)%Z →
        VerifyPeerCertificate ccfg [der] = Ret ())).
Proof.
  intros w0 w path Hnd Hplain. change (path <$> gen_files) with (paths w0 f) in *.
  pose proof (generate_triple w0 f Hnd w0 eq_refl) as Hg.
  assert (∀ name d, name ∈ gen_files → reads w0 (path name) = Ret d → guarded w0 f → gf_force f = false → False)
    as Hno.
  { intros name d Hn Hr Hgu Hf. eapply Hgu; [done|by apply list_elem_of_fmap_2|done]. }
  subst w. unfold result, world_after, main, on_sys. rewrite bind_run. fold w0.
  generalize (usage_lines (gf_out f)). intros lines.
  destruct (generate f w0) as [[[[[]|e|]|] w'] ev]; simpl; [|simpl|by split; [intros ? [= <-]|]|done].
  - rewrite print_lines_run. simpl. destruct Hg as (Hgu & Ho & w1 & ca & server & client & Hcr). split.
    + intros o [= <-] _. split; [done|]. intros Hf (name & d & Hn & Hr). by destruct (Hno name d).
    + intros _. destruct (credentials_load w0 f w' _ ca server client host Hcr Hplain)
        as (scfg & ccfg & Hs & Hc & Hca & Hra & Hv).
      destruct Hcr as [_ _ [Hcp Hcc] Hfs]. unfold paths, gen_files in Hfs. simpl in Hfs. injection Hfs as _ _ Hf3 _ Hf5 _.
      exists scfg, ccfg, ca.1.2, server.1.1, client.1.1, client.1.2, ca.2, client.2, w1.
      split_and!; try done. intros Hnow. by apply Hv.
  - destruct Hg as [Ho Hgu]. split; [|done]. intros o [= <-] _. split; [done|].
    intros Hf (name & d & Hn & Hr). split; [done|]. destruct Hgu as [Hgu|Hall]; [by destruct (Hno name d)|done].
Qed.

(** ** A concrete system *)

Record SampleGen := { sg_files : gmap string (list Z); sg_open : gmap Z string; sg_next : Z }.

Definition sample_gen_disk : Disk SampleGen := {|
  files w := {|
    os_ReadDir _ := Fail (Foreign 3 "no such directory");
    os_ReadFile p := match sg_files w !! p with Some c => Ret c | None => Fail (Foreign 2 "no such file") end;
    filepath_Join d n := d +:+ "/" +:+ n;
    os_IsPathSeparator c := bool_decide (c = "/"%char) |};
  os_WriteFile p d w := (Ret (), {| sg_files := <[p := d]> (sg_files w); sg_open := sg_open w; sg_next := sg_next w |});
|}.
Definition sample_gen_stat : Stat SampleGen := {|
  os_Stat p w := match sg_files w !! p with
                 | Some c => Ret {| fi_Size := Z.of_nat (length c); fi_Perm := 420 |}
                 | None => Fail (Foreign 2 "no such file")
                 end |}.
Definition sample_gen_clock : Clock SampleGen := {| time_Now w := (0%Z, w) |}.

(** A certificate is [48; 1; key; signer], a key file holds [key], a PEM block
    is [45; type; ...bytes]. *)
Definition sample_pem (b : Block) : list Z :=
  45%Z :: (if bool_decide (Block_Type b = "CERTIFICATE") then 1 else 2)%Z :: Block_Bytes b.

Definition sample_gen : Generator SampleGen := {|
  os_MkdirAll _ _ w := (Ret (), w);
  rsa_GenerateKey _ w :=
    (Ret (sg_next w), {| sg_files := sg_files w; sg_open := sg_open w; sg_next := sg_next w + 1 |});
  x509_CreateCertificate _ _ pub key w := (Ret [48; 1; pub; key]%Z, w);
  x509_MarshalPKCS1PrivateKey k := [k];
  os_Create p w :=
    (Ret 3%Z, {| sg_files := <[p := []]> (sg_files w); sg_open := <[3%Z := p]> (sg_open w); sg_next := sg_next w |});
  pem_Encode h b w :=
    match sg_open w !! h with
    | Some p => (Ret (), {| sg_files := alter (λ c, c ++ sample_pem b) p (sg_files w);
                            sg_open := sg_open w; sg_next := sg_next w |})
    | None => (Fail (Foreign 9 "bad file descriptor"), w)
    end;
  gen_Close h w :=
    ((), {| sg_files := sg_files w; sg_open := delete h (sg_open w); sg_next := sg_next w |});
|}.

Definition sample_gen_tls : Tls := {|
  AppendCertsFromPEM pem :=
    match pem with
    | 45%Z :: 1%Z :: der => match sample_parse_cert der with Ret c => Some [c] | _ => None end
    | _ => None
    end;
  X509KeyPair cert key :=
    match cert, key with
    | 45%Z :: 1%Z :: 48%Z :: 1%Z :: pub :: _, [45%Z; 2%Z; k] =>
        if (pub =? k)%Z then Ret k else Fail (Foreign 7 "tls: private key does not match public key")
    | _, _ => Fail (Foreign 7 "tls: failed to parse")
    end;
  Certificate_Verify roots _ _ c :=
    match Raw <$> roots, Raw c with
    | [[_; _; k; _]], [_; _; _; signer] =>
        if (signer =? k)%Z then Ret () else Fail (Foreign 6 "x509: certificate signed by unknown authority")
    | _, _ => Fail (Foreign 6 "x509: certificate signed by unknown authority")
    end;
|}.

Definition sample_gen_laws :
  @GeneratorLaws SampleGen sample_crypto sample_gen_tls sample_gen_disk sample_gen_stat sample_gen_clock sample_gen.
Proof.
  refine (@Build_GeneratorLaws SampleGen sample_crypto sample_gen_tls sample_gen_disk sample_gen_stat
    sample_gen_clock sample_gen (λ w h, sg_open w !! h) sample_pem
    (λ c _ _ pub key, Raw c = [48; 1; pub; key]%Z) 0%Z _ _ _ _ _ _ _ _ _ _ _ _); unfold reads; simpl.
  - done.
  - done.
  - intros p d w. destruct (sg_files w !! p); [eauto|done].
  - done.
  - done.
  - intros t p pub key w r w' [= <- <-]. split; [done|]. intros der [= <-]. by eexists.
  - intros p w r w' [= <- <-]. split; [intros q Hq; simpl; by rewrite lookup_insert_ne|].
    intros h [= <-]. simpl. by rewrite !lookup_insert_eq.
  - intros h b w r w' p Hc Hh. rewrite Hh in Hc. injection Hc as <- <-. split.
    + intros q Hq. simpl. by rewrite lookup_alter_ne.
    + intros c _. simpl. rewrite lookup_alter_eq. destruct (sg_files w !! p); simpl; [|done]. by intros [= ->].
  - done.
  - intros der c Hc. by rewrite Hc.
  - intros der c t p pub key Hc Hr. assert (Raw c = der) as Hd.
    { unfold sample_parse_cert in Hc. repeat (case_match; try done); by simplify_eq/=. }
    rewrite Hr in Hd. subst der. simpl. rewrite Z.eqb_refl. by eexists.
  - intros root troot kr leaf t kl -> -> _ _ _ _ _ _. by rewrite Z.eqb_refl.
Defined.

Lemma generated_credentials_load_witness :
  let U := sample_unicode in let C := sample_crypto in let T := sample_gen_tls in
  let D := sample_gen_disk in
  let f := {| gf_out := "certs"; gf_cn := "test"; gf_force := false |} in
  let w := {| sg_files := ∅; sg_open := ∅; sg_next := 1 |} in
  let w' := tty_sys (world_after (@main _ C D sample_gen_stat sample_gen_clock sample_gen f)
                       (Build_Tty [] "" w)) in
  ∃ scfg ccfg der,
    @LoadServerTLSConfig _ (files w') _ "certs/ca.crt" "certs/server.crt" "certs/server.key" = Ret scfg ∧
    @LoadClientTLSConfig _ _ (files w') _ "certs/ca.crt" "certs/client.crt" "certs/client.key" "h" = Ret ccfg ∧
    VerifyPeerCertificate ccfg [der] = Ret ().
Proof.
  intros U C T D f w w'.
  destruct (@generated_credentials_load SampleGen U C T D sample_gen_stat sample_gen_clock sample_gen
    sample_gen_laws f "h" (Build_Tty [] "" w)) as [_ Hok].
  - vm_compute. repeat (constructor; [rewrite list_elem_of_In; simpl; intuition discriminate|]). constructor.
  - vm_compute. repeat (constructor; [by split|]). constructor.
  - destruct (Hok ltac:(vm_compute; reflexivity))
      as (scfg & ccfg & ca & der & cder & c & k1 & k2 & w1 & Hs & Hc & _ & _ & _ & _ & _ & _ & Hv).
    exists scfg, ccfg, der. split; [exact Hs|]. split; [exact Hc|].
    apply Hv. intros w2. vm_compute. by split.
Defined.
