(* ===== verification/RunDiscovery.v ===== *)
(** * [cmd/run-discovery]

    The command that prints the servers found on the local network, as JSON or
    as a table. *)

From stdpp Require Import base list sets gmap strings.
From Stdlib Require Import ZArith Lia Ascii.
From S2P Require Import Prelude WinSys GoStrings GoNet GoText GoCrypto Samples CertTypes CertFileStore.
From S2P Require Import CertService Discovery DiscoveryClient KspClient ClientWorld Console.

Record discovery_flags := {
  df_port : Z;
  df_probe : string;
  df_timeout : Z;
  df_service : string;
  df_json : bool;
}.

(** The resolver, the indented JSON of a list of servers, and the alignment of
    [text/tabwriter] with a padding of two spaces. *)
Class DiscoveryOutput := {
  net_ResolveUDPAddr : string → outcome UDPAddr;
  json_MarshalIndent : list DiscoveredServer → outcome string;
  tabwriter : list (list string) → string;
}.

Section run_discovery.
Context {W : Type} `{NetText} `{Json} `{Lan W} `{DiscoveryOutput}.

Definition discovery_config (f : discovery_flags) (probes : list UDPAddr) : DiscoverClientConfig :=
  {| dc_Port := df_port f; dc_Service := df_service f; dc_Timeout := df_timeout f; dc_ProbeAddrs := probes |}.

Definition server_row (s : DiscoveredServer) : list string :=
  [ds_Hostname s; ds_GRPCAddr s; ds_Version s; ds_SourceIP s].

Definition print_servers (asJSON : bool) (servers : list DiscoveredServer) : M (Tty W) () :=
  if asJSON then data ← lift (json_MarshalIndent servers); println data
  else if (length servers =? 0)%nat then println "No cert-servers found on the LAN."
  else print (tabwriter (["HOSTNAME"; "GRPC_ADDR"; "VERSION"; "SOURCE_IP"] :: (server_row <$> servers))).

Definition main (f : discovery_flags) : M (Tty W) () :=
  probes ← (if bool_decide (df_probe f = "") then mret []
            else addr ← lift (wrapf "probe address" (net_ResolveUDPAddr (df_probe f))); mret [addr]);
  servers ← on_sys (discover_with (discovery_config f probes));
  print_servers (df_json f) servers.
End run_discovery.

(** ** What it prints *)

(** A table lists every server found, one row each, in the order of the
    discovery: by address, without duplicates. *)
Lemma discovery_table `{NetText} `{Json} `{DiscoveryOutput} {W} `{Lan W} (f : discovery_flags)
    (t : Tty W) (n : local_network) :
  df_probe f = "" → df_json f = false → n = (discovery_run (df_timeout f) (tty_sys t)).1 →
  result (main f) t = Done (Ret ()) →
  ∃ servers, DiscoverServers (discovery_config f []) (ln_listen n) (ln_socket n) (ln_interfaces n)
      (ln_write n) (ln_replies n) = Ret servers ∧
    tty_out (world_after (main f) t) =
      tty_out t +:+
      (if (length servers =? 0)%nat
       then "No cert-servers found on the LAN." +:+ String newline EmptyString
       else tabwriter (["HOSTNAME"; "GRPC_ADDR"; "VERSION"; "SOURCE_IP"] :: (server_row <$> servers))).
Proof.
  intros Hp Hj ->. unfold result, world_after, main. rewrite Hp, Hj, bool_decide_eq_true_2 by done.
  rewrite bind_run. cbn [mret M_ret]. rewrite bind_run. unfold on_sys, discover_with, discovery_config.
  rewrite bind_run. unfold sys, lift. cbn [dc_Timeout].
  destruct (discovery_run (df_timeout f) (tty_sys t)) as [n w]. cbn [fst].
  destruct (DiscoverServers _ _ _ _ _ _) as [servers|e|]; simpl; [|done..].
  unfold print_servers. intros _. exists servers. split; [done|].
  by destruct (length servers =? 0)%nat.
Qed.
