(* ===== verification/KspBridge.v ===== *)
(** * [internal/kspbridge]

    The C interface of the key storage providers: [bridge_common.go] (the C
    record and its strings), [bridge.go] (Windows: the keys installed for the
    provider) and [bridge_linux.go] (everything the server has a key for).
    Each exported function takes the process ([KspClient.Process], which holds
    the global client) and the heap, and returns its code with the new ones;
    what it writes through a pointer is returned as the new contents of that
    buffer. *)

From stdpp Require Import base list gmap strings.
From Stdlib Require Import ZArith Lia Ascii.
From S2P Require Import Prelude GoStrings GoNet GoCrypto Samples CertTypes CertFileStore CertService.
From S2P Require Import TlsUtil KspClient CMem.

Definition codeOK : Z := 0.
Definition codeErr : Z := -1.
Definition codeNoMore : Z := -2.
Definition codeNotFound : Z := -3.
Definition codeBufferTooSmall : Z := -4.

(** ** [bridge_common.go] *)

Record tpmcert_key_info := {
  thumbprint : list Z;
  subject : list Z;
  key_algorithm : list Z;
  key_size : Z;
  cert_der : Z;
  cert_der_len : Z;
  rsa_public_blob : Z;
  rsa_public_blob_len : Z;
}.

(** The record a caller has cleared with [memset] or [ZeroMemory]. *)
Definition zero_key_info : tpmcert_key_info :=
  {| thumbprint := replicate 64 0%Z; subject := replicate 512 0%Z;
     key_algorithm := replicate 32 0%Z; key_size := 0; cert_der := NULL; cert_der_len := 0;
     rsa_public_blob := NULL; rsa_public_blob_len := 0 |}.

(** The copy loop of [copyToCChars], from position [i]. *)
Fixpoint copy_chars (i : nat) (s : list Z) (buf : list Z) : list Z :=
  match s with
  | [] => buf
  | b :: s => copy_chars (S i) s (<[i := b]> buf)
  end.

(** [copyToCChars(dst, capacity, s)]: [dst] is what is left of the object, the
    slice of [n + 1] bytes is taken from an array of [2 ^ 20]. *)
Definition copyToCChars (dst : list Z) (capacity : Z) (s : string) : outcome (list Z) :=
  if (capacity <=? 0)%Z then Ret dst
  else
    let n := Z.min (capacity - 1) (Z.of_nat (String.length s)) in
    if (2 ^ 20 <? n + 1)%Z || (Z.of_nat (length dst) <? n + 1)%Z then Panic
    else
      let n := Z.to_nat n in
      Ret (<[n := 0%Z]> (copy_chars 0 (take n (bytes_of_string s)) dst)).

(** [copyToCChars(&out.f[0], len(out.f), s)]. *)
Definition fill_field (f : list Z) (s : string) : outcome (list Z) :=
  copyToCChars f (Z.of_nat (length f)) s.

(** [if len(data) > 0 { p = malloc(len(data)); n = len(data); copy }]. *)
Definition fill_block (data : list Z) (p n : Z) (h : Heap) : outcome (Z * Z * Heap) :=
  if (length data =? 0)%nat then Ret (p, n, h)
  else '(q, h) ← malloc_copy data h; Ret (q, Z.of_nat (length data), h).

Definition fillKeyInfo (out : tpmcert_key_info) (k : KeyInfo) (h : Heap)
    : outcome (tpmcert_key_info * Heap) :=
  tp ← fill_field (thumbprint out) (ki_Thumbprint k);
  su ← fill_field (subject out) (ki_Subject k);
  al ← fill_field (key_algorithm out) (ki_KeyAlgorithm k);
  '(der, der_len, h) ← fill_block (ki_CertificateDER k) (cert_der out) (cert_der_len out) h;
  '(blob, blob_len, h) ←
    fill_block (ki_RSAPublicBlob k) (rsa_public_blob out) (rsa_public_blob_len out) h;
  Ret ({| thumbprint := tp; subject := su; key_algorithm := al; key_size := ki_KeySize k;
          cert_der := der; cert_der_len := der_len; rsa_public_blob := blob;
          rsa_public_blob_len := blob_len |}, h).

(** [if p != nil { free(p); p = nil }]. *)
Definition free_block (p : Z) (h : Heap) : outcome (Z * Heap) :=
  if (p =? NULL)%Z then Ret (p, h) else h ← free p h; Ret (NULL, h).

Definition tpmcert_free_key_info (out : option tpmcert_key_info) (h : Heap)
    : outcome (option tpmcert_key_info * Heap) :=
  match out with
  | None => Ret (None, h)
  | Some o =>
      '(der, h) ← free_block (cert_der o) h;
      '(blob, h) ← free_block (rsa_public_blob o) h;
      Ret (Some {| thumbprint := thumbprint o; subject := subject o;
                   key_algorithm := key_algorithm o; key_size := key_size o; cert_der := der;
                   cert_der_len := cert_der_len o; rsa_public_blob := blob;
                   rsa_public_blob_len := rsa_public_blob_len o |}, h)
  end.

(** ** The exported functions, over how they obtain the keys and sign *)

Section exports.
Context {I : Type} (fill : I → KeyInfo → Heap → outcome (I * Heap)).

(** [tpmcert_installed_count] *)
Definition installed_count (keys : Client → outcome (list KeyInfo) * Client) (p : Process)
    : outcome (Z * Process) :=
  match global p with
  | None => Ret (0, p)
  | Some c =>
      let '(r, c) := keys c in
      let p := set_global c p in
      match r with
      | Ret l => Ret (to_i32 (Z.of_nat (length l)), p)
      | Fail _ => Ret (0, p)
      | Panic => Panic
      end
  end%Z.

(** [tpmcert_get_installed] *)
Definition get_installed (keys : Client → outcome (list KeyInfo) * Client) (index : Z)
    (out : option I) (p : Process) (h : Heap) : outcome (Z * option I * Process * Heap) :=
  match out, global p with
  | None, _ | _, None => Ret (codeErr, out, p, h)
  | Some o, Some c =>
      let '(r, c) := keys c in
      let p := set_global c p in
      match r with
      | Fail _ => Ret (codeErr, out, p, h)
      | Panic => Panic
      | Ret l =>
          if (Z.of_nat (length l) <=? index)%Z then Ret (codeNoMore, out, p, h)
          else
            k ← go_index l index;
            '(o, h) ← fill o k h;
            Ret (codeOK, Some o, p, h)
      end
  end.

(** [tpmcert_find_installed]: [find] is the lookup, given the outcome of
    reading the C string, and [fails] the code of its error. *)
Definition find_installed
    (find : outcome string → Client → outcome (option KeyInfo) * Client) (fails : Z)
    (tp : option (list Z)) (out : option I) (p : Process) (h : Heap)
    : outcome (Z * option I * Process * Heap) :=
  match out, tp, global p with
  | None, _, _ | _, None, _ | _, _, None => Ret (codeErr, out, p, h)
  | Some o, Some tp, Some c =>
      let '(r, c) := find (GoString tp) c in
      let p := set_global c p in
      match r with
      | Fail _ => Ret (fails, out, p, h)
      | Panic => Panic
      | Ret None => Ret (codeNotFound, out, p, h)
      | Ret (Some k) => '(o, h) ← fill o k h; Ret (codeOK, Some o, p, h)
      end
  end.
End exports.

Record sign_out := { so_code : Z; so_sig : option (list Z); so_len : option Z; so_proc : Process }.

(** [tpmcert_sign_hash], over the client's signing function. *)
Definition sign_hash (sign : string → list Z → Client → outcome (list Z) * Client)
    (tp digest : option (list Z)) (digestLen : Z) (sigOut : option (list Z)) (sigLen : option Z)
    (p : Process) : outcome sign_out :=
  match tp, digest, sigLen, global p with
  | Some tp, Some dg, Some room, Some c =>
      d ← GoBytes dg (to_i32 digestLen);
      tp ← GoString tp;
      let '(r, c) := sign tp d c in
      let p := set_global c p in
      let done code buf len :=
        Ret {| so_code := code; so_sig := buf; so_len := Some len; so_proc := p |} in
      match r with
      | Fail _ => done codeNotFound sigOut room
      | Panic => Panic
      | Ret sig =>
          let n := Z.of_nat (length sig) in
          match sigOut with
          | None => done codeOK None n
          | Some buf =>
              if (room <? n)%Z then done codeBufferTooSmall sigOut n
              else if (2 ^ 30 <? n)%Z || (Z.of_nat (length buf) <? n)%Z then Panic
              else done codeOK (Some (sig ++ drop (length sig) buf)) n
          end
      end
  | _, _, _, _ => Ret {| so_code := codeErr; so_sig := sigOut; so_len := sigLen; so_proc := p |}
  end.

(** [tpmcert_init], over the loaded configuration and what follows
    [InitGlobal]. *)
Definition init_client `{Unicode} `{Crypto} `{FileSystem} `{Tls} (load : outcome KspConfig)
    (dial : outcome ()) (ready : Client → Process → outcome (Z * Process)) (p : Process)
    : outcome (Z * Process) :=
  match load with
  | Fail _ => Ret (codeErr, p)
  | Panic => Panic
  | Ret cfg =>
      let '(r, p) := InitGlobal dial cfg p in
      match r with
      | Fail _ => Ret (codeErr, p)
      | Panic => Panic
      | Ret _ => match global p with None => Ret (codeErr, p) | Some c => ready c p end
      end
  end.

(** [path := ""; if configPath != nil { path = C.GoString(configPath) }]. *)
Definition path_argument (configPath : option (list Z)) : outcome string :=
  match configPath with Some p => GoString p | None => Ret "" end.

(** ** [bridge.go]: Windows *)

Module Bridge_windows.
Section bridge.
Context `{Unicode} `{Crypto} `{FileSystem} `{Tls} `{Host} {W} `{CertBackend W}.

Definition tpmcert_init (dial : outcome ()) (configPath : option (list Z)) (p : Process)
    : outcome (Z * Process) :=
  path ← path_argument configPath;
  init_client (LoadConfig path) dial
    (λ _ p, match ReloadManifest with
            | Ret _ => Ret (codeOK, p)
            | Fail _ => Ret (codeErr, p)
            | Panic => Panic
            end) p.

Definition tpmcert_shutdown (p : Process) : Process := ShutdownGlobal p.

Definition tpmcert_reload_manifest (p : Process) : outcome Z :=
  match global p with
  | None => Ret codeErr
  | Some _ =>
      match ReloadManifest with Ret _ => Ret codeOK | Fail _ => Ret codeErr | Panic => Panic end
  end.

(** The outcome of the server's calls, and the time before and after them. *)
Context (w : W) (rpc : Rpc) (now later : Z).

Definition tpmcert_installed_count : Process → outcome (Z * Process) :=
  installed_count (InstalledKeys w rpc now later).

Definition tpmcert_get_installed : Z → option tpmcert_key_info → Process → Heap →
    outcome (Z * option tpmcert_key_info * Process * Heap) :=
  get_installed fillKeyInfo (InstalledKeys w rpc now later).

Definition find (tp : outcome string) (c : Client) : outcome (option KeyInfo) * Client :=
  match tp with
  | Ret tp => let '(r, c) := FindInstalled w rpc now later tp c in (Some <$> r, c)
  | Fail e => (Fail e, c)
  | Panic => (Panic, c)
  end.

Definition tpmcert_find_installed : option (list Z) → option tpmcert_key_info → Process → Heap →
    outcome (Z * option tpmcert_key_info * Process * Heap) :=
  find_installed fillKeyInfo find codeNotFound.

Definition tpmcert_sign_hash (tp digest : option (list Z)) (digestLen hashAlg rsaPadding : Z)
    (sigOut : option (list Z)) (sigLen : option Z) (p : Process) : outcome sign_out :=
  sign_hash (λ tp d, Client_SignHash w rpc now later tp d (HashAlgFromInt hashAlg)
                       (PaddingFromInt rsaPadding))
    tp digest digestLen sigOut sigLen p.
End bridge.
End Bridge_windows.

(** ** [bridge_linux.go]: every other system *)

(** The bytes [':'], [' '], ['-'] are dropped, ['a'] to ['f'] upper-cased. *)
Fixpoint normalizeThumbprint (s : string) : string :=
  match s with
  | EmptyString => EmptyString
  | String ch s =>
      if bool_decide (ch = ":"%char) || bool_decide (ch = " "%char) || bool_decide (ch = "-"%char)
      then normalizeThumbprint s
      else
        String (if byte_in 97 102 ch then ascii_of_N (N_of_ascii ch - 32) else ch)
          (normalizeThumbprint s)
  end.

Module Bridge_linux.
Section bridge.
Context `{Unicode} `{Crypto} `{FileSystem} `{Tls} `{Host}.

(** [home] is the outcome of [os.UserHomeDir]. *)
Definition defaultConfigPath (home : outcome string) : string :=
  let base := os_Getenv "XDG_CONFIG_HOME" in
  let base :=
    if bool_decide (base = "") then
      match home with Ret home => filepath_Join home ".config" | _ => base end
    else base in
  filepath_Join (filepath_Join base "fredprx-ksp") "config.json".

Definition loadConfig (home : outcome string) (configPath : string) : outcome KspConfig :=
  if negb (bool_decide (configPath = "")) then LoadConfig configPath
  else match LoadConfigFromEnv with
       | Some cfg => Ret cfg
       | None => LoadConfig (defaultConfigPath home)
       end.

Definition tpmcert_init (home : outcome string) (rpc : Rpc) (dial : outcome ())
    (configPath : option (list Z)) (p : Process) : outcome (Z * Process) :=
  path ← path_argument configPath;
  init_client (loadConfig home path) dial
    (λ _ p, match Ping rpc with
            | Ret _ => Ret (codeOK, p)
            | Fail _ => Ret (codeErr, ShutdownGlobal p)
            | Panic => Panic
            end) p.

Definition tpmcert_shutdown (p : Process) : Process := ShutdownGlobal p.

Definition tpmcert_reload_manifest (p : Process) : outcome Z := Ret codeOK.

Context (rpc : Rpc) (now later : Z).

Definition tpmcert_installed_count : Process → outcome (Z * Process) :=
  installed_count (AllKeys rpc now later).

Definition tpmcert_get_installed : Z → option tpmcert_key_info → Process → Heap →
    outcome (Z * option tpmcert_key_info * Process * Heap) :=
  get_installed fillKeyInfo (AllKeys rpc now later).

Definition find (tp : outcome string) (c : Client) : outcome (option KeyInfo) * Client :=
  let '(keys, c) := AllKeys rpc now later c in
  (keys ← keys;
   tp ← tp;
   let target := normalizeThumbprint tp in
   Ret (find_first (λ k, bool_decide (normalizeThumbprint (ki_Thumbprint k) = target)) keys), c).

Definition tpmcert_find_installed : option (list Z) → option tpmcert_key_info → Process → Heap →
    outcome (Z * option tpmcert_key_info * Process * Heap) :=
  find_installed fillKeyInfo find codeErr.

Definition tpmcert_sign_hash (tp digest : option (list Z)) (digestLen hashAlg rsaPadding : Z)
    (sigOut : option (list Z)) (sigLen : option Z) (p : Process) : outcome sign_out :=
  sign_hash (λ tp d c, (SignHashDirect rpc tp d (HashAlgFromInt hashAlg)
                          (PaddingFromInt rsaPadding), c))
    tp digest digestLen sigOut sigLen p.
End bridge.
End Bridge_linux.

(** ** Lemmas *)

(** *** C strings *)

Definition no_nul : string → bool := string_forall (λ c, negb (bool_decide (c = Ascii.zero))).

Lemma bytes_of_string_take n s : bytes_of_string (string_take n s) = take n (bytes_of_string s).
Proof. revert s. induction n as [|n IH]; intros [|c s]; simpl; [done..|]. by rewrite IH. Qed.

Lemma bytes_of_string_length s : length (bytes_of_string s) = String.length s.
Proof. induction s as [|c s IH]; [done|]. simpl. by rewrite IH. Qed.

Lemma string_take_all n s : (String.length s ≤ n)%nat → string_take n s = s.
Proof. revert s. induction n as [|n IH]; intros [|c s]; simpl; intros; [done|lia|done|]. rewrite IH; [done|lia]. Qed.

Lemma no_nul_take n s : no_nul s = true → no_nul (string_take n s) = true.
Proof.
  unfold no_nul. revert s. induction n as [|n IH]; intros [|c s]; simpl; [done..|].
  intros [-> Hs]%andb_prop. by apply IH.
Qed.

Lemma copy_chars_spec i s buf :
  (i + length s ≤ length buf)%nat →
  copy_chars i s buf = take i buf ++ s ++ drop (i + length s) buf.
Proof.
  revert i buf. induction s as [|b s IH]; intros i buf Hl; simpl in *.
  - by rewrite Nat.add_0_r, take_drop.
  - rewrite IH by (rewrite length_insert; lia).
    rewrite (take_S_r _ i b) by (apply list_lookup_insert_eq; lia).
    rewrite take_insert_ge by lia. rewrite drop_insert_lt by lia.
    rewrite <- app_assoc. simpl. by replace (i + S (length s))%nat with (S i + length s)%nat by lia.
Qed.

(** What a C reader finds in a filled field: the string, cut to what fits. *)
Lemma fill_field_spec f s :
  (0 < length f)%nat → (Z.of_nat (length f) ≤ 2 ^ 20)%Z →
  ∃ f', fill_field f s = Ret f' ∧ length f' = length f ∧
    (no_nul s = true → GoString f' = Ret (string_take (length f - 1) s)).
Proof.
  intros Hf Hm. unfold fill_field, copyToCChars.
  set (n := Z.min (Z.of_nat (length f) - 1) (Z.of_nat (String.length s))).
  destruct (Z.leb_spec (Z.of_nat (length f)) 0); [lia|].
  destruct (Z.ltb_spec (2 ^ 20) (n + 1)); [lia|].
  destruct (Z.ltb_spec (Z.of_nat (length f)) (n + 1)); [lia|]. cbn [orb].
  eexists. split; [reflexivity|]. pose proof (bytes_of_string_length s) as Hb.
  assert (length (take (Z.to_nat n) (bytes_of_string s)) = Z.to_nat n) as Hn.
  { rewrite length_take. lia. }
  assert (Z.to_nat n + 1 ≤ length f)%nat as Hle by lia.
  rewrite copy_chars_spec by lia. rewrite take_0, Hn. cbn [app Nat.add]. split.
  - rewrite length_insert, length_app, length_drop. lia.
  - intros Hs. rewrite insert_app_r_alt by lia. rewrite Hn, Nat.sub_diag.
    destruct (drop (Z.to_nat n) f) as [|x r] eqn:Ed.
    { apply (f_equal length) in Ed. rewrite length_drop in Ed. simpl in Ed. lia. }
    cbn [insert list_insert]. rewrite <- bytes_of_string_take.
    rewrite GoString_bytes by (by apply no_nul_take). f_equal.
    destruct (decide (String.length s ≤ length f - 1)%nat).
    + rewrite !string_take_all; [done|lia..].
    + f_equal. lia.
Qed.

(** *** The blocks of a key record *)

(** A field that was null now points to a block of its own holding [data], or
    is still null when there is none. *)
Definition owns (data : list Z) (p n : Z) (b b' : gmap Z (list Z)) : Prop :=
  (data = [] ∧ p = NULL ∧ b' = b) ∨
  (data ≠ [] ∧ p ≠ NULL ∧ n = Z.of_nat (length data) ∧ b !! p = None ∧ b' = <[p := data]> b).

Lemma fill_block_Ret data n h p' n' h' :
  heap_ok h → fill_block data NULL n h = Ret (p', n', h') →
  heap_ok h' ∧ owns data p' n' (blocks h) (blocks h').
Proof.
  intros Hh. unfold fill_block. destruct data as [|b data]; simpl.
  - intros [= <- <- <-]. split; [done|]. by left.
  - destruct (malloc_copy (b :: data) h) as [[q h1]| |] eqn:E; simpl; [|done..].
    intros [= <- <- <-]. pose proof (malloc_copy_ok _ _ _ _ Hh E) as (Hh1 & Hq & Hf).
    apply malloc_copy_Ret in E as (_ & Hb & _). split; [done|]. right. split_and!; try done. lia.
Qed.

Lemma free_block_owned data p n h b :
  owns data p n b (blocks h) → ∃ h', free_block p h = Ret (NULL, h') ∧ blocks h' = b.
Proof.
  intros [(_ & -> & Hb)|(_ & Hp & _ & Hf & Hb)]; unfold free_block; [by exists h|].
  destruct (Z.eqb_spec p NULL); [done|]. unfold free. rewrite Hb, lookup_insert_eq. simpl.
  eexists. split; [reflexivity|]. by apply delete_insert_id.
Qed.

Lemma owns_swap d1 p1 n1 d2 p2 n2 b b1 b2 :
  owns d1 p1 n1 b b1 → owns d2 p2 n2 b1 b2 →
  ∃ b', owns d2 p2 n2 b b' ∧ owns d1 p1 n1 b' b2.
Proof.
  intros [(-> & -> & ->)|(Hd1 & Hp1 & -> & Hf1 & ->)] Ho2.
  { exists b2. split; [done|by left]. }
  destruct Ho2 as [(-> & -> & ->)|(Hd2 & Hp2 & -> & [Hf2 Hne]%lookup_insert_None & ->)].
  { exists b. split; [by left|by right]. }
  exists (<[p2 := d2]> b). split; right; [done|]. split_and!; try done.
  - by rewrite lookup_insert_ne.
  - by rewrite insert_insert_ne.
Qed.

Lemma owns_lookup data p n b b' :
  owns data p n b b' → data ≠ [] → b' !! p = Some data ∧ n = Z.of_nat (length data).
Proof. intros [(-> & _)|(_ & _ & -> & _ & ->)]; [done|]. intros _. by rewrite lookup_insert_eq. Qed.

Lemma owns_keeps data p n b b' q d : owns data p n b b' → b !! q = Some d → b' !! q = Some d.
Proof.
  intros [(_ & _ & ->)|(_ & _ & _ & Hf & ->)] Hq; [done|]. rewrite lookup_insert_ne; congruence.
Qed.

(** What a filled record shows of key [k] to its reader. *)
Record shows (o : tpmcert_key_info) (k : KeyInfo) (h : Heap) : Prop := {
  shows_thumbprint : no_nul (ki_Thumbprint k) = true →
    GoString (thumbprint o) = Ret (string_take 63 (ki_Thumbprint k));
  shows_subject : no_nul (ki_Subject k) = true →
    GoString (subject o) = Ret (string_take 511 (ki_Subject k));
  shows_algorithm : no_nul (ki_KeyAlgorithm k) = true →
    GoString (key_algorithm o) = Ret (string_take 31 (ki_KeyAlgorithm k));
  shows_size : key_size o = ki_KeySize k;
  shows_der : ki_CertificateDER k ≠ [] →
    blocks h !! cert_der o = Some (ki_CertificateDER k) ∧
    cert_der_len o = Z.of_nat (length (ki_CertificateDER k));
  shows_blob : ki_RSAPublicBlob k ≠ [] →
    blocks h !! rsa_public_blob o = Some (ki_RSAPublicBlob k) ∧
    rsa_public_blob_len o = Z.of_nat (length (ki_RSAPublicBlob k));
}.

Lemma fillKeyInfo_zero k h o h' :
  heap_ok h → fillKeyInfo zero_key_info k h = Ret (o, h') →
  shows o k h' ∧ heap_ok h' ∧
  ∃ b, owns (ki_CertificateDER k) (cert_der o) (cert_der_len o) (blocks h) b ∧
       owns (ki_RSAPublicBlob k) (rsa_public_blob o) (rsa_public_blob_len o) b (blocks h').
Proof.
  intros Hh Hf. unfold fillKeyInfo in Hf.
  destruct (fill_field_spec (replicate 64 0%Z) (ki_Thumbprint k) ltac:(simpl; lia) ltac:(simpl; lia))
    as (tp & Et & _ & Ht).
  destruct (fill_field_spec (replicate 512 0%Z) (ki_Subject k) ltac:(simpl; lia) ltac:(simpl; lia))
    as (su & Es & _ & Hs).
  destruct (fill_field_spec (replicate 32 0%Z) (ki_KeyAlgorithm k) ltac:(simpl; lia) ltac:(simpl; lia))
    as (al & Ea & _ & Ha).
  change (thumbprint zero_key_info) with (replicate 64 0%Z) in Hf.
  change (subject zero_key_info) with (replicate 512 0%Z) in Hf.
  change (key_algorithm zero_key_info) with (replicate 32 0%Z) in Hf.
  rewrite Et, Es, Ea in Hf. cbv beta iota delta [mbind outcome_bind] in Hf.
  destruct (fill_block (ki_CertificateDER k) _ _ h) as [[[pd nd] h1]| |] eqn:Ed; [|done..].
  destruct (fill_block (ki_RSAPublicBlob k) _ _ h1) as [[[pb nb] h2]| |] eqn:Eb; [|done..].
  injection Hf as <- <-.
  apply fill_block_Ret in Ed as [Hh1 Hd]; [|done]. apply fill_block_Ret in Eb as [Hh2 Hb]; [|done].
  rewrite length_replicate in Ht, Hs, Ha. split_and!; [|done|by exists (blocks h1)].
  split; try done; simpl.
  - intros Hne. destruct (owns_lookup _ _ _ _ _ Hd Hne) as [Hl ->]. split; [|done].
    by eapply owns_keeps.
  - intros Hne. by destruct (owns_lookup _ _ _ _ _ Hb Hne) as [Hl ->].
Qed.

Lemma free_filled k h o h' b :
  owns (ki_CertificateDER k) (cert_der o) (cert_der_len o) (blocks h) b →
  owns (ki_RSAPublicBlob k) (rsa_public_blob o) (rsa_public_blob_len o) b (blocks h') →
  ∃ o' h'', tpmcert_free_key_info (Some o) h' = Ret (Some o', h'') ∧ blocks h'' = blocks h ∧
    cert_der o' = NULL ∧ rsa_public_blob o' = NULL.
Proof.
  intros Hd Hb. destruct (owns_swap _ _ _ _ _ _ _ _ _ Hd Hb) as (b' & Hb' & Hd').
  destruct (free_block_owned _ _ _ _ _ Hd') as (h1 & E1 & Eb1).
  rewrite <- Eb1 in Hb'. destruct (free_block_owned _ _ _ _ _ Hb') as (h2 & E2 & Eb2).
  unfold tpmcert_free_key_info. rewrite E1. cbv beta iota delta [mbind outcome_bind]. rewrite E2.
  eexists _, h2. by split_and!.
Qed.

Lemma free_nulls o h :
  cert_der o = NULL → rsa_public_blob o = NULL →
  tpmcert_free_key_info (Some o) h = Ret (Some o, h).
Proof. intros Hd Hb. unfold tpmcert_free_key_info. destruct o; simpl in *. by subst. Qed.

(** *** The lookups *)

Section exports_lemmas.
Context {I : Type} (fill : I → KeyInfo → Heap → outcome (I * Heap)).

Lemma get_installed_run keys index o p h code out p' h' :
  get_installed fill keys index (Some o) p h = Ret (code, out, p', h') →
  code ≠ codeOK ∧ out = Some o ∧ h' = h ∨
  code = codeOK ∧ ∃ c l k o', global p = Some c ∧ fst (keys c) = Ret l ∧
    (0 ≤ index)%Z ∧ l !! Z.to_nat index = Some k ∧ p' = set_global (snd (keys c)) p ∧
    fill o k h = Ret (o', h') ∧ out = Some o'.
Proof.
  unfold get_installed. destruct (global p) as [c|] eqn:Eg; [|intros [= <- <- _ <-]; by left].
  destruct (keys c) as [[l|e|] c'] eqn:Ek; [|intros [= <- <- _ <-]; by left|done].
  destruct (_ <=? _)%Z; [intros [= <- <- _ <-]; by left|].
  intros (k & [Hi Hk]%go_index_Ret & Hf)%bind_Ret_inv.
  apply bind_Ret_inv in Hf as ([o' h1] & Hf & [= <- <- <- <-]).
  right. split; [done|]. exists c, l, k, o'. by rewrite Ek.
Qed.

Lemma find_installed_run find fails tp o p h code out p' h' :
  fails ≠ codeOK →
  find_installed fill find fails tp (Some o) p h = Ret (code, out, p', h') →
  code ≠ codeOK ∧ out = Some o ∧ h' = h ∨
  code = codeOK ∧ ∃ c tp0 k o', global p = Some c ∧ tp = Some tp0 ∧
    fst (find (GoString tp0) c) = Ret (Some k) ∧ fill o k h = Ret (o', h') ∧ out = Some o'.
Proof.
  intros Hfails. unfold find_installed.
  destruct tp as [tp|]; [|intros [= <- <- _ <-]; by left].
  destruct (global p) as [c|] eqn:Eg; [|intros [= <- <- _ <-]; by left].
  destruct (find (GoString tp) c) as [[[k|]|e|] c'] eqn:Ef; [| |intros [= <- <- _ <-]; by left|done].
  - intros ([o' h1] & Hf & [= <- <- <- <-])%bind_Ret_inv. right. split; [done|].
    exists c, tp, k, o'. by rewrite Ef.
  - intros [= <- <- _ <-]. by left.
Qed.
End exports_lemmas.

(** *** Thumbprints *)

Lemma normalize_canonical s :
  hex_fingerprint s = true → normalizeThumbprint s = canonical_thumbprint s.
Proof.
  unfold hex_fingerprint, canonical_thumbprint. induction s as [|c s IH]; [done|].
  cbn [string_forall normalizeThumbprint string_filter]. intros [Hc Hs]%andb_prop.
  rewrite (IH Hs). fold (is_sep c). destruct (is_sep c); cbn [negb]; [done|].
  cbn [string_map]. f_equal. rewrite orb_false_r in Hc. revert Hc. byte_cases c.
Qed.

Lemma normalize_NormalizeThumbprint `{Unicode} s :
  hex_fingerprint s = true → normalizeThumbprint s = NormalizeThumbprint s.
Proof.
  intros Hs. rewrite normalize_canonical by done.
  by rewrite NormalizeThumbprint_printable by (by apply hex_fingerprint_printable).
Qed.

Lemma canonical_hex s : hex_fingerprint s = true → hex_fingerprint (canonical_thumbprint s) = true.
Proof.
  unfold hex_fingerprint, canonical_thumbprint. intros Hs. rewrite string_forall_map.
  apply string_forall_filter. revert Hs. apply string_forall_impl. intros c. byte_cases c.
Qed.

Lemma hex_fingerprint_no_nul s : hex_fingerprint s = true → no_nul s = true.
Proof. apply string_forall_impl. intros c. byte_cases c. Qed.

(** *** Signing *)

(** How a signature reaches the caller: its length always, its bytes when they
    fit, and nothing beyond them. *)
Record delivers (sig : list Z) (sigOut : option (list Z)) (room : Z) (r : sign_out) : Prop := {
  delivers_len : so_len r = Some (Z.of_nat (length sig));
  delivers_query : sigOut = None → so_code r = codeOK ∧ so_sig r = None;
  delivers_fits : ∀ buf, sigOut = Some buf → (Z.of_nat (length sig) ≤ room)%Z →
    so_code r = codeOK ∧
    ∃ buf', so_sig r = Some buf' ∧ length buf' = length buf ∧
      take (length sig) buf' = sig ∧ drop (length sig) buf' = drop (length sig) buf;
  delivers_small : ∀ buf, sigOut = Some buf → (room < Z.of_nat (length sig))%Z →
    so_code r = codeBufferTooSmall ∧ so_sig r = Some buf;
}.

(** The caller's side of the contract: the digest and signature buffers are as
    long as it says. *)
Definition buffers_ok (digest : list Z) (digestLen : Z) (sigOut : option (list Z)) (room : Z) : Prop :=
  (0 ≤ digestLen ≤ Z.of_nat (length digest))%Z ∧ (digestLen < 2 ^ 31)%Z ∧
  match sigOut with Some buf => (room ≤ Z.of_nat (length buf))%Z | None => True end.

Lemma sign_hash_delivers sign tp thumb digest dlen sigOut room p c sig c' :
  buffers_ok digest dlen sigOut room → global p = Some c → GoString tp = Ret thumb →
  sign thumb (take (Z.to_nat dlen) digest) c = (Ret sig, c') → (Z.of_nat (length sig) ≤ 2 ^ 30)%Z →
  ∃ r, sign_hash sign (Some tp) (Some digest) dlen sigOut (Some room) p = Ret r ∧
    delivers sig sigOut room r ∧ so_proc r = set_global c' p.
Proof.
  intros (Hd & Hd' & Hroom) Hg Ht Hs Hl. unfold sign_hash, GoBytes. rewrite Hg, to_i32_id by lia.
  destruct (Z.ltb_spec dlen 0); [lia|].
  destruct (Z.ltb_spec (Z.of_nat (length digest)) dlen); [lia|].
  cbn [orb]. cbv beta iota delta [mbind outcome_bind]. rewrite Ht, Hs. cbv zeta.
  destruct sigOut as [buf|].
  2: { eexists. split; [reflexivity|]. by split; [split|]. }
  destruct (Z.ltb_spec room (Z.of_nat (length sig))).
  { eexists. split; [reflexivity|]. split; [|done].
    by split; [done|done|intros ? [= <-]; lia|intros ? [= <-]]. }
  destruct (Z.ltb_spec (2 ^ 30) (Z.of_nat (length sig))); [lia|].
  destruct (Z.ltb_spec (Z.of_nat (length buf)) (Z.of_nat (length sig))); [lia|].
  eexists. split; [reflexivity|]. split; [|done].
  split; [done|done|intros ? [= <-] ?|intros ? [= <-] ?; lia].
  split; [done|]. eexists. split; [reflexivity|]. rewrite length_app, length_drop.
  split; [lia|]. by rewrite take_app_length, drop_app_length.
Qed.

Lemma sign_hash_fails sign tp thumb digest dlen sigOut room p c e c' :
  buffers_ok digest dlen sigOut room → global p = Some c → GoString tp = Ret thumb →
  sign thumb (take (Z.to_nat dlen) digest) c = (Fail e, c') →
  sign_hash sign (Some tp) (Some digest) dlen sigOut (Some room) p =
    Ret {| so_code := codeNotFound; so_sig := sigOut; so_len := Some room;
           so_proc := set_global c' p |}.
Proof.
  intros (Hd & Hd' & Hroom) Hg Ht Hs. unfold sign_hash, GoBytes. rewrite Hg, to_i32_id by lia.
  destruct (Z.ltb_spec dlen 0); [lia|].
  destruct (Z.ltb_spec (Z.of_nat (length digest)) dlen); [lia|].
  cbn [orb]. cbv beta iota delta [mbind outcome_bind]. by rewrite Ht, Hs.
Qed.

(** *** What holds of the global client *)

(** The global client, when there is one, satisfies [P]; a call that keeps [P]
    of its client keeps it of the process. *)
Definition of_global (P : Client → Prop) (p : Process) : Prop := ∀ c, global p = Some c → P c.

Section of_global.
Context (P : Client → Prop).
Context (new_client : ∀ k n, P {| cfg := k; conn := n; cachedList := []; cachedAt := None |}).

Lemma of_set_global c p : P c → of_global P (set_global c p).
Proof. by intros Hc ? [= <-]. Qed.

Lemma of_ShutdownGlobal p : of_global P (ShutdownGlobal p).
Proof. intros c. unfold ShutdownGlobal. destruct (global p) eqn:E; simpl; [done|by rewrite E]. Qed.

Lemma of_installed_count keys p code p' :
  (∀ c, P c → P (keys c).2) → of_global P p → installed_count keys p = Ret (code, p') →
  of_global P p'.
Proof.
  intros Hk Hp. unfold installed_count. destruct (global p) as [c|] eqn:Eg; [|by intros [= _ <-]].
  specialize (Hk c (Hp c Eg)). destruct (keys c) as [[l|e|] c']; [| |done];
    intros [= _ <-]; by apply of_set_global.
Qed.

Lemma of_get_installed {I} (fill : I → KeyInfo → Heap → outcome (I * Heap)) keys index out p h
    code out' p' h' :
  (∀ c, P c → P (keys c).2) → of_global P p →
  get_installed fill keys index out p h = Ret (code, out', p', h') → of_global P p'.
Proof.
  intros Hk Hp. unfold get_installed. destruct out as [o|]; [|by intros [= _ _ <- _]].
  destruct (global p) as [c|] eqn:Eg; [|by intros [= _ _ <- _]].
  specialize (Hk c (Hp c Eg)). apply (of_set_global _ p) in Hk.
  destruct (keys c) as [[l|e|] c']; simpl in Hk; [|by intros [= _ _ <- _]|done].
  destruct (_ <=? _)%Z; [by intros [= _ _ <- _]|].
  intros (k & _ & Hf)%bind_Ret_inv. by apply bind_Ret_inv in Hf as ([o1 h1] & _ & [= _ _ <- _]).
Qed.

Lemma of_find_installed {I} (fill : I → KeyInfo → Heap → outcome (I * Heap)) find fails tp out p h
    code out' p' h' :
  (∀ tp c, P c → P (find tp c).2) → of_global P p →
  find_installed fill find fails tp out p h = Ret (code, out', p', h') → of_global P p'.
Proof.
  intros Hk Hp. unfold find_installed. destruct out as [o|]; [|by intros [= _ _ <- _]].
  destruct tp as [tp|]; [|by intros [= _ _ <- _]].
  destruct (global p) as [c|] eqn:Eg; [|by intros [= _ _ <- _]].
  specialize (Hk (GoString tp) c (Hp c Eg)). apply (of_set_global _ p) in Hk.
  destruct (find (GoString tp) c) as [[[k|]|e|] c']; simpl in Hk;
    [|by intros [= _ _ <- _]..|done].
  by intros ([o1 h1] & _ & [= _ _ <- _])%bind_Ret_inv.
Qed.

Lemma of_sign_hash sign tp dg n sigOut room p r :
  (∀ tp d c, P c → P (sign tp d c).2) → of_global P p →
  sign_hash sign tp dg n sigOut room p = Ret r → of_global P (so_proc r).
Proof.
  intros Hk Hp. unfold sign_hash. destruct tp as [tp|]; [|by intros [= <-]].
  destruct dg as [dg|]; [|by intros [= <-]]. destruct room as [room|]; [|by intros [= <-]].
  destruct (global p) as [c|] eqn:Eg; [|by intros [= <-]].
  intros (d & _ & Hf)%bind_Ret_inv. apply bind_Ret_inv in Hf as (t & _ & Hf).
  specialize (Hk t d c (Hp c Eg)). apply (of_set_global _ p) in Hk.
  destruct (sign t d c) as [[sig|e|] c']; simpl in Hk; [|by injection Hf as <-|done].
  destruct sigOut as [buf|]; [|by injection Hf as <-].
  destruct (_ <? _)%Z; [by injection Hf as <-|]. destruct (_ || _)%bool; [done|by injection Hf as <-].
Qed.

Context `{Unicode} `{Crypto} `{FileSystem} `{Tls}.

Lemma of_InitGlobal dial k p : of_global P (InitGlobal dial k p).2.
Proof.
  intros c. unfold InitGlobal, New.
  pose proof (of_ShutdownGlobal p) as Hs. set (q := ShutdownGlobal p) in *. cbv zeta.
  destruct (wrapf "tls config" _) as [t|e|]; [|by apply Hs..].
  destruct (wrapf "grpc dial" dial) as [t'|e|]; [|by apply Hs..].
  simpl. intros [= <-]. apply new_client.
Qed.

Lemma of_init_client load dial ready p code p' :
  (∀ c p code p', of_global P p → ready c p = Ret (code, p') → of_global P p') → of_global P p →
  init_client load dial ready p = Ret (code, p') → of_global P p'.
Proof.
  intros Hready Hp. unfold init_client. destruct load as [k|e|]; [|by intros [= _ <-]|done].
  pose proof (of_InitGlobal dial k p) as Hi. destruct (InitGlobal dial k p) as [[t|e|] q]; simpl in *;
    [|by intros [= _ <-]|done].
  destruct (global q) as [c|]; [by apply Hready|by intros [= _ <-]].
Qed.

Lemma of_windows_init `{Host} dial path p code p' :
  of_global P p → Bridge_windows.tpmcert_init dial path p = Ret (code, p') → of_global P p'.
Proof.
  intros Hp (pa & _ & Hi)%bind_Ret_inv. eapply of_init_client; [|exact Hp|exact Hi].
  simpl. intros c q code' q' Hq [= _ <-]. exact Hq.
Qed.

Lemma of_linux_init `{Host} home rpc dial path p code p' :
  of_global P p → Bridge_linux.tpmcert_init home rpc dial path p = Ret (code, p') → of_global P p'.
Proof.
  intros Hp (pa & _ & Hi)%bind_Ret_inv. eapply of_init_client; [|exact Hp|exact Hi].
  intros c q code' q' Hq. cbv beta.
  destruct (Ping rpc); [by intros [= _ <-]|intros [= _ <-]; apply of_ShutdownGlobal|done].
Qed.
End of_global.

(** ** Properties *)

(** The calls that fill a record, as the providers make them: on a record they
    have cleared. *)
Inductive lookup_call `{Unicode} `{Crypto} {W} `{CertBackend W} :
    (Process → Heap → outcome (Z * option tpmcert_key_info * Process * Heap)) → Prop :=
  | windows_get (w : W) rpc now later index :
      lookup_call (Bridge_windows.tpmcert_get_installed w rpc now later index (Some zero_key_info))
  | windows_find (w : W) rpc now later tp :
      lookup_call (Bridge_windows.tpmcert_find_installed w rpc now later tp (Some zero_key_info))
  | linux_get rpc now later index :
      lookup_call (Bridge_linux.tpmcert_get_installed rpc now later index (Some zero_key_info))
  | linux_find rpc now later tp :
      lookup_call (Bridge_linux.tpmcert_find_installed rpc now later tp (Some zero_key_info)).

Lemma lookup_call_run `{Unicode} `{Crypto} {W} `{CertBackend W} call p h code out p' h' :
  lookup_call call → call p h = Ret (code, out, p', h') →
  code ≠ codeOK ∧ out = Some zero_key_info ∧ h' = h ∨
  code = codeOK ∧ ∃ k o, fillKeyInfo zero_key_info k h = Ret (o, h') ∧ out = Some o.
Proof.
  intros [w rpc now later i|w rpc now later tp|rpc now later i|rpc now later tp] Hc.
  1, 3: apply get_installed_run in Hc as [?|(? & c & l & k & o & _ & _ & _ & _ & _ & ? & ?)]; eauto 8.
  all: apply find_installed_run in Hc as [?|(? & c & t & k & o & _ & _ & _ & ? & ?)]; eauto 8; done.
Qed.

(** C34: no key lookup of a bridge leaks or corrupts C memory.  When it does not
    answer [TPMCERT_OK] it has written nothing; when it does, the record shows
    some key: NUL-terminated strings cut to their fields, and blocks holding
    exactly the key's certificate and RSA public blob.  Either way
    [tpmcert_free_key_info] leaves exactly the blocks there were before, and
    freeing a second time does nothing. *)
Theorem key_info_balanced `{Unicode} `{Crypto} {W} `{CertBackend W} call p h code out p' h' :
  lookup_call call → heap_ok h → call p h = Ret (code, out, p', h') →
  (code ≠ codeOK → out = Some zero_key_info ∧ h' = h) ∧
  (code = codeOK → ∃ o k, out = Some o ∧ shows o k h') ∧
  ∃ o' h'', tpmcert_free_key_info out h' = Ret (Some o', h'') ∧ blocks h'' = blocks h ∧
    tpmcert_free_key_info (Some o') h'' = Ret (Some o', h'').
Proof.
  intros Hl Hh [(Hne & -> & ->)|(-> & k & o & Hf & ->)]%lookup_call_run; [| |done].
  - split; [done|]. split; [done|]. exists zero_key_info, h. by rewrite !free_nulls.
  - apply fillKeyInfo_zero in Hf as (Hs & _ & b & Hd & Hb); [|done].
    split; [done|]. split; [eauto|].
    destruct (free_filled _ _ _ _ _ Hd Hb) as (o' & h'' & Hfr & Hbl & Hn1 & Hn2).
    exists o', h''. split_and!; [done..|by apply free_nulls].
Qed.

Definition sample_list_rpc : Rpc :=
  {| rpc_ListCertificates := Ret [sample_pb]; rpc_SignHash _ := Fail (Status 5 "not found") |}.
Definition sample_process : Process :=
  {| global := Some sample_client_0; open_conns := []; next_conn := 0 |}.

Lemma key_info_balanced_witness :
  let U := sample_unicode in let C := sample_crypto in
  let call := Bridge_linux.tpmcert_get_installed sample_list_rpc 0 0 0 (Some zero_key_info) in
  ∃ out p' h', call sample_process init_Heap = Ret (codeOK, out, p', h') ∧
    ∃ o' h'', tpmcert_free_key_info out h' = Ret (Some o', h'') ∧ blocks h'' = ∅.
Proof.
  intros U C call.
  destruct (call sample_process init_Heap) as [[[[code out] p'] h']| |] eqn:E.
  - assert (match call sample_process init_Heap with Ret (code, _, _, _) => code =? codeOK | _ => false end = true)%Z
      as Hc by (vm_compute; reflexivity).
    rewrite E in Hc. apply Z.eqb_eq in Hc. subst code. exists out, p', h'. split; [reflexivity|].
    destruct (proj2 (proj2 (@key_info_balanced U C _ sample_backend call sample_process init_Heap
      codeOK out p' h' (linux_get _ _ _ _) init_Heap_ok E))) as (o' & h'' & Hf & Hb & _).
    exists o', h''. split; [exact Hf|exact Hb].
  - assert (is_ret (call sample_process init_Heap) = true) as Hr by (vm_compute; reflexivity).
    rewrite E in Hr. discriminate Hr.
  - assert (is_ret (call sample_process init_Heap) = true) as Hr by (vm_compute; reflexivity).
    rewrite E in Hr. discriminate Hr.
Defined.

(** C37: a fingerprint names the same key however it is written.  Two C strings
    with the same hex digits, in any case and with colons, spaces or dashes,
    get the same answer from a lookup and ask the server for the same
    signature, through either [tpmcert] bridge; and on Linux, where the bridge has a
    normalisation of its own, the lookup answers by the client's rule. *)
Theorem bridge_fingerprint_spelling `{Unicode} `{Crypto} {W} `{CertBackend W} (w : W) rpc now later
    s1 s2 t1 t2 :
  GoString s1 = Ret t1 → GoString s2 = Ret t2 →
  hex_fingerprint t1 = true → hex_fingerprint t2 = true →
  canonical_thumbprint t1 = canonical_thumbprint t2 →
  (∀ out p h,
    Bridge_windows.tpmcert_find_installed w rpc now later (Some s1) out p h =
    Bridge_windows.tpmcert_find_installed w rpc now later (Some s2) out p h ∧
    Bridge_linux.tpmcert_find_installed rpc now later (Some s1) out p h =
    Bridge_linux.tpmcert_find_installed rpc now later (Some s2) out p h) ∧
  (∀ dg n ha pd so sl p,
    Bridge_windows.tpmcert_sign_hash w rpc now later (Some s1) dg n ha pd so sl p =
    Bridge_windows.tpmcert_sign_hash w rpc now later (Some s2) dg n ha pd so sl p ∧
    Bridge_linux.tpmcert_sign_hash rpc (Some s1) dg n ha pd so sl p =
    Bridge_linux.tpmcert_sign_hash rpc (Some s2) dg n ha pd so sl p) ∧
  (∀ c keys, fst (AllKeys rpc now later c) = Ret keys →
    Forall (λ k, hex_fingerprint (ki_Thumbprint k) = true ∧
                 canonical_thumbprint (ki_Thumbprint k) = ki_Thumbprint k) keys →
    fst (Bridge_linux.find rpc now later (Ret t1) c) =
      Ret (match find_key (NormalizeThumbprint t1) keys with Ret k => Some k | _ => None end)).
Proof.
  intros Hs1 Hs2 Ht1 Ht2 Hc.
  assert (NormalizeThumbprint t1 = NormalizeThumbprint t2) as Hn.
  { by rewrite <- !normalize_NormalizeThumbprint, !normalize_canonical by done. }
  assert (normalizeThumbprint t1 = normalizeThumbprint t2) as Hn'.
  { by rewrite !normalize_canonical. }
  split_and!.
  - intros out p h. split; unfold Bridge_windows.tpmcert_find_installed,
      Bridge_linux.tpmcert_find_installed, find_installed; rewrite Hs1, Hs2;
      destruct out as [o|]; [|done| |done]; destruct (global p) as [c|]; [|done| |done].
    + unfold Bridge_windows.find, FindInstalled. by rewrite Hn.
    + unfold Bridge_linux.find. destruct (AllKeys rpc now later c) as [[ks| |] c']; [|done..].
      cbv beta iota delta [mbind outcome_bind]. by rewrite Hn'.
  - intros dg n ha pd so sl p. split; unfold Bridge_windows.tpmcert_sign_hash,
      Bridge_linux.tpmcert_sign_hash, sign_hash; rewrite Hs1, Hs2;
      (destruct dg; [|done]); (destruct sl; [|done]); (destruct (global p); [|done]);
      (destruct (GoBytes _ _); [|done..]); cbv beta iota delta [mbind outcome_bind].
    + unfold Client_SignHash. by rewrite Hn.
    + unfold SignHashDirect. by rewrite Hn.
  - intros c keys Hk Hall. unfold Bridge_linux.find.
    destruct (AllKeys rpc now later c) as [r c']. simpl in Hk. subst r. simpl. f_equal.
    unfold find_key. rewrite <- normalize_NormalizeThumbprint by done.
    rewrite (find_first_ext _ (λ k, bool_decide (ki_Thumbprint k = normalizeThumbprint t1))).
    + by destruct (find_first _ keys).
    + apply (Forall_impl _ _ _ Hall). intros k [Hh Hk]. by rewrite normalize_canonical, Hk.
Qed.

Lemma bridge_fingerprint_spelling_witness :
  let U := sample_unicode in let C := sample_crypto in
  let s1 := bytes_of_string "aa:bB" ++ [0%Z] in let s2 := bytes_of_string "AA-BB" ++ [0; 7]%Z in
  canonical_thumbprint "aa:bB" = "AABB" ∧
  Bridge_linux.tpmcert_find_installed sample_list_rpc 0 0 (Some s1) (Some zero_key_info)
    sample_process init_Heap =
  Bridge_linux.tpmcert_find_installed sample_list_rpc 0 0 (Some s2) (Some zero_key_info)
    sample_process init_Heap.
Proof.
  intros U C s1 s2. split; [reflexivity|].
  exact (proj2 (proj1 (@bridge_fingerprint_spelling U C _ sample_backend (sample_ec_store, 0%Z)
    sample_list_rpc 0%Z 0%Z s1 s2 "aa:bB" "AA-BB" eq_refl eq_refl eq_refl eq_refl eq_refl)
    (Some zero_key_info) sample_process init_Heap)).
Defined.

Lemma set_global_same p c : global p = Some c → set_global c p = p.
Proof. destruct p. simpl. by intros ->. Qed.

Section linux_sign.
Context `{Unicode} `{Crypto} (rpc : Rpc).
Context (tp digest : list Z) (dlen ha pd room : Z) (sigOut : option (list Z)) (p : Process).

(** The one request a signing call of the Linux bridge sends. *)
Definition linux_request (thumb : string) : SignHashRequest :=
  {| req_Thumbprint := NormalizeThumbprint thumb; req_Digest := take (Z.to_nat dlen) digest;
     req_HashAlgorithm := HashAlgFromInt ha; req_RsaPadding := PaddingFromInt pd |}.

Lemma linux_sign_delivers thumb c resp :
  buffers_ok digest dlen sigOut room → GoString tp = Ret thumb → global p = Some c →
  rpc_SignHash rpc (linux_request thumb) = Ret resp →
  (Z.of_nat (length (resp_Signature resp)) ≤ 2 ^ 30)%Z →
  ∃ r, Bridge_linux.tpmcert_sign_hash rpc (Some tp) (Some digest) dlen ha pd sigOut (Some room) p = Ret r ∧
    delivers (resp_Signature resp) sigOut room r ∧ so_proc r = p.
Proof.
  intros Hb Ht Hg Hr Hl.
  destruct (sign_hash_delivers (λ tp d c, (SignHashDirect rpc tp d (HashAlgFromInt ha)
    (PaddingFromInt pd), c)) tp thumb digest dlen sigOut room p c (resp_Signature resp) c)
    as (r & Hc & Hd & Hp); try done.
  - unfold SignHashDirect. fold (linux_request thumb). by rewrite Hr.
  - exists r. by rewrite Hp, (set_global_same p c Hg).
Qed.

Lemma linux_sign_fails thumb c e :
  buffers_ok digest dlen sigOut room → GoString tp = Ret thumb → global p = Some c →
  rpc_SignHash rpc (linux_request thumb) = Fail e →
  Bridge_linux.tpmcert_sign_hash rpc (Some tp) (Some digest) dlen ha pd sigOut (Some room) p =
    Ret {| so_code := codeNotFound; so_sig := sigOut; so_len := Some room; so_proc := p |}.
Proof.
  intros Hb Ht Hg Hr. unfold Bridge_linux.tpmcert_sign_hash.
  erewrite (sign_hash_fails _ tp thumb); [|done..|].
  - by rewrite (set_global_same p c Hg).
  - unfold SignHashDirect. fold (linux_request thumb). by rewrite Hr.
Qed.
End linux_sign.

(** C36: signing through the Linux bridge keeps the contract of a C buffer
    interface.  For a caller whose buffers are as long as it says, the bridge
    sends one request, for the normalised fingerprint and exactly the first
    [digestLen] bytes of the digest; a signature comes back with its length
    always, its bytes exactly when they fit, and with not a byte of the buffer
    changed beyond it; without one nothing is written and the code is
    [TPMCERT_NOT_FOUND]; and the client is left as it was. *)
Theorem sign_buffer_protocol `{Unicode} `{Crypto} rpc tp thumb digest dlen ha pd sigOut room p c :
  buffers_ok digest dlen sigOut room → GoString tp = Ret thumb → global p = Some c →
  let req := {| req_Thumbprint := NormalizeThumbprint thumb;
                req_Digest := take (Z.to_nat dlen) digest;
                req_HashAlgorithm := HashAlgFromInt ha; req_RsaPadding := PaddingFromInt pd |} in
  let call := Bridge_linux.tpmcert_sign_hash rpc (Some tp) (Some digest) dlen ha pd sigOut
                (Some room) p in
  (∀ resp, rpc_SignHash rpc req = Ret resp →
     (Z.of_nat (length (resp_Signature resp)) ≤ 2 ^ 30)%Z →
     ∃ r, call = Ret r ∧ delivers (resp_Signature resp) sigOut room r ∧ so_proc r = p) ∧
  (∀ e, rpc_SignHash rpc req = Fail e →
     call = Ret {| so_code := codeNotFound; so_sig := sigOut; so_len := Some room; so_proc := p |}).
Proof.
  intros Hb Ht Hg req call. split.
  - intros resp Hr Hl. by eapply linux_sign_delivers.
  - intros e Hr. by eapply linux_sign_fails.
Qed.

Lemma sign_buffer_protocol_witness :
  let U := sample_unicode in let C := sample_crypto in
  ∃ r, Bridge_linux.tpmcert_sign_hash sample_rpc (Some [97; 0]%Z) (Some sample_digest) 32 1 1
         (Some [9; 9; 9]%Z) (Some 3%Z) sample_process = Ret r ∧
    delivers [1; 2]%Z (Some [9; 9; 9]%Z) 3 r.
Proof.
  intros U C.
  assert (buffers_ok sample_digest 32 (Some [9; 9; 9]%Z) 3) as Hb.
  { split; [|split]; [|done|done]. split; [done|]. vm_compute. discriminate. }
  destruct (@sign_buffer_protocol U C sample_rpc [97; 0]%Z "a" sample_digest 32%Z 1%Z 1%Z
    (Some [9; 9; 9]%Z) 3%Z sample_process sample_client_0 Hb eq_refl eq_refl) as [Ht _].
  destruct (Ht {| resp_Signature := [1; 2]%Z; resp_SignatureAlgorithm := ""; resp_RsaPadding := 1 |}
    eq_refl ltac:(done)) as (r & Hr & Hd & _).
  exists r. split; [exact Hr|exact Hd].
Defined.
