(* ===== verification/BridgeTypes.v ===== *)
(** * The types of the C interface

    What the C declarations of the bridges say of a key record, and the heap of
    [malloc], as a type of states: character arrays that are C strings, a size
    of 32 bits, two pointers that are null or point to blocks of their own of
    the length beside them.  Every exported call keeps it, in any order and on
    any record. *)

From stdpp Require Import base list gmap strings.
From Stdlib Require Import ZArith Lia Ascii.
From S2P Require Import Prelude GoStrings GoNet GoCrypto Samples CertTypes CertFileStore CertService.
From S2P Require Import TlsUtil KspClient CMem KspBridge.

(** ** Types *)

Definition is_byte (b : Z) : Prop := (0 ≤ b < 256)%Z.
Definition is_int32 (x : Z) : Prop := (- 2 ^ 31 ≤ x < 2 ^ 31)%Z.

(** [char f[n]] holding a C string. *)
Record char_array (n : nat) (f : list Z) : Prop := {
  char_length : length f = n;
  char_bytes : Forall is_byte f;
  char_nul : 0%Z ∈ f;
}.

(** A null pointer, or a block of the heap with its length. *)
Definition block_typed (h : Heap) (p n : Z) : Prop :=
  p = NULL ∨ ∃ d, blocks h !! p = Some d ∧ n = Z.of_nat (length d).

Record record_typed (h : Heap) (o : tpmcert_key_info) : Prop := {
  ty_thumbprint : char_array 64 (thumbprint o);
  ty_subject : char_array 512 (subject o);
  ty_algorithm : char_array 32 (key_algorithm o);
  ty_size : is_int32 (key_size o);
  ty_der : block_typed h (cert_der o) (cert_der_len o);
  ty_blob : block_typed h (rsa_public_blob o) (rsa_public_blob_len o);
  ty_apart : cert_der o = rsa_public_blob o → cert_der o = NULL;
}.

(** The Go side: key sizes are [int32]. *)
Definition key_typed (k : KeyInfo) : Prop := is_int32 (ki_KeySize k).
Definition rpc_typed (rpc : Rpc) : Prop :=
  ∀ l, rpc_ListCertificates rpc = Ret l → Forall (λ c, is_int32 (pb_KeySize c)) l.
Definition client_typed (c : Client) : Prop := Forall key_typed (cachedList c).

(** A host process: the bridge's global client, the heap, and the record the
    host passes. *)
Record host := { h_proc : Process; h_heap : Heap; h_record : tpmcert_key_info }.

Record host_typed (s : host) : Prop := {
  ty_client : ∀ c, global (h_proc s) = Some c → client_typed c;
  ty_heap : heap_ok (h_heap s);
  ty_record : record_typed (h_heap s) (h_record s);
}.

Section calls.
Context `{Unicode} `{Crypto} {W : Type} `{CertBackend W}.

(** What an initialisation, a lookup or a count of either bridge can be given:
    [keys] is how it obtains its keys, [find] how it looks one up. *)
Inductive key_source : (Client → outcome (list KeyInfo) * Client) → Prop :=
  | source_windows (w : W) rpc now later : rpc_typed rpc → key_source (InstalledKeys w rpc now later)
  | source_linux rpc now later : rpc_typed rpc → key_source (AllKeys rpc now later).

Inductive key_finder : (outcome string → Client → outcome (option KeyInfo) * Client) → Prop :=
  | finder_windows (w : W) rpc now later :
      rpc_typed rpc → key_finder (Bridge_windows.find w rpc now later)
  | finder_linux rpc now later : rpc_typed rpc → key_finder (Bridge_linux.find rpc now later).

(** The calls of a host, on one record it never has to clear or free: each
    exported function of either bridge, with the process, heap and record as
    the call leaves them. *)
Inductive host_step `{FileSystem} `{Tls} `{Host} : host → host → Prop :=
  | host_init_windows s dial path code p :
      Bridge_windows.tpmcert_init dial path (h_proc s) = Ret (code, p) →
      host_step s {| h_proc := p; h_heap := h_heap s; h_record := h_record s |}
  | host_init_linux s home rpc dial path code p :
      Bridge_linux.tpmcert_init home rpc dial path (h_proc s) = Ret (code, p) →
      host_step s {| h_proc := p; h_heap := h_heap s; h_record := h_record s |}
  | host_shutdown s :
      host_step s {| h_proc := ShutdownGlobal (h_proc s); h_heap := h_heap s; h_record := h_record s |}
  | host_count s keys code p :
      key_source keys → installed_count keys (h_proc s) = Ret (code, p) →
      host_step s {| h_proc := p; h_heap := h_heap s; h_record := h_record s |}
  | host_get s keys index code o p h :
      key_source keys →
      get_installed fillKeyInfo keys index (Some (h_record s)) (h_proc s) (h_heap s) =
        Ret (code, Some o, p, h) →
      host_step s {| h_proc := p; h_heap := h; h_record := o |}
  | host_find s find fails tp code o p h :
      key_finder find →
      find_installed fillKeyInfo find fails tp (Some (h_record s)) (h_proc s) (h_heap s) =
        Ret (code, Some o, p, h) →
      host_step s {| h_proc := p; h_heap := h; h_record := o |}
  | host_sign_windows s (w : W) rpc now later tp dg n ha pd sigOut room r :
      rpc_typed rpc →
      Bridge_windows.tpmcert_sign_hash w rpc now later tp dg n ha pd sigOut room (h_proc s) = Ret r →
      host_step s {| h_proc := so_proc r; h_heap := h_heap s; h_record := h_record s |}
  | host_sign_linux s rpc tp dg n ha pd sigOut room r :
      Bridge_linux.tpmcert_sign_hash rpc tp dg n ha pd sigOut room (h_proc s) = Ret r →
      host_step s {| h_proc := so_proc r; h_heap := h_heap s; h_record := h_record s |}
  | host_reload_windows s code :
      Bridge_windows.tpmcert_reload_manifest (h_proc s) = Ret code → host_step s s
  | host_reload_linux s code :
      Bridge_linux.tpmcert_reload_manifest (h_proc s) = Ret code → host_step s s
  | host_clear s :
      host_step s {| h_proc := h_proc s; h_heap := h_heap s; h_record := zero_key_info |}
  | host_free s o h :
      tpmcert_free_key_info (Some (h_record s)) (h_heap s) = Ret (Some o, h) →
      host_step s {| h_proc := h_proc s; h_heap := h; h_record := o |}.
End calls.

(** ** Lemmas *)

(** *** Characters *)

Lemma char_array_zero n : (0 < n)%nat → char_array n (replicate n 0%Z).
Proof.
  intros Hn. split; [apply length_replicate|by apply Forall_replicate|].
  destruct n; [lia|]. simpl. left.
Qed.

Lemma bytes_are_bytes s : Forall is_byte (bytes_of_string s).
Proof.
  induction s as [|c s IH]; simpl; constructor; [|done].
  unfold is_byte, code. destruct c as [[] [] [] [] [] [] [] []]; vm_compute; by split.
Qed.

Lemma fill_field_typed n f s f' :
  (0 < n)%nat → (Z.of_nat n ≤ 2 ^ 20)%Z → char_array n f → fill_field f s = Ret f' → char_array n f'.
Proof.
  intros Hn Hm [Hl Hb _]. subst n. unfold fill_field, copyToCChars.
  destruct (_ <=? 0)%Z eqn:E; [apply Z.leb_le in E; lia|].
  destruct (_ || _)%bool; [done|]. intros [= <-].
  set (n := Z.min (Z.of_nat (length f) - 1) (Z.of_nat (String.length s))).
  assert (length (take (Z.to_nat n) (bytes_of_string s)) = Z.to_nat n) as Hlen.
  { rewrite length_take, bytes_of_string_length. lia. }
  rewrite copy_chars_spec by lia. rewrite take_0. simpl.
  assert (Z.to_nat n < length f)%nat as Hlt by lia.
  set (g := take _ _ ++ drop _ f).
  assert (length g = length f) as Hg by (unfold g; rewrite length_app, length_drop; lia).
  split.
  - by rewrite length_insert.
  - apply Forall_insert; [|unfold is_byte; lia]. unfold g. apply Forall_app. split.
    + apply Forall_take, bytes_are_bytes.
    + by apply Forall_drop.
  - apply (list_elem_of_lookup_2 _ (Z.to_nat n)). apply list_lookup_insert_eq. lia.
Qed.

Lemma zero_typed h : record_typed h zero_key_info.
Proof.
  split; [apply (char_array_zero 64); lia|apply (char_array_zero 512); lia|
    apply (char_array_zero 32); lia|vm_compute; by split|by left|by left|done].
Qed.

(** *** Blocks *)

Lemma block_typed_mono h h' p n :
  (∀ q d, blocks h !! q = Some d → blocks h' !! q = Some d) → block_typed h p n → block_typed h' p n.
Proof. intros Hm [->|(d & Hd & ->)]; [by left|]. right. eauto. Qed.

(** A pointer that is filled stays typed; the heap only grows, and a pointer
    that changes points to what was not allocated before. *)
Lemma fill_block_typed data p n h p' n' h' :
  heap_ok h → block_typed h p n → fill_block data p n h = Ret (p', n', h') →
  heap_ok h' ∧ block_typed h' p' n' ∧ (∀ q d, blocks h !! q = Some d → blocks h' !! q = Some d) ∧
  (p' = p ∨ p' ≠ NULL ∧ blocks h !! p' = None).
Proof.
  intros Hh Hp. unfold fill_block. destruct (_ =? 0)%nat; [intros [= <- <- <-]; eauto|].
  intros ([q h1] & Hm & [= <- <- <-])%bind_Ret_inv.
  destruct (malloc_copy_ok _ _ _ _ Hh Hm) as (Hh1 & Hq & Hf).
  apply malloc_copy_Ret in Hm as (_ & Hb & _). split_and!; [done| | |].
  - right. exists data. by rewrite Hb, lookup_insert_eq.
  - intros r d Hr. rewrite Hb, lookup_insert_ne; congruence.
  - right. split; [lia|done].
Qed.

Lemma block_fresh h p n q : block_typed h p n → q ≠ NULL → blocks h !! q = None → p ≠ q.
Proof. intros [->|(d & Hd & _)] Hq Hf; congruence. Qed.

Lemma fillKeyInfo_typed o k h o' h' :
  heap_ok h → record_typed h o → key_typed k → fillKeyInfo o k h = Ret (o', h') →
  heap_ok h' ∧ record_typed h' o'.
Proof.
  intros Hh [Ht Hs Ha _ Hd Hb Hap] Hk. unfold fillKeyInfo.
  intros (tp & Etp & Hf)%bind_Ret_inv. apply bind_Ret_inv in Hf as (su & Esu & Hf).
  apply bind_Ret_inv in Hf as (al & Eal & Hf).
  apply bind_Ret_inv in Hf as ([[pd nd] h1] & Ed & Hf).
  apply bind_Ret_inv in Hf as ([[pb nb] h2] & Eb & [= <- <-]).
  destruct (fill_block_typed _ _ _ _ _ _ _ Hh Hd Ed) as (Hh1 & Hd1 & Hm1 & Hp1).
  pose proof (block_typed_mono _ _ _ _ Hm1 Hb) as Hb1.
  destruct (fill_block_typed _ _ _ _ _ _ _ Hh1 Hb1 Eb) as (Hh2 & Hb2 & Hm2 & Hp2).
  split; [done|]. split; simpl; try done.
  1-3: eapply fill_field_typed; [| |eassumption..]; simpl; lia.
  - by apply (block_typed_mono h1).
  - intros Heq. destruct Hp2 as [->|[Hn Hf2]].
    + destruct Hp1 as [->|[Hn Hf1]]; [by apply Hap|].
      by destruct (block_fresh _ _ _ _ Hb Hn Hf1).
    + by destruct (block_fresh _ _ _ _ Hd1 Hn Hf2).
Qed.

(** Freeing never goes wrong on a typed record. *)
Lemma free_block_typed h p n :
  heap_ok h → block_typed h p n →
  ∃ h', free_block p h = Ret (NULL, h') ∧ heap_ok h' ∧
    ∀ q d, q ≠ p → blocks h !! q = Some d → blocks h' !! q = Some d.
Proof.
  intros Hh Hp. unfold free_block. destruct (Z.eqb_spec p NULL) as [->|Hn]; [by exists h|].
  destruct Hp as [|(d & Hd & _)]; [done|]. rewrite (free_live _ _ _ Hd). simpl.
  eexists. split; [done|]. split; [by eapply free_ok; [|apply (free_live _ _ _ Hd)]|].
  intros q e Hq He. simpl. by rewrite lookup_delete_ne.
Qed.

Lemma free_typed h o :
  heap_ok h → record_typed h o →
  ∃ o' h', tpmcert_free_key_info (Some o) h = Ret (Some o', h') ∧ heap_ok h' ∧ record_typed h' o'.
Proof.
  intros Hh [Ht Hs Ha Hk Hd Hb Hap]. unfold tpmcert_free_key_info.
  destruct (free_block_typed _ _ _ Hh Hd) as (h1 & -> & Hh1 & Hm1). simpl.
  assert (block_typed h1 (rsa_public_blob o) (rsa_public_blob_len o)) as Hb1.
  { destruct (decide (rsa_public_blob o = NULL)) as [E|E]; [by left|].
    destruct Hb as [|(d & Hl & Hn)]; [done|]. right. exists d. split; [|done]. apply Hm1; [|done].
    intros E'. apply E. rewrite E'. by apply Hap. }
  destruct (free_block_typed _ _ _ Hh1 Hb1) as (h2 & -> & Hh2 & _). simpl.
  eexists _, h2. split; [done|]. split; [done|]. by split; simpl; try done; left.
Qed.

(** *** Keys *)

Section keys.
Context `{Unicode} `{Crypto}.

Lemma remote_key_typed c k : is_int32 (pb_KeySize c) → remote_key c = Ret (Some k) → key_typed k.
Proof.
  intros Hc. unfold remote_key. destruct (negb _); [done|].
  intros (i & _ & Hr)%bind_Ret_inv. by apply bind_Ret_inv in Hr as (b & _ & [= <-]).
Qed.

Lemma installed_key_typed c k : installed_key c = Ret (Some k) → key_typed k.
Proof.
  unfold installed_key. intros (b & _ & [= <-])%bind_Ret_inv. apply to_i32_range.
Qed.

(** A call that gives keys gives typed ones, and leaves a typed client. *)
Definition gives_typed {A} (P : A → Prop) (f : Client → outcome A * Client) : Prop :=
  ∀ c, client_typed c → client_typed (f c).2 ∧ ∀ a, (f c).1 = Ret a → P a.

Lemma AllKeys_typed rpc now later :
  rpc_typed rpc → gives_typed (Forall key_typed) (AllKeys rpc now later).
Proof.
  intros Hr c Hc. unfold AllKeys, refreshRemoteListLocked.
  destruct (_ && _)%bool; [by split; [|intros ? [= <-]]|].
  destruct (rpc_ListCertificates rpc) as [l|e|] eqn:El; simpl; [|done..].
  destruct (collect remote_key l) as [out|e|] eqn:Ec; simpl; [|done..].
  assert (Forall key_typed out) as Ho; [|by split; [|intros ? [= <-]]].
  apply Forall_forall. intros k Hk.
  destruct (collect_Ret_elem_of _ _ _ _ Ec Hk) as (x & Hx & Hrk).
  pose proof (Hr l El) as Hl. rewrite Forall_forall in Hl. by eapply remote_key_typed; [apply Hl|].
Qed.

Context {W : Type} `{CertBackend W}.

Lemma InstalledKeys_typed (w : W) rpc now later :
  rpc_typed rpc → gives_typed (Forall key_typed) (InstalledKeys w rpc now later).
Proof.
  intros Hr c Hc. unfold InstalledKeys.
  destruct (ListCertificatesByProvider w ProviderName_ksp) as [[|sc scs]|e|]; simpl.
  - split; [done|]. by intros ? [= <-].
  - split; [done|]. intros a Ha. apply Forall_forall. intros k Hk.
    destruct (collect_Ret_elem_of _ (sc :: scs) _ _ Ha Hk) as (x & _ & Hx).
    by eapply installed_key_typed.
  - destruct (decide _); [by apply AllKeys_typed|]. split; [done|]. by intros ? [= <-].
  - done.
Qed.

Lemma key_source_typed keys : key_source keys → gives_typed (Forall key_typed) keys.
Proof. intros [w rpc now later Hr|rpc now later Hr]; [by apply InstalledKeys_typed|by apply AllKeys_typed]. Qed.

Lemma key_finder_typed find tp :
  key_finder find → gives_typed (λ o, ∀ k, o = Some k → key_typed k) (find tp).
Proof.
  intros [w rpc now later Hr|rpc now later Hr] c Hc.
  - unfold Bridge_windows.find. destruct tp as [tp|e|]; [|done..]. unfold FindInstalled.
    destruct (InstalledKeys_typed w rpc now later Hr c Hc) as [Hc' Hk].
    destruct (InstalledKeys w rpc now later c) as [r c']; simpl in *. split; [done|].
    intros o Ho k ->. destruct r as [l|e|]; simpl in Ho; [|done..].
    destruct (find_key _ l) as [k'|e|] eqn:Ef; simpl in Ho; [|done..]. injection Ho as <-.
    apply find_key_Ret in Ef as [Hin _]. specialize (Hk l eq_refl). rewrite Forall_forall in Hk. by apply Hk.
  - unfold Bridge_linux.find. destruct (AllKeys_typed rpc now later Hr c Hc) as [Hc' Hk].
    destruct (AllKeys rpc now later c) as [r c']; simpl in *. split; [done|].
    intros o (l & -> & Ho)%bind_Ret_inv k ->. apply bind_Ret_inv in Ho as (t & _ & [= Ho]).
    apply find_first_elem_of in Ho. specialize (Hk l eq_refl). rewrite Forall_forall in Hk. by apply Hk.
Qed.
End keys.

(** *** Calls *)

Section calls_lemmas.
Context `{Unicode} `{Crypto}.

(** The global client is typed. *)
Definition proc_typed (p : Process) : Prop := of_global client_typed p.

Lemma new_client_typed k n :
  client_typed {| cfg := k; conn := n; cachedList := []; cachedAt := None |}.
Proof. constructor. Qed.

Lemma get_typed keys index o p h code o' p' h' :
  gives_typed (Forall key_typed) keys → proc_typed p → heap_ok h → record_typed h o →
  get_installed fillKeyInfo keys index (Some o) p h = Ret (code, Some o', p', h') →
  proc_typed p' ∧ heap_ok h' ∧ record_typed h' o'.
Proof.
  intros Hk Hp Hh Ho. unfold get_installed.
  destruct (global p) as [c|] eqn:Eg; [|by intros [= _ <- <- <-]].
  destruct (Hk c (Hp c Eg)) as [Hc Hl]. pose proof (of_set_global client_typed _ p Hc) as Hp'.
  destruct (keys c) as [[l|e|] c']; simpl in *; [|by intros [= _ <- <- <-]|done].
  destruct (_ <=? _)%Z; [by intros [= _ <- <- <-]|].
  intros (k & [_ Hi]%go_index_Ret & Hf)%bind_Ret_inv.
  apply bind_Ret_inv in Hf as ([o1 h1] & Hf & [= _ <- <- <-]). split; [done|].
  eapply fillKeyInfo_typed; [done..| |done]. specialize (Hl l eq_refl). rewrite Forall_forall in Hl.
  by eapply Hl, list_elem_of_lookup_2.
Qed.

Lemma find_typed find fails tp o p h code o' p' h' :
  (∀ tp, gives_typed (λ o, ∀ k, o = Some k → key_typed k) (find tp)) →
  proc_typed p → heap_ok h → record_typed h o →
  find_installed fillKeyInfo find fails tp (Some o) p h = Ret (code, Some o', p', h') →
  proc_typed p' ∧ heap_ok h' ∧ record_typed h' o'.
Proof.
  intros Hk Hp Hh Ho. unfold find_installed. destruct tp as [tp|]; [|by intros [= _ <- <- <-]].
  destruct (global p) as [c|] eqn:Eg; [|by intros [= _ <- <- <-]].
  destruct (Hk (GoString tp) c (Hp c Eg)) as [Hc Hl]. pose proof (of_set_global client_typed _ p Hc) as Hp'.
  destruct (find (GoString tp) c) as [[[k|]|e|] c']; simpl in *;
    [|by intros [= _ <- <- <-]|by intros [= _ <- <- <-]|done].
  intros ([o1 h1] & Hf & [= _ <- <- <-])%bind_Ret_inv. split; [done|].
  eapply fillKeyInfo_typed; [done..| |done]. by apply (Hl (Some k)).
Qed.

End calls_lemmas.

(** ** Property *)

(** C35: the C interface is well typed.  Whatever calls a host makes of the
    bridges, in any order, with any arguments, on one record that it clears and
    frees when it likes, the record always has its declared shape (character
    arrays of their sizes holding C strings, a 32-bit key size, pointers that
    are null or own a block of exactly the length beside them, never the same
    block) and freeing it is always defined, provided the key sizes a server
    sends are the [int32] its protocol says. *)
Theorem host_calls_well_typed `{Unicode} `{Crypto} {W} `{CertBackend W} `{FileSystem} `{Tls} `{Host} s s' :
  host_typed s → rtc host_step s s' →
  host_typed s' ∧
  ∃ o h, tpmcert_free_key_info (Some (h_record s')) (h_heap s') = Ret (Some o, h) ∧ record_typed h o.
Proof.
  intros Hs Hr. assert (host_typed s') as Hs'.
  { clear -Hs Hr. induction Hr as [s|s s1 s2 Hst _ IH]; [done|]. apply IH. clear IH.
    destruct Hs as [Hc Hh Ho]. fold (proc_typed (h_proc s)) in Hc.
    destruct Hst as [s dial path code p Hi|s home rpc dial path code p Hi|s|s keys code p Hk Hi
      |s keys index code o p h Hk Hi|s find fails tp code o p h Hk Hi
      |s w rpc now later tp dg n ha pd sigOut room r Hk Hi|s rpc tp dg n ha pd sigOut room r Hi
      |s code _|s code _|s|s o h Hi].
    - split; [|done..]. by eapply (of_windows_init _ new_client_typed).
    - split; [|done..]. by eapply (of_linux_init _ new_client_typed).
    - split; [apply of_ShutdownGlobal|done..].
    - split; [|done..]. eapply of_installed_count; [|exact Hc|exact Hi].
      intros c. apply key_source_typed, Hk.
    - destruct (get_typed keys index _ _ _ _ _ _ _ (key_source_typed _ Hk) Hc Hh Ho Hi) as (? & ? & ?).
      by split.
    - destruct (find_typed find fails tp _ _ _ _ _ _ _ (λ tp, key_finder_typed _ tp Hk) Hc Hh Ho Hi)
        as (? & ? & ?). by split.
    - split; [|done..]. eapply of_sign_hash; [|exact Hc|exact Hi].
      intros t d c Hct. cbv beta. rewrite Client_SignHash_client. by apply InstalledKeys_typed.
    - split; [|done..]. by eapply of_sign_hash; [|exact Hc|exact Hi].
    - by split.
    - by split.
    - split; [done..|]. apply zero_typed.
    - destruct (free_typed _ _ Hh Ho) as (o' & h' & E & Hh' & Ho'). rewrite E in Hi.
      injection Hi as <- <-. by split. }
  split; [done|]. destruct (free_typed _ _ (ty_heap _ Hs') (ty_record _ Hs')) as (o & h & E & _ & Ho).
  by exists o, h.
Qed.

(** A host that enumerates a key twice into the same record, without freeing
    it, and then frees it. *)
Lemma host_calls_well_typed_witness :
  let U := sample_unicode in let C := sample_crypto in let F := sample_dir in
  let T := sample_tls in let O := sample_host in let B := sample_backend in
  let s := {| h_proc := sample_process; h_heap := init_Heap; h_record := zero_key_info |} in
  ∃ s', rtc host_step s s' ∧ key_size (h_record s') = 2048%Z ∧
    (∃ o h, tpmcert_free_key_info (Some (h_record s')) (h_heap s') = Ret (Some o, h)).
Proof.
  intros U C F T O B s.
  assert (rpc_typed sample_list_rpc) as Hr.
  { intros l [= <-]. apply Forall_singleton. vm_compute. by split. }
  pose (get s := get_installed fillKeyInfo (AllKeys sample_list_rpc 0 0) 0 (Some (h_record s))
    (h_proc s) (h_heap s)).
  destruct (get s) as [[[[c1 [o1|]] p1] h1]| |] eqn:E1; [|vm_compute in E1; discriminate..].
  pose (s1 := {| h_proc := p1; h_heap := h1; h_record := o1 |}).
  assert (match get s with
          | Ret (_, Some o, p, h) =>
              match get {| h_proc := p; h_heap := h; h_record := o |} with
              | Ret (_, Some o, _, _) => (key_size o =? 2048)%Z | _ => false end
          | _ => false end = true) as Hk by (vm_compute; reflexivity).
  rewrite E1 in Hk. fold s1 in Hk.
  destruct (get s1) as [[[[c2 [o2|]] p2] h2]| |] eqn:E2; [|discriminate Hk..].
  pose (s2 := {| h_proc := p2; h_heap := h2; h_record := o2 |}).
  assert (rtc host_step s s2) as Hrun.
  { eapply rtc_l; [|eapply rtc_l; [|apply rtc_refl]].
    - eapply (host_get s); [by apply (source_linux sample_list_rpc 0 0)|exact E1].
    - eapply (host_get s1); [by apply (source_linux sample_list_rpc 0 0)|exact E2]. }
  assert (host_typed s) as Hs.
  { split; [intros c [= <-]; constructor|apply init_Heap_ok|apply zero_typed]. }
  destruct (proj2 (@host_calls_well_typed U C _ B F T O s s2 Hs Hrun)) as (o & h & Hf & _).
  exists s2. split; [exact Hrun|]. split; [by apply Z.eqb_eq|]. exists o, h. exact Hf.
Defined.
