(* ===== verification/CtkBridge.v ===== *)
(** * [internal/ctkbridge]

    The C interface of the macOS token extension.  It differs from
    [KspBridge] in its record (an issuer, no RSA blob), in keeping the text of
    the last error, in configuring the client from arguments, and in how it
    compares thumbprints and converts the algorithm numbers.  What it prints
    to standard output is left out. *)

From stdpp Require Import base list gmap strings.
From Stdlib Require Import ZArith Lia Ascii.
From S2P Require Import Prelude GoStrings GoNet GoCrypto Samples CertTypes CertFileStore CertService.
From S2P Require Import TlsUtil KspClient CMem KspBridge.

Record ctk_key_info := {
  ctk_thumbprint : list Z;
  ctk_subject : list Z;
  ctk_issuer : list Z;
  ctk_key_algorithm : list Z;
  ctk_key_size : Z;
  ctk_cert_der : Z;
  ctk_cert_der_len : Z;
}.

Definition zero_ctk_info : ctk_key_info :=
  {| ctk_thumbprint := replicate 64 0%Z; ctk_subject := replicate 512 0%Z;
     ctk_issuer := replicate 512 0%Z; ctk_key_algorithm := replicate 32 0%Z; ctk_key_size := 0;
     ctk_cert_der := NULL; ctk_cert_der_len := 0 |}.

(** The process with the bridge's package variable [lastErrorStr]. *)
Record CtkProcess := { ctk_proc : Process; lastErrorStr : string }.

Definition setLastError (msg : string) (s : CtkProcess) : CtkProcess :=
  {| ctk_proc := ctk_proc s; lastErrorStr := msg |}.

Definition ctk_bridge_last_error (s : CtkProcess) (h : Heap) : Z * Heap := CString (lastErrorStr s) h.

(** [copyToCChars] is the code of [bridge_common.go], and so is [fill_field]. *)
Definition fillCtkKeyInfo (out : ctk_key_info) (k : KeyInfo) (h : Heap)
    : outcome (ctk_key_info * Heap) :=
  tp ← fill_field (ctk_thumbprint out) (ki_Thumbprint k);
  su ← fill_field (ctk_subject out) (ki_Subject k);
  iss ← fill_field (ctk_issuer out) (ki_Issuer k);
  al ← fill_field (ctk_key_algorithm out) (ki_KeyAlgorithm k);
  '(der, der_len, h) ← fill_block (ki_CertificateDER k) (ctk_cert_der out) (ctk_cert_der_len out) h;
  Ret ({| ctk_thumbprint := tp; ctk_subject := su; ctk_issuer := iss; ctk_key_algorithm := al;
          ctk_key_size := ki_KeySize k; ctk_cert_der := der; ctk_cert_der_len := der_len |}, h).

Definition ctk_bridge_free_key_info (out : option ctk_key_info) (h : Heap)
    : outcome (option ctk_key_info * Heap) :=
  match out with
  | None => Ret (None, h)
  | Some o =>
      '(der, h) ← free_block (ctk_cert_der o) h;
      Ret (Some {| ctk_thumbprint := ctk_thumbprint o; ctk_subject := ctk_subject o;
                   ctk_issuer := ctk_issuer o; ctk_key_algorithm := ctk_key_algorithm o;
                   ctk_key_size := ctk_key_size o; ctk_cert_der := der;
                   ctk_cert_der_len := ctk_cert_der_len o |}, h)
  end.

Section bridge.
Context `{Unicode} `{Crypto} `{FileSystem} `{Tls} `{Host} {W} `{CertBackend W}.

Definition ctk_bridge_init (dial : outcome ()) (configPath : option (list Z)) (s : CtkProcess)
    : outcome (Z * CtkProcess) :=
  path ← path_argument configPath;
  match LoadConfig path with
  | Fail err => Ret (codeErr, setLastError ("load config error: " +:+ Error err) s)
  | Panic => Panic
  | Ret cfg =>
      let '(r, p) := InitGlobal dial cfg (ctk_proc s) in
      let s := {| ctk_proc := p; lastErrorStr := lastErrorStr s |} in
      match r with
      | Fail err => Ret (codeErr, setLastError ("init global error: " +:+ Error err) s)
      | Panic => Panic
      | Ret _ => Ret (codeOK, setLastError "" s)
      end
  end.

Definition ctk_bridge_init_opts (dial : outcome ()) (addr ca cert key : option (list Z))
    (s : CtkProcess) : outcome (Z * CtkProcess) :=
  match addr, ca, cert, key with
  | Some addr, Some ca, Some cert, Some key =>
      addr ← GoString addr; ca ← GoString ca; cert ← GoString cert; key ← GoString key;
      let cfg := {| Addr_ := addr; CA := ca; Cert := cert; Key := key |} in
      let '(r, p) := InitGlobal dial cfg (ctk_proc s) in
      let s := {| ctk_proc := p; lastErrorStr := lastErrorStr s |} in
      match r with
      | Fail err => Ret (codeErr, setLastError (Error err) s)
      | Panic => Panic
      | Ret _ => Ret (codeOK, setLastError "" s)
      end
  | _, _, _, _ => Ret (codeErr, setLastError "ctk_bridge_init_opts: null argument passed" s)
  end.

Definition ctk_bridge_shutdown (s : CtkProcess) : CtkProcess :=
  {| ctk_proc := ShutdownGlobal (ctk_proc s); lastErrorStr := lastErrorStr s |}.

Definition ctk_bridge_ping (rpc : Rpc) (s : CtkProcess) : outcome Z :=
  match global (ctk_proc s) with
  | None => Ret codeErr
  | Some _ => match Ping rpc with Ret _ => Ret codeOK | Fail _ => Ret codeErr | Panic => Panic end
  end.

(** The remaining functions do not touch the error text. *)
Context (w : W) (rpc : Rpc) (now later : Z).

Definition ctk_bridge_installed_count : Process → outcome (Z * Process) :=
  installed_count (InstalledKeys w rpc now later).

Definition ctk_bridge_get_installed : Z → option ctk_key_info → Process → Heap →
    outcome (Z * option ctk_key_info * Process * Heap) :=
  get_installed fillCtkKeyInfo (InstalledKeys w rpc now later).

(** The thumbprints are compared as they are. *)
Definition ctk_find (tp : outcome string) (c : Client) : outcome (option KeyInfo) * Client :=
  match tp with
  | Ret tp =>
      let '(keys, c) := InstalledKeys w rpc now later c in
      (keys ← keys; Ret (find_first (λ k, bool_decide (ki_Thumbprint k = tp)) keys), c)
  | Fail e => (Fail e, c)
  | Panic => (Panic, c)
  end.

Definition ctk_bridge_find_installed : option (list Z) → option ctk_key_info → Process → Heap →
    outcome (Z * option ctk_key_info * Process * Heap) :=
  find_installed fillCtkKeyInfo ctk_find codeNotFound.

(** The algorithm numbers go to the server as they are. *)
Definition ctk_bridge_sign_hash (tp digest : option (list Z)) (digestLen hashAlg rsaPadding : Z)
    (sigOut : option (list Z)) (sigLen : option Z) (p : Process) : outcome sign_out :=
  sign_hash (λ tp d, Client_SignHash w rpc now later tp d hashAlg rsaPadding)
    tp digest digestLen sigOut sigLen p.
End bridge.

(** ** Lemmas *)

Section lemmas.
Context `{Unicode} `{Crypto} {W} `{CertBackend W} (w : W) (rpc : Rpc) (now later : Z).

(** A lookup by a spelling that is not the normal form finds nothing. *)
Lemma ctk_find_none t c keys :
  fst (InstalledKeys w rpc now later c) = Ret keys →
  Forall (λ k, canonical_thumbprint (ki_Thumbprint k) = ki_Thumbprint k) keys →
  canonical_thumbprint t ≠ t →
  ctk_find w rpc now later (Ret t) c = (Ret None, snd (InstalledKeys w rpc now later c)).
Proof.
  intros Hk Hn Ht. unfold ctk_find. destruct (InstalledKeys w rpc now later c) as [r c'].
  simpl in *. subst r. simpl. do 2 f_equal. apply find_first_None.
  apply (Forall_impl _ _ _ Hn). intros k Hc. apply bool_decide_eq_false. congruence.
Qed.

(** Signing with any spelling of an installed key's fingerprint. *)
Lemma Client_SignHash_installed t d hash pad c keys k resp :
  printable t = true → fst (InstalledKeys w rpc now later c) = Ret keys →
  k ∈ keys → ki_Thumbprint k = NormalizeThumbprint t →
  rpc_SignHash rpc {| req_Thumbprint := NormalizeThumbprint t; req_Digest := d;
                      req_HashAlgorithm := hash; req_RsaPadding := pad |} = Ret resp →
  Client_SignHash w rpc now later t d hash pad c =
    (Ret (resp_Signature resp), snd (InstalledKeys w rpc now later c)).
Proof.
  intros Hp Hk Hin Ht Hr. rewrite Client_SignHash_run, Hk by done. simpl.
  destruct (find_key (NormalizeThumbprint t) keys) as [k'|e|] eqn:Hf; simpl.
  - by rewrite Hr.
  - apply find_key_Fail in Hf as [_ Hall]. rewrite Forall_forall in Hall. by destruct (Hall k Hin).
  - unfold find_key in Hf. by destruct (find_first _ keys).
Qed.
End lemmas.

(** ** Properties *)

(** C38: the token bridge looks keys up literally but signs by the normal form.
    For a hex fingerprint that is not written in the normal form (a lower-case
    digit, a separator), [ctk_bridge_find_installed] answers that there is no
    such key, whatever keys are installed; with the same C string
    [ctk_bridge_sign_hash] delivers the signature of the installed key it
    spells. *)
Theorem ctk_lookup_is_literal `{Unicode} `{Crypto} {W} `{CertBackend W} (w : W) rpc now later
    s t c keys p :
  GoString s = Ret t → hex_fingerprint t = true → canonical_thumbprint t ≠ t →
  global p = Some c → fst (InstalledKeys w rpc now later c) = Ret keys →
  Forall (λ k, canonical_thumbprint (ki_Thumbprint k) = ki_Thumbprint k) keys →
  let p' := set_global (snd (InstalledKeys w rpc now later c)) p in
  (∀ out h, ctk_bridge_find_installed w rpc now later (Some s) (Some out) p h =
     Ret (codeNotFound, Some out, p', h)) ∧
  (∀ k dg n hash pad so room resp,
     k ∈ keys → ki_Thumbprint k = canonical_thumbprint t → buffers_ok dg n so room →
     rpc_SignHash rpc {| req_Thumbprint := ki_Thumbprint k; req_Digest := take (Z.to_nat n) dg;
                         req_HashAlgorithm := hash; req_RsaPadding := pad |} = Ret resp →
     (Z.of_nat (length (resp_Signature resp)) ≤ 2 ^ 30)%Z →
     ∃ r, ctk_bridge_sign_hash w rpc now later (Some s) (Some dg) n hash pad so (Some room) p = Ret r ∧
       delivers (resp_Signature resp) so room r ∧ so_proc r = p').
Proof.
  intros Hs Hh Ht Hg Hk Hn p'. pose proof (hex_fingerprint_printable t Hh) as Hp. split.
  - intros out h. unfold ctk_bridge_find_installed, find_installed.
    by rewrite Hg, Hs, (ctk_find_none w rpc now later t c keys).
  - intros k dg n hash pad so room resp Hin Hkt Hb Hr Hl.
    apply (sign_hash_delivers (λ tp d, Client_SignHash w rpc now later tp d hash pad) s t dg n so room
      p c); [done..| |done].
    assert (ki_Thumbprint k = NormalizeThumbprint t) as Hkn by (by rewrite NormalizeThumbprint_printable).
    apply (Client_SignHash_installed w rpc now later t _ hash pad c keys k); [done..|].
    by rewrite <- Hkn.
Qed.

Lemma ctk_lookup_is_literal_witness :
  let U := sample_unicode in let C := sample_crypto in let B := sample_backend in
  let s := bytes_of_string "30:02:09:62:00:00:00:00:00:00:00:00:00:00:00:00:00:00:00:00" ++ [0%Z] in
  ctk_bridge_find_installed (sample_ec_store, 0%Z) sample_rpc 0 0 (Some s) (Some zero_ctk_info)
    sample_process init_Heap =
    Ret (codeNotFound, Some zero_ctk_info, sample_process, init_Heap) ∧
  ∃ r, ctk_bridge_sign_hash (sample_ec_store, 0%Z) sample_rpc 0 0 (Some s) (Some sample_digest) 32 1 1
         None (Some 0%Z) sample_process = Ret r ∧ delivers [1; 2]%Z None 0 r.
Proof.
  cbv zeta.
  assert (fst (@InstalledKeys sample_unicode sample_crypto _ sample_backend (sample_ec_store, 0%Z)
    sample_rpc 0 0 sample_client_0) = Ret sample_installed) as Hk by (vm_compute; reflexivity).
  assert (Forall (λ k, canonical_thumbprint (ki_Thumbprint k) = ki_Thumbprint k) sample_installed) as Hn.
  { apply (bool_decide_eq_true_1 (Forall _ _)). vm_compute. reflexivity. }
  pose proof (@ctk_lookup_is_literal sample_unicode sample_crypto _ sample_backend
    (sample_ec_store, 0%Z) sample_rpc 0%Z 0%Z
    (bytes_of_string "30:02:09:62:00:00:00:00:00:00:00:00:00:00:00:00:00:00:00:00" ++ [0%Z])
    "30:02:09:62:00:00:00:00:00:00:00:00:00:00:00:00:00:00:00:00" sample_client_0 sample_installed
    sample_process eq_refl eq_refl ltac:(vm_compute; discriminate) eq_refl Hk Hn) as Ht.
  cbv zeta in Ht. destruct Ht as [Hf Hs]. split.
  - rewrite Hf. vm_compute. reflexivity.
  - destruct sample_installed as [|k l] eqn:E; [vm_compute in E; discriminate E|].
    assert (ki_Thumbprint k = "3002096200000000000000000000000000000000") as Ek.
    { vm_compute in E. injection E as <- _. reflexivity. }
    destruct (Hs k sample_digest 32%Z 1%Z 1%Z None 0%Z
      {| resp_Signature := [1; 2]%Z; resp_SignatureAlgorithm := ""; resp_RsaPadding := 1 |})
      as (r & Hr & Hd & _); [left|rewrite Ek; vm_compute; reflexivity| |reflexivity|done|].
    + split; [|split]; [split; [|vm_compute]; discriminate|done|done].
    + exists r. split; [exact Hr|exact Hd].
Defined.
