(* ===== verification/KspInstall.v ===== *)
(** * [internal/kspinstall]

    Binding a certificate to the key storage provider: it is put into the
    current user's MY store with a property that names the provider and the key
    container.  [install_windows.go] is modelled over the operating system of
    [CertWindows], extended with the calls it makes; [install_stub.go] refuses.
    [Installer] is the interface its callers use. *)

From stdpp Require Import base list sets gmap strings.
From Stdlib Require Import ZArith Lia Ascii.
From S2P Require Import Prelude WinSys GoStrings GoCrypto Samples CertTypes CertFileStore.
From S2P Require Import CertService CertWindows TlsUtil KspClient.

(** ** The Windows API *)

(** [type cryptKeyProvInfo struct]; the strings are those the pointers point
    to, in UTF-16. *)
Record cryptKeyProvInfo := {
  ContainerName : list Z;
  ProvName : list Z;
  ProvType : Z;
  Flags : Z;
  CProvParam : Z;
  RgProvParam : Z;
  KeySpec : Z;
}.

Definition install_certKeyProvInfoPropID : Z := 2.
Definition certSystemStoreCurrentUser : Z := 0x10000.
Definition certStoreReadWrite : Z := 0.
Definition certStoreAddReplace : Z := 3.
Definition atKeyExchange : Z := 1.
Definition atSignature : Z := 2.

Class WinInstallApi (OS : Type) := {
  CertCreateCertificateContext : list Z → OS → outcome Z * OS;
  CertSetCertificateContextProperty : Z → Z → cryptKeyProvInfo → OS → outcome () * OS;
  CertAddCertificateContextToStore : Z → Z → Z → OS → outcome () * OS;
  (** always frees the context *)
  CertDeleteCertificateFromStore : Z → OS → outcome () * OS;
}.

(** ** [install_windows.go] *)


Definition InferKeySpec (cert : Certificate) : Z :=
  if existsb (λ u, (u =? ExtKeyUsageClientAuth) || (u =? ExtKeyUsageEmailProtection))%Z
       (ExtKeyUsage cert)
  then atSignature
  else if negb (Z.land (KeyUsage cert) KeyUsageDigitalSignature =? 0)%Z then atSignature
  else atKeyExchange.

Module Install.
Section install.
Context {OS : Type} `{WinApi OS} `{WinInstallApi OS} `{Unicode} `{Crypto}.

Definition openMyStore : M OS Z :=
  r ← sys (CertOpenStore (Z.lor certSystemStoreCurrentUser certStoreReadWrite));
  match r with
  | Ret store => _ ← emit (Acquire (RStore store)); mret store
  | Fail e => lift (Fail (Wrap "open MY store" e))
  | Panic => lift Panic
  end.

Definition closeStore (store : Z) : M OS () :=
  _ ← emit (Release (RStore store)); sys (CertCloseStore store).

Definition createCertContext (der : list Z) : M OS Z :=
  if (length der =? 0)%nat then lift (Fail (ErrNew "empty certificate DER"))
  else
    r ← sys (CertCreateCertificateContext der);
    match r with
    | Ret ctx => _ ← emit (Acquire (RCtx ctx)); mret ctx
    | Fail e => lift (Fail (Wrap "create cert context" e))
    | Panic => lift Panic
    end.

(** The context is never nil here. *)
Definition freeCertContext (ctx : Z) : M OS () :=
  _ ← emit (Release (RCtx ctx)); sys (CertFreeCertificateContext ctx).

(** [strings.ToUpper(strings.ReplaceAll(strings.TrimSpace(tp), " ", ""))]. *)
Definition container_name (tp : string) : string := ToUpper (remove_byte " " (TrimSpace tp)).

Definition BindCertificateToKSP (certDER : list Z) (thumbprint : string) : M OS () :=
  cert ← lift (wrapf "parse certificate" (x509_ParseCertificate certDER));
  let keySpec := InferKeySpec cert in
  ctx ← createCertContext certDER;
  with_defer (freeCertContext ctx)
    (container ← lift (UTF16PtrFromString (container_name thumbprint));
     provider ← lift (UTF16PtrFromString ProviderName_ksp);
     let info := {| ContainerName := container; ProvName := provider; ProvType := 0; Flags := 0;
                    CProvParam := 0; RgProvParam := 0; KeySpec := keySpec |} in
     _ ← emit (Use (RCtx ctx));
     r ← sys (CertSetCertificateContextProperty ctx install_certKeyProvInfoPropID info);
     _ ← lift (wrapf "set key prov info" r);
     store ← openMyStore;
     with_defer (closeStore store)
       (_ ← emit (Use (RStore store));
        _ ← emit (Use (RCtx ctx));
        r ← sys (CertAddCertificateContextToStore store ctx certStoreAddReplace);
        lift (wrapf "add certificate to store" r))).

Definition findCertByThumbprint (store : Z) (thumbprint : string) : M OS Z :=
  match UTF16PtrFromString (container_name thumbprint) with
  | Ret ptr =>
      _ ← emit (Use (RStore store));
      r ← sys (CertFindCertificateInStore store ptr);
      match r with
      | Ret (Some ctx) => _ ← emit (Acquire (RCtx ctx)); mret ctx
      | Ret None => lift (Fail (Wrap "certificate not found" (errno 0)))
      | Fail e => lift (Fail (Wrap "certificate not found" e))
      | Panic => lift Panic
      end
  | Fail _ => lift (Fail (ErrNew "certificate not found"))
  | Panic => lift Panic
  end.

Definition RemoveCertificateFromStore (thumbprint : string) : M OS () :=
  store ← openMyStore;
  with_defer (closeStore store)
    (ctx ← findCertByThumbprint store thumbprint;
     _ ← emit (Release (RCtx ctx));
     r ← sys (CertDeleteCertificateFromStore ctx);
     lift (wrapf "delete certificate" r)).
End install.
End Install.

(** ** [install_stub.go] *)

Module Install_stub.
Definition BindCertificateToKSP (certDER : list Z) (thumbprint : string) : outcome () :=
  Fail (ErrNew "kspinstall requires Windows").
Definition RemoveCertificateFromStore (thumbprint : string) : outcome () :=
  Fail (ErrNew "kspinstall requires Windows").
End Install_stub.

(** ** The interface *)

(** A certificate of the store, with its key provider property. *)
Record StoredCert := { st_der : list Z; st_prov : option cryptKeyProvInfo }.

(** What the callers of the package see: two operations on a world [W]. *)
Class Installer (W : Type) := {
  BindCertificateToKSP : list Z → string → W → outcome () * W;
  RemoveCertificateFromStore : string → W → outcome () * W;
}.

(** What it promises: [bindings] is the user's MY store, by SHA-1 hash.  A
    binding puts the certificate there under its hash, bound to the provider,
    replacing what was there; a removal takes out the certificate whose hash the
    thumbprint is; and a call that fails changes nothing. *)
Section installer_laws.
Context `{Unicode} `{Crypto}.

Definition hash_name (der : list Z) : string := ToUpper (hex_EncodeToString (sha1_Sum der)).

(** [provider_of container] is the property a binding writes. *)
Class InstallerLaws (W : Type) `{Installer W} (utf16 : string → outcome (list Z)) := {
  bindings : W → gmap (list Z) StoredCert;
  bind_done der tp w w' :
    BindCertificateToKSP der tp w = (Ret (), w') →
    ∃ cert container provider,
      x509_ParseCertificate der = Ret cert ∧
      utf16 (Install.container_name tp) = Ret container ∧ utf16 ProviderName_ksp = Ret provider ∧
      bindings w' = <[sha1_Sum der :=
        {| st_der := der;
           st_prov := Some {| ContainerName := container; ProvName := provider; ProvType := 0;
                              Flags := 0; CProvParam := 0; RgProvParam := 0;
                              KeySpec := InferKeySpec cert |} |}]> (bindings w);
  bind_failed der tp w e w' :
    BindCertificateToKSP der tp w = (Fail e, w') → bindings w' = bindings w;
  remove_done tp w w' :
    RemoveCertificateFromStore tp w = (Ret (), w') →
    ∃ s, bindings w !! sha1_Sum (st_der s) = Some s ∧
      utf16 (Install.container_name tp) = utf16 (hash_name (st_der s)) ∧
      bindings w' = delete (sha1_Sum (st_der s)) (bindings w);
  remove_failed tp w e w' :
    RemoveCertificateFromStore tp w = (Fail e, w') → bindings w' = bindings w;
}.
End installer_laws.

(** ** The Windows store *)

(** The user's MY store, what the live certificate contexts hold, and which
    handles are open on that store for writing. *)
Class MyStore (OS : Type) := {
  my_store : OS → gmap (list Z) StoredCert;
  ctx_cert : OS → Z → option StoredCert;
  my_handle : OS → Z → Prop;
}.

Definition same_store {OS} `{MyStore OS} (w w' : OS) : Prop := my_store w' = my_store w.

(** The documented behaviour of the calls. *)
Class MyStoreLaws (OS : Type) `{WinApi OS} `{WinInstallApi OS} `{MyStore OS} `{Unicode} `{Crypto} := {
  open_store f w r w' :
    CertOpenStore f w = (r, w') →
    same_store w w' ∧ (∀ c, ctx_cert w' c = ctx_cert w c) ∧
    (f = certSystemStoreCurrentUser → ∀ h, r = Ret h → my_handle w' h);
  close_store h w : same_store w (CertCloseStore h w).2;
  free_context c w : same_store w (CertFreeCertificateContext c w).2;
  create_context der w r w' :
    CertCreateCertificateContext der w = (r, w') →
    same_store w w' ∧ ∀ c, r = Ret c → ctx_cert w' c = Some {| st_der := der; st_prov := None |};
  set_property c info w r w' :
    CertSetCertificateContextProperty c install_certKeyProvInfoPropID info w = (r, w') →
    same_store w w' ∧ ∀ s, r = Ret () → ctx_cert w c = Some s →
      ctx_cert w' c = Some {| st_der := st_der s; st_prov := Some info |};
  add_context h c w r w' :
    CertAddCertificateContextToStore h c certStoreAddReplace w = (r, w') →
    (∀ e, r = Fail e → same_store w w') ∧
    ∀ s, r = Ret () → my_handle w h → ctx_cert w c = Some s →
      my_store w' = <[sha1_Sum (st_der s) := s]> (my_store w);
  find_context h ptr w r w' :
    CertFindCertificateInStore h ptr w = (r, w') →
    same_store w w' ∧ ∀ c, r = Ret (Some c) → my_handle w h →
      ∃ s, my_store w !! sha1_Sum (st_der s) = Some s ∧ ctx_cert w' c = Some s ∧
           UTF16PtrFromString (hash_name (st_der s)) = Ret ptr;
  delete_context c w r w' :
    CertDeleteCertificateFromStore c w = (r, w') →
    (∀ e, r = Fail e → same_store w w') ∧
    ∀ s, r = Ret () → ctx_cert w c = Some s →
      my_store w' = delete (sha1_Sum (st_der s)) (my_store w);
}.

(** ** Lemmas *)

Section effects.
Context {OS : Type} `{MyStoreLaws OS}.
Implicit Types (m : gmap (list Z) StoredCert) (w : OS).

(** What opening a store keeps true. *)
Definition stable (F : OS → Prop) : Prop :=
  ∀ w w', same_store w w' → (∀ c, ctx_cert w' c = ctx_cert w c) → F w → F w'.

Lemma openMyStore_triple F :
  stable F → triple F Install.openMyStore (λ h w, F w ∧ my_handle w h) F.
Proof.
  intros HF. unfold Install.openMyStore. eapply triple_bind.
  - apply (triple_sys _ _ (λ r w, F w ∧ ∀ h, r = Ret h → my_handle w h)).
    intros w Hw. destruct (CertOpenStore _ w) as [r w'] eqn:E. apply open_store in E as (Hs & Hc & Hh).
    simpl. split; [by apply (HF w)|]. by apply Hh.
  - intros [h|e|]; [|by apply triple_fail; intros w []|apply triple_panic].
    apply triple_emit_then, triple_mret. naive_solver.
Qed.

Lemma createCertContext_triple m der :
  triple (λ w, my_store w = m) (Install.createCertContext der)
    (λ c w, my_store w = m ∧ ctx_cert w c = Some {| st_der := der; st_prov := None |})
    (λ w, my_store w = m).
Proof.
  unfold Install.createCertContext. destruct (_ =? _)%nat; [by apply triple_fail|].
  eapply triple_bind.
  - apply (triple_sys _ _ (λ r w, my_store w = m ∧ ∀ c, r = Ret c →
      ctx_cert w c = Some {| st_der := der; st_prov := None |})).
    intros w Hw. destruct (CertCreateCertificateContext der w) as [r w'] eqn:E.
    apply create_context in E as [Hs Hc]. simpl. split; [by rewrite Hs|done].
  - intros [c|e|]; [|by apply triple_fail; intros w []|apply triple_panic].
    apply triple_emit_then, triple_mret. naive_solver.
Qed.

(** The part of the binding between the two clean-ups. *)
Lemma add_triple m h c s :
  triple (λ w, (my_store w = m ∧ ctx_cert w c = Some s) ∧ my_handle w h)
    (_ ← emit (Use (RStore h)); _ ← emit (Use (RCtx c));
     r ← sys (CertAddCertificateContextToStore h c certStoreAddReplace);
     lift (wrapf "add certificate to store" r))
    (λ _ w, my_store w = <[sha1_Sum (st_der s) := s]> m) (λ w, my_store w = m).
Proof.
  do 2 apply triple_emit_then. eapply triple_bind.
  - apply (triple_sys _ _ (λ r w, (∀ e, r = Fail e → my_store w = m) ∧
      (r = Ret () → my_store w = <[sha1_Sum (st_der s) := s]> m))).
    intros w ((Hm & Hc) & Hh). destruct (CertAddCertificateContextToStore _ _ _ w) as [r w'] eqn:E.
    apply add_context in E as [Hf Ha]. simpl. split.
    + intros e He. by rewrite <- Hm, (Hf e He).
    + intros Hr. by rewrite <- Hm, (Ha s Hr Hh Hc).
  - intros [[]|e|] w [Hf Ha]; simpl; auto. by apply (Hf e).
Qed.

Lemma find_triple m h tp :
  triple (λ w, my_store w = m ∧ my_handle w h) (Install.findCertByThumbprint h tp)
    (λ c w, my_store w = m ∧ ∃ s, m !! sha1_Sum (st_der s) = Some s ∧ ctx_cert w c = Some s ∧
       UTF16PtrFromString (hash_name (st_der s)) = UTF16PtrFromString (Install.container_name tp))
    (λ w, my_store w = m).
Proof.
  unfold Install.findCertByThumbprint.
  destruct (UTF16PtrFromString (Install.container_name tp)) as [ptr|e|] eqn:Hp;
    [|by apply triple_fail; intros w []|apply triple_panic].
  apply triple_emit_then. eapply triple_bind.
  - apply (triple_sys _ _ (λ r w, my_store w = m ∧ ∀ c, r = Ret (Some c) →
      ∃ s, m !! sha1_Sum (st_der s) = Some s ∧ ctx_cert w c = Some s ∧
           UTF16PtrFromString (hash_name (st_der s)) = Ret ptr)).
    intros w [Hm Hh]. destruct (CertFindCertificateInStore h ptr w) as [r w'] eqn:E.
    apply find_context in E as [Hs Hf]. simpl. split; [by rewrite Hs|]. intros c Hc.
    rewrite <- Hm. eauto.
  - intros [[c|]|e|]; [|by apply triple_fail; intros w []..|apply triple_panic].
    apply triple_emit_then, triple_mret. naive_solver.
Qed.

Lemma closeStore_store h w : my_store (Install.closeStore h w).1.2 = my_store w.
Proof.
  unfold Install.closeStore. rewrite bind_run. simpl. unfold sys.
  pose proof (close_store h w) as Hc. by destruct (CertCloseStore h w) as [[] ?].
Qed.

Lemma freeCertContext_store c w : my_store (Install.freeCertContext c w).1.2 = my_store w.
Proof.
  unfold Install.freeCertContext. rewrite bind_run. simpl. unfold sys.
  pose proof (free_context c w) as Hc. by destruct (CertFreeCertificateContext c w) as [[] ?].
Qed.

(** Computing on the store while a handle on it is open. *)
Lemma with_store_triple {A} (F : OS → Prop) (m : Z → M OS A) (Q : A → gmap (list Z) StoredCert → Prop)
    (st : gmap (list Z) StoredCert) :
  stable F → (∀ w, F w → my_store w = st) →
  (∀ h, triple (λ w, F w ∧ my_handle w h) (m h) (λ a w, Q a (my_store w)) (λ w, my_store w = st)) →
  triple F (h ← Install.openMyStore; with_defer (Install.closeStore h) (m h))
    (λ a w, Q a (my_store w)) (λ w, my_store w = st).
Proof.
  intros HF Hst Hm. eapply triple_bind.
  - eapply triple_conseq; [by apply (openMyStore_triple F)|done|done|done].
  - intros h. eapply triple_defer; [apply Hm|..].
    + intros a w. by rewrite closeStore_store.
    + intros w. by rewrite closeStore_store.
Qed.

(** The property a binding writes. *)
Definition binding_info (cert : Certificate) (container provider : list Z) : cryptKeyProvInfo :=
  {| ContainerName := container; ProvName := provider; ProvType := 0; Flags := 0;
     CProvParam := 0; RgProvParam := 0; KeySpec := InferKeySpec cert |}.

Definition bound (der : list Z) (tp : string) (m m' : gmap (list Z) StoredCert) : Prop :=
  ∃ cert container provider,
    x509_ParseCertificate der = Ret cert ∧
    UTF16PtrFromString (Install.container_name tp) = Ret container ∧
    UTF16PtrFromString ProviderName_ksp = Ret provider ∧
    m' = <[sha1_Sum der := {| st_der := der; st_prov := Some (binding_info cert container provider) |}]> m.

Lemma stable_ctx m c s : stable (λ w, my_store w = m ∧ ctx_cert w c = Some s).
Proof. intros w w' Hs Hc [Hm Hcs]. split; [by rewrite Hs|by rewrite Hc]. Qed.

Lemma stable_store m : stable (λ w, my_store w = m).
Proof. intros w w' Hs _ Hm. by rewrite Hs. Qed.

Lemma Bind_triple der tp m :
  triple (λ w, my_store w = m) (Install.BindCertificateToKSP der tp)
    (λ _ w, bound der tp m (my_store w)) (λ w, my_store w = m).
Proof.
  unfold Install.BindCertificateToKSP.
  apply triple_lift_then; [auto|]. intros cert Hcert%wrapf_Ret_inv.
  cbv zeta. eapply triple_bind; [apply createCertContext_triple|]. intros c.
  eapply (triple_defer _ _ _ (λ _ w, bound der tp m (my_store w)) (λ w, my_store w = m));
    [|intros a w; by rewrite freeCertContext_store|intros w; by rewrite freeCertContext_store].
  apply triple_lift_then; [naive_solver|]. intros container Hcn.
  apply triple_lift_then; [naive_solver|]. intros provider Hpr.
  fold (binding_info cert container provider). apply triple_emit_then.
  set (s := {| st_der := der; st_prov := Some (binding_info cert container provider) |}).
  apply (triple_sys_then _ _ _ (λ r w, my_store w = m ∧ (r = Ret () → ctx_cert w c = Some s))).
  { intros w [Hm Hc]. destruct (CertSetCertificateContextProperty _ _ _ w) as [r w'] eqn:E.
    apply set_property in E as [Hs Hset]. simpl. split; [by rewrite Hs|]. intros Hr.
    by apply (Hset {| st_der := der; st_prov := None |}). }
  intros r. apply triple_lift_then; [naive_solver|]. intros [] Hr%wrapf_Ret_inv.
  eapply triple_conseq.
  - apply (with_store_triple (λ w, my_store w = m ∧ ctx_cert w c = Some s) _
      (λ _ m', m' = <[sha1_Sum der := s]> m) m); [apply stable_ctx|by intros w []|].
    intros h. apply (add_triple m h c s).
  - naive_solver.
  - intros ? w Hw. by exists cert, container, provider.
  - done.
Qed.

Definition removed (tp : string) (m m' : gmap (list Z) StoredCert) : Prop :=
  ∃ s, m !! sha1_Sum (st_der s) = Some s ∧
    UTF16PtrFromString (Install.container_name tp) = UTF16PtrFromString (hash_name (st_der s)) ∧
    m' = delete (sha1_Sum (st_der s)) m.

Lemma Remove_triple tp m :
  triple (λ w, my_store w = m) (Install.RemoveCertificateFromStore tp)
    (λ _ w, removed tp m (my_store w)) (λ w, my_store w = m).
Proof.
  unfold Install.RemoveCertificateFromStore.
  apply (with_store_triple (λ w, my_store w = m) _ (λ _ m', removed tp m m') m);
    [apply stable_store|done|].
  intros h. eapply triple_bind; [apply find_triple|]. intros c. apply triple_emit_then.
  apply (triple_sys_then _ _ _ (λ r w, (∀ e, r = Fail e → my_store w = m) ∧
    (r = Ret () → removed tp m (my_store w)))).
  - intros w (Hm & s & Hs & Hc & Hu). destruct (CertDeleteCertificateFromStore c w) as [r w'] eqn:E.
    apply delete_context in E as [Hf Hd]. simpl. split.
    + intros e He. by rewrite <- Hm, (Hf e He).
    + intros Hr. exists s. by rewrite (Hd s Hr Hc), Hm.
  - intros [[]|e|] w [Hf Hd]; simpl; auto. by apply (Hf e).
Qed.
End effects.

(** *** Handles *)

Section frames.
Context {OS : Type} `{WinApi OS} `{WinInstallApi OS} `{Unicode} `{Crypto}.

Lemma frame_my_store {A} L (m : Z → M OS A) :
  (∀ h, frame (RStore h :: L) (m h) (λ _, RStore h :: L) (RStore h :: L)) →
  frame L (h ← Install.openMyStore; with_defer (Install.closeStore h) (m h)) (λ _, L) L.
Proof.
  intros Hm. apply (frame_bind _ _ _ (λ h, RStore h :: L)).
  - unfold Install.openMyStore. eapply frame_bind; [apply frame_sys|intros [h|e|]; simpl].
    + frame_step. intros w. reflexivity.
    + apply frame_fail.
    + by intros w.
  - intros h. eapply frame_defer; [apply Hm| |].
    + intros w. unfold Install.closeStore, result. rewrite bind_run. simpl. unfold sys.
      by destruct (CertCloseStore h w) as [[] ?].
    + unfold Install.closeStore. frame_step. apply frame_sys.
Qed.

Lemma frame_Remove tp : frame [] (Install.RemoveCertificateFromStore tp) (λ _, []) [].
Proof.
  unfold Install.RemoveCertificateFromStore. apply frame_my_store. intros h.
  apply (frame_bind _ _ _ (λ c, [RCtx c; RStore h])).
  - unfold Install.findCertByThumbprint. destruct (UTF16PtrFromString _); [|apply frame_fail|by intros w].
    frame_step. eapply frame_bind; [apply frame_sys|intros [[c|]|e|]; simpl];
      [|apply frame_fail..|by intros w]. frame_step. intros w. reflexivity.
  - intros c. repeat frame_step.
Qed.

Lemma frame_Bind der tp : frame [] (Install.BindCertificateToKSP der tp) (λ _, []) [].
Proof.
  unfold Install.BindCertificateToKSP. eapply frame_bind; [apply frame_lift|intros cert; cbv zeta].
  apply (frame_bind _ _ _ (λ c, [RCtx c])).
  - unfold Install.createCertContext. destruct (_ =? _)%nat; [apply frame_fail|].
    eapply frame_bind; [apply frame_sys|intros [c|e|]; simpl]; [|apply frame_fail|by intros w].
    frame_step. intros w. reflexivity.
  - intros c. eapply (frame_defer _ _ _ [RCtx c] []).
    + do 4 (frame_step; cbv zeta). eapply frame_bind; [apply frame_lift|intros []].
      apply frame_my_store. intros h. repeat frame_step.
    + intros w. unfold Install.freeCertContext, result. rewrite bind_run. simpl. unfold sys.
      by destruct (CertFreeCertificateContext c w) as [[] ?].
    + unfold Install.freeCertContext. frame_step. apply frame_sys.
Qed.
End frames.

(** *** The implementation of the interface *)

Section windows_installer.
Context {OS : Type} `{MyStoreLaws OS}.

Definition run_install (m : M OS ()) (w : OS) : outcome () * OS :=
  (Windows.outcome_of (result m w), world_after m w).

#[global] Instance windows_installer : Installer OS := {|
  BindCertificateToKSP der tp := run_install (Install.BindCertificateToKSP der tp);
  RemoveCertificateFromStore tp := run_install (Install.RemoveCertificateFromStore tp);
|}.

Lemma run_install_Ret m (w w' : OS) :
  run_install m w = (Ret (), w') → result m w = Done (Ret ()) ∧ w' = world_after m w.
Proof. unfold run_install. destruct (result m w) as [[[]| |]|]; intros [= <-]; done. Qed.

Lemma run_install_Fail m (w w' : OS) e :
  run_install m w = (Fail e, w') → result m w = Done (Fail e) ∧ w' = world_after m w.
Proof. unfold run_install. destruct (result m w) as [[| |]|]; by intros [= <- <-]. Qed.

#[global] Program Instance windows_installer_laws : InstallerLaws OS UTF16PtrFromString := {|
  bindings := my_store;
|}.
Next Obligation.
  intros der tp w w' [Hr ->]%run_install_Ret.
  by apply (proj1 (triple_run _ _ _ _ w (Bind_triple der tp (my_store w)) eq_refl)) in Hr.
Qed.
Next Obligation.
  intros der tp w e w' [Hr ->]%run_install_Fail.
  by apply (proj2 (triple_run _ _ _ _ w (Bind_triple der tp (my_store w)) eq_refl)) in Hr.
Qed.
Next Obligation.
  intros tp w w' [Hr ->]%run_install_Ret.
  by apply (proj1 (triple_run _ _ _ _ w (Remove_triple tp (my_store w)) eq_refl)) in Hr.
Qed.
Next Obligation.
  intros tp w e w' [Hr ->]%run_install_Fail.
  by apply (proj2 (triple_run _ _ _ _ w (Remove_triple tp (my_store w)) eq_refl)) in Hr.
Qed.
End windows_installer.

(** On other systems the calls refuse, and there are no bindings. *)
Section stub_installer.
Context `{Unicode} `{Crypto} {W : Type}.

Definition stub_installer : Installer W := {|
  BindCertificateToKSP der tp w := (Install_stub.BindCertificateToKSP der tp, w);
  RemoveCertificateFromStore tp w := (Install_stub.RemoveCertificateFromStore tp, w);
|}.

#[program] Definition stub_installer_laws utf16 : @InstallerLaws _ _ W stub_installer utf16 := {|
  bindings _ := ∅;
|}.
Next Obligation. done. Qed.
Next Obligation. done. Qed.
Next Obligation. done. Qed.
Next Obligation. done. Qed.
End stub_installer.

(** ** A concrete store *)

Record WinStore := {
  ws_store : gmap (list Z) StoredCert;
  ws_ctx : gmap Z StoredCert;
  ws_next : Z;
}.

Definition ws_new (s : StoredCert) (w : WinStore) : Z * WinStore :=
  (ws_next w, {| ws_store := ws_store w; ws_ctx := <[ws_next w := s]> (ws_ctx w);
                 ws_next := ws_next w + 1 |}).

Definition ws_error : error := Foreign CRYPT_E_NOT_FOUND "not found".

Definition ws_named (ptr : list Z) (e : list Z * StoredCert) : bool :=
  let U := sample_unicode in let C := sample_crypto in
  bool_decide (e.1 = sha1_Sum (st_der e.2)) &&
  bool_decide (bytes_of_string (hash_name (st_der e.2)) = ptr).

Definition sample_win_store : WinApi WinStore := {|
  CertOpenStore flags w := (Ret flags, w);
  CertCloseStore _ w := ((), w);
  CertEnumCertificatesInStore _ _ w := (Ret None, w);
  CertFindCertificateInStore h ptr w :=
    match find_first (ws_named ptr) (map_to_list (ws_store w)) with
    | Some e => let '(c, w) := ws_new e.2 w in (Ret (Some c), w)
    | None => (Fail ws_error, w)
    end;
  CertFreeCertificateContext _ w := ((), w);
  cert_context _ w := ((None, 0%Z), w);
  CertGetCertificateContextProperty _ _ _ w := ((0, [], 0)%Z, w);
  cryptKeyProvInfo_ProvName _ := None;
  CryptAcquireCertificatePrivateKey _ w := (((0, 0, 0)%Z, false), w);
  NCryptGetProperty _ _ _ w := ((1, [], 0)%Z, w);
  NCryptSignHash _ _ _ _ _ w := ((1, [], 0)%Z, w);
  NCryptFreeObject _ w := ((), w);
  UTF16ToString := string_of_bytes;
  UTF16PtrFromString s := Ret (bytes_of_string s);
  Errno_Error := Itoa;
  asn1_two_integers r s := Ret [48; r; s]%Z;
  enum_left _ _ _ := O;
|}.

Definition sample_install_api : WinInstallApi WinStore := {|
  CertCreateCertificateContext der w :=
    let '(c, w) := ws_new {| st_der := der; st_prov := None |} w in (Ret c, w);
  CertSetCertificateContextProperty c _ info w :=
    match ws_ctx w !! c with
    | Some s => (Ret (), {| ws_store := ws_store w;
        ws_ctx := <[c := {| st_der := st_der s; st_prov := Some info |}]> (ws_ctx w);
        ws_next := ws_next w |})
    | None => (Fail ws_error, w)
    end;
  CertAddCertificateContextToStore _ c _ w :=
    match ws_ctx w !! c with
    | Some s => (Ret (), {| ws_store := <[@sha1_Sum sample_crypto (st_der s) := s]> (ws_store w);
                            ws_ctx := ws_ctx w; ws_next := ws_next w |})
    | None => (Fail ws_error, w)
    end;
  CertDeleteCertificateFromStore c w :=
    match ws_ctx w !! c with
    | Some s => (Ret (), {| ws_store := delete (@sha1_Sum sample_crypto (st_der s)) (ws_store w);
                            ws_ctx := ws_ctx w; ws_next := ws_next w |})
    | None => (Fail ws_error, w)
    end;
|}.

Definition sample_my_store : MyStore WinStore := {|
  my_store := ws_store;
  ctx_cert w c := ws_ctx w !! c;
  my_handle _ h := h = certSystemStoreCurrentUser;
|}.

Lemma sample_my_store_laws :
  @MyStoreLaws WinStore sample_win_store sample_install_api sample_my_store sample_unicode sample_crypto.
Proof.
  split; unfold same_store; simpl.
  - intros f w r w' [= <- <-]. split; [done|]. split; [done|]. by intros -> h [= <-].
  - done.
  - done.
  - intros der w r w' [= <- <-]. split; [done|]. intros c [= <-]. apply lookup_insert_eq.
  - intros c info w r w'. destruct (ws_ctx w !! c) as [s|] eqn:E; intros [= <- <-]; split; try done.
    intros s' _ [= ->]. simpl. apply lookup_insert_eq.
  - intros h c w r w'. destruct (ws_ctx w !! c) as [s|] eqn:E; intros [= <- <-]; split; try done.
    by intros s' _ _ [= ->].
  - intros h ptr w r w'. destruct (find_first _ _) as [[k s]|] eqn:E; intros [= <- <-]; split; try done.
    intros c [= <-] _. exists s. pose proof (find_first_true _ _ _ E) as Ht.
    apply find_first_elem_of, elem_of_map_to_list in E. unfold ws_named in Ht.
    apply andb_prop in Ht as [Hk%bool_decide_eq_true Hp%bool_decide_eq_true]. simpl in *. subst k.
    split; [done|]. split; [apply lookup_insert_eq|]. by rewrite Hp.
  - intros c w r w'. destruct (ws_ctx w !! c) as [s|] eqn:E; intros [= <- <-]; split; try done.
    by intros s' _ [= ->].
Qed.

(** ** Properties *)

(** C14: installing and removing certificates on Windows implements the
    abstract store of bindings.  A successful [BindCertificateToKSP] puts the
    certificate under its hash, bound to the provider with the thumbprint as
    container and the key spec its usage asks for, and changes nothing else; a
    successful [RemoveCertificateFromStore] takes out exactly the certificate
    whose SHA-1 hash the thumbprint spells; a failure of either leaves the
    store as it was; and whatever happens every store handle and certificate
    context is released exactly once. *)
Theorem install_refines_bindings {OS} `{MyStoreLaws OS} (w : OS) der tp :
  let bind := Install.BindCertificateToKSP der tp in
  let remove := Install.RemoveCertificateFromStore tp in
  (result bind w = Done (Ret ()) → bound der tp (my_store w) (my_store (world_after bind w))) ∧
  (result remove w = Done (Ret ()) → removed tp (my_store w) (my_store (world_after remove w))) ∧
  ∀ m, m = bind ∨ m = remove →
    (∀ e, result m w = Done (Fail e) → my_store (world_after m w) = my_store w) ∧
    (∀ o, result m w = Done o → o ≠ Panic → track [] (trace m w) = Some []).
Proof.
  intros bind remove.
  pose proof (triple_run _ _ _ _ w (Bind_triple der tp (my_store w)) eq_refl) as [Hb Hbf].
  pose proof (triple_run _ _ _ _ w (Remove_triple tp (my_store w)) eq_refl) as [Hr Hrf].
  split; [apply Hb|]. split; [apply Hr|].
  intros m [-> | ->]; (split; [assumption|]); intros o Ho Hp.
  - pose proof (frame_Bind der tp w) as Hf. fold bind in Hf. rewrite Ho in Hf. by destruct o.
  - pose proof (frame_Remove tp w) as Hf. fold remove in Hf. rewrite Ho in Hf. by destruct o.
Qed.

Lemma install_refines_bindings_witness :
  let A := sample_win_store in let I := sample_install_api in let S := sample_my_store in
  let U := sample_unicode in let C := sample_crypto in
  let w := {| ws_store := ∅; ws_ctx := ∅; ws_next := 1 |} in
  let m := Install.BindCertificateToKSP [48; 2; 9; 98]%Z "3002 0962" in
  result m w = Done (Ret ()) ∧ bound [48; 2; 9; 98]%Z "3002 0962" ∅ (my_store (world_after m w)) ∧
  my_store (world_after (Install.RemoveCertificateFromStore
    "3002096200000000000000000000000000000000") (world_after m w)) !! sha1_Sum [48; 2; 9; 98]%Z = None.
Proof.
  intros A I S U C w m. assert (result m w = Done (Ret ())) as Hm by (vm_compute; reflexivity).
  split; [exact Hm|]. split.
  - exact (proj1 (@install_refines_bindings WinStore A I S U C sample_my_store_laws w
      [48; 2; 9; 98]%Z "3002 0962") Hm).
  - vm_compute. reflexivity.
Defined.
