(* ===== verification/InstallCert.v ===== *)
(** * [cmd/ksp-install-cert]

    The command that binds a server's certificate to the key storage provider:
    it asks for the server (typed or discovered), saves the configuration, lists
    the server's certificates, asks for one, and installs it.  With other flags
    it lists or removes what is installed. *)

From stdpp Require Import base list sets gmap strings.
From Stdlib Require Import ZArith Lia Ascii.
From S2P Require Import Prelude WinSys GoStrings GoNet GoText GoCrypto Samples CertTypes CertFileStore.
From S2P Require Import CertService CertWindows Discovery DiscoveryClient TlsUtil KspClient ClientWorld.
From S2P Require Import Console SignTest ExampleClient KspInstall.

Record install_flags := {
  in_addr : string;
  in_ca : string;
  in_cert : string;
  in_key : string;
  in_configOut : string;
  in_list : bool;
  in_remove : string;
}.

Section install_cert.
Context {W : Type} `{Unicode} `{Crypto} `{Tls} `{NetText} `{Json} `{Host}.
Context `{Grpc W} `{Disk W} `{Network W} `{Lan W} `{Installer W} `{CertBackend W}.

Definition describe_installed (c : CertificateInfo) : M (Tty W) () :=
  _ ← println ("  " +:+ Thumbprint c +:+ nl +:+ "    subject: " +:+ Subject c +:+ nl +:+
               "    issuer:  " +:+ Issuer c +:+ nl +:+ "    key:     " +:+ KeyAlgorithm c +:+ " " +:+
               Itoa (KeySize c) +:+ "-bit");
  if negb (IsZero (NotAfter c))
  then println ("    expires: " +:+ Format_second (NotAfter c) +:+ " UTC") else mret ().

Fixpoint describe_all (certs : list CertificateInfo) : M (Tty W) () :=
  match certs with
  | [] => mret ()
  | c :: certs => _ ← describe_installed c; describe_all certs
  end.

Definition listInstalled : M (Tty W) () :=
  certs ← on_sys (with_store (λ w, ListCertificatesByProvider w ProviderName_ksp));
  if (length certs =? 0)%nat then println "No installed certificate bindings."
  else _ ← println "Installed certificate bindings:"; describe_all certs.

Definition uninstall (thumbprint : string) : M (Tty W) () :=
  let tp := NormalizeThumbprint thumbprint in
  _ ← call (RemoveCertificateFromStore tp);
  println ("Removed certificate binding: " +:+ tp).

Definition describe_server (s : DiscoveredServer) : string :=
  ds_Hostname s +:+ " (" +:+ ds_GRPCAddr s +:+ ") version " +:+ ds_Version s.

(** The address of a discovered server. *)
Definition server_host_port (s : DiscoveredServer) : string * string :=
  let '(host, port) :=
    match SplitHostPort (ds_GRPCAddr s) with
    | Ret hp => hp
    | _ => (ds_SourceIP s, default_port)
    end in
  (if bool_decide (host = "") then ds_SourceIP s else host, port).

(** The loop that asks for the server, without and with an answer from the
    network. *)
Fixpoint ask_loop (fuel : nat) (r : Reader) : M (Tty W) string :=
  match fuel with
  | O => λ t, (Cut, t, [])
  | S fuel =>
      _ ← print "Enter server address (IP/hostname:port) or press Enter to discover: ";
      lr ← must_read r;
      let input := TrimSpace lr.1 in
      if bool_decide (input = "") then
        _ ← println "Discovering servers on local network...";
        found ← try (on_sys (discover (3 * Second)));
        match found with
        | Panic => lift Panic
        | Fail e => _ ← println ("Discovery failed: " +:+ Error e); ask_loop fuel lr.2
        | Ret [] =>
            _ ← println "No servers discovered. Please enter address manually."; ask_loop fuel lr.2
        | Ret servers =>
            _ ← println "Discovered servers:";
            _ ← print_list describe_server 1 servers;
            nr ← choose "Select server (1-" (Z.of_nat (length servers)) lr.2;
            selected ← pick servers nr.1;
            let '(host, port) := server_host_port selected in
            resolvedAddr ← on_sys (resolveOrTestHostname host port (ds_Hostname selected));
            _ ← println ("Selected server: " +:+ resolvedAddr);
            mret resolvedAddr
        end
      else
        let '(host, port) := typed_host_port input in
        resolvedAddr ← on_sys (resolveOrTestHostname host port "");
        _ ← println ("Using server: " +:+ resolvedAddr);
        mret resolvedAddr
  end.

(** Every turn reads a line. *)
Definition ask_address : M (Tty W) string := λ t,
  ask_loop (S (String.length (pending NewReader t))) NewReader t.

Definition resolve_flag (addr : string) : M (Tty W) string :=
  if bool_decide (addr = "") then ask_address
  else
    let '(host, port) := typed_host_port addr in on_sys (resolveOrTestHostname host port "").

Definition save_flag (f : install_flags) (cfg : KspConfig) : M (Tty W) KspConfig :=
  if negb (bool_decide (in_configOut f = "")) then
    r ← try (on_sys (save_config cfg (in_configOut f)));
    cfg ← lift (wrapf "save config" r);
    _ ← println ("Wrote config: " +:+ in_configOut f);
    mret cfg
  else
    path ← on_sys (with_files (λ fs, ConfigPath));
    r ← try (on_sys (save_config cfg path));
    lift (wrapf "save config" r).

Definition describe_remote (c : PbCertificateInfo) : string :=
  pb_Thumbprint c +:+ nl +:+ "      subject: " +:+ pb_Subject c +:+ nl +:+
  "      key: " +:+ pb_KeyAlgorithm c +:+ " " +:+ Itoa (pb_KeySize c) +:+ "-bit".

(** [main] once the connection is made: the second reader. *)
Definition install_from (conn : Z) : M (Tty W) () :=
  certs ← call (call_ListCertificates conn);
  if (length certs =? 0)%nat then lift (Fail (ErrNew "no certificates with private keys found"))
  else
    _ ← println "Available remote certificates:";
    _ ← print_list describe_remote 1 certs;
    nr ← readChoice NewReader (Z.of_nat (length certs));
    selected ← pick certs nr.1;
    if (length (pb_CertificateDer selected) =? 0)%nat
    then lift (Fail (ErrNew "server did not return certificate DER for selected cert"))
    else
      let tp := NormalizeThumbprint (pb_Thumbprint selected) in
      _ ← call (BindCertificateToKSP (pb_CertificateDer selected) tp);
      print_lines
        [""; "Installed certificate into Current User\MY"; "  thumbprint: " +:+ tp;
         "  subject:    " +:+ pb_Subject selected; "  provider:   " +:+ ProviderName_ksp;
         "  container:  " +:+ tp].

Definition install_main (f : install_flags) : M (Tty W) () :=
  resolvedAddr ← resolve_flag (in_addr f);
  cfg ← save_flag f {| Addr_ := resolvedAddr; CA := in_ca f; Cert := in_cert f; Key := in_key f |};
  tlsConfig ← on_sys (with_files (λ fs,
    LoadClientTLSConfig (CA cfg) (Cert cfg) (Key cfg) (hostFromAddr (Addr_ cfg))));
  tlsConfig ← lift tlsConfig;
  conn ← call (grpc_NewClient (Addr_ cfg) tlsConfig);
  _ ← emit (Acquire (RConn conn));
  on_return (_ ← emit (Release (RConn conn)); on_sys (sys (grpc_Close conn))) (install_from conn).

Definition main (f : install_flags) : M (Tty W) () :=
  if in_list f then listInstalled
  else if negb (bool_decide (in_remove f = "")) then uninstall (in_remove f)
  else install_main f.
End install_cert.

(** ** Lemmas *)

Section input_proofs.
Context {W : Type} `{Unicode} `{Crypto} `{Tls} `{NetText} `{Json} `{Host}.
Context `{Grpc W} `{Disk W} `{Network W} `{Lan W} `{Installer W} `{CertBackend W}.

(** Step over a part of a program that leaves the input alone. *)
Ltac input_step :=
  lazymatch goal with
  | |- triple _ (match ?x with _ => _ end) _ _ => destruct x
  | |- triple _ (lift _) _ _ => apply input_lift
  | |- triple _ (print _) _ _ => apply input_print
  | |- triple _ (println _) _ _ => apply input_print
  | |- triple _ (on_sys _) _ _ => apply input_on_sys
  | |- triple _ (mret _) _ _ => by apply triple_mret
  | |- triple _ (print _ ≫= _) _ _ => eapply triple_bind; [apply input_print|intros []]
  | |- triple _ (println _ ≫= _) _ _ => eapply triple_bind; [apply input_print|intros []]
  | |- triple _ (on_sys _ ≫= _) _ _ => eapply triple_bind; [apply input_on_sys|intros ?]
  | |- triple _ (call _ ≫= _) _ _ => eapply triple_bind; [apply input_call|intros ?]
  | |- triple _ (lift _ ≫= _) _ _ => eapply triple_bind; [apply input_lift|intros ?]
  | |- triple _ (must_read _ ≫= _) _ _ => eapply triple_bind; [apply input_must_read|intros ?]
  | |- triple _ (choose _ _ _ ≫= _) _ _ => eapply triple_bind; [apply input_choose|intros ?]
  | |- triple _ (pick _ _ ≫= _) _ _ => eapply triple_bind; [apply input_lift|intros ?]
  | |- triple _ (try (on_sys _) ≫= _) _ _ =>
      eapply triple_bind; [apply input_try, on_sys_input|intros ?]
  end.

Lemma input_print_list {A} cs (g : A → string) i l :
  triple (OS := Tty W) (input_is cs) (print_list g i l) (λ _, input_is cs) (λ _, True).
Proof.
  revert i. induction l as [|x l IH]; intros i; simpl; [by apply triple_mret|]. input_step. apply IH.
Qed.

Ltac print_list_step := eapply triple_bind; [apply input_print_list|intros []].

Lemma input_ask_turn cs fuel r :
  (∀ r, triple (OS := Tty W) (input_is []) (ask_loop fuel r) (λ _, input_is []) (λ _, True)) →
  triple (OS := Tty W) (input_is cs) (must_read r) (λ _, input_is []) (λ _, True) →
  triple (OS := Tty W) (input_is cs) (ask_loop (S fuel) r) (λ _, input_is []) (λ _, True).
Proof.
  intros IH Hr. cbn [ask_loop]. input_step. eapply triple_bind; [exact Hr|]. intros lr. cbv zeta.
  case_bool_decide.
  - input_step. input_step. destruct a as [[|s servers]|e|].
    + input_step. apply IH.
    + input_step. print_list_step. input_step. input_step.
      destruct (server_host_port a0) as [host port]. repeat input_step.
    + input_step. apply IH.
    + apply triple_panic.
  - destruct (typed_host_port _) as [host port]. repeat input_step.
Qed.

Lemma input_ask_loop fuel r :
  triple (OS := Tty W) (input_is []) (ask_loop fuel r) (λ _, input_is []) (λ _, True).
Proof.
  revert r. induction fuel as [|fuel IH]; intros r; [by intros t|].
  apply input_ask_turn; [done|apply input_must_read].
Qed.

Lemma input_ask_address c :
  triple (OS := Tty W) (input_is [c]) ask_address (λ _, input_is []) (λ _, True).
Proof. intros t. apply input_ask_turn; [apply input_ask_loop|apply input_must_read_first]. Qed.

Lemma input_install_from conn :
  triple (OS := Tty W) (input_is []) (install_from conn) (λ _ _, False) (λ _, True).
Proof.
  unfold install_from. input_step. destruct (_ =? _)%nat; [by apply triple_fail|].
  input_step. print_list_step. eapply triple_bind; [apply input_choose_lost|]. by intros nr t [].
Qed.

Lemma input_install_main f c :
  in_addr f = "" →
  triple (OS := Tty W) (input_is [c]) (install_main f) (λ _ _, False) (λ _, True).
Proof.
  intros Ha. unfold install_main, resolve_flag. rewrite bool_decide_eq_true_2 by done.
  eapply triple_bind; [apply input_ask_address|]. intros addr.
  apply (triple_bind _ _ _ (λ _, input_is [])); [unfold save_flag; case_bool_decide; simpl; repeat input_step|].
  intros cfg. do 3 input_step. apply triple_emit_then.
  eapply triple_bind; [apply input_install_from|]. by intros [] t [].
Qed.
End input_proofs.

(** ** Properties *)

(** C20: without [-addr] the command cannot be driven by a pipe.  The prompt for
    the server's address and the prompt for the certificate read standard input
    through two different buffered readers, and the first keeps what it has taken
    beyond its line: when no address is given as a flag and the whole input
    arrives in one read, the command never succeeds in installing a certificate,
    whatever the input, the network and the other flags are.  (With [-addr] there
    is one reader only, and a pipe installs: the witness has such a run.) *)
Theorem piped_input_never_installs {W} `{Unicode} `{Crypto} `{Tls} `{NetText} `{Json} `{Host}
    `{Grpc W} `{Disk W} `{Network W} `{Lan W} `{Installer W} `{CertBackend W}
    (f : install_flags) (input : string) (t : Tty W) :
  tty_in t = [input] → in_addr f = "" → in_list f = false → in_remove f = "" →
  result (main f) t ≠ Done (Ret ()).
Proof.
  intros Hin Ha Hl Hr Hok. unfold main in Hok. rewrite Hl, Hr in Hok. simpl in Hok.
  exact (proj1 (triple_run _ _ _ _ t (input_install_main f input Ha) Hin) () Hok).
Qed.

Definition sample_install_flags : install_flags :=
  {| in_addr := ""; in_ca := "tls/ca.pem"; in_cert := "tls/cert.pem"; in_key := "tls/key.pem";
     in_configOut := ""; in_list := false; in_remove := "" |}.
Definition sample_tty_of (chunks : list string) : Tty WinStore :=
  Build_Tty chunks "" {| ws_store := ∅; ws_ctx := ∅; ws_next := 1 |}.
Definition empty_backend {W} : CertBackend W := {|
  ListCertificates _ := Ret [];
  ListCertificatesByProvider _ _ := Ret [];
  SignHash _ _ _ _ _ := Fail ErrCertificateNotFound;
|}.

(** The same two lines: in one read nothing is installed, in two reads the
    certificate is; and it is from a pipe when the address is a flag. *)
Lemma piped_input_never_installs_witness :
  let U := sample_unicode in let C := sample_crypto in let T := sample_tls in
  let N := sample_net in let J := sample_json in let O := sample_client_host in
  let G := @sample_grpc WinStore in let D := @sample_disk WinStore sample_tls_files in
  let NW := @sample_network WinStore in let L := @sample_lan WinStore in
  let A := sample_win_store in let I := sample_install_api in let IN := windows_installer in
  let B := @empty_backend WinStore in
  let piped := sample_tty_of ["server:1" +:+ nl +:+ "1" +:+ nl] in
  let typed := sample_tty_of ["server:1" +:+ nl; "1" +:+ nl] in
  let piped_choice := sample_tty_of ["x" +:+ nl +:+ "1" +:+ nl] in
  let with_addr := {| in_addr := "server:1"; in_ca := "tls/ca.pem"; in_cert := "tls/cert.pem";
                      in_key := "tls/key.pem"; in_configOut := ""; in_list := false; in_remove := "" |} in
  result (main sample_install_flags) piped ≠ Done (Ret ()) ∧
  result (main sample_install_flags) typed = Done (Ret ()) ∧
  is_Some (ws_store (tty_sys (world_after (main sample_install_flags) typed)) !! sha1_Sum [48; 2; 9; 98]%Z) ∧
  result (main with_addr) piped_choice = Done (Ret ()).
Proof.
  intros U C T N J O G D NW L A I IN B piped typed piped_choice with_addr. split_and!.
  - exact (@piped_input_never_installs WinStore U C T N J O G D NW L IN B sample_install_flags
      _ piped eq_refl eq_refl eq_refl eq_refl).
  - vm_compute. reflexivity.
  - vm_compute. by eexists.
  - vm_compute. reflexivity.
Defined.
