(* ===== verification/InstallerApi.v ===== *)
(** * [cmd/ksp-install-ui]: the functions behind the installer's window

    [api.go] and the file dialog of [filedialog_windows.go].  The window calls
    one function at a time; each is a computation over a world with a network,
    a disk, a clock, the certificate store and the installer of [kspinstall]. *)

From stdpp Require Import base list sets gmap strings.
From Stdlib Require Import ZArith Lia Ascii.
From S2P Require Import Prelude WinSys GoStrings GoNet GoText GoCrypto Samples CertTypes CertFileStore.
From S2P Require Import CertService CertWindows Discovery DiscoveryClient TlsUtil KspClient ClientWorld.
From S2P Require Import Console KspInstall.

(** ** Data *)

Record ServerInfo := {
  si_Hostname : string;
  si_GRPCAddr : string;
  si_Version : string;
  si_SourceIP : string;
  si_LatencyMs : Z;
}.

Record ConfigData := {
  cd_Addr : string;
  cd_CA : string;
  cd_Cert : string;
  cd_Key : string;
  cd_ConfigPath : string;
}.

(** [None] is a nil slice. *)
Record CertificateItem := {
  it_Thumbprint : string;
  it_Subject : string;
  it_Issuer : string;
  it_KeyAlgorithm : string;
  it_KeySize : Z;
  it_NotBefore : string;
  it_NotAfter : string;
  it_IsExpired : bool;
  it_DaysRemaining : Z;
  it_SANs : option (list string);
  it_KeyUsage : option (list string);
  it_IsInstalled : bool;
}.

Record InstalledItem := {
  ii_Thumbprint : string;
  ii_Subject : string;
  ii_Issuer : string;
  ii_NotAfter : string;
  ii_Provider : string;
  ii_Container : string;
  ii_KeyAlgorithm : string;
  ii_KeySize : Z;
  ii_IsTPM : bool;
  ii_InStore : bool;
}.

Record TestSignRequest := {
  ts_Thumbprint : string;
  ts_Message : string;
  ts_InputType : string;
  ts_HashAlgo : string;
  ts_Padding : string;
}.

Record TestSignResult := {
  tr_Thumbprint : string;
  tr_Subject : string;
  tr_HashAlgorithm : string;
  tr_DigestHex : string;
  tr_Padding : string;
  tr_SignatureAlgorithm : string;
  tr_SignatureBase64 : string;
  tr_SignatureHex : string;
  tr_DurationMs : Z;
}.

Record DiagnosticsInfo := {
  di_ProviderName : string;
  di_DataDir : string;
  di_ConfigPath : string;
  di_TotalKeys : Z;
  di_ConfigExists : bool;
}.

(** ** Pure parts *)

Section pure.
Context `{Unicode} `{Crypto}.

(** The switch on the hash algorithm: the algorithm, its name and its size. *)
Definition resolve_hash (hashAlgo : string) : Z * string * Z :=
  let a := ToUpper (TrimSpace hashAlgo) in
  if decide (a ∈ ["SHA384"; "SHA-384"]) then (HashSHA384, "SHA-384", 48%Z)
  else if decide (a ∈ ["SHA512"; "SHA-512"]) then (HashSHA512, "SHA-512", 64%Z)
  else (HashSHA256, "SHA-256", 32%Z).

Definition hash_message (hashAlgo : Z) (msg : list Z) : list Z :=
  if (hashAlgo =? HashSHA384)%Z then sha384_Sum msg
  else if (hashAlgo =? HashSHA512)%Z then sha512_Sum msg
  else sha256_Sum msg.

(** The digest to sign: given in hexadecimal, or that of the message. *)
Definition resolve_digest (inputType message : string) (hash : Z * string * Z) : outcome (list Z) :=
  let '(hashAlgo, hashName, digestSize) := hash in
  let inputType := ToLower (TrimSpace inputType) in
  if decide (inputType ∈ ["hex"; "hex_digest"; "digest"]) then
    let cleanHex := remove_byte " " (TrimSpace message) in
    rawDigest ← wrapf "invalid hex digest" (hex_DecodeString cleanHex);
    if negb (Z.of_nat (length rawDigest) =? digestSize)%Z then
      Fail (ErrNew ("hex digest length (" +:+ Itoa (Z.of_nat (length rawDigest)) +:+
        " bytes) does not match " +:+ hashName +:+ " required length (" +:+ Itoa digestSize +:+ " bytes)"))
    else Ret rawDigest
  else if bool_decide (message = "") then Fail (ErrNew "message to sign must not be empty")
  else Ret (hash_message hashAlgo (bytes_of_string message)).

Definition resolve_padding (padding : string) : Z * string :=
  if decide (ToLower (TrimSpace padding) ∈ ["pss"; "rsapss"; "rsa-pss"])
  then (RSAPaddingPSS, "PSS") else (RSAPaddingPKCS1, "PKCS#1 v1.5").

(** The loop over the certificates for the subject of the one that signed. *)
Definition subject_of (normTP : string) (certs : outcome (list CertificateInfo)) : string :=
  match certs with
  | Ret certs =>
      match find_first (λ c, bool_decide (NormalizeThumbprint (Thumbprint c) = normTP)) certs with
      | Some c => Subject c
      | None => normTP
      end
  | _ => normTP
  end.

Definition ext_usage (ext : Z) : option string :=
  if (ext =? ExtKeyUsageServerAuth)%Z then Some "Server Auth"
  else if (ext =? ExtKeyUsageClientAuth)%Z then Some "Client Auth"
  else if (ext =? ExtKeyUsageCodeSigning)%Z then Some "Code Signing"
  else None.

Definition usages (cert : Certificate) : list string :=
  (if negb (Z.land (KeyUsage cert) KeyUsageDigitalSignature =? 0)%Z then ["Digital Signature"] else []) ++
  (if negb (Z.land (KeyUsage cert) KeyUsageKeyEncipherment =? 0)%Z then ["Key Encipherment"] else []) ++
  omap ext_usage (ExtKeyUsage cert).

Definition sans `{NetText} (cert : Certificate) : list string :=
  DNSNames cert ++ (IP_String <$> IPAddresses cert) ++ EmailAddresses cert.

(** One item of the remote list; the two readings of the clock are those of
    [IsExpired] and [DaysRemaining]. *)
Definition plain_item (installed : gset string) (c : PbCertificateInfo) : CertificateItem :=
  let tp := NormalizeThumbprint (pb_Thumbprint c) in
  {| it_Thumbprint := tp; it_Subject := pb_Subject c; it_Issuer := ""; it_KeyAlgorithm := pb_KeyAlgorithm c;
     it_KeySize := pb_KeySize c; it_NotBefore := ""; it_NotAfter := ""; it_IsExpired := false;
     it_DaysRemaining := 0; it_SANs := None; it_KeyUsage := None;
     it_IsInstalled := bool_decide (tp ∈ installed) |}.

Definition described_item `{NetText} (item : CertificateItem) (cert : Certificate) (now1 now2 : Z)
    : CertificateItem :=
  {| it_Thumbprint := it_Thumbprint item; it_Subject := it_Subject item;
     it_Issuer := (if bool_decide (cert_Issuer_CommonName cert = "") then cert_Issuer cert
                   else cert_Issuer_CommonName cert);
     it_KeyAlgorithm := it_KeyAlgorithm item; it_KeySize := it_KeySize item;
     it_NotBefore := Format_minute (cert_NotBefore cert) +:+ " UTC";
     it_NotAfter := Format_minute (cert_NotAfter cert) +:+ " UTC";
     it_IsExpired := (cert_NotAfter cert <? now1)%Z;
     it_DaysRemaining := whole_days (Sub (cert_NotAfter cert) now2);
     it_SANs := Some (sans cert);
     it_KeyUsage := (if (length (usages cert) =? 0)%nat then None else Some (usages cert));
     it_IsInstalled := it_IsInstalled item |}.

(** One item of the installed list. *)
Definition installed_item (sc : CertificateInfo) : InstalledItem :=
  let tp := NormalizeThumbprint (Thumbprint sc) in
  {| ii_Thumbprint := tp; ii_Subject := Subject sc; ii_Issuer := Issuer sc;
     ii_NotAfter := (if negb (IsZero (NotAfter sc)) then Format_minute (NotAfter sc) +:+ " UTC" else "");
     ii_Provider := (if bool_decide (ProviderName sc = "") then ProviderName_ksp else ProviderName sc);
     ii_Container := tp; ii_KeyAlgorithm := KeyAlgorithm sc; ii_KeySize := KeySize sc;
     ii_IsTPM := IsTPM sc; ii_InStore := true |}.
End pure.

(** ** The file dialog *)

(** What the dialog is given: the filter block, the title and the size of its
    buffer in UTF-16 units; it answers with the buffer, or [None] when it was
    closed. *)
Record openFileNameW := {
  lpstrFilter : list Z;
  nFilterIndex : Z;
  nMaxFile : Z;
  lpstrTitle : list Z;
  ofn_flags : Z;
}.

Class FileDialog (W : Type) := {
  GetOpenFileNameW : openFileNameW → W → option (list Z) * W;
  UTF16PtrFromString_dialog : string → outcome (list Z);
  UTF16ToString_dialog : list Z → string;
  filepath_Clean : string → string;
}.

Definition ofnFileMustExist : Z := 0x1000.
Definition ofnPathMustExist : Z := 0x800.
Definition ofnExplorer : Z := 0x80000.
Definition ofnNoChangeDir : Z := 0x8.
Definition ofnHideReadOnly : Z := 0x4.

(** [uint16(r)] of every rune. *)
Definition filter_units (s : string) : list Z := (λ r, (r `mod` 2 ^ 16)%Z) <$> runes s.

Definition selectFileDialog {W} `{Unicode} `{FileDialog W} (title filterDesc filterPattern : string)
    : M W string :=
  let title := if bool_decide (title = "") then "Select File" else title in
  let '(filterDesc, filterPattern) :=
    if bool_decide (filterDesc = "") then ("All Files (*.*)", "*.*") else (filterDesc, filterPattern) in
  let filterUTF16 := filter_units filterDesc ++ [0%Z] ++ filter_units filterPattern ++ [0; 0]%Z in
  titleUTF16 ← lift (UTF16PtrFromString_dialog title);
  r ← sys (GetOpenFileNameW {| lpstrFilter := filterUTF16; nFilterIndex := 1; nMaxFile := 2048;
    lpstrTitle := titleUTF16;
    ofn_flags := Z.lor (Z.lor (Z.lor (Z.lor ofnFileMustExist ofnPathMustExist) ofnExplorer)
      ofnNoChangeDir) ofnHideReadOnly |});
  match r with
  | None => mret ""
  | Some fileBuf => mret (filepath_Clean (TrimSpace (UTF16ToString_dialog fileBuf)))
  end.

(** ** [AppAPI] *)

Section api.
Context {W : Type} `{Unicode} `{Crypto} `{Tls} `{NetText} `{Json} `{Host}.
Context `{Grpc W} `{Disk W} `{Stat W} `{Network W} `{Lan W} `{Clock W} `{Installer W} `{CertBackend W}.

Definition DiscoverServers (timeoutSec : Z) : M W (list ServerInfo) :=
  let timeoutSec := if (timeoutSec <=? 0)%Z then 3%Z else timeoutSec in
  let timeout := to_i64 (timeoutSec * Second) in
  start ← sys time_Now;
  servers ← try (discover timeout);
  now ← sys time_Now;
  let elapsed := Milliseconds (Sub now start) in
  servers ← lift (wrapf "discovery failed" servers);
  mret ((λ s, {| si_Hostname := ds_Hostname s; si_GRPCAddr := ds_GRPCAddr s; si_Version := ds_Version s;
                 si_SourceIP := ds_SourceIP s; si_LatencyMs := elapsed |}) <$> servers).

Definition default_config (configPath : string) : ConfigData :=
  {| cd_Addr := ""; cd_CA := "certs/ca.crt"; cd_Cert := "certs/client.crt";
     cd_Key := "certs/client.key"; cd_ConfigPath := configPath |}.

Definition LoadConfig : M W ConfigData :=
  configPath ← with_files (λ fs, ConfigPath);
  cfg ← with_files (λ fs, KspClient.LoadConfig configPath);
  match cfg with
  | Fail _ => mret (default_config configPath)
  | Panic => lift Panic
  | Ret cfg => mret {| cd_Addr := Addr_ cfg; cd_CA := CA cfg; cd_Cert := Cert cfg; cd_Key := Key cfg;
                       cd_ConfigPath := configPath |}
  end.

Definition client_config (cfg : ConfigData) : KspConfig :=
  {| Addr_ := TrimSpace (cd_Addr cfg); CA := TrimSpace (cd_CA cfg); Cert := TrimSpace (cd_Cert cfg);
     Key := TrimSpace (cd_Key cfg) |}.

Definition SaveConfig (cfg : ConfigData) : M W () :=
  default ← with_files (λ fs, ConfigPath);
  let path := if bool_decide (cd_ConfigPath cfg = "") then default else cd_ConfigPath cfg in
  _ ← save_config (client_config cfg) path;
  mret ().

Definition ResolveServerAddress (addr hostnameHint : string) : M W string :=
  let addr := TrimSpace addr in
  if bool_decide (addr = "") then mret ""
  else
    let '(host, port) := typed_host_port addr in
    resolveOrTestHostname host port hostnameHint.

(** [resolvedAddr := a.ResolveServerAddress(cfg.Addr, ""); if resolvedAddr == "" { return ... }]. *)
Definition server_address (cfg : ConfigData) : M W string :=
  resolvedAddr ← ResolveServerAddress (cd_Addr cfg) "";
  if bool_decide (resolvedAddr = "") then lift (Fail (ErrNew "server address is required"))
  else mret resolvedAddr.

(** The TLS configuration, the connection and its deferred closing, which
    three of the functions have in common; they differ in how they wrap the
    errors. *)
Definition with_server {A} (cfg : ConfigData) (resolvedAddr tlsError dialError : string)
    (m : Z → M W A) : M W A :=
  tlsConfig ← with_files (λ fs,
    LoadClientTLSConfig (cd_CA cfg) (cd_Cert cfg) (cd_Key cfg) (hostFromAddr resolvedAddr));
  tlsConfig ← lift (wrapf tlsError tlsConfig);
  with_conn (wrapf dialError) (grpc_DialContext resolvedAddr tlsConfig) m.

Definition list_remote (listError : string) (conn : Z) : M W ListCertificatesResponse :=
  resp ← sys (call_ListCertificates conn);
  lift (wrapf listError resp).

Definition TestConnection (cfg : ConfigData) : M W string :=
  resolvedAddr ← server_address cfg;
  with_server cfg resolvedAddr "TLS configuration error" "connection failed" (λ conn,
    resp ← list_remote "gRPC query failed" conn;
    mret ("Connected successfully. Found " +:+ Itoa (Z.of_nat (length resp)) +:+
          " remote certificate(s).")).

(** [installedMap]; an error of the store is an empty one. *)
Definition installed_thumbprints (certs : outcome (list CertificateInfo)) : outcome (gset string) :=
  match certs with
  | Ret certs => Ret (list_to_set ((λ ic, NormalizeThumbprint (Thumbprint ic)) <$> certs))
  | Fail _ => Ret ∅
  | Panic => Panic
  end.

Definition remote_item (installed : gset string) (c : PbCertificateInfo) : M W CertificateItem :=
  let item := plain_item installed c in
  if (length (pb_CertificateDer c) =? 0)%nat then mret item
  else match x509_ParseCertificate (pb_CertificateDer c) with
       | Fail _ => mret item
       | Panic => lift Panic
       | Ret cert =>
           now1 ← sys time_Now;
           now2 ← sys time_Now;
           mret (described_item item cert now1 now2)
       end.

Fixpoint remote_items (installed : gset string) (certs : list PbCertificateInfo) : M W (list CertificateItem) :=
  match certs with
  | [] => mret []
  | c :: certs =>
      item ← remote_item installed c;
      items ← remote_items installed certs;
      mret (item :: items)
  end.

Definition ListRemoteCertificates (cfg : ConfigData) : M W (list CertificateItem) :=
  resolvedAddr ← server_address cfg;
  with_server cfg resolvedAddr "TLS config error" ("connect to " +:+ resolvedAddr) (λ conn,
    resp ← list_remote "list certificates" conn;
    installed ← with_store (λ w, installed_thumbprints (ListCertificatesByProvider w ProviderName_ksp));
    remote_items installed resp).

(** The loop that looks for the certificate to install. *)
Definition find_remote (normTP : string) (certs : list PbCertificateInfo) : option PbCertificateInfo :=
  find_first (λ c, bool_decide (NormalizeThumbprint (pb_Thumbprint c) = normTP)) certs.

Definition InstallCertificate (cfg : ConfigData) (thumbprint : string) : M W string :=
  resolvedAddr ← server_address cfg;
  let normTP := NormalizeThumbprint thumbprint in
  if bool_decide (normTP = "") then lift (Fail (ErrNew "invalid thumbprint"))
  else
    with_server cfg resolvedAddr "TLS config" ("connect to " +:+ resolvedAddr) (λ conn,
      resp ← list_remote "list certificates" conn;
      match find_remote normTP resp with
      | None => lift (Fail (ErrNew ("certificate with thumbprint " +:+ normTP +:+ " not found on server")))
      | Some target =>
          if (length (pb_CertificateDer target) =? 0)%nat
          then lift (Fail (ErrNew "server returned empty certificate DER"))
          else
            bound ← sys (BindCertificateToKSP (pb_CertificateDer target) normTP);
            _ ← lift (wrapf "bind certificate to Windows store" bound);
            _ ← try (SaveConfig cfg);
            mret ("Successfully installed " +:+ pb_Subject target +:+
                  " into Current User\MY and bound to " +:+ ProviderName_ksp)
      end).

Definition ListInstalledCertificates : M W (list InstalledItem) :=
  storeCerts ← with_store (λ w,
    wrapf "query certificate store" (ListCertificatesByProvider w ProviderName_ksp));
  mret (installed_item <$> storeCerts).

Definition TestSign (req : TestSignRequest) : M W TestSignResult :=
  let normTP := NormalizeThumbprint (ts_Thumbprint req) in
  if bool_decide (normTP = "") then lift (Fail (ErrNew "certificate thumbprint is required"))
  else
    let hash := resolve_hash (ts_HashAlgo req) in
    digest ← lift (resolve_digest (ts_InputType req) (ts_Message req) hash);
    let padding := resolve_padding (ts_Padding req) in
    start ← sys time_Now;
    signResp ← with_store (λ w, Ret (SignHash w normTP digest hash.1.1 padding.1));
    now ← sys time_Now;
    signResp ← lift (wrapf "test signing failed" signResp);
    subject ← with_store (λ w, match ListCertificates w with
                               | Panic => Panic
                               | certs => Ret (subject_of normTP certs)
                               end);
    mret {| tr_Thumbprint := normTP; tr_Subject := subject; tr_HashAlgorithm := hash.1.2;
            tr_DigestHex := hex_EncodeToString digest; tr_Padding := padding.2;
            tr_SignatureAlgorithm := SignatureAlgorithm signResp;
            tr_SignatureBase64 := base64_EncodeToString (Signature signResp);
            tr_SignatureHex := hex_EncodeToString (Signature signResp);
            tr_DurationMs := Milliseconds (Sub now start) |}.

Definition UninstallCertificate (thumbprint : string) : M W string :=
  let tp := NormalizeThumbprint thumbprint in
  if bool_decide (tp = "") then lift (Fail (ErrNew "invalid thumbprint"))
  else
    r ← sys (RemoveCertificateFromStore tp);
    _ ← lift (wrapf "remove certificate from store" r);
    mret ("Successfully uninstalled certificate " +:+ tp).

Definition SelectFile `{FileDialog W} (title filterDesc filterPattern : string) : M W string :=
  selectFileDialog title filterDesc filterPattern.

Definition GetDiagnostics : M W DiagnosticsInfo :=
  installedCerts ← with_store (λ w, match ListCertificatesByProvider w ProviderName_ksp with
                                    | Ret certs => Ret certs
                                    | Fail _ => Ret []
                                    | Panic => Panic
                                    end);
  paths ← with_files (λ fs, (ConfigPath, DataDir));
  exists_ ← with_store (λ w, Ret (is_ret (os_Stat paths.1 w)));
  mret {| di_ProviderName := ProviderName_ksp; di_DataDir := paths.2; di_ConfigPath := paths.1;
          di_TotalKeys := Z.of_nat (length installedCerts); di_ConfigExists := exists_ |}.
End api.

(** ** The rest of the world and the certificate store *)

(** Talking to the network and writing files leaves the certificates of the
    store alone. *)
Class OutsideStore (W : Type) `{InstallerLaws W} `{Grpc W} `{Network W} `{Disk W} := {
  lookup_keeps a w : bindings (net_LookupAddr a w).2 = bindings w;
  dial_keeps a w : bindings (net_DialTimeout a w).2 = bindings w;
  hangup_keeps c w : bindings (net_Close c w).2 = bindings w;
  connect_keeps a t w : bindings (grpc_DialContext a t w).2 = bindings w;
  disconnect_keeps c w : bindings (grpc_Close c w).2 = bindings w;
  list_keeps c w : bindings (call_ListCertificates c w).2 = bindings w;
  write_keeps p d w : bindings (os_WriteFile p d w).2 = bindings w;
}.

Section store_proofs.
Context {W : Type} `{Unicode} `{Crypto} `{Tls} `{NetText} `{Json} `{Host}.
Context `{OutsideStore W} `{Stat W} `{Lan W} `{Clock W} `{CertBackend W}.
Implicit Types (b : gmap (list Z) StoredCert) (w : W).

Definition store_is b w : Prop := bindings w = b.

(** A part of a program that leaves the store as it is, whatever happens. *)
Definition keeps {A} (m : M W A) : Prop := ∀ b, triple (store_is b) m (λ _, store_is b) (store_is b).

Lemma keeps_bind {A B} (m : M W A) (f : A → M W B) : keeps m → (∀ a, keeps (f a)) → keeps (m ≫= f).
Proof. intros Hm Hf b. eapply triple_bind; [apply Hm|]. intros a. apply Hf. Qed.

Lemma keeps_ret {A} (a : A) : keeps (mret a).
Proof. intros b. by apply triple_mret. Qed.

Lemma keeps_lift {A} (o : outcome A) : keeps (lift o).
Proof. intros b w Hw. by destruct o. Qed.

Lemma keeps_emit e : keeps (emit e).
Proof. by intros b w. Qed.

Lemma keeps_sys {A} (f : W → A * W) : (∀ w, bindings (f w).2 = bindings w) → keeps (sys f).
Proof. intros Hf b. apply triple_sys. intros w Hw. unfold store_is. by rewrite Hf. Qed.

Lemma keeps_files {A} (f : FileSystem → A) : keeps (with_files f).
Proof. by intros b w. Qed.

Lemma keeps_store {A} (f : W → outcome A) : keeps (with_store f).
Proof. intros b w Hw. unfold with_store. by destruct (f w). Qed.

Lemma keeps_test_dial a : keeps (test_dial a).
Proof.
  apply keeps_bind; [apply keeps_sys, dial_keeps|]. intros [c|e|]; [|apply keeps_ret|apply keeps_lift].
  do 3 (apply keeps_bind; [apply keeps_emit|intros _]).
  apply keeps_bind; [apply keeps_sys, hangup_keeps|intros _; apply keeps_ret].
Qed.

Lemma keeps_resolve host port hostname : keeps (resolveOrTestHostname host port hostname).
Proof.
  assert (∀ names, keeps (first_reachable port names)) as Hf.
  { induction names as [|name names IH]; simpl; [apply keeps_ret|].
    apply keeps_bind; [apply keeps_test_dial|]. intros []; [apply keeps_ret|done]. }
  apply keeps_bind; [case_bool_decide; [apply keeps_ret|apply keeps_test_dial]|].
  intros []; [apply keeps_ret|]. apply keeps_bind; [|intros [a|]; apply keeps_ret].
  destruct (ParseIP host); [|apply keeps_ret]. apply keeps_bind; [apply keeps_sys, lookup_keeps|].
  intros [names|e|]; [apply Hf|apply keeps_ret|apply keeps_lift].
Qed.

Lemma keeps_server_address cfg : keeps (server_address cfg).
Proof.
  apply keeps_bind; [|intros a; case_bool_decide; [apply keeps_lift|apply keeps_ret]].
  unfold ResolveServerAddress. case_bool_decide; [apply keeps_ret|].
  destruct (typed_host_port _). apply keeps_resolve.
Qed.

Lemma keeps_SaveConfig cfg : keeps (SaveConfig cfg).
Proof.
  apply keeps_bind; [apply keeps_files|intros d]. apply keeps_bind; [|intros _; apply keeps_ret].
  apply keeps_bind; [apply keeps_files|intros r]. apply keeps_bind; [apply keeps_lift|intros pd].
  apply keeps_bind; [apply keeps_sys, write_keeps|intros o].
  apply keeps_bind; [apply keeps_lift|intros _; apply keeps_ret].
Qed.

(** Closing the connection keeps what was established before. *)
Lemma with_server_triple {A} cfg resolved tlsE dialE (m : Z → M W A) b (Q : A → _ → Prop) :
  (∀ c, triple (store_is b) (m c) (λ a w, Q a (bindings w)) (store_is b)) →
  triple (store_is b) (with_server cfg resolved tlsE dialE m) (λ a w, Q a (bindings w)) (store_is b).
Proof.
  intros Hm. unfold with_server. eapply triple_bind; [apply keeps_files|]. intros o.
  eapply triple_bind; [apply keeps_lift|]. intros tls. unfold with_conn.
  eapply triple_bind; [apply (keeps_sys (grpc_DialContext _ _)), connect_keeps|]. intros r.
  destruct (wrapf dialE r) as [c|e|]; [|by apply triple_fail|apply triple_panic].
  apply triple_emit_then.
  assert (∀ w, bindings ((_ ← emit (Release (RConn c)); sys (grpc_Close c)) w).1.2 = bindings w) as Hclose.
  { intros w. rewrite bind_run. simpl. unfold sys. pose proof (disconnect_keeps c w) as Hk.
    by destruct (grpc_Close c w) as [[] w']. }
  eapply triple_defer; [apply Hm|..].
  - intros a w. by rewrite Hclose.
  - intros w Hw. unfold store_is. by rewrite Hclose.
Qed.
End store_proofs.

(** What binding a certificate does to the store. *)
Definition binds `{Unicode} `{Crypto} (utf16 : string → outcome (list Z)) (der : list Z) (tp : string)
    (b b' : gmap (list Z) StoredCert) : Prop :=
  ∃ cert container provider,
    x509_ParseCertificate der = Ret cert ∧
    utf16 (Install.container_name tp) = Ret container ∧ utf16 ProviderName_ksp = Ret provider ∧
    b' = <[sha1_Sum der :=
      {| st_der := der;
         st_prov := Some {| ContainerName := container; ProvName := provider; ProvType := 0;
                            Flags := 0; CProvParam := 0; RgProvParam := 0;
                            KeySpec := InferKeySpec cert |} |}]> b.

(** [certs] is what a server lists at some moment. *)
Definition lists {W} `{Grpc W} (certs : list PbCertificateInfo) : Prop :=
  ∃ conn w w', call_ListCertificates conn w = (Ret certs, w').

Section install_proofs.
Context {W : Type} `{Unicode} `{Crypto} `{Tls} `{NetText} `{Json} `{Host}.
Context {utf16 : string → outcome (list Z)} `{!Installer W} `{!InstallerLaws W utf16}.
Context `{!Grpc W} `{!Network W} `{!Disk W} `{!OutsideStore W}.

Lemma bind_triple der tp b :
  triple (store_is b) (sys (BindCertificateToKSP der tp))
    (λ r w, (∀ e, r = Fail e → store_is b w) ∧ (r = Ret () → binds utf16 der tp b (bindings w)))
    (λ _, False).
Proof.
  apply triple_sys. intros w Hw. destruct (BindCertificateToKSP der tp w) as [r w'] eqn:E. simpl.
  split; [intros e ->; apply bind_failed in E; unfold store_is in *; congruence|].
  intros ->. apply bind_done in E as (cert & container & provider & ? & ? & ? & Hb).
  exists cert, container, provider. by rewrite Hb, Hw.
Qed.

Lemma InstallCertificate_triple cfg thumbprint b :
  let normTP := NormalizeThumbprint thumbprint in
  triple (store_is b) (InstallCertificate cfg thumbprint)
    (λ _ w, ∃ certs target, lists certs ∧ find_remote normTP certs = Some target ∧
       binds utf16 (pb_CertificateDer target) normTP b (bindings w))
    (store_is b).
Proof.
  intros normTP. unfold InstallCertificate.
  eapply triple_bind; [apply (keeps_server_address cfg b)|]. intros resolved. fold normTP. cbv zeta.
  case_bool_decide; [by apply triple_fail|].
  apply (with_server_triple cfg resolved _ _ _ b (λ _ b', ∃ certs target, lists certs ∧
    find_remote normTP certs = Some target ∧ binds utf16 (pb_CertificateDer target) normTP b b')).
  intros c. unfold list_remote.
  apply (triple_bind _ _ _ (λ resp w, store_is b w ∧ lists resp)).
  { apply (triple_sys_then _ _ _ (λ r w, store_is b w ∧ ∀ resp, r = Ret resp → lists resp)).
    - intros w Hw. pose proof (list_keeps c w) as Hk. destruct (call_ListCertificates c w) as [r w'] eqn:E.
      simpl in *. split; [unfold store_is in *; congruence|]. intros resp ->. by exists c, w, w'.
    - intros [resp|e|]; [apply triple_mret; naive_solver|by apply triple_fail; intros w []|apply triple_panic]. }
  intros resp. apply triple_pure. intros Hlist.
  destruct (find_remote normTP resp) as [target|] eqn:Hf; [|by apply triple_fail].
  destruct (_ =? 0)%nat; [by apply triple_fail|].
  eapply triple_bind; [eapply triple_conseq; [apply bind_triple|done|done|by intros w []]|].
  intros r. apply triple_lift_then; [intros [| | | |] w; destruct r; simpl; naive_solver|].
  intros [] Hr%wrapf_Ret_inv. subst r.
  apply (triple_bind _ _ _ (λ _ w, binds utf16 (pb_CertificateDer target) normTP b (bindings w))).
  - intros w [_ Hb]. specialize (Hb eq_refl).
    pose proof (keeps_SaveConfig cfg (bindings w) w eq_refl) as Hk. unfold try, store_is in *.
    destruct (SaveConfig cfg w) as [[[[a|e|]|] w'] ev]; try done; by rewrite Hk.
  - intros _. apply triple_mret. intros w Hw. by exists resp, target.
Qed.

Lemma frame_files {A} L (f : FileSystem → A) L' : frame (OS := W) L (with_files f) (λ _, L) L'.
Proof. by intros w. Qed.

Lemma frame_SaveConfig L cfg : frame (OS := W) L (SaveConfig cfg) (λ _, L) L.
Proof.
  apply (frame_bind _ _ _ (λ _, L)); [apply frame_files|intros d; cbv zeta].
  apply (frame_bind _ _ _ (λ _, L)); [|by intros k w]. unfold save_config.
  apply (frame_bind _ _ _ (λ _, L)); [apply frame_files|intros r]. repeat frame_step.
Qed.

Lemma frame_server_address L cfg : frame (OS := W) L (server_address cfg) (λ _, L) L.
Proof.
  apply (frame_bind _ _ _ (λ _, L)); [|intros a; case_bool_decide; [apply frame_fail|by intros w]].
  unfold ResolveServerAddress. case_bool_decide; [by intros w|].
  destruct (typed_host_port _). apply frame_resolve.
Qed.

Lemma frame_with_server {A} L cfg resolved tlsE dialE (m : Z → M W A) :
  (∀ c, frame (RConn c :: L) (m c) (λ _, RConn c :: L) (RConn c :: L)) →
  frame L (with_server cfg resolved tlsE dialE m) (λ _, L) L.
Proof.
  intros Hm. apply (frame_bind _ _ _ (λ _, L)); [apply frame_files|intros o]. frame_step.
  by apply frame_with_conn.
Qed.

Lemma frame_InstallCertificate cfg thumbprint :
  frame (OS := W) [] (InstallCertificate cfg thumbprint) (λ _, []) [].
Proof.
  apply (frame_bind _ _ _ (λ _, [])); [apply frame_server_address|intros resolved; cbv zeta].
  case_bool_decide; [apply frame_fail|]. apply frame_with_server. intros c.
  apply (frame_bind _ _ _ (λ _, [RConn c])); [unfold list_remote; repeat frame_step|intros resp].
  destruct (find_remote _ resp) as [target|]; [|apply frame_fail].
  destruct (_ =? 0)%nat; [apply frame_fail|]. frame_step. frame_step.
  apply (frame_bind _ _ _ (λ _, [RConn c])); [|by intros o w].
  eapply frame_conseq; [eapply frame_try, frame_SaveConfig|]. by intros [].
Qed.
End install_proofs.

(** ** Properties *)

(** C16: the installer installs the server's certificate.  When
    [InstallCertificate] succeeds, the store holds, under its hash and bound to
    the provider, the certificate that the server lists under the thumbprint
    asked for (in any spelling), and is otherwise unchanged; when it fails
    (a bad address or thumbprint, TLS or connection errors, a certificate the
    server does not list, a refused binding) the store is unchanged; and on
    every path the test connections and the connection to the server have been
    closed.  A failure to save the configuration afterwards is not one. *)
Theorem InstallCertificate_installs {W} `{Unicode} `{Crypto} `{Tls} `{NetText} `{Json} `{Host} utf16
    `{!Installer W} `{!InstallerLaws W utf16} `{!Grpc W} `{!Network W} `{!Disk W} `{!OutsideStore W}
    (cfg : ConfigData) (tp : string) (w : W) :
  let m := InstallCertificate cfg tp in
  (∀ msg, result m w = Done (Ret msg) →
     ∃ certs target, lists certs ∧
       find_first (λ c, bool_decide (NormalizeThumbprint (pb_Thumbprint c) = NormalizeThumbprint tp)) certs
         = Some target ∧
       binds utf16 (pb_CertificateDer target) (NormalizeThumbprint tp) (bindings w)
         (bindings (world_after m w))) ∧
  (∀ e, result m w = Done (Fail e) → bindings (world_after m w) = bindings w) ∧
  (∀ o, result m w = Done o → o ≠ Panic → track [] (trace m w) = Some []).
Proof.
  intros m.
  pose proof (triple_run _ _ _ _ w (InstallCertificate_triple cfg tp (bindings w)) eq_refl) as [Hr Hf].
  split; [exact Hr|]. split; [exact Hf|]. intros o Ho Hp.
  pose proof (frame_InstallCertificate cfg tp w) as Hfr. fold m in Hfr. rewrite Ho in Hfr. by destruct o.
Qed.

#[export] Instance sample_outside_store :
  @OutsideStore WinStore _ _ windows_installer _
    (@windows_installer_laws WinStore sample_win_store sample_install_api sample_my_store
       sample_unicode sample_crypto sample_my_store_laws)
    sample_grpc sample_network (sample_disk sample_tls_files).
Proof. by split. Qed.

Definition sample_config_data : ConfigData :=
  {| cd_Addr := " server "; cd_CA := "tls/ca.pem"; cd_Cert := "tls/cert.pem"; cd_Key := "tls/key.pem";
     cd_ConfigPath := "" |}.

Lemma InstallCertificate_installs_witness :
  let U := sample_unicode in let C := sample_crypto in let T := sample_tls in
  let N := sample_net in let J := sample_json in let O := sample_client_host in
  let G := @sample_grpc WinStore in let D := @sample_disk WinStore sample_tls_files in
  let NW := @sample_network WinStore in
  let A := sample_win_store in let I := sample_install_api in let S := sample_my_store in
  let IN := windows_installer in
  let w := {| ws_store := ∅; ws_ctx := ∅; ws_next := 1 |} in
  let m := InstallCertificate sample_config_data "30 02 09 62" in
  (∃ msg, result m w = Done (Ret msg)) ∧ trace m w = [Acquire (RConn 1); Release (RConn 1)] ∧
  binds UTF16PtrFromString [48; 2; 9; 98]%Z "30020962" ∅ (my_store (world_after m w)).
Proof.
  cbv zeta.
  set (m := @InstallCertificate WinStore sample_unicode sample_crypto sample_tls sample_client_host
    sample_grpc (sample_disk sample_tls_files) sample_network
    (@windows_installer WinStore sample_win_store sample_install_api sample_unicode sample_crypto)
    sample_config_data "30 02 09 62").
  set (w := {| ws_store := ∅; ws_ctx := ∅; ws_next := 1 |}).
  assert (∃ msg, result m w = Done (Ret msg)) as [msg Hm] by (eexists; vm_compute; reflexivity).
  split; [by exists msg|]. split; [vm_compute; reflexivity|].
  destruct (proj1 (@InstallCertificate_installs WinStore sample_unicode sample_crypto sample_tls sample_net
    sample_json sample_client_host _ _ _ _ _ _ sample_outside_store sample_config_data "30 02 09 62" w)
    msg Hm) as (certs & target & (conn & w1 & w2 & Hl) & Hf & Hb).
  injection Hl as <- <-. vm_compute in Hf. injection Hf as <-. exact Hb.
Defined.

(** The address the installer connects to is the one that was typed.
    Without an address the functions that need one fail; otherwise the address
    is a host with the typed port (50051 if there was none), the host is the
    typed one unless the address is one that accepted a test connection, and
    the server name the TLS configuration checks is that host.  What
    [SaveConfig] (and so [InstallCertificate]) writes is the address as typed,
    whatever address was found to work. *)
Lemma server_address_as_typed {W} `{Unicode} `{Host} `{Network W} (cfg : ConfigData) (w : W) :
  let typed := TrimSpace (cd_Addr cfg) in
  let host := (typed_host_port typed).1 in
  let port := (typed_host_port typed).2 in
  (∀ e, result (server_address cfg) w = Done (Fail e) → typed = "") ∧
  (∀ a, result (server_address cfg) w = Done (Ret a) →
     typed ≠ "" ∧ ∃ h, a = JoinHostPort h port ∧
       (h = host ∨ Dialed a ∈ trace (server_address cfg) w) ∧
       (plain_host h → SplitHostPort a = Ret (h, port) ∧ hostFromAddr a = h)) ∧
  Addr_ (client_config cfg) = typed.
Proof.
  intros typed host port. split; [|split; [|done]].
  - intros e. unfold server_address, ResolveServerAddress. fold typed. case_bool_decide as Ht; [done|].
    destruct (typed_host_port typed) as [h p] eqn:E. unfold result. rewrite bind_run.
    pose proof (resolve_never_fails h p "" w) as Hn.
    pose proof (resolve_traced h p "" w) as Htr. unfold result in Hn, Htr.
    destruct (resolveOrTestHostname h p "" w) as [[[[a|e'|]|] w'] ev]; simpl in *; try done.
    + destruct (Htr a eq_refl) as (h' & -> & _). case_bool_decide as Hj; [|done].
      unfold JoinHostPort in Hj. destruct (has_byte ":" h'); [done|]. by destruct h'.
    + by destruct (Hn e').
  - assert (traced (OS := W) (server_address cfg) (λ a ev, typed ≠ "" ∧ ∃ h, a = JoinHostPort h port ∧
      (h = host ∨ Dialed a ∈ ev))) as Htr.
    { unfold server_address.
      apply (traced_bind _ _ (λ a ev, a ≠ "" → typed ≠ "" ∧ ∃ h, a = JoinHostPort h port ∧
        (h = host ∨ Dialed a ∈ ev))).
      - unfold ResolveServerAddress. fold typed. case_bool_decide; [by apply traced_ret|].
        unfold host, port. destruct (typed_host_port typed) as [h p].
        eapply traced_conseq; [apply resolve_traced|]. auto.
      - intros a ev Ha. case_bool_decide; [apply traced_fail|]. apply traced_ret. rewrite app_nil_r. auto. }
    intros a Ha. destruct (Htr w a Ha) as (Ht & h & -> & Hh). split; [done|]. exists h.
    split; [done|]. split; [done|]. intros Hp. pose proof (typed_port_plain typed) as Hport. fold port in Hport.
    split; [by apply SplitHostPort_Join|by apply hostFromAddr_Join].
Qed.

Section test_sign.
Context {W : Type} `{Unicode} `{Crypto} `{!HashLaws} `{Clock W} `{CertBackend W}.

Lemma resolve_hash_size a : DigestSize (resolve_hash a).1.1 = Ret (resolve_hash a).2.
Proof. unfold resolve_hash. by repeat destruct (decide _). Qed.

(** Whatever the input, the digest that is signed has the size of its hash. *)
Lemma resolve_digest_size it msg a d :
  resolve_digest it msg (resolve_hash a) = Ret d →
  DigestSize (resolve_hash a).1.1 = Ret (Z.of_nat (length d)).
Proof.
  rewrite resolve_hash_size. destruct (resolve_hash a) as [[h name] size] eqn:E. unfold resolve_digest.
  destruct (decide _).
  - intros Hd. go_inv. destruct (Z.eqb_spec (Z.of_nat (length x)) size) as [<-|]; simpl in *; go_inv; done.
  - case_bool_decide; [done|]. intros [= <-]. simpl.
    unfold resolve_hash in E. unfold hash_message.
    repeat destruct (decide _); injection E as <- <- <-; simpl;
      by rewrite ?sha384_Sum_length, ?sha512_Sum_length, ?sha256_Sum_length.
Qed.

(** The call of the store that [TestSign] makes, after reading the clock. *)
Definition test_signature (req : TestSignRequest) (digest : list Z) (w : W) : outcome SignResult :=
  SignHash (time_Now w).2 (NormalizeThumbprint (ts_Thumbprint req)) digest
    (resolve_hash (ts_HashAlgo req)).1.1 (resolve_padding (ts_Padding req)).1.

Lemma TestSign_run req w :
  let normTP := NormalizeThumbprint (ts_Thumbprint req) in
  let digest := resolve_digest (ts_InputType req) (ts_Message req) (resolve_hash (ts_HashAlgo req)) in
  match result (TestSign req) w with
  | Done (Fail e) => normTP = "" ∨ digest = Fail e ∨
      ∃ d e', digest = Ret d ∧ test_signature req d w = Fail e' ∧ e = Wrap "test signing failed" e'
  | Done (Ret r) => normTP ≠ "" ∧ ∃ d sr, digest = Ret d ∧ test_signature req d w = Ret sr ∧
      tr_Thumbprint r = normTP ∧ tr_HashAlgorithm r = (resolve_hash (ts_HashAlgo req)).1.2 ∧
      tr_DigestHex r = hex_EncodeToString d ∧
      tr_Padding r = (resolve_padding (ts_Padding req)).2 ∧
      tr_SignatureAlgorithm r = SignatureAlgorithm sr ∧
      tr_SignatureHex r = hex_EncodeToString (Signature sr) ∧
      tr_SignatureBase64 r = base64_EncodeToString (Signature sr)
  | _ => True
  end.
Proof.
  intros normTP digest. unfold TestSign, result. fold normTP. case_bool_decide as Ht; [by left|].
  cbv zeta. rewrite bind_run. fold digest. unfold lift at 1. destruct digest as [d|e|]; simpl; [|auto|done].
  rewrite bind_run. unfold sys at 1. destruct (time_Now w) as [start w1] eqn:E1.
  rewrite bind_run. unfold with_store at 1. rewrite bind_run. unfold sys at 1.
  destruct (time_Now w1) as [now w2].
  assert (test_signature req d w = SignHash w1 normTP d (resolve_hash (ts_HashAlgo req)).1.1
    (resolve_padding (ts_Padding req)).1) as Hs by (unfold test_signature; by rewrite E1).
  rewrite <- Hs. rewrite bind_run. unfold lift at 1.
  destruct (test_signature req d w) as [sr|e|] eqn:Et; simpl; [|eauto 10|done].
  rewrite bind_run. unfold with_store. destruct (ListCertificates w2) as [certs|e|]; simpl; [..|done];
    (split; [done|]; exists d, sr; by split_and!).
Qed.
(** The hash and the padding a name stands for, and which one a request's
    spelling asks for (SHA-256 and PKCS #1 v1.5 when it is no other's). *)
Definition hash_called (name : string) : option (Z * (list Z → list Z)) :=
  if decide (name = "SHA-256") then Some (HashSHA256, sha256_Sum)
  else if decide (name = "SHA-384") then Some (HashSHA384, sha384_Sum)
  else if decide (name = "SHA-512") then Some (HashSHA512, sha512_Sum)
  else None.

Definition padding_called (name : string) : option Z :=
  if decide (name = "PSS") then Some RSAPaddingPSS
  else if decide (name = "PKCS#1 v1.5") then Some RSAPaddingPKCS1
  else None.

Definition asks_hash (typed name : string) : Prop :=
  let a := ToUpper (TrimSpace typed) in
  (name = "SHA-384" ↔ a = "SHA384" ∨ a = "SHA-384") ∧
  (name = "SHA-512" ↔ a = "SHA512" ∨ a = "SHA-512").

Definition asks_padding (typed name : string) : Prop :=
  let a := ToLower (TrimSpace typed) in name = "PSS" ↔ a = "pss" ∨ a = "rsapss" ∨ a = "rsa-pss".

(** The digest a request gives, in hexadecimal, or by a message for [sum]. *)
Definition gives_digest (req : TestSignRequest) (sum : list Z → list Z) (d : list Z) : Prop :=
  if decide (ToLower (TrimSpace (ts_InputType req)) ∈ ["hex"; "hex_digest"; "digest"])
  then hex_DecodeString (remove_byte " " (TrimSpace (ts_Message req))) = Ret d
  else ts_Message req ≠ "" ∧ d = sum (bytes_of_string (ts_Message req)).

Lemma resolve_hash_called a :
  asks_hash a (resolve_hash a).1.2 ∧
  hash_called (resolve_hash a).1.2 = Some ((resolve_hash a).1.1, hash_message (resolve_hash a).1.1).
Proof.
  unfold resolve_hash, asks_hash. set (u := ToUpper (TrimSpace a)). cbv zeta.
  destruct (decide (u ∈ ["SHA384"; "SHA-384"])) as [H4|H4];
    [|destruct (decide (u ∈ ["SHA512"; "SHA-512"])) as [H5|H5]]; (split; [|reflexivity]); cbn [fst snd].
  - apply list_elem_of_In in H4 as [<-|[<-|[]]]; intuition discriminate.
  - apply list_elem_of_In in H5 as [<-|[<-|[]]]; intuition discriminate.
  - split; (split; [discriminate|]); intros [->| ->]; set_solver.
Qed.

Lemma resolve_padding_called p :
  asks_padding p (resolve_padding p).2 ∧
  padding_called (resolve_padding p).2 = Some (resolve_padding p).1.
Proof.
  unfold resolve_padding, asks_padding. set (u := ToLower (TrimSpace p)). cbv zeta.
  destruct (decide (u ∈ ["pss"; "rsapss"; "rsa-pss"])) as [Hu|Hu]; (split; [|reflexivity]); cbn [fst snd].
  - apply list_elem_of_In in Hu as [<-|[<-|[<-|[]]]]; intuition discriminate.
  - split; [discriminate|]. intros [->|[->| ->]]; set_solver.
Qed.

Lemma resolve_digest_given req d :
  resolve_digest (ts_InputType req) (ts_Message req) (resolve_hash (ts_HashAlgo req)) = Ret d →
  gives_digest req (hash_message (resolve_hash (ts_HashAlgo req)).1.1) d.
Proof.
  unfold gives_digest, resolve_digest. destruct (resolve_hash (ts_HashAlgo req)) as [[h name] size].
  cbv zeta. destruct (decide _).
  - intros Hd. go_inv. by destruct (negb _); simplify_eq.
  - case_bool_decide; [done|]. by intros [= <-].
Qed.
End test_sign.

(** C17: a test signature is what it is reported to be.  On any platform that
    keeps its promises, a result of [TestSign] names the hash and the padding
    the request asked for, and shows the signature the store made when asked to
    sign with the certificate asked for (in any spelling of its thumbprint), with
    exactly that hash and that padding, over the digest the result shows, which
    is the one given in hexadecimal or the named hash of the message and has the
    size of that hash; and the algorithm is RSASSA-PSS exactly when the padding
    shown is PSS.  A request is refused only for its own fault or with the
    store's error, and the store is never asked to sign a digest of the wrong
    size. *)
Theorem TestSign_reports_signature {W} `{Unicode} `{Crypto} `{!HashLaws} `{Clock W} `{CertBackendLaws W}
    (req : TestSignRequest) (w : W) :
  let hash := resolve_hash (ts_HashAlgo req) in
  let source := resolve_digest (ts_InputType req) (ts_Message req) hash in
  (∀ d, source = Ret d → DigestSize hash.1.1 = Ret (Z.of_nat (length d))) ∧
  (∀ e, result (TestSign req) w = Done (Fail e) →
     NormalizeThumbprint (ts_Thumbprint req) = "" ∨ source = Fail e ∨
     ∃ d e', source = Ret d ∧ test_signature req d w = Fail e' ∧ e = Wrap "test signing failed" e') ∧
  (∀ r, result (TestSign req) w = Done (Ret r) →
     ∃ h sum pad d sr,
       asks_hash (ts_HashAlgo req) (tr_HashAlgorithm r) ∧
       hash_called (tr_HashAlgorithm r) = Some (h, sum) ∧
       asks_padding (ts_Padding req) (tr_Padding r) ∧ padding_called (tr_Padding r) = Some pad ∧
       gives_digest req sum d ∧ DigestSize h = Ret (Z.of_nat (length d)) ∧
       SignHash (time_Now w).2 (NormalizeThumbprint (ts_Thumbprint req)) d h pad = Ret sr ∧
       tr_Thumbprint r = NormalizeThumbprint (ts_Thumbprint req) ∧
       tr_DigestHex r = hex_EncodeToString d ∧
       tr_SignatureHex r = hex_EncodeToString (Signature sr) ∧
       tr_SignatureBase64 r = base64_EncodeToString (Signature sr) ∧
       tr_SignatureAlgorithm r = SignatureAlgorithm sr ∧
       (tr_SignatureAlgorithm r = "RSASSA-PSS" ↔ tr_Padding r = "PSS")).
Proof.
  intros hash source. pose proof (TestSign_run req w) as Hrun. split; [|split].
  - intros d Hd. by eapply resolve_digest_size.
  - intros e He. by rewrite He in Hrun.
  - intros r Hr. rewrite Hr in Hrun.
    destruct Hrun as (_ & d & sr & Hd & Hs & Ht & Hh & Hdh & Hp & Ha & Hsh & Hsb).
    destruct (resolve_hash_called (ts_HashAlgo req)), (resolve_padding_called (ts_Padding req)).
    exists hash.1.1, (hash_message hash.1.1), (resolve_padding (ts_Padding req)).1, d, sr.
    rewrite Hh, Hp. split_and!; try done.
    + by apply resolve_digest_given.
    + by eapply resolve_digest_size.
    + rewrite Ha. destruct (sign_algorithm _ _ _ _ _ _ Hs) as [_ ->].
      unfold resolve_padding. by destruct (decide _).
Qed.

(** A clock that stands still. *)
Definition sample_clock {W} : Clock W := {| time_Now w := (0%Z, w) |}.
Definition sample_test_sign : TestSignRequest :=
  {| ts_Thumbprint := "30:01:07"; ts_Message := " ABcd " +:+ hex_EncodeToString (replicate 30 7%Z);
     ts_InputType := "Hex"; ts_HashAlgo := "sha-256"; ts_Padding := "pss" |}.

Lemma TestSign_reports_signature_witness :
  let U := sample_unicode in let C := sample_crypto in let K := @sample_clock (FileStore * Z) in
  let B := @Linux.backend U C in
  let w := (sample_store, 5%Z) in
  ∃ r d sr, result (TestSign sample_test_sign) w = Done (Ret r) ∧
    tr_HashAlgorithm r = "SHA-256" ∧ tr_Padding r = "PSS" ∧ length d = 32%nat ∧
    SignHash w (NormalizeThumbprint "30:01:07") d HashSHA256 RSAPaddingPSS = Ret sr ∧
    tr_SignatureHex r = hex_EncodeToString (Signature sr).
Proof.
  intros U C K B w.
  destruct (result (TestSign sample_test_sign) w) as [[r| |]|] eqn:E; [|by vm_compute in E..].
  destruct (proj2 (proj2 (@TestSign_reports_signature _ U C sample_hash_laws K B
    (@LinuxLaws.backend_laws U C) sample_test_sign w)) r E)
    as (h & sum & pad & d & sr & _ & Hh & _ & Hp & _ & Hd & Hs & _ & _ & Hx & _).
  assert (tr_HashAlgorithm r = "SHA-256" ∧ tr_Padding r = "PSS") as [Er Ep]
    by (vm_compute in E; injection E as <-; split; reflexivity).
  rewrite Er in Hh. rewrite Ep in Hp. injection Hh as <- _. injection Hp as <-.
  exists r, d, sr. split_and!; [reflexivity|exact Er|exact Ep| |exact Hs|exact Hx].
  apply DigestSize_valid in Hd. unfold HashSHA256, HashSHA384, HashSHA512 in Hd. lia.
Defined.
