(* ===== verification/ServerMain.v ===== *)
(** * [cmd/cert-server]

    The server command: it cuts its log file down to a size, opens it, loads
    the certificate directory and the TLS configuration, and listens.  The state
    in which it starts to serve is the result; serving itself is [CertService]
    (with the interceptor) and [Discovery]. *)

From stdpp Require Import base list sets gmap strings.
From Stdlib Require Import ZArith Lia Ascii.
From S2P Require Import Prelude WinSys GoStrings GoNet GoText GoCrypto Samples CertTypes CertFileStore.
From S2P Require Import CertService Discovery TlsUtil KspClient ClientWorld.

(** The calls on files: a file that is opened is a number. *)
Class Files (W : Type) := {
  os_Open : string → W → outcome Z * W;
  os_OpenFile_append : string → W → outcome Z * W;
  file_Seek : Z → Z → W → outcome () * W;
  io_ReadAll : Z → W → outcome (list Z) * W;
  file_Close : Z → W → () * W;
  os_WriteFile_perm : string → list Z → Z → W → outcome () * W;
  os_IsNotExist : error → bool;
}.

Class Machine (W : Type) := {
  net_Listen : string → W → outcome Z * W;
  os_Hostname : W → outcome string;
}.

Definition logFileName : string := "cert-server.log".
Definition maxLogSize : Z := 5 * 1024 * 1024.

(** [bytes.IndexByte]; [None] is -1. *)
Fixpoint bytes_IndexByte (l : list Z) (c : Z) : option nat :=
  match l with
  | [] => None
  | x :: l => if (x =? c)%Z then Some 0%nat else S <$> bytes_IndexByte l c
  end.

(** The tail without the line it starts in the middle of, unless nothing else
    would be left. *)
Definition drop_partial_line (tail : list Z) : list Z :=
  match bytes_IndexByte tail 10 with
  | Some i => if (S i <? length tail)%nat then drop (S i) tail else tail
  | None => tail
  end.

Section truncate.
Context {W : Type} `{Stat W} `{Files W}.

Definition truncateLogFile (path : string) (maxSize : Z) : M W () :=
  info ← with_store (λ w, Ret (os_Stat path w));
  match info with
  | Panic => lift Panic
  | Fail err => if os_IsNotExist err then mret () else lift (Fail err)
  | Ret info =>
      if (fi_Size info <=? maxSize)%Z then mret ()
      else
        r ← sys (os_Open path);
        f ← lift r;
        with_defer (sys (file_Close f))
          (o ← sys (file_Seek f (fi_Size info - maxSize));
           _ ← lift o;
           t ← sys (io_ReadAll f);
           tail ← lift t;
           o ← sys (os_WriteFile_perm path (drop_partial_line tail) (fi_Perm info));
           lift o)
  end.
End truncate.

(** ** Starting the server *)

Record server_flags := {
  sf_addr : string;
  sf_ca : string;
  sf_cert : string;
  sf_key : string;
  sf_verbose : bool;
  sf_certDir : string;
  sf_discovery : bool;
  sf_discoveryAddr : string;
}.

(** The server as it starts to serve: its listener, its TLS configuration, the
    certificates it exposes, the interceptor's mode, the discovery it runs, and
    the lines it logged. *)
Record Serving := {
  sv_listener : Z;
  sv_tls : Config;
  sv_store : FileStore;
  sv_verbose : bool;
  sv_discovery : option DiscoveryConfig;
  sv_log : list string;
}.

Section startup.
Context {W : Type} `{Unicode} `{Crypto} `{Tls} `{Stat W} `{Files W} `{Machine W} `{Disk W}.

Definition banner (f : server_flags) (hostname : string) : string :=
  "cert-server listening on " +:+ sf_addr f +:+ " hostname=" +:+ hostname +:+
  " (mTLS, RSA padding: pkcs1|pss" +:+
  (if sf_discovery f then ", UDP discovery on " +:+ sf_discoveryAddr f else "") +:+
  (if sf_verbose f then ", verbose logging enabled" else "") +:+ ")".

(** An error ends the program ([log.Fatalf]). *)
Definition start_server (f : server_flags) : M W Serving :=
  t ← try (truncateLogFile logFileName maxLogSize);
  _ ← lift (wrapf "truncate log file" t);
  r ← sys (os_OpenFile_append logFileName);
  _ ← lift (wrapf "open log file" r);
  store ← (if negb (bool_decide (sf_certDir f = "")) then
             r ← with_files (λ fs, SetCertDir (sf_certDir f) init_FileStore);
             _ ← lift (wrapf "cert-dir" r.1);
             mret r.2
           else mret init_FileStore);
  tlsConfig ← with_files (λ fs, LoadServerTLSConfig (sf_ca f) (sf_cert f) (sf_key f));
  tlsConfig ← lift (wrapf "tls config" tlsConfig);
  r ← sys (net_Listen (sf_addr f));
  lis ← lift (wrapf "listen" r);
  hostname ← with_store (λ w, Ret (match os_Hostname w with Ret h => h | _ => "unknown" end));
  mret {| sv_listener := lis; sv_tls := tlsConfig; sv_store := store; sv_verbose := sf_verbose f;
          sv_discovery :=
            (if sf_discovery f
             then Some {| ListenAddr := sf_discoveryAddr f; cfg_GRPCAddr := sf_addr f; cfg_Service := "" |}
             else None);
          sv_log := (if bool_decide (sf_certDir f = "") then []
                     else ["cert store: file-based store from " +:+ sf_certDir f]) ++ [banner f hostname] |}.
End startup.

(** ** Files *)

(** The content of the files, and what an open file reads: whose it is and
    from where. *)
Class FilesLaws (W : Type) `{Stat W} `{Files W} := {
  content : W → string → option (list Z);
  file_at : W → Z → option (string * Z);
  stat_law p w : match os_Stat p w with
                 | Ret i => ∃ c, content w p = Some c ∧ fi_Size i = Z.of_nat (length c)
                 | Fail e => os_IsNotExist e = true → content w p = None
                 | Panic => True
                 end;
  open_law p w r w' : os_Open p w = (r, w') →
    content w' = content w ∧ ∀ h, r = Ret h → file_at w' h = Some (p, 0%Z);
  seek_law h n w r w' : file_Seek h n w = (r, w') →
    content w' = content w ∧
    ∀ p m, r = Ret () → (0 ≤ n)%Z → file_at w h = Some (p, m) → file_at w' h = Some (p, n);
  readall_law h w r w' : io_ReadAll h w = (r, w') →
    content w' = content w ∧
    ∀ d p n, r = Ret d → file_at w h = Some (p, n) →
      ∃ c, content w p = Some c ∧ d = drop (Z.to_nat n) c;
  close_law h w : content (file_Close h w).2 = content w;
  write_law p d perm w r w' : os_WriteFile_perm p d perm w = (r, w') →
    (r = Ret () → content w' p = Some d) ∧ ∀ q, q ≠ p → content w' q = content w q;
}.

(** What is left of a log: the longest tail that fits, from its second line
    on when it has one. *)
Definition truncated (maxSize : Z) (c : list Z) : list Z :=
  if (Z.of_nat (length c) <=? maxSize)%Z then c
  else drop_partial_line (drop (length c - Z.to_nat maxSize) c).

Lemma bytes_IndexByte_Some l c i :
  bytes_IndexByte l c = Some i → ∃ a b, l = a ++ c :: b ∧ length a = i ∧ (c ∉ a).
Proof.
  revert i. induction l as [|x l IH]; intros i; simpl; [done|].
  destruct (Z.eqb_spec x c) as [->|Hx]; [intros [= <-]; exists [], l; split_and!; [done..|set_solver]|].
  destruct (bytes_IndexByte l c) as [j|]; [|done]. intros [= <-].
  destruct (IH j eq_refl) as (a & b & -> & <- & Ha). exists (x :: a), b. split_and!; [done..|set_solver].
Qed.

Lemma bytes_IndexByte_None l c : bytes_IndexByte l c = None → c ∉ l.
Proof.
  induction l as [|x l IH]; simpl; [set_solver|]. destruct (Z.eqb_spec x c); [done|].
  destruct (bytes_IndexByte l c); [done|]. set_solver.
Qed.

(** The part that is kept is a tail, and it starts a line unless the whole
    tail is one line. *)
Lemma drop_partial_line_spec tail :
  ∃ dropped, tail = dropped ++ drop_partial_line tail ∧
    ((∃ a, dropped = a ++ [10%Z] ∧ (10%Z ∉ a) ∧ drop_partial_line tail ≠ []) ∨
     (dropped = [] ∧ ∀ a b, tail = a ++ 10%Z :: b → b = [])).
Proof.
  unfold drop_partial_line. destruct (bytes_IndexByte tail 10) as [i|] eqn:Hi.
  - apply bytes_IndexByte_Some in Hi as (a & b & -> & <- & Ha). rewrite length_app. simpl length.
    destruct (Nat.ltb_spec (S (length a)) (length a + S (length b))) as [Hl|Hl].
    + exists (a ++ [10%Z]).
      assert (drop (S (length a)) (a ++ 10%Z :: b) = b) as ->.
      { rewrite (app_assoc a [10%Z] b : a ++ 10%Z :: b = (a ++ [10%Z]) ++ b).
        apply drop_app_length'. rewrite length_app. simpl. lia. }
      split; [by rewrite <- app_assoc|]. left. exists a. split_and!; [done..|]. by intros ->; simpl in Hl; lia.
    + exists []. split; [done|]. right. split; [done|]. destruct b; [|simpl in Hl; lia].
      intros a' b' Heq. destruct b' as [|y b' _] using rev_ind; [done|].
      rewrite (app_assoc a' (10%Z :: b') [y] : a' ++ 10%Z :: b' ++ [y] = _) in Heq. apply app_inj_tail in Heq as [-> _]. set_solver.
  - exists []. split; [done|]. right. split; [done|]. intros a b ->. apply bytes_IndexByte_None in Hi. set_solver.
Qed.

Section truncate_proofs.
Context {W : Type} `{FilesLaws W}.
Implicit Types (w : W).

(** Up to the final write nothing changes, and the handle reads the log. *)
Definition same_files (w w' : W) : Prop := content w' = content w.

Lemma truncate_triple path maxSize w0 :
  (0 ≤ maxSize)%Z →
  triple (λ w, w = w0) (truncateLogFile path maxSize)
    (λ _ w, (content w0 path = None ∧ same_files w0 w) ∨
       ∃ c, content w0 path = Some c ∧ content w path = Some (truncated maxSize c) ∧
            ∀ q, q ≠ path → content w q = content w0 q)
    (λ w, ∀ q, q ≠ path → content w q = content w0 q).
Proof.
  intros Hmax. unfold truncateLogFile, with_store. intros w ->. rewrite bind_run.
  pose proof (stat_law path w0) as Hstat. destruct (os_Stat path w0) as [info|e|]; [|simpl|done].
  2: { destruct (os_IsNotExist e); simpl; [left; by split; [apply Hstat|]|done]. }
  destruct Hstat as (c & Hc & Hsize).
  destruct (Z.leb_spec (fi_Size info) maxSize) as [Hle|Hgt].
  { simpl. right. exists c. unfold truncated. rewrite <- Hsize.
    destruct (Z.leb_spec (fi_Size info) maxSize); [done|lia]. }
  set (tr := truncated maxSize c).
  assert (triple (λ w, w = w0)
    (r ← sys (os_Open path); f ← lift r;
     with_defer (sys (file_Close f))
       (o ← sys (file_Seek f (fi_Size info - maxSize)); _ ← lift o;
        t ← sys (io_ReadAll f); tail ← lift t;
        o ← sys (os_WriteFile_perm path (drop_partial_line tail) (fi_Perm info)); lift o))
    (λ _ w, content w path = Some tr ∧ ∀ q, q ≠ path → content w q = content w0 q)
    (λ w, ∀ q, q ≠ path → content w q = content w0 q)) as Ht.
  2: { specialize (Ht w0 eq_refl). cbn [fst snd].
       match goal with |- context [(?m ≫= ?k) w0] => destruct ((m ≫= k) w0) as [[[[a|e|]|] w'] ev] end;
         try done. right. exists c. naive_solver. }
  apply (triple_sys_then _ _ _ (λ r w, same_files w0 w ∧ ∀ h, r = Ret h → file_at w h = Some (path, 0%Z))).
  { intros w ->. destruct (os_Open path w0) as [r w'] eqn:E. by apply open_law in E. }
  intros r. apply triple_lift_then; [intros e w _ [Hs _]; by rewrite Hs|]. intros h ->.
  eapply (triple_defer _ _ _ (λ _ w, content w path = Some tr ∧ ∀ q, q ≠ path → content w q = content w0 q)
    (λ w, ∀ q, q ≠ path → content w q = content w0 q)).
  2: { intros a w. unfold sys. pose proof (close_law h w) as Hk. destruct (file_Close h w) as [[] w'].
       simpl in *. by rewrite Hk. }
  2: { intros w. unfold sys. pose proof (close_law h w) as Hk. destruct (file_Close h w) as [[] w'].
       simpl in *. by rewrite Hk. }
  apply (triple_sys_then _ _ _ (λ o w, same_files w0 w ∧
    (o = Ret () → file_at w h = Some (path, (fi_Size info - maxSize)%Z)))).
  { intros w [Hs Hf]. destruct (file_Seek _ _ w) as [o w'] eqn:E. apply seek_law in E as [Hs' Hf'].
    simpl. split; [unfold same_files in *; congruence|]. intros ->. eapply Hf'; [done|lia|by apply Hf]. }
  intros o. apply triple_lift_then; [intros e w _ [Hs _]; by rewrite Hs|]. intros [] ->.
  apply (triple_sys_then _ _ _ (λ t w, same_files w0 w ∧
    (∀ d, t = Ret d → drop_partial_line d = tr))).
  { intros w [Hs Hf]. destruct (io_ReadAll h w) as [t w'] eqn:E. apply readall_law in E as [Hs' Hd].
    simpl. split; [unfold same_files in *; congruence|]. intros d ->.
    destruct (Hd d path _ eq_refl (Hf eq_refl)) as (c' & Hc' & ->). rewrite Hs, Hc in Hc'. injection Hc' as <-.
    subst tr. unfold truncated. destruct (Z.leb_spec (Z.of_nat (length c)) maxSize); [lia|].
    do 2 f_equal. lia. }
  intros t. apply triple_lift_then; [intros e w _ [Hs _]; by rewrite Hs|]. intros tail ->.
  apply (triple_sys_then _ _ _ (λ o w, (o = Ret () → content w path = Some tr) ∧
    ∀ q, q ≠ path → content w q = content w0 q)).
  { intros w [Hs Hd]. rewrite (Hd tail eq_refl).
    destruct (os_WriteFile_perm path tr (fi_Perm info) w) as [o w'] eqn:E.
    apply write_law in E as [Hw Hq]. simpl. split; [done|]. intros q Hne. by rewrite Hq, Hs. }
  intros o w [Ho Hq]. destruct o as [[]|e|]; simpl; auto.
Qed.
End truncate_proofs.

(** A server only starts with a TLS configuration that requires a client
    certificate, and a store that [SetCertDir] made. *)
Section startup_proofs.
Context {W : Type} `{Unicode} `{Crypto} `{Tls} `{Stat W} `{Files W} `{Machine W} `{Disk W}.

Lemma start_server_safe (f : server_flags) :
  returns (OS := W) (start_server f) (λ s,
    ClientAuth (sv_tls s) = RequireAndVerifyClientCert ∧ MinVersion (sv_tls s) = VersionTLS12 ∧
    reachable (sv_store s) ∧ (sf_certDir f = "" → sv_store s = init_FileStore) ∧
    (sf_certDir f ≠ "" → fileStoreDir (sv_store s) = sf_certDir f)).
Proof.
  unfold start_server. do 4 (eapply returns_bind; [apply returns_true|intros ? _]).
  apply (returns_bind _ _ (λ s, reachable s ∧ (sf_certDir f = "" → s = init_FileStore) ∧
    (sf_certDir f ≠ "" → fileStoreDir s = sf_certDir f))).
  { case_bool_decide as Hd; simpl; [by apply returns_ret; split; [constructor|]|].
    apply (returns_bind _ _ (λ r, ∃ fs : FileSystem, r = SetCertDir (sf_certDir f) init_FileStore)).
    { intros w r [= <-]. by eexists. }
    intros r [fs ->]. unfold SetCertDir at 1 2. rewrite bool_decide_eq_false_2 by done.
    eapply returns_bind; [apply returns_lift; intros x Hx%wrapf_Ret_inv; exact Hx|].
    intros [] Hr. apply returns_ret.
    destruct (loadCertDir (sf_certDir f)) as [ids|e|] eqn:El; try done.
    split; [|split; [done|done]].
    pose proof (reach_SetCertDir fs (sf_certDir f) init_FileStore reach_init) as Hre.
    unfold SetCertDir in Hre. rewrite bool_decide_eq_false_2, El in Hre by done. exact Hre. }
  intros store Hstore.
  apply (returns_bind _ _ (λ o, ∀ cfg, o = Ret cfg →
    ClientAuth cfg = RequireAndVerifyClientCert ∧ MinVersion cfg = VersionTLS12)).
  { intros w o [= <-] cfg Hcfg. unfold LoadServerTLSConfig in Hcfg.
    by apply bind_Ret_inv in Hcfg as ([pool cert] & _ & [= <-]). }
  intros tls Htls. eapply returns_bind; [apply returns_lift; intros cfg Hcfg%wrapf_Ret_inv; exact (Htls cfg Hcfg)|].
  intros cfg [Hauth Hmin]. do 3 (eapply returns_bind; [apply returns_true|intros ? _]).
  by apply returns_ret.
Qed.
End startup_proofs.

(** ** A concrete file system *)

(** The files, and the open handles with their positions. *)
Record SampleFiles := {
  sm_files : gmap string (list Z);
  sm_open : gmap Z (string * Z);
}.

Definition sample_stat : Stat SampleFiles := {|
  os_Stat p w := match sm_files w !! p with
                 | Some c => Ret {| fi_Size := Z.of_nat (length c); fi_Perm := 420 |}
                 | None => Fail (Foreign 2 "no such file")
                 end;
|}.
Definition sample_files : Files SampleFiles := {|
  os_Open p w := (Ret 3%Z, {| sm_files := sm_files w; sm_open := <[3%Z := (p, 0%Z)]> (sm_open w) |});
  os_OpenFile_append p w := (Ret 4%Z, w);
  file_Seek h n w :=
    (Ret (), {| sm_files := sm_files w; sm_open := alter (λ x, (x.1, n)) h (sm_open w) |});
  io_ReadAll h w :=
    (match sm_open w !! h with
     | Some (p, n) => match sm_files w !! p with
                      | Some c => Ret (drop (Z.to_nat n) c)
                      | None => Fail (Foreign 2 "no such file")
                      end
     | None => Fail (Foreign 9 "bad file descriptor")
     end, w);
  file_Close h w := ((), {| sm_files := sm_files w; sm_open := delete h (sm_open w) |});
  os_WriteFile_perm p d _ w := (Ret (), {| sm_files := <[p := d]> (sm_files w); sm_open := sm_open w |});
  os_IsNotExist e := bool_decide (e = Foreign 2 "no such file");
|}.

Definition sample_files_laws : @FilesLaws SampleFiles sample_stat sample_files.
Proof.
  refine (@Build_FilesLaws _ sample_stat sample_files (λ w p, sm_files w !! p) (λ w h, sm_open w !! h)
    _ _ _ _ _ _); simpl.
  - intros p w. destruct (sm_files w !! p) as [c|] eqn:E; [by exists c|done].
  - intros p w r w' [= <- <-]. split; [done|]. intros h [= <-]. apply lookup_insert_eq.
  - intros h n w r w' [= <- <-]. split; [done|]. intros p m _ _ Hm. simpl. by rewrite lookup_alter_eq, Hm.
  - intros h w r w' [= <- <-]. split; [done|]. intros d p n. destruct (sm_open w !! h) as [[p' n']|]; [|done].
    destruct (sm_files w !! p') as [c|] eqn:E; [|done]. intros [= <-] [= <- <-]. by exists c.
  - done.
  - intros p d perm w r w' [= <- <-]. split; [intros _; apply lookup_insert_eq|].
    intros q Hq. simpl. by rewrite lookup_insert_ne.
Defined.

(** ** Properties *)

(** C21: truncating the log keeps a tail of whole lines.  When [truncateLogFile]
    succeeds on a log, what it leaves is a suffix of the log of at most
    [maxSize] bytes: the log itself when it fits; otherwise its last [maxSize]
    bytes from their second line on, or all of them when they hold no line
    break before their last byte.  A missing log stays missing, and no other
    file changes, whether the call succeeds or fails. *)
Theorem truncateLogFile_keeps_tail {W} `{FilesLaws W} (path : string) (maxSize : Z) (w : W) :
  (0 ≤ maxSize)%Z →
  let m := truncateLogFile path maxSize in
  let w' := world_after m w in
  (∀ o, result m w = Done o → o ≠ Panic → ∀ q, q ≠ path → content w' q = content w q) ∧
  (result m w = Done (Ret ()) →
     match content w path with
     | None => content w' path = None
     | Some log => ∃ dropped kept, content w' path = Some kept ∧ log = dropped ++ kept ∧
         (Z.of_nat (length kept) ≤ maxSize)%Z ∧
         ((Z.of_nat (length log) ≤ maxSize)%Z → dropped = []) ∧
         ((maxSize < Z.of_nat (length log))%Z →
            (∃ before, dropped = before ++ [10%Z] ∧ kept ≠ []) ∨
            (Z.of_nat (length kept) = maxSize ∧ ∀ a b, kept = a ++ 10%Z :: b → b = []))
     end).
Proof.
  intros Hmax m w'. pose proof (truncate_triple path maxSize w Hmax) as Ht.
  apply (triple_run _ _ _ _ w) in Ht as [Hr Hf]; [|done]. fold m w' in Hr, Hf. split.
  - intros [[]|e|] Ho Hp q Hq; [|by apply (Hf e)|done].
    destruct (Hr () Ho) as [[_ Hs]|(c & _ & _ & Hall)]; [by rewrite Hs|by apply Hall].
  - intros Ho. destruct (Hr () Ho) as [[Hc Hs]|(log & Hc & Hc' & _)]; rewrite Hc; [by rewrite Hs|].
    unfold truncated in Hc'. destruct (Z.leb_spec (Z.of_nat (length log)) maxSize) as [Hle|Hgt].
    { exists [], log. split_and!; [done..|lia]. }
    set (n := (length log - Z.to_nat maxSize)%nat) in *.
    destruct (drop_partial_line_spec (drop n log)) as (d & Hd & Hcase).
    set (kept := drop_partial_line (drop n log)) in *.
    assert (length (drop n log) = Z.to_nat maxSize) as Hlen by (rewrite length_drop; lia).
    rewrite Hd, length_app in Hlen.
    exists (take n log ++ d), kept. split; [done|].
    split; [by rewrite <- app_assoc, <- Hd, take_drop|]. split; [lia|]. split; [lia|]. intros _.
    destruct Hcase as [(a & -> & _ & Hne)|(-> & Hone)].
    + left. exists (take n log ++ a). by rewrite app_assoc.
    + right. simpl in Hlen, Hd. rewrite Hd in Hone. split; [lia|exact Hone].
Qed.

Lemma truncateLogFile_keeps_tail_witness :
  let S := sample_stat in let F := sample_files in let L := sample_files_laws in
  let w := {| sm_files := {[ "log"%string := [97; 10; 98; 98; 10; 99; 10]%Z ]}; sm_open := ∅ |} in
  let m := truncateLogFile "log" 4 in
  result m w = Done (Ret ()) ∧ sm_files (world_after m w) !! "log"%string = Some [99; 10]%Z ∧
  ∃ dropped kept, content (world_after m w) "log" = Some kept ∧ (Z.of_nat (length kept) ≤ 4)%Z ∧
    [97; 10; 98; 98; 10; 99; 10]%Z = dropped ++ kept.
Proof.
  intros S F L w m. assert (result m w = Done (Ret ())) as Hm by (vm_compute; reflexivity).
  split; [exact Hm|]. split; [vm_compute; reflexivity|].
  destruct (proj2 (@truncateLogFile_keeps_tail SampleFiles S F L "log" 4 w ltac:(lia)) Hm)
    as (dropped & kept & Hk & Hl & Hlen & _).
  exists dropped, kept. split; [exact Hk|]. split; [exact Hlen|exact Hl].
Defined.
