(* ===== verification/KspRegister.v ===== *)
(** * [internal/kspregister] and [cmd/ksp-register]

    Registering the key storage provider with the Windows configuration
    registry, removing it, and listing the registered providers.
    [register_windows.go] is modelled over the BCrypt configuration calls;
    [register_stub.go] refuses. *)

From stdpp Require Import base list sets gmap strings.
From Stdlib Require Import ZArith Lia Ascii.
From S2P Require Import Prelude WinSys GoStrings Samples KspClient.

(** ** The configuration calls *)

(** [CRYPT_INTERFACE_REG], [CRYPT_IMAGE_REG] and [CRYPT_PROVIDER_REG], with what
    their pointers point to. *)
Record CRYPT_INTERFACE_REG := {
  dwInterface : Z;
  dwFlags : Z;
  rgpszFunctions : list string;
}.
Record CRYPT_IMAGE_REG := {
  pszImage : string;
  rgpInterfaces : list CRYPT_INTERFACE_REG;
}.
Record CRYPT_PROVIDER_REG := {
  rgpszAliases : list string;
  pUM : option CRYPT_IMAGE_REG;
  pKM : option CRYPT_IMAGE_REG;
}.

(** The buffer of [BCryptEnumRegisteredProviders]: its address, the count it
    holds and the UTF-16 strings its array of pointers leads to. *)
Record cryptProviders := {
  buf_addr : Z;
  cProviders : Z;
  rgpszProviders : list (list Z);
}.

(** A table, an interface and a function of the default context. *)
Definition function_key : Type := Z * Z * string.

(** The calls return an NTSTATUS, a signed 32-bit integer; [procEnum.Call]
    gives the machine word it arrives in. *)
Class Bcrypt (OS : Type) := {
  BCryptRegisterProvider : string → Z → CRYPT_PROVIDER_REG → OS → Z * OS;
  BCryptUnregisterProvider : string → OS → Z * OS;
  BCryptAddContextFunction : function_key → Z → OS → Z * OS;
  BCryptAddContextFunctionProvider : function_key → string → Z → OS → Z * OS;
  BCryptRemoveContextFunctionProvider : function_key → string → OS → Z * OS;
  BCryptEnumRegisteredProviders : OS → (Z * option cryptProviders) * OS;
  BCryptFreeBuffer : Z → OS → () * OS;
  UTF16PtrToString : list Z → string;
}.

Definition CRYPT_LOCAL : Z := 1.
Definition CRYPT_PRIORITY_TOP : Z := 0.
Definition NCRYPT_KEY_STORAGE_INTERFACE : Z := 0x10001.
Definition NCRYPT_KEY_STORAGE_ALGORITHM : string := "KEY_STORAGE".

(** ** [register_windows.go] *)

Definition ksp_name : string := "Fred Proxy Key Storage Provider".

Definition tpmcertAlgorithmNames : list string := [NCRYPT_KEY_STORAGE_ALGORITHM].
Definition tpmcertAlgorithmClass : CRYPT_INTERFACE_REG := {|
  dwInterface := NCRYPT_KEY_STORAGE_INTERFACE;
  dwFlags := CRYPT_LOCAL;
  rgpszFunctions := tpmcertAlgorithmNames;
|}.
Definition tpmcertKspImage : CRYPT_IMAGE_REG := {|
  pszImage := "fredprx_ksp.dll";
  rgpInterfaces := [tpmcertAlgorithmClass];
|}.
Definition tpmcertKspProvider : CRYPT_PROVIDER_REG := {|
  rgpszAliases := [];
  pUM := Some tpmcertKspImage;
  pKM := None;
|}.

Definition key_storage : function_key :=
  (CRYPT_LOCAL, NCRYPT_KEY_STORAGE_INTERFACE, NCRYPT_KEY_STORAGE_ALGORITHM).

(** [%08X]: upper-case hexadecimal, at least eight digits. *)
Fixpoint leading_zeros (s : string) : nat :=
  match s with
  | String c s => if decide (c = "0"%char) then S (leading_zeros s) else O
  | EmptyString => O
  end.
Definition hex_08X (n : Z) : string :=
  let s := string_map upper_byte (hex_EncodeToString (be_bytes 8 n)) in
  string_drop (Nat.min 8 (leading_zeros s)) s.

Definition ntstatus_error (call : string) (st : Z) : error :=
  ErrNew (call +:+ ": NTSTATUS 0x" +:+ hex_08X st).

Definition isIgnorableNotFound (st : Z) : bool :=
  ((st =? 0) || (st =? 0xC0000034) || (st =? 0xC0000225))%Z.

Section register.
Context {OS : Type} `{Bcrypt OS}.

Definition tpmcertRegisterProvider : M OS Z :=
  sys (BCryptRegisterProvider ksp_name 0 tpmcertKspProvider).
Definition tpmcertAddContextFunction : M OS Z :=
  sys (BCryptAddContextFunction key_storage CRYPT_PRIORITY_TOP).
Definition tpmcertAddContextFunctionProvider : M OS Z :=
  sys (BCryptAddContextFunctionProvider key_storage ksp_name CRYPT_PRIORITY_TOP).
Definition tpmcertRemoveContextFunctionProvider : M OS Z :=
  sys (BCryptRemoveContextFunctionProvider key_storage ksp_name).
Definition tpmcertUnregisterProvider : M OS Z :=
  sys (BCryptUnregisterProvider ksp_name).

Definition Unregister : M OS () :=
  r ← tpmcertRemoveContextFunctionProvider;
  let st := to_u32 r in
  let lastErr :=
    if isIgnorableNotFound st then None
    else Some (ntstatus_error "BCryptRemoveContextFunctionProvider" st) in
  r ← tpmcertUnregisterProvider;
  let st := to_u32 r in
  let lastErr :=
    if isIgnorableNotFound st then lastErr
    else match lastErr with
         | None => Some (ntstatus_error "BCryptUnregisterProvider" st)
         | Some e => Some e
         end in
  match lastErr with
  | None => mret ()
  | Some e => lift (Fail e)
  end.

(** [if st := uint32(call()); st != 0 && st != 0xC0000035 { return ... }]. *)
Definition must_add (name : string) (call : M OS Z) : M OS () :=
  r ← call;
  let st := to_u32 r in
  if negb (st =? 0)%Z && negb (st =? 0xC0000035)%Z
  then lift (Fail (ntstatus_error name st)) else mret ().

Definition Register : M OS () :=
  _ ← try Unregister;
  _ ← must_add "BCryptRegisterProvider" tpmcertRegisterProvider;
  _ ← must_add "BCryptAddContextFunction" tpmcertAddContextFunction;
  must_add "BCryptAddContextFunctionProvider" tpmcertAddContextFunctionProvider.

(** The pointers are read one after the other; behind the last one is memory
    that is not the buffer's. *)
Fixpoint read_providers (buf : cryptProviders) (i n : nat) : outcome (list string) :=
  match n with
  | O => Ret []
  | S n =>
      match rgpszProviders buf !! i with
      | Some w => out ← read_providers buf (S i) n; Ret (UTF16PtrToString w :: out)
      | None => Panic
      end
  end.

Definition EnumProviders : M OS (list string) :=
  r ← sys BCryptEnumRegisteredProviders;
  let '(status, buf) := r in
  if negb (status =? 0)%Z
  then lift (Fail (ntstatus_error "BCryptEnumRegisteredProviders" status))
  else match buf with
       | None => mret []
       | Some buf =>
           _ ← emit (Acquire (RBuf (buf_addr buf)));
           with_defer (_ ← emit (Release (RBuf (buf_addr buf))); sys (BCryptFreeBuffer (buf_addr buf)))
             (_ ← emit (Use (RBuf (buf_addr buf)));
              lift (read_providers buf 0 (Z.to_nat (cProviders buf))))
       end.
End register.

(** ** [register_stub.go] *)

Module Register_stub.
Definition Register : outcome () := Fail (ErrNew "ksp-register requires Windows").
Definition Unregister : outcome () := Fail (ErrNew "ksp-register requires Windows").
Definition EnumProviders : outcome (list string) := Fail (ErrNew "ksp-register requires Windows").
End Register_stub.

(** ** [cmd/ksp-register] *)

(** What a command leaves behind: the lines it wrote and its exit code. *)
Record console := { stdout : list string; stderr : list string; exit_code : Z }.

Section command.
Context {OS : Type} `{Bcrypt OS} `{Unicode}.

Definition usage : console := {|
  stdout := [];
  stderr := ["Usage: ksp-register -register | -unregister | -enum"];
  exit_code := 1;
|}.
Definition fatal (e : error) : console :=
  {| stdout := []; stderr := ["error: " +:+ Error e]; exit_code := 1 |}.
Definition printed (l : list string) : console := {| stdout := l; stderr := []; exit_code := 0 |}.

Definition or_fatal {A} (m : M OS A) (ok : A → list string) : M OS console :=
  r ← try m;
  match r with
  | Ret a => mret (printed (ok a))
  | Fail e => mret (fatal e)
  | Panic => lift Panic
  end.

Definition ksp_register_main (args : list string) : M OS console :=
  match args with
  | [] => mret usage
  | arg :: _ =>
      let cmd := ToLower arg in
      if decide (cmd ∈ ["-register"; "register"]) then
        or_fatal Register (λ _, ["Registered Fred Proxy Key Storage Provider."])
      else if decide (cmd ∈ ["-unregister"; "unregister"]) then
        or_fatal Unregister (λ _, ["Unregistered Fred Proxy Key Storage Provider."])
      else if decide (cmd ∈ ["-enum"; "enum"]) then or_fatal EnumProviders id
      else mret usage
  end.
End command.

(** ** The configuration *)

(** What the calls read and change: the registered providers, the functions
    of each table and interface, and the providers of each function in order of
    priority. *)
Record BcryptConfig := {
  cf_providers : gmap string CRYPT_PROVIDER_REG;
  cf_functions : gset function_key;
  cf_bindings : gmap function_key (list string);
}.
Definition bindings_of (c : BcryptConfig) (k : function_key) : list string :=
  default [] (cf_bindings c !! k).

Definition set_providers (c : BcryptConfig) m : BcryptConfig :=
  {| cf_providers := m; cf_functions := cf_functions c; cf_bindings := cf_bindings c |}.
Definition set_function (c : BcryptConfig) k : BcryptConfig :=
  {| cf_providers := cf_providers c; cf_functions := {[k]} ∪ cf_functions c;
     cf_bindings := cf_bindings c |}.
Definition set_binding (c : BcryptConfig) k l : BcryptConfig :=
  {| cf_providers := cf_providers c; cf_functions := cf_functions c;
     cf_bindings := <[k := l]> (cf_bindings c) |}.

Definition collision (st : Z) : Prop := to_u32 st = 0xC0000035%Z.
Definition not_found (st : Z) : Prop := to_u32 st = 0xC0000034%Z ∨ to_u32 st = 0xC0000225%Z.

(** The documented effect of an operation that succeeds with [done], answers
    [already] when [there] holds, and changes nothing unless it succeeds. *)
Definition effect (st : Z) (c c' done : BcryptConfig) (already : Prop) (there : Prop) : Prop :=
  (to_u32 st = 0%Z ∧ c' = done) ∨ (to_u32 st ≠ 0%Z ∧ c' = c ∧ (already → there)).

Class BcryptLaws (OS : Type) `{Bcrypt OS} := {
  config : OS → BcryptConfig;
  register_provider n f reg w st w' :
    BCryptRegisterProvider n f reg w = (st, w') →
    effect st (config w) (config w') (set_providers (config w) (<[n := reg]> (cf_providers (config w))))
      (collision st) (is_Some (cf_providers (config w) !! n));
  unregister_provider n w st w' :
    BCryptUnregisterProvider n w = (st, w') →
    effect st (config w) (config w') (set_providers (config w) (delete n (cf_providers (config w))))
      (not_found st) (cf_providers (config w) !! n = None);
  add_function k w st w' :
    BCryptAddContextFunction k CRYPT_PRIORITY_TOP w = (st, w') →
    effect st (config w) (config w') (set_function (config w) k)
      (collision st) (k ∈ cf_functions (config w));
  add_function_provider k n w st w' :
    BCryptAddContextFunctionProvider k n CRYPT_PRIORITY_TOP w = (st, w') →
    effect st (config w) (config w') (set_binding (config w) k (n :: filter (λ m, m ≠ n) (bindings_of (config w) k)))
      (collision st) (n ∈ bindings_of (config w) k);
  remove_function_provider k n w st w' :
    BCryptRemoveContextFunctionProvider k n w = (st, w') →
    effect st (config w) (config w')
      (set_binding (config w) k (filter (λ m, m ≠ n) (bindings_of (config w) k)))
      (not_found st) (n ∉ bindings_of (config w) k);
  enum_providers w st buf w' :
    BCryptEnumRegisteredProviders w = ((st, buf), w') →
    config w' = config w ∧
    (st = 0%Z → match buf with
      | Some b => cProviders b = Z.of_nat (length (rgpszProviders b)) ∧
                  ∀ n, n ∈ UTF16PtrToString <$> rgpszProviders b ↔ is_Some (cf_providers (config w) !! n)
      | None => cf_providers (config w) = ∅
      end);
}.

(** *** Lemmas *)

(** Nothing but the provider's own entries differs. *)
Definition same_others (c c' : BcryptConfig) : Prop :=
  (∀ n, n ≠ ksp_name → cf_providers c' !! n = cf_providers c !! n) ∧
  (∀ k, k ≠ key_storage → (k ∈ cf_functions c' ↔ k ∈ cf_functions c) ∧ bindings_of c' k = bindings_of c k) ∧
  filter (λ m, m ≠ ksp_name) (bindings_of c' key_storage) =
  filter (λ m, m ≠ ksp_name) (bindings_of c key_storage).

Lemma same_others_refl c : same_others c c.
Proof. done. Qed.

Lemma filter_twice {A} (P : A → Prop) `{∀ x, Decision (P x)} (l : list A) :
  filter P (filter P l) = filter P l.
Proof. rewrite list_filter_filter. apply list_filter_iff. intros x. tauto. Qed.

Lemma bindings_set_binding c k l : bindings_of (set_binding c k l) k = l.
Proof. unfold bindings_of. simpl. by rewrite lookup_insert_eq. Qed.

Lemma bindings_set_binding_ne c k k' l : k ≠ k' → bindings_of (set_binding c k l) k' = bindings_of c k'.
Proof. intros Hk. unfold bindings_of. simpl. by rewrite lookup_insert_ne. Qed.

Lemma same_others_trans c1 c2 c3 : same_others c1 c2 → same_others c2 c3 → same_others c1 c3.
Proof.
  intros (P1 & F1 & B1) (P2 & F2 & B2). split; [|split].
  - intros n Hn. by rewrite P2, P1.
  - intros k Hk. destruct (F1 k Hk), (F2 k Hk). split; [tauto|congruence].
  - by rewrite B2.
Qed.

Lemma same_others_providers c m :
  (∀ n, n ≠ ksp_name → m !! n = cf_providers c !! n) → same_others c (set_providers c m).
Proof. by intros Hm. Qed.

Lemma same_others_function c : same_others c (set_function c key_storage).
Proof. split; [done|]. split; [|done]. intros k Hk. split; [simpl; set_solver|done]. Qed.

Lemma same_others_binding c l :
  filter (λ m, m ≠ ksp_name) l = filter (λ m, m ≠ ksp_name) (bindings_of c key_storage) →
  same_others c (set_binding c key_storage l).
Proof.
  intros Hl. split; [done|]. split.
  - intros k Hk. split; [done|]. by rewrite bindings_set_binding_ne.
  - by rewrite bindings_set_binding.
Qed.

(** The provider is registered under its name, with the registration of the
    code or one that was there before. *)
Definition registered (c c' : BcryptConfig) : Prop :=
  ∃ reg, cf_providers c' !! ksp_name = Some reg ∧
    (reg = tpmcertKspProvider ∨ cf_providers c !! ksp_name = Some reg).

Section register_proofs.
Context {OS : Type} `{BcryptLaws OS}.
Implicit Types (c : BcryptConfig) (w : OS).

(** A call that only touches the provider's entries. *)
Lemma call_triple c0 P (call : OS → Z * OS) (m : M OS ()) f (done : BcryptConfig → BcryptConfig)
    (already there : _ → Prop) (Q : BcryptConfig → Prop) :
  m = (r ← sys call; f r) →
  (∀ w st w', call w = (st, w') →
     effect st (config w) (config w') (done (config w)) (already st) (there (config w))) →
  (∀ c, same_others c0 c → same_others c0 (done c)) →
  (∀ st, ((to_u32 st = 0%Z ∨ already st) ∧ f st = mret ()) ∨ ∃ e, f st = lift (Fail e)) →
  (∀ c, P c → Q (done c)) → (∀ c, P c → there c → Q c) →
  triple (λ w, same_others c0 (config w) ∧ P (config w)) m
    (λ _ w, same_others c0 (config w) ∧ Q (config w)) (λ w, same_others c0 (config w)).
Proof.
  intros -> Hcall Hdone Hf HQ HQ'.
  apply (triple_sys_then _ _ _ (λ st w, same_others c0 (config w) ∧
    (to_u32 st = 0%Z ∨ already st → Q (config w)))).
  - intros w [Ho Hp]. destruct (call w) as [st w'] eqn:E. simpl.
    apply Hcall in E as [[Hs ->]|(Hs & -> & Ha)]; [by auto|]. split; [done|]. intros [?|?]; [done|auto].
  - intros st. destruct (Hf st) as [[Hok ->]|[e ->]].
    + apply triple_mret. naive_solver.
    + apply triple_fail. by intros w [].
Qed.

Definition added (name : string) (r : Z) : M OS () :=
  let st := to_u32 r in
  if negb (st =? 0)%Z && negb (st =? 0xC0000035)%Z
  then lift (Fail (ntstatus_error name st)) else mret ().

Lemma must_add_shape name st :
  ((to_u32 st = 0%Z ∨ collision st) ∧ added name st = mret ()) ∨
  ∃ e, added name st = lift (Fail e).
Proof.
  unfold added, collision. destruct (Z.eqb_spec (to_u32 st) 0); simpl; [by left; auto|].
  destruct (Z.eqb_spec (to_u32 st) 0xC0000035); simpl; [by left; auto|]. eauto.
Qed.

Lemma ignorable_spec st : isIgnorableNotFound (to_u32 st) = true ↔ to_u32 st = 0%Z ∨ not_found st.
Proof. unfold isIgnorableNotFound, not_found. rewrite !orb_true_iff, !Z.eqb_eq. tauto. Qed.

(** Nothing else changed, and a registration that is there was there before. *)
Definition cleared (c c' : BcryptConfig) : Prop :=
  same_others c c' ∧
  ∀ reg, cf_providers c' !! ksp_name = Some reg → cf_providers c !! ksp_name = Some reg.

Lemma Unregister_triple c0 :
  triple (λ w, cleared c0 (config w)) Unregister
    (λ _ w, cleared c0 (config w) ∧ (ksp_name ∉ bindings_of (config w) key_storage) ∧
            cf_providers (config w) !! ksp_name = None)
    (λ w, cleared c0 (config w)).
Proof.
  unfold Unregister, tpmcertRemoveContextFunctionProvider, tpmcertUnregisterProvider.
  apply (triple_sys_then _ _ _ (λ st w, cleared c0 (config w) ∧
    (isIgnorableNotFound (to_u32 st) = true → ksp_name ∉ bindings_of (config w) key_storage))).
  { intros w Ho. destruct (BCryptRemoveContextFunctionProvider _ _ w) as [st w'] eqn:E. simpl.
    rewrite ignorable_spec.
    apply remove_function_provider in E as [[Hs ->]|(Hs & -> & Ha)]; [|split; [done|by intros [?|?]; auto]].
    split.
    - split; [|apply Ho]. eapply same_others_trans; [apply Ho|]. apply same_others_binding.
      apply filter_twice.
    - intros _. rewrite bindings_set_binding, list_elem_of_filter. by intros [? _]. }
  intros st. apply (triple_sys_then _ _ _ (λ st' w, cleared c0 (config w) ∧
    (isIgnorableNotFound (to_u32 st) = true → ksp_name ∉ bindings_of (config w) key_storage) ∧
    (isIgnorableNotFound (to_u32 st') = true → cf_providers (config w) !! ksp_name = None))).
  { intros w [Ho Hb]. destruct (BCryptUnregisterProvider _ w) as [st' w'] eqn:E. simpl.
    rewrite (ignorable_spec st').
    apply unregister_provider in E as [[Hs ->]|(Hs & -> & Ha)]; [|split_and!; [done|done|by intros [?|?]; auto]].
    split_and!; [|done|intros _; apply lookup_delete_eq].
    split; [|simpl; by intros reg; rewrite lookup_delete_eq].
    eapply same_others_trans; [apply Ho|]. apply same_others_providers.
    intros n Hn. by apply lookup_delete_ne. }
  intros st'. cbv zeta. destruct (isIgnorableNotFound (to_u32 st)), (isIgnorableNotFound (to_u32 st'));
    [apply triple_mret; naive_solver|apply triple_fail; by intros w []..].
Qed.

(** After [Unregister], whatever it answered. *)
Lemma triple_try {A} (P : OS → Prop) (m : M OS A) (Q E : OS → Prop) :
  triple P m (λ _, Q) Q → triple P (try m) (λ _, Q) E.
Proof.
  intros Hm w Hw. specialize (Hm w Hw). unfold try. by destruct (m w) as [[[[a|e|]|] w'] ev].
Qed.

Lemma Register_triple c0 :
  triple (λ w, config w = c0) Register
    (λ _ w, same_others c0 (config w) ∧
            registered c0 (config w) ∧ key_storage ∈ cf_functions (config w) ∧
            ksp_name ∈ bindings_of (config w) key_storage)
    (λ w, same_others c0 (config w)).
Proof.
  unfold Register.
  apply (triple_bind _ _ _ (λ _ w, same_others c0 (config w) ∧ cleared c0 (config w))).
  { apply triple_try. eapply triple_conseq; [apply (Unregister_triple c0)|..].
    - intros w Hw. simpl in *. by rewrite Hw.
    - by intros ? w [[] _].
    - by intros w []. }
  intros _. eapply triple_bind.
  { eapply (call_triple c0 (cleared c0) (BCryptRegisterProvider ksp_name 0 tpmcertKspProvider) _
      (added "BCryptRegisterProvider")
      (λ c, set_providers c (<[ksp_name := tpmcertKspProvider]> (cf_providers c))) collision
      (λ c, is_Some (cf_providers c !! ksp_name)) (registered c0));
      [done|apply register_provider|..|apply must_add_shape|intros c Hc|intros c Hc].
    - intros c Hc. eapply same_others_trans; [done|]. apply same_others_providers. intros n Hn.
      by rewrite lookup_insert_ne.
    - eexists. split; [apply lookup_insert_eq|by left].
    - intros [reg Hreg]. exists reg. split; [done|]. right. by apply Hc. }
  intros []. eapply triple_bind.
  { eapply (call_triple c0 (registered c0)
      (BCryptAddContextFunction key_storage CRYPT_PRIORITY_TOP) _
      (added "BCryptAddContextFunction") (λ c, set_function c key_storage) collision
      (λ c, key_storage ∈ cf_functions c) (λ c, registered c0 c ∧ key_storage ∈ cf_functions c));
      [done|apply add_function|..|apply must_add_shape|intros c Hc|by intros c Hc].
    - intros c Hc. eapply same_others_trans; [done|]. apply same_others_function.
    - split; [done|]. simpl. set_solver. }
  intros []. eapply triple_conseq.
  { eapply (call_triple c0 (λ c, registered c0 c ∧ key_storage ∈ cf_functions c)
      (BCryptAddContextFunctionProvider key_storage ksp_name CRYPT_PRIORITY_TOP) _
      (added "BCryptAddContextFunctionProvider")
      (λ c, set_binding c key_storage
         (ksp_name :: filter (λ m, m ≠ ksp_name) (bindings_of c key_storage))) collision
      (λ c, ksp_name ∈ bindings_of c key_storage) (λ c, registered c0 c ∧ key_storage ∈ cf_functions c ∧ ksp_name ∈ bindings_of c key_storage));
      [done|apply add_function_provider|..|apply must_add_shape|intros c Hc|naive_solver].
    - intros c Hc. eapply same_others_trans; [done|]. apply same_others_binding.
      rewrite filter_cons_False by auto. apply filter_twice.
    - split; [apply Hc|]. split; [apply Hc|]. rewrite bindings_set_binding. by left. }
  all: naive_solver.
Qed.

(** The loop over the buffer reads its pointers in order, and only those. *)
Lemma read_providers_all buf i n :
  (i + n = length (rgpszProviders buf))%nat →
  read_providers buf i n = Ret (UTF16PtrToString <$> drop i (rgpszProviders buf)).
Proof.
  revert i. induction n as [|n IH]; intros i Hi; simpl; [by rewrite drop_ge by lia|].
  destruct (rgpszProviders buf !! i) as [x|] eqn:E; [|apply lookup_ge_None in E; lia].
  rewrite IH by lia. by rewrite (drop_S _ x i).
Qed.

Lemma EnumProviders_lists w l n :
  result EnumProviders w = Done (Ret l) → n ∈ l ↔ is_Some (cf_providers (config w) !! n).
Proof.
  unfold result, EnumProviders, sys. rewrite bind_run.
  destruct (BCryptEnumRegisteredProviders w) as [[st buf] w'] eqn:E.
  apply enum_providers in E as [_ Hb]. destruct (Z.eqb_spec st 0) as [Hst|]; [simpl|done].
  specialize (Hb Hst). destruct buf as [buf|].
  - destruct Hb as [Hc Hn]. rewrite bind_run. simpl. unfold with_defer, lift. rewrite bind_run. simpl.
    rewrite (read_providers_all buf 0) by lia. rewrite bind_run. simpl.
    destruct (BCryptFreeBuffer _ w'). simpl. intros [= <-]. rewrite drop_0. apply Hn.
  - simpl. intros [= <-]. rewrite Hb, lookup_empty. split; [by intros ?%elem_of_nil|by intros []].
Qed.

Lemma frame_EnumProviders : frame [] EnumProviders (λ _, []) [].
Proof.
  unfold EnumProviders. frame_step. destruct a as [st [buf|]]; (destruct (negb _); [apply frame_fail|]).
  - frame_step. eapply (frame_defer _ _ _ [RBuf (buf_addr buf)]).
    + frame_step. frame_step.
    + intros w. unfold result, sys. rewrite bind_run. simpl. by destruct (BCryptFreeBuffer _ w) as [[] ?].
    + frame_step. apply frame_sys.
  - by intros w.
Qed.
End register_proofs.

(** ** A concrete configuration *)

Definition sample_registers (n : string) (c : BcryptConfig) : bool :=
  bool_decide (is_Some (cf_providers c !! n)).

Definition sample_bcrypt : Bcrypt BcryptConfig := {|
  BCryptRegisterProvider n _ reg c :=
    if sample_registers n c then (- 1073741771, c)%Z
    else (0%Z, set_providers c (<[n := reg]> (cf_providers c)));
  BCryptUnregisterProvider n c :=
    if sample_registers n c then (0%Z, set_providers c (delete n (cf_providers c)))
    else (- 1073741772, c)%Z;
  BCryptAddContextFunction k _ c :=
    if decide (k ∈ cf_functions c) then (- 1073741771, c)%Z else (0%Z, set_function c k);
  BCryptAddContextFunctionProvider k n _ c :=
    if decide (n ∈ bindings_of c k) then (- 1073741771, c)%Z
    else (0%Z, set_binding c k (n :: filter (λ m, m ≠ n) (bindings_of c k)));
  BCryptRemoveContextFunctionProvider k n c :=
    if decide (n ∈ bindings_of c k)
    then (0%Z, set_binding c k (filter (λ m, m ≠ n) (bindings_of c k))) else (- 1073741275, c)%Z;
  BCryptEnumRegisteredProviders c :=
    let names := bytes_of_string ∘ fst <$> map_to_list (cf_providers c) in
    ((0%Z, Some {| buf_addr := 7; cProviders := Z.of_nat (length names); rgpszProviders := names |}), c);
  BCryptFreeBuffer _ c := ((), c);
  UTF16PtrToString := string_of_bytes;
|}.

Definition sample_bcrypt_laws : @BcryptLaws BcryptConfig sample_bcrypt.
Proof.
  refine (@Build_BcryptLaws _ sample_bcrypt id _ _ _ _ _ _); unfold id, effect; simpl.
  - intros n f reg w st w'. unfold sample_registers. case_bool_decide; intros [= <- <-]; [by right|by left].
  - intros n w st w'. unfold sample_registers. case_bool_decide as Hn; intros [= <- <-]; [by left|].
    right. split; [done|]. split; [done|]. intros _. by apply eq_None_not_Some.
  - intros k w st w'. destruct (decide _); intros [= <- <-]; [by right|by left].
  - intros k n w st w'. destruct (decide _); intros [= <- <-]; [by right|by left].
  - intros k n w st w'. destruct (decide _); intros [= <- <-]; [by left|by right].
  - intros w st buf w' [= <- <- <-]. split; [done|]. intros _. simpl. split; [done|]. intros n.
    rewrite <- list_fmap_compose, list_elem_of_fmap. split.
    + intros ([k reg] & -> & Hin%elem_of_map_to_list). simpl. rewrite string_of_bytes_of_string. eauto.
    + intros [reg Hreg]. exists (n, reg). simpl. rewrite string_of_bytes_of_string.
      split; [done|]. by apply elem_of_map_to_list.
Defined.

(** ** Properties *)

(** C15: registration takes effect and is undone by its inverse.  When
    [Register] returns nil the provider is registered (with the code's own
    image, or the one that was there), it is among the providers of the key
    storage function, and [EnumProviders] lists it; when [Unregister] returns
    nil it is in neither place and is not listed; and whether they succeed or
    not, neither changes the registration or the priority of another
    provider. *)
Theorem registration_round_trip {OS} `{BcryptLaws OS} (w : OS) :
  let w1 := world_after Register w in
  let w2 := world_after Unregister w in
  (result Register w = Done (Ret ()) →
     registered (config w) (config w1) ∧ ksp_name ∈ bindings_of (config w1) key_storage ∧
     ∀ l, result EnumProviders w1 = Done (Ret l) → ksp_name ∈ l) ∧
  (result Unregister w = Done (Ret ()) →
     cf_providers (config w2) !! ksp_name = None ∧ (ksp_name ∉ bindings_of (config w2) key_storage) ∧
     ∀ l, result EnumProviders w2 = Done (Ret l) → ksp_name ∉ l) ∧
  (∀ m, m = Register ∨ m = Unregister → ∀ o, result m w = Done o → o ≠ Panic →
     same_others (config w) (config (world_after m w))).
Proof.
  intros w1 w2.
  pose proof (triple_run _ _ _ _ w (Register_triple (config w)) eq_refl) as [Hr Hrf].
  pose proof (triple_run _ _ _ _ w (Unregister_triple (config w)) ltac:(by split)) as [Hu Huf].
  fold w1 in Hr, Hrf. fold w2 in Hu, Huf. split; [|split].
  - intros Hok. destruct (Hr () Hok) as (_ & Hreg & _ & Hb). split; [done|]. split; [done|].
    intros l Hl. apply (EnumProviders_lists w1 l ksp_name Hl). destruct Hreg as (reg & -> & _). eauto.
  - intros Hok. destruct (Hu () Hok) as (_ & Hb & Hn). split; [done|]. split; [done|].
    intros l Hl. rewrite (EnumProviders_lists w2 l ksp_name Hl), Hn. by intros [].
  - intros m [-> | ->] [[]|e|] Ho Hp; [apply (Hr () Ho)|by apply (Hrf e)|done|apply (Hu () Ho)|by apply (Huf e)|done].
Qed.

Lemma registration_round_trip_witness :
  let B := sample_bcrypt in let BL := sample_bcrypt_laws in
  let w := {| cf_providers := ∅; cf_functions := ∅; cf_bindings := {[ key_storage := ["Other"%string] ]} |} in
  let w1 := world_after Register w in
  result Register w = Done (Ret ()) ∧ bindings_of w1 key_storage = [ksp_name; "Other"%string] ∧
  registered w w1 ∧ result Unregister w1 = Done (Ret ()) ∧
  cf_providers (world_after Unregister w1) !! ksp_name = None.
Proof.
  intros B BL w w1. assert (result Register w = Done (Ret ())) as Hr by (vm_compute; reflexivity).
  assert (result Unregister w1 = Done (Ret ())) as Hu by (vm_compute; reflexivity).
  split; [exact Hr|]. split; [vm_compute; reflexivity|]. split; [|split; [exact Hu|]].
  - exact (proj1 (proj1 (@registration_round_trip _ B BL w) Hr)).
  - exact (proj1 (proj1 (proj2 (@registration_round_trip _ B BL w1)) Hu)).
Defined.
