(* ===== verification/Keyring.v ===== *)
(** * The server as an abstract keyring

    What the server promises, without files, encodings or handlers: it holds at
    most one keyring, a list of certificates each with its own private key; a
    directory replaces the keyring or changes nothing; a listing shows the
    keyring; a signature is made by the key its thumbprint calls.  [SetCertDir]
    and the gRPC handlers over the Linux backend refine it. *)

From stdpp Require Import base list gmap strings.
From Stdlib Require Import ZArith Lia Ascii.
From S2P Require Import Prelude GoStrings GoNet GoCrypto Samples CertTypes CertFileStore CertService.

(** ** Runs of labelled transition systems *)

Section runs.
Context {S L : Type} (step : S → L → S → Prop).

Inductive runs : S → list L → S → Prop :=
  | runs_nil s : runs s [] s
  | runs_cons s l s' tr s'' : step s l s' → runs s' tr s'' → runs s (l :: tr) s''.

Lemma runs_app s tr1 tr2 s' : runs s (tr1 ++ tr2) s' ↔ ∃ m, runs s tr1 m ∧ runs m tr2 s'.
Proof.
  split.
  - revert s. induction tr1 as [|l tr1 IH]; intros s Hr; simpl in *; [exists s; split; [constructor|done]|].
    inversion Hr as [|? ? s1 ? ? Hs Hr']; subst. destruct (IH _ Hr') as (m & Hm1 & Hm2).
    exists m. split; [by econstructor|done].
  - intros (m & Hm1 & Hm2). induction Hm1; simpl; [done|]. econstructor; eauto.
Qed.

(** What every step keeps, a run keeps. *)
Lemma runs_preserves (P : S → Prop) (ok : L → Prop) s tr s' :
  (∀ s l s', ok l → step s l s' → P s → P s') → Forall ok tr → runs s tr s' → P s → P s'.
Proof. intros Hp Hok Hr. induction Hr; inversion Hok; subst; eauto. Qed.
End runs.
#[export] Hint Constructors runs : golib.

(** ** What the server does, seen from outside *)

Inductive label :=
  | Load (dir : string) (r : outcome ())
  | List_ (r : outcome any_response)
  | Sign (req : SignHashRequest) (r : outcome any_response).

(** ** The specification *)

Section spec.
Context `{Unicode} `{Crypto}.

Record entry := { en_cert : PbCertificateInfo; en_key : Signer }.

(** [None] while no directory is set. *)
Definition keyring : Type := option (list entry).

Definition sha1_name (e : entry) : string :=
  ToUpper (hex_EncodeToString (sha1_Sum (pb_CertificateDer (en_cert e)))).
Definition sha256_name (e : entry) : string :=
  ToUpper (hex_EncodeToString (sha256_Sum (pb_CertificateDer (en_cert e)))).

(** The certificate is listed under its SHA-1 thumbprint, and the key is
    its own. *)
Record entry_ok (e : entry) : Prop := {
  en_listed : pb_Thumbprint (en_cert e) = sha1_name e;
  en_usable : pb_HasPrivateKey (en_cert e) = true;
  en_owns : ∃ cert, x509_ParseCertificate (pb_CertificateDer (en_cert e)) = Ret cert ∧
    pb_Subject (en_cert e) = cert_Subject cert ∧
    x509_MarshalPKIXPublicKey (en_key e) = Ret (RawSubjectPublicKeyInfo cert);
}.

Definition names (target : string) (e : entry) : bool :=
  bool_decide (sha1_name e = target) || bool_decide (sha256_name e = target).
Definition abbreviates (target : string) (e : entry) : bool :=
  HasPrefix (sha1_name e) target || HasPrefix (sha256_name e) target.

(** The entry a thumbprint calls: the first it names, and the first it
    abbreviates when it names none. *)
Inductive calls (target : string) : list entry → entry → Prop :=
  | calls_by_name l1 e l2 :
      names target e = true → Forall (λ e, names target e = false) l1 →
      calls target (l1 ++ e :: l2) e
  | calls_by_prefix l1 e l2 :
      Forall (λ e, names target e = false) (l1 ++ e :: l2) → abbreviates target e = true →
      Forall (λ e, abbreviates target e = false) l1 →
      calls target (l1 ++ e :: l2) e.

Definition wants_pss (req : SignHashRequest) : bool := (req_RsaPadding req =? RSAPadding_PSS)%Z.

Definition sign_options (req : SignHashRequest) : SignerOpts :=
  let h := (req_HashAlgorithm req + 4)%Z in if wants_pss req then PSSOptions h else HashOpts h.

(** The response is the key's signature over the digest of the request, with
    the hash and the padding of the request, and says so. *)
Definition answers (rnd : Z) (e : entry) (req : SignHashRequest) (resp : SignHashResponse) : Prop :=
  signer_Sign rnd (en_key e) (req_Digest req) (sign_options req) = Ret (resp_Signature resp) ∧
  resp_RsaPadding resp = (if wants_pss req then RSAPadding_PSS else RSAPadding_PKCS1) ∧
  match en_key e with
  | RSAPrivateKey _ =>
      resp_SignatureAlgorithm resp = if wants_pss req then "RSASSA-PSS" else "RSASSA-PKCS1-v1_5"
  | ECDSAPrivateKey _ => wants_pss req = false ∧ resp_SignatureAlgorithm resp = "ECDSA"
  | OtherSigner _ _ => False
  end.

(** A key of a kind the server does not sign with, or one that fails. *)
Definition cannot_sign (e : entry) (req : SignHashRequest) : Prop :=
  (∃ ty k, en_key e = OtherSigner ty k) ∨
  ∃ rnd err, signer_Sign rnd (en_key e) (req_Digest req) (sign_options req) = Fail err.

(** The digest has the length of its hash. *)
Definition digest_fits (req : SignHashRequest) : Prop :=
  DigestSize (req_HashAlgorithm req) = Ret (Z.of_nat (length (req_Digest req))).

(** Why a request is refused, and with which status. *)
Inductive refused : keyring → SignHashRequest → Z → Prop :=
  | refused_malformed k req : ¬ valid_request (Some req) → refused k req codes_InvalidArgument
  | refused_closed req : refused None req codes_Internal
  | refused_digest l req : ¬ digest_fits req → refused (Some l) req codes_InvalidArgument
  | refused_unknown l req :
      Forall (λ e, abbreviates (NormalizeThumbprint (req_Thumbprint req)) e = false) l →
      refused (Some l) req codes_NotFound
  | refused_padding l req e n :
      calls (NormalizeThumbprint (req_Thumbprint req)) l e → en_key e = ECDSAPrivateKey n →
      wants_pss req = true → refused (Some l) req codes_InvalidArgument
  | refused_key l req e :
      calls (NormalizeThumbprint (req_Thumbprint req)) l e →
      cannot_sign e req →
      refused (Some l) req codes_Internal.

Inductive keyring_step : keyring → label → keyring → Prop :=
  | keyring_load k dir l : dir ≠ "" → Forall entry_ok l → keyring_step k (Load dir (Ret ())) (Some l)
  | keyring_close k : keyring_step k (Load "" (Ret ())) None
  | keyring_keep k dir e : dir ≠ "" → keyring_step k (Load dir (Fail e)) k
  | keyring_list l : keyring_step (Some l) (List_ (Ret (AnyListResponse (en_cert <$> l)))) (Some l)
  | keyring_list_closed msg : keyring_step None (List_ (Fail (Status codes_Internal msg))) None
  | keyring_sign l e rnd req resp :
      digest_fits req → calls (NormalizeThumbprint (req_Thumbprint req)) l e → answers rnd e req resp →
      keyring_step (Some l) (Sign req (Ret (AnySignResponse (Some resp)))) (Some l)
  | keyring_refuse k req code msg :
      refused k req code → keyring_step k (Sign req (Fail (Status code msg))) k.
End spec.

(** ** The server *)

Section server.
Context `{Unicode} `{Crypto} `{GrpcRuntime}.

(** One call of the server process: a directory is set, on the file system of
    the moment, or a request arrives, from some peer, with the interceptor in
    either mode.  [cmd/cert-server] sets at most one directory, before it
    serves, and serves with the interceptor; a call that panics ends the process
    and is no step. *)
Inductive server_step : FileStore → label → FileStore → Prop :=
  | server_load (fs : FileSystem) dir s r s' :
      SetCertDir dir s = (r, s') → r ≠ Panic → server_step s (Load dir r) s'
  | server_list verbose duration ctx rnd s r :
      (ListCertificates_Handler (s, rnd) (Ret ()) (Some (VerboseUnaryInterceptor verbose duration ctx))).1
        = r → r ≠ Panic → server_step s (List_ r) s
  | server_sign verbose duration ctx rnd req s r :
      (SignHash_Handler (s, rnd) (Ret req) (Some (VerboseUnaryInterceptor verbose duration ctx))).1
        = r → r ≠ Panic → server_step s (Sign req r) s.

(** The keyring a file store stands for. *)
Definition entry_of (f : fileIdentity) : entry :=
  {| en_cert := pb_of_info (info f); en_key := signer f |}.
Definition keyring_of (s : FileStore) : keyring :=
  if bool_decide (fileStoreDir s = "") then None else Some (entry_of <$> fileStore s).

(** *** Identities as entries *)

Lemma entry_of_ok dir f : identity_ok dir f → entry_ok (entry_of f).
Proof.
  intros Hf. split; simpl.
  - by rewrite (ok_thumbprint _ _ Hf), (ok_sha1 _ _ Hf).
  - apply (ok_has_key _ _ Hf).
  - destruct (ok_key_matches _ _ Hf) as (cert & ? & ? & _ & ?). eauto.
Qed.

Lemma names_entry dir f target :
  identity_ok dir f → names target (entry_of f) = matches_exactly target f ∧
  abbreviates target (entry_of f) = matches_prefix target f.
Proof.
  intros Hf. destruct (clean_stored _ _ Hf) as [E1 E2].
  unfold matches_exactly, matches_prefix. rewrite E1, E2, (ok_sha1 _ _ Hf), (ok_sha256 _ _ Hf). done.
Qed.

Lemma names_entries dir target l (b : bool) :
  Forall (identity_ok dir) l →
  (Forall (λ f, matches_exactly target f = b) l → Forall (λ e, names target e = b) (entry_of <$> l)) ∧
  (Forall (λ f, matches_prefix target f = b) l → Forall (λ e, abbreviates target e = b) (entry_of <$> l)).
Proof.
  intros Hl. rewrite !Forall_fmap, !Forall_forall. rewrite Forall_forall in Hl.
  split; intros Hm f Hf; simpl; destruct (names_entry dir f target (Hl f Hf)) as [E1 E2].
  - by rewrite E1, (Hm f Hf).
  - by rewrite E2, (Hm f Hf).
Qed.

Lemma find_identity_calls dir target l f :
  Forall (identity_ok dir) l → find_identity target l = Some f → calls target (entry_of <$> l) (entry_of f).
Proof.
  intros Hl (l1 & l2 & -> & Hc)%find_identity_Some. rewrite fmap_app, fmap_cons.
  pose proof Hl as [Hl1 [Hf _]%Forall_cons]%Forall_app.
  destruct (names_entry dir f target Hf) as [E1 E2].
  destruct Hc as [[Hm Hpre]|(Hn & Hm & Hpre)]; [left|right].
  - by rewrite E1.
  - by apply (names_entries dir).
  - rewrite <- fmap_cons, <- fmap_app. by apply (names_entries dir).
  - by rewrite E2.
  - by apply (names_entries dir).
Qed.

(** *** The handlers behind the interceptor *)

Lemma list_handled verbose duration ctx (w : FileStore * Z) :
  (ListCertificates_Handler w (Ret ()) (Some (VerboseUnaryInterceptor verbose duration ctx))).1 =
  AnyListResponse <$> CertService_ListCertificates w.
Proof. by apply VerboseUnaryInterceptor_result. Qed.

Lemma sign_handled verbose duration ctx (w : FileStore * Z) req :
  (SignHash_Handler w (Ret req) (Some (VerboseUnaryInterceptor verbose duration ctx))).1 =
  (λ r, AnySignResponse (Some r)) <$> CertService_SignHash w (Some req).
Proof. by apply VerboseUnaryInterceptor_result. Qed.

(** *** The simulation *)

Lemma sign_with_key_spec rnd f req :
  match sign_with_key rnd (signer f) (req_Digest req) (req_HashAlgorithm req + 4)
          (requested_padding (Some req)) with
  | Ret (sig, alg) =>
      answers rnd (entry_of f) req
        {| resp_Signature := sig; resp_SignatureAlgorithm := alg;
           resp_RsaPadding := certstorePaddingToProto (requested_padding (Some req)) |}
  | Fail e =>
      (e = ErrInvalidPadding ∧ wants_pss req = true ∧ ∃ n, signer f = ECDSAPrivateKey n) ∨
      (cannot_sign (entry_of f) req ∧ ∃ msg, sign_error_status e = Status codes_Internal msg)
  | Panic => True
  end.
Proof.
  unfold sign_with_key, answers, cannot_sign, sign_options, requested_padding. simpl.
  fold (wants_pss req). destruct (wants_pss req) eqn:Hp, (signer f) as [k|k|ty k] eqn:Hk; simpl;
    rewrite ?Hp; eauto 10;
    destruct (signer_Sign _ _ _ _) as [sig|e|] eqn:Hs; simpl; rewrite ?Hp; eauto 10.
Qed.

Lemma sign_refines s rnd req r :
  store_ok s → CertService_SignHash (s, rnd) (Some req) = r → r ≠ Panic →
  keyring_step (keyring_of s) (Sign req ((λ r, AnySignResponse (Some r)) <$> r)) (keyring_of s).
Proof.
  intros Hs Hr Hnp. destruct (decide (valid_request (Some req))) as [Hv|Hv].
  2: { destruct (SignHash_invalid (s, rnd) (Some req) Hv) as [msg Hm]. rewrite Hm in Hr. subst r.
       by apply keyring_refuse, refused_malformed. }
  rewrite SignHash_valid in Hr by done. simpl in Hr. unfold Linux.SignHash, CertDir in Hr.
  unfold keyring_of. case_bool_decide; [subst r; by apply keyring_refuse, refused_closed|].
  unfold signWithFileStore in Hr.
  destruct (DigestSize (req_HashAlgorithm req)) as [n|e|] eqn:Hd.
  2-3: exfalso; destruct Hv as (_ & _ & Hh & _); simpl in Hh; unfold DigestSize in Hd;
    assert (req_HashAlgorithm req = 1 ∨ req_HashAlgorithm req = 2 ∨ req_HashAlgorithm req = 3)%Z
      as [E|[E|E]] by lia; by rewrite E in Hd.
  simpl in Hr. destruct (Z.eqb_spec (Z.of_nat (length (req_Digest req))) n) as [<-|Hn]; simpl in Hr.
  2: { subst r. apply keyring_refuse, refused_digest. unfold digest_fits. congruence. }
  rewrite requested_padding_effective in Hr.
  destruct (find_identity _ _) as [f|] eqn:Hf.
  2: { subst r. apply keyring_refuse, refused_unknown. apply find_identity_None in Hf.
       by apply (names_entries (fileStoreDir s)); [apply ok_identities|]. }
  apply (find_identity_calls (fileStoreDir s)) in Hf; [|by apply ok_identities].
  rewrite (DigestSize_CryptoHash _ _ Hd) in Hr. simpl in Hr.
  pose proof (sign_with_key_spec rnd f req) as Hk.
  destruct (sign_with_key _ _ _ _ _) as [[sig alg]|e|]; simpl in Hr; subst r; [| |done].
  - by eapply keyring_sign.
  - destruct Hk as [(-> & Hp & m & Hm)|[Hc [msg ->]]]; apply keyring_refuse.
    + by eapply refused_padding.
    + by eapply refused_key.
Qed.

Lemma step_refines s l s' :
  store_ok s → server_step s l s' → keyring_step (keyring_of s) l (keyring_of s') ∧ store_ok s'.
Proof.
  intros Hs Hst. revert Hs.
  destruct Hst as [fs dir s0 r s1 Hset Hr|v d ctx rnd s0 r Hl Hr|v d ctx rnd req s0 r Hl Hr]; intros Hs.
  - pose proof (SetCertDir_ok fs dir s0 Hs) as Hok. rewrite Hset in Hok. simpl in Hok. split; [|done].
    unfold SetCertDir in Hset. case_bool_decide as Hd; [|destruct (loadCertDir dir) as [ids|e|] eqn:El];
      injection Hset as <- <-; [subst dir|..|done].
    + apply keyring_close.
    + unfold keyring_of at 2. rewrite bool_decide_eq_false_2 by done. apply keyring_load; [done|].
      apply Forall_fmap. eapply Forall_impl; [apply (ok_identities _ Hok)|]. apply entry_of_ok.
    + by apply keyring_keep.
  - split; [|done]. rewrite list_handled in Hl. subst r. unfold CertService_ListCertificates in *.
    simpl in *. unfold Linux.ListCertificates, CertDir, keyring_of in *.
    case_bool_decide; simpl in *; [apply keyring_list_closed|].
    replace (pb_of_info <$> _) with (en_cert <$> (entry_of <$> fileStore s0)); [apply keyring_list|].
    unfold listFromFileStore. by rewrite <- !list_fmap_compose.
  - split; [|done]. rewrite sign_handled in Hl. subst r. eapply sign_refines; [done..|].
    intros E. by rewrite E in Hr.
Qed.

Lemma runs_refine s tr s' :
  store_ok s → runs server_step s tr s' →
  runs keyring_step (keyring_of s) tr (keyring_of s') ∧ store_ok s'.
Proof.
  intros Hs Hr. induction Hr as [|s l s1 tr s' Hst _ IH]; [by split; [constructor|]|].
  destruct (step_refines _ _ _ Hs Hst) as [H' Hs1]. destruct (IH Hs1) as [Hrun ?].
  split; [by econstructor|done].
Qed.
End server.

(** *** What follows from the specification alone *)

Section spec_lemmas.
Context `{Unicode} `{Crypto}.

Definition replaces_keyring (l : label) : bool :=
  match l with Load _ (Ret _) => true | _ => false end.

Lemma step_keeps k l k' : keyring_step k l k' → replaces_keyring l = false → k' = k.
Proof. by destruct 1. Qed.

Definition keyring_ok (k : keyring) : Prop := from_option (Forall entry_ok) True k.

Lemma step_ok k l k' : keyring_step k l k' → keyring_ok k → keyring_ok k'.
Proof. by destruct 1. Qed.

Lemma runs_keep k tr k' :
  Forall (λ l, replaces_keyring l = false) tr → runs keyring_step k tr k' → k' = k.
Proof.
  intros Htr Hr. eapply (runs_preserves keyring_step (λ k', k' = k)); [|done..].
  intros k1 l k2 Hl Hst ->. by eapply step_keeps.
Qed.

Lemma runs_ok k tr k' : runs keyring_step k tr k' → keyring_ok k → keyring_ok k'.
Proof.
  intros Hr. eapply (runs_preserves keyring_step keyring_ok (λ _, True)); [|by apply Forall_true|done].
  intros k1 l k2 _. apply step_ok.
Qed.

Lemma names_abbreviates target e : names target e = true → abbreviates target e = true.
Proof.
  unfold names, abbreviates.
  intros [<-%bool_decide_eq_true|<-%bool_decide_eq_true]%orb_prop; rewrite prefix_refl; [done|apply orb_true_r].
Qed.

Lemma calls_spec target l e : calls target l e → e ∈ l ∧ abbreviates target e = true.
Proof.
  intros Hc. destruct Hc as [l1 e l2 Hn _|l1 e l2 _ Ha _];
    (split; [by apply elem_of_app; right; left|]); [by apply names_abbreviates|done].
Qed.

(** Between a listing and a signature the keyring stays what was listed. *)
Lemma listed_then_signed k tr1 certs tr2 req resp tr3 k' :
  keyring_ok k →
  runs keyring_step k (tr1 ++ List_ (Ret (AnyListResponse certs)) :: tr2 ++
                       Sign req (Ret (AnySignResponse (Some resp))) :: tr3) k' →
  Forall (λ l, replaces_keyring l = false) tr2 →
  ∃ l e rnd, certs = en_cert <$> l ∧ e ∈ l ∧ entry_ok e ∧ digest_fits req ∧ answers rnd e req resp ∧
    abbreviates (NormalizeThumbprint (req_Thumbprint req)) e = true.
Proof.
  intros Hok (k1 & Hr1 & Hr)%runs_app Hkeep. pose proof (runs_ok _ _ _ Hr1 Hok) as Hok1.
  inversion Hr as [|? ? k2 ? ? Hlist Hr2]; subst. apply runs_app in Hr2 as (k3 & Hr2 & Hr3).
  apply (runs_keep _ _ _ Hkeep) in Hr2 as ->.
  inversion Hlist as [| | |l| | |]; subst. clear Hlist.
  inversion Hr3 as [|? ? k4 ? ? Hsign _]; subst.
  inversion Hsign as [| | | | |l' e rnd ? ? Hd Hc Ha|]; subst.
  destruct (calls_spec _ _ _ Hc) as [He Hab]. exists l, e, rnd. split_and!; try done.
  simpl in Hok1. rewrite Forall_forall in Hok1. by apply Hok1.
Qed.
End spec_lemmas.

(** ** Properties *)

(** C1: the server refines the keyring.  Every run of a server process, from its
    start, over any sequence of directories set and of requests served from any
    peers with the interceptor in either mode, and whatever the file system held
    at each load, is a run of the abstract keyring with the same results: a
    directory either installs certificates with their own keys or changes
    nothing, a listing shows exactly the keyring in force, a signature is made
    over the request's digest, hash and padding by the key the thumbprint calls,
    and every refusal has its reason and its status code. *)
Theorem server_refines_keyring `{Unicode} `{Crypto} `{GrpcRuntime} tr s :
  runs server_step init_FileStore tr s → runs keyring_step None tr (keyring_of s).
Proof. intros Hr. by apply (runs_refine init_FileStore); [apply store_ok_init|]. Qed.

(** The sample run: the directory is set, the certificates are listed, and the
    sample request is signed. *)
Definition sample_trace `{Unicode} `{Crypto} `{GrpcRuntime} : list label :=
  [Load "certs" (Ret ()); List_ (AnyListResponse <$> CertService_ListCertificates (sample_store, 0%Z));
   Sign sample_request ((λ r, AnySignResponse (Some r)) <$>
     CertService_SignHash (sample_store, 5%Z) (Some sample_request))].

Lemma sample_run :
  let U := sample_unicode in let C := sample_crypto in let G := sample_runtime in
  runs server_step init_FileStore sample_trace sample_store.
Proof.
  intros U C G. eapply runs_cons; [|eapply runs_cons; [|eapply runs_cons; [|constructor]]].
  - apply (server_load sample_dir); [reflexivity|discriminate].
  - eapply (server_list true "1ms" None 0); [apply list_handled|vm_compute; discriminate].
  - eapply (server_sign false "1ms" None 5); [apply sign_handled|vm_compute; discriminate].
Qed.

Lemma server_refines_keyring_witness :
  let U := sample_unicode in let C := sample_crypto in let G := sample_runtime in
  runs keyring_step None sample_trace (keyring_of sample_store) ∧
  option_map length (keyring_of sample_store) = Some 2%nat.
Proof.
  intros U C G. split; [|vm_compute; reflexivity].
  exact (server_refines_keyring _ _ sample_run).
Defined.

(** C3: what a client was shown is what signs for it.  In every run of a server
    process, a signature that is answered after a listing, with no directory set
    successfully in between, is over the request's digest, of the right length
    and with the padding asked for, and was made by a private key that belongs
    to a certificate of that listing, one whose SHA-1 or SHA-256 thumbprint
    begins with the request's normalised thumbprint. *)
Theorem listed_keys_sign `{Unicode} `{Crypto} `{GrpcRuntime} tr1 certs tr2 req resp tr3 s :
  runs server_step init_FileStore
    (tr1 ++ List_ (Ret (AnyListResponse certs)) :: tr2 ++
     Sign req (Ret (AnySignResponse (Some resp))) :: tr3) s →
  Forall (λ l, replaces_keyring l = false) tr2 →
  digest_fits req ∧
  ∃ c key cert rnd, c ∈ certs ∧
    x509_ParseCertificate (pb_CertificateDer c) = Ret cert ∧
    x509_MarshalPKIXPublicKey key = Ret (RawSubjectPublicKeyInfo cert) ∧
    answers rnd {| en_cert := c; en_key := key |} req resp ∧
    let tp := NormalizeThumbprint (req_Thumbprint req) in
    HasPrefix (ToUpper (hex_EncodeToString (sha1_Sum (pb_CertificateDer c)))) tp ||
    HasPrefix (ToUpper (hex_EncodeToString (sha256_Sum (pb_CertificateDer c)))) tp = true.
Proof.
  intros Hr Hkeep. apply (runs_refine _ _ _ store_ok_init) in Hr as [Hr _].
  apply listed_then_signed in Hr as (l & e & rnd & -> & He & Hok & Hd & Ha & Hab); [|done..].
  split; [done|]. destruct (en_owns _ Hok) as (cert & Hp & _ & Hm).
  exists (en_cert e), (en_key e), cert, rnd. split_and!; [by apply list_elem_of_fmap_2|done|done| |done].
  by destruct e.
Qed.

Lemma listed_keys_sign_witness :
  let U := sample_unicode in let C := sample_crypto in let G := sample_runtime in
  ∃ certs resp c,
    CertService_ListCertificates (sample_store, 0%Z) = Ret certs ∧
    CertService_SignHash (sample_store, 5%Z) (Some sample_request) = Ret resp ∧ c ∈ certs ∧
    digest_fits sample_request.
Proof.
  intros U C G. pose proof sample_run as Hr. unfold sample_trace in Hr. fold U C G in Hr.
  destruct (CertService_ListCertificates (sample_store, 0%Z)) as [certs| |] eqn:El;
    [|vm_compute in El; discriminate..].
  destruct (CertService_SignHash (sample_store, 5%Z) (Some sample_request)) as [resp| |] eqn:Es;
    [|vm_compute in Es; discriminate..].
  destruct (listed_keys_sign [Load "certs" (Ret ())] certs [] sample_request resp [] sample_store
    Hr (Forall_nil_2 _)) as (Hd & c & _ & _ & _ & Hc & _).
  exists certs, resp, c. split_and!; [reflexivity|reflexivity|exact Hc|exact Hd].
Defined.
