(* ===== verification/EndToEnd.v ===== *)
(** * From a C caller to the signing key

    The components composed: a host process makes calls of the Linux bridge,
    whose client asks, or has asked, a server that serves a file store.  gRPC is taken to deliver each
    request and each reply, so that the client's remote calls are the handlers
    of [CertService]. *)

From stdpp Require Import base list gmap strings.
From Stdlib Require Import ZArith Lia Ascii.
From S2P Require Import Prelude GoStrings GoNet GoCrypto Samples CertTypes CertFileStore CertService.
From S2P Require Import TlsUtil KspClient CMem KspBridge.

Section end_to_end.
Context `{Unicode} `{Crypto} `{GrpcRuntime}.

(** The remote calls of a client of the server over store [s]; [rnd] is the
    randomness of the signature. *)
Definition served (s : FileStore) (rnd : Z) : Rpc :=
  {| rpc_ListCertificates := CertService_ListCertificates (s, rnd);
     rpc_SignHash req := CertService_SignHash (s, rnd) (Some req) |}.

(** ** Listing *)

Lemma collect_all {A B} (f : A → outcome (option B)) l r :
  collect f l = Ret r → (∀ x, x ∈ l → f x ≠ Ret None) → Forall2 (λ x y, f x = Ret (Some y)) l r.
Proof.
  revert r. induction l as [|x l IH]; intros r Hc Hs; simpl in Hc; [injection Hc as <-; constructor|].
  destruct (f x) as [[y|]| |] eqn:Ef; simpl in Hc; [|by destruct (Hs x ltac:(left))|done..].
  destruct (collect f l) as [r'| |]; simpl in Hc; [|done..]. injection Hc as <-.
  constructor; [done|]. apply IH; [done|]. intros z Hz. apply Hs. by right.
Qed.

Lemma remote_key_Some c o :
  HasPrivateKey c = true → remote_key (pb_of_info c) = Ret o →
  ∃ k, o = Some k ∧ ki_Thumbprint k = NormalizeThumbprint (Thumbprint c) ∧
    ki_Subject k = Subject c ∧ ki_CertificateDER k = CertificateDER c.
Proof.
  unfold remote_key. simpl. intros -> Hr. cbn [negb] in Hr. go_inv. by eexists.
Qed.

(** [keys] are the identities of the store, in its order. *)
Definition keys_of (s : FileStore) (keys : list KeyInfo) : Prop :=
  Forall2 (λ f k, ki_Thumbprint k = thumbSHA1 f ∧ ki_Subject k = Subject (info f) ∧
                  ki_CertificateDER k = CertificateDER (info f)) (fileStore s) keys.

(** What a server that serves [s] replies is read as its identities. *)
Lemma served_keys s rnd resp keys :
  store_ok s → fileStoreDir s ≠ "" → rpc_ListCertificates (served s rnd) = Ret resp →
  collect remote_key resp = Ret keys → keys_of s keys.
Proof.
  intros Hs Hd. unfold served, CertService_ListCertificates. cbn [rpc_ListCertificates].
  change (ListCertificates (s, rnd)) with (Linux.ListCertificates s).
  unfold Linux.ListCertificates. rewrite bool_decide_eq_false_2 by done.
  cbv beta iota delta [mbind outcome_bind]. intros [= <-] Hc.
  pose proof (ok_identities _ Hs) as Hall.
  apply collect_all in Hc.
  - unfold listFromFileStore in Hc. rewrite !Forall2_fmap_l in Hc.
    rewrite Forall_forall in Hall.
    unfold keys_of. rewrite Forall2_lookup in Hc |- *. intros i. specialize (Hc i).
    inversion Hc as [f k Hr Ef Ek|Ef Ek]; constructor.
    pose proof (Hall f (list_elem_of_lookup_2 _ i _ (eq_sym Ef))) as Hok.
    apply remote_key_Some in Hr as (k' & [= <-] & Ht & Hsu & Hde); [|by apply ok_has_key in Hok].
    destruct (clean_stored _ _ Hok) as [Hcl _]. unfold cleanThumbprint in Hcl.
    by rewrite Ht, (ok_thumbprint _ _ Hok), Hcl.
  - intros pb (ci & -> & (f & -> & Hf)%list_elem_of_fmap)%list_elem_of_fmap Hn.
    rewrite Forall_forall in Hall. apply remote_key_Some in Hn as (k & ? & _); [done|].
    apply (ok_has_key _ _ (Hall f Hf)).
Qed.

(** ** A host of the Linux bridge *)

(** What the server's calls come to while it serves [s]: its handlers', or a
    listing that fails (a timeout, a broken connection). *)
Definition talks_to (s : FileStore) (rpc : Rpc) : Prop :=
  (∃ rnd, rpc = served s rnd) ∨ ∃ e, rpc_ListCertificates rpc = Fail e.

(** The processes a host reaches by calls of the bridge, in any order and at any
    times, while the server serves [s]. *)
Inductive served_host `{FileSystem} `{Tls} `{Host} (s : FileStore) : Process → Prop :=
  | served_start : served_host s init_Process
  | served_init home rpc dial path p code p' :
      served_host s p → talks_to s rpc →
      Bridge_linux.tpmcert_init home rpc dial path p = Ret (code, p') → served_host s p'
  | served_shutdown p : served_host s p → served_host s (Bridge_linux.tpmcert_shutdown p)
  | served_count rpc now later p code p' :
      served_host s p → talks_to s rpc →
      Bridge_linux.tpmcert_installed_count rpc now later p = Ret (code, p') → served_host s p'
  | served_get rpc now later index out p h code out' p' h' :
      served_host s p → talks_to s rpc →
      Bridge_linux.tpmcert_get_installed rpc now later index out p h = Ret (code, out', p', h') →
      served_host s p'
  | served_find rpc now later tp out p h code out' p' h' :
      served_host s p → talks_to s rpc →
      Bridge_linux.tpmcert_find_installed rpc now later tp out p h = Ret (code, out', p', h') →
      served_host s p'
  | served_sign rpc tp dg n ha pd sigOut room p r :
      served_host s p →
      Bridge_linux.tpmcert_sign_hash rpc tp dg n ha pd sigOut room p = Ret r →
      served_host s (so_proc r).

(** A client that has cached anything has cached the identities of the store. *)
Definition caches (s : FileStore) (c : Client) : Prop :=
  cachedAt c ≠ None → keys_of s (cachedList c).

(** Fetched or cached, the keys of such a client are the store's identities. *)
Lemma AllKeys_caches s rpc now later c :
  store_ok s → fileStoreDir s ≠ "" → talks_to s rpc → caches s c →
  caches s (AllKeys rpc now later c).2 ∧
  ∀ keys, (AllKeys rpc now later c).1 = Ret keys → keys_of s keys.
Proof.
  intros Hs Hd Ht Hc. destruct (asks now c) eqn:Ha.
  - rewrite AllKeys_asks by done. destruct (rpc_ListCertificates rpc) as [resp|e|] eqn:El; simpl; [|done..].
    destruct (collect remote_key resp) as [keys|e|] eqn:Ec; simpl; [|done..].
    destruct Ht as [[rnd ->]|[e He]]; [|congruence].
    pose proof (served_keys _ _ _ _ Hs Hd El Ec) as Hk. by split; [intros _|intros ? [= <-]].
  - rewrite AllKeys_cached by done. split; [done|]. intros keys [= <-]. apply Hc. intros E.
    unfold asks, is_fresh in Ha. by rewrite E in Ha.
Qed.

Lemma served_host_caches `{FileSystem} `{Tls} `{Host} s p :
  store_ok s → fileStoreDir s ≠ "" → served_host s p → of_global (caches s) p.
Proof.
  intros Hs Hd Hp. assert (∀ k n, caches s
    {| cfg := k; conn := n; cachedList := []; cachedAt := None |}) as Hnew
    by (intros k n Hn; by destruct Hn).
  induction Hp as [|home rpc dial path p code p' _ IH _ E|p _ IH|rpc now later p code p' _ IH Ht E
    |rpc now later index out p h code out' p' h' _ IH Ht E
    |rpc now later tp out p h code out' p' h' _ IH Ht E|rpc tp dg n ha pd sigOut room p r _ IH E].
  - done.
  - by eapply of_linux_init.
  - apply of_ShutdownGlobal.
  - eapply of_installed_count; [|exact IH|exact E]. intros c Hc. by apply AllKeys_caches.
  - eapply of_get_installed; [|exact IH|exact E]. intros c Hc. by apply AllKeys_caches.
  - eapply of_find_installed; [|exact IH|exact E]. intros t c Hc.
    destruct (AllKeys_caches s rpc now later c Hs Hd Ht Hc) as [Hc' _]. unfold Bridge_linux.find.
    by destruct (AllKeys rpc now later c).
  - by eapply of_sign_hash; [|exact IH|exact E].
Qed.

(** The count is that of the identities; 0 stands for a failure, too. *)
Lemma served_count_is_length s rpc now later p n p' :
  store_ok s → fileStoreDir s ≠ "" → talks_to s rpc → of_global (caches s) p →
  Bridge_linux.tpmcert_installed_count rpc now later p = Ret (n, p') →
  n = 0%Z ∨ n = to_i32 (Z.of_nat (length (fileStore s))).
Proof.
  intros Hs Hd Ht Hp. unfold Bridge_linux.tpmcert_installed_count, installed_count.
  destruct (global p) as [c|] eqn:Eg; [|intros [= <- _]; by left].
  destruct (AllKeys_caches s rpc now later c Hs Hd Ht (Hp c Eg)) as [_ Hk].
  destruct (AllKeys rpc now later c) as [[keys|e|] c']; [|intros [= <- _]; by left|done].
  intros [= <- _]. right. by rewrite (Forall2_length _ _ _ (Hk keys eq_refl)).
Qed.

(** ** Signing *)

Lemma no_nul_hex l : no_nul (ToUpper (hex_EncodeToString l)) = true.
Proof.
  pose proof (hex_EncodeToString_hex l) as Hh.
  assert (is_ascii (hex_EncodeToString l) = true) as Ha.
  { revert Hh. apply string_forall_impl. intros c. byte_cases c. }
  unfold ToUpper. rewrite Ha. unfold no_nul. rewrite string_forall_map. revert Hh.
  apply string_forall_impl. intros c. byte_cases c.
Qed.

Lemma HashAlgFromInt_range v : (1 ≤ HashAlgFromInt v ≤ 3)%Z.
Proof. unfold HashAlgFromInt. by destruct (v =? 2)%Z, (v =? 3)%Z. Qed.

Lemma PaddingFromInt_padding v :
  PaddingFromInt v = RSAPaddingPKCS1 ∨ PaddingFromInt v = RSAPaddingPSS.
Proof. unfold PaddingFromInt. destruct (v =? 2)%Z; auto. Qed.

Lemma served_SignHash s rnd tp d ha pd g sig alg :
  fileStoreDir s ≠ "" → tp ≠ "" →
  find_identity (cleanThumbprint tp) (fileStore s) = Some g →
  DigestSize (HashAlgFromInt ha) = Ret (Z.of_nat (length d)) →
  sign_with_key rnd (signer g) d (HashAlgFromInt ha + 4) (PaddingFromInt pd) = Ret (sig, alg) →
  ∃ resp, rpc_SignHash (served s rnd) {| req_Thumbprint := tp; req_Digest := d;
      req_HashAlgorithm := HashAlgFromInt ha; req_RsaPadding := PaddingFromInt pd |} = Ret resp ∧
    resp_Signature resp = sig.
Proof.
  intros Hdir Htp Hg Hd Hs. unfold served. cbn [rpc_SignHash].
  pose proof (HashAlgFromInt_range ha). pose proof (PaddingFromInt_padding pd) as Hpd.
  rewrite SignHash_valid.
  - unfold requested_padding. simpl.
    change (CertTypes.SignHash (s, rnd)) with (Linux.SignHash rnd s).
    assert ((if (PaddingFromInt pd =? RSAPadding_PSS)%Z then RSAPaddingPSS else RSAPaddingPKCS1) =
      PaddingFromInt pd) as -> by (by destruct Hpd as [-> | ->]).
    unfold Linux.SignHash, signWithFileStore. rewrite bool_decide_eq_false_2 by done.
    rewrite Hd. simpl. rewrite Z.eqb_refl, Hg. simpl.
    rewrite (DigestSize_CryptoHash _ _ Hd). simpl.
    assert (effective_padding (PaddingFromInt pd) = PaddingFromInt pd) as ->
      by (by destruct Hpd as [-> | ->]).
    rewrite Hs. simpl. by eexists.
  - unfold valid_request. simpl. unfold RSAPaddingPKCS1, RSAPaddingPSS in Hpd.
    split; [done|]. split; [|lia]. intros ->. simpl in Hd. apply DigestSize_valid in Hd. lia.
Qed.
End end_to_end.

(** ** Properties *)

(** C2: a provider can sign with every key it enumerates.  A host has made any
    calls of the Linux bridge, at any times (so that its client may have the
    list cached, as after a count), while the server served one store with a
    certificate directory; some of its listings may have failed.  Then a count
    is 0 or the number of the store's identities; the record the bridge fills
    for index [i] shows the [i]-th identity of the store, with the identity's
    whole thumbprint and its certificate; and a later signing call with the
    record's thumbprint delivers, in any buffer, the signature over the caller's
    digest by an identity of the store that carries that thumbprint, whose key
    is its certificate's. *)
Theorem enumerated_key_signs `{Unicode} `{Crypto} `{GrpcRuntime} `{!HashLaws}
    `{FileSystem} `{Tls} `{Host} s p rpc now later :
  reachable s → fileStoreDir s ≠ "" → served_host s p → talks_to s rpc →
  (∀ n p', Bridge_linux.tpmcert_installed_count rpc now later p = Ret (n, p') →
     n = 0%Z ∨ n = to_i32 (Z.of_nat (length (fileStore s)))) ∧
  ∀ index h o p' h', heap_ok h →
    Bridge_linux.tpmcert_get_installed rpc now later index (Some zero_key_info) p h =
      Ret (codeOK, Some o, p', h') →
    ∃ f g, (0 ≤ index)%Z ∧ fileStore s !! Z.to_nat index = Some f ∧
      GoString (thumbprint o) = Ret (Thumbprint (info f)) ∧
      (CertificateDER (info f) ≠ [] → blocks h' !! cert_der o = Some (CertificateDER (info f))) ∧
      g ∈ fileStore s ∧ Thumbprint (info g) = Thumbprint (info f) ∧
      (∃ cert, x509_ParseCertificate (CertificateDER (info g)) = Ret cert ∧
         x509_MarshalPKIXPublicKey (signer g) = Ret (RawSubjectPublicKeyInfo cert)) ∧
      is_Some (global p') ∧
      ∀ p'' rnd digest ha pd sigOut room sig alg,
        is_Some (global p'') →
        DigestSize (HashAlgFromInt ha) = Ret (Z.of_nat (length digest)) →
        match sigOut with Some buf => room ≤ Z.of_nat (length buf) | None => True end%Z →
        sign_with_key rnd (signer g) digest (HashAlgFromInt ha + 4) (PaddingFromInt pd) = Ret (sig, alg) →
        (Z.of_nat (length sig) ≤ 2 ^ 30)%Z →
        ∃ r, Bridge_linux.tpmcert_sign_hash (served s rnd) (Some (thumbprint o)) (Some digest)
               (Z.of_nat (length digest)) ha pd sigOut (Some room) p'' = Ret r ∧
          delivers sig sigOut room r.
Proof.
  intros Hre Hdir Hp Ht. assert (store_ok s) as Hs by (clear -Hre; induction Hre; auto with golib).
  apply served_host_caches in Hp; [|done..].
  split; [by intros n p'; apply served_count_is_length|]. intros index h o p' h' Hh Hc.
  apply get_installed_run in Hc as [[? _]|(_ & c & keys & k & o' & Hg & Hk & Hi & Hl & -> & Hf & [= <-])];
    [done|].
  apply AllKeys_caches with (s := s) in Hk; [|by auto..].
  destruct (Forall2_lookup_r _ _ _ _ _ Hk Hl) as (f & Hfi & Htp & _ & Hde).
  pose proof (ok_identities _ Hs) as Hall. pose proof Hall as Hok. rewrite Forall_forall in Hok.
  pose proof (list_elem_of_lookup_2 _ _ _ Hfi) as Hin. pose proof (Hok f Hin) as Hokf.
  destruct (find_identity_own _ _ f Hall Hin) as (g & Hfg & Hgt).
  pose proof (find_identity_elem_of _ _ _ Hfg) as Hing. pose proof (Hok g Hing) as Hokg.
  destruct (clean_stored _ _ Hokf) as [Hcl _], (stored_lengths _ _ Hokf) as [Hlen _].
  apply fillKeyInfo_zero in Hf as (Hsh & _ & _); [|done].
  assert (GoString (thumbprint o) = Ret (thumbSHA1 f)) as Hgo.
  { rewrite (shows_thumbprint _ _ _ Hsh), Htp; [by rewrite string_take_all by lia|].
    rewrite Htp, (ok_sha1 _ _ Hokf). apply no_nul_hex. }
  exists f, g. rewrite (ok_thumbprint _ _ Hokf), (ok_thumbprint _ _ Hokg).
  split_and!; [done..| |done|done| |by eexists|].
  - intros Hne. rewrite <- Hde in *. by apply (shows_der _ _ _ Hsh).
  - destruct (ok_key_matches _ _ Hokg) as (cert & Hpc & _ & _ & Hm). by exists cert.
  - intros p'' rnd digest ha pd sigOut room sig alg [c'' Hg''] Hd Hroom Hsig Hsl.
    destruct (served_SignHash s rnd (thumbSHA1 f) digest ha pd g sig alg) as (resp & Hr & <-);
      [done|by intros E; rewrite E in Hlen|by rewrite Hcl|done..|].
    destruct (linux_sign_delivers (served s rnd) (thumbprint o) digest (Z.of_nat (length digest))
      ha pd room sigOut p'' (thumbSHA1 f) c'' resp) as (r & Hcall & Hdel & _); [|done|done| |done|].
    + apply DigestSize_valid in Hd. unfold buffers_ok. split; [lia|]. split; [lia|done].
    + unfold linux_request. unfold cleanThumbprint in Hcl. by rewrite Hcl, take_ge by lia.
    + by exists r.
Qed.

(** A host configured by its environment. *)
Definition sample_env : Host := {|
  os_Getenv v :=
    if bool_decide (v = "KSP11_ADDR") then "host:443"
    else if bool_decide (v = "KSP11_CA") then "tls/ca.pem"
    else if bool_decide (v = "KSP11_CERT") then "tls/cert.pem"
    else if bool_decide (v = "KSP11_KEY") then "tls/key.pem" else "";
  filepath_Abs p := Ret p;
  Unmarshal_config d := Fail (Foreign 7 "json");
  MarshalIndent_config c := Fail (Foreign 7 "json");
  os_MkdirAll _ := Ret ();
|}.

(** A host that initialises, counts, looks the key up in the copy the count has
    left (the second listing would fail), and signs. *)
Lemma enumerated_key_signs_witness :
  let U := sample_unicode in let C := sample_crypto in let G := sample_runtime in
  let F := sample_tls_files in let T := sample_tls in let O := sample_env in
  let down := {| rpc_ListCertificates := Fail (Foreign 14 "unavailable"); rpc_SignHash _ := Panic |} in
  ∃ p0 p1 o p' h' r,
    Bridge_linux.tpmcert_init (Ret "") (served sample_ec_store 0) (Ret ()) None init_Process =
      Ret (codeOK, p0) ∧
    Bridge_linux.tpmcert_installed_count (served sample_ec_store 0) 0 0 p0 = Ret (1%Z, p1) ∧
    Bridge_linux.tpmcert_get_installed down (10 ^ 9) (10 ^ 9) 0 (Some zero_key_info)
      p1 init_Heap = Ret (codeOK, Some o, p', h') ∧
    Bridge_linux.tpmcert_sign_hash (served sample_ec_store 5) (Some (thumbprint o))
      (Some sample_digest) 32 1 1 (Some (replicate 8 0%Z)) (Some 8%Z) p' = Ret r ∧
    delivers [5; 1; 171; 171; 171; 171]%Z (Some (replicate 8 0%Z)) 8 r.
Proof.
  intros U C G F T O down.
  pose (init := Bridge_linux.tpmcert_init (Ret "") (served sample_ec_store 0) (Ret ()) None init_Process).
  pose (count := Bridge_linux.tpmcert_installed_count (served sample_ec_store 0) 0 0).
  pose (get p := Bridge_linux.tpmcert_get_installed down (10 ^ 9) (10 ^ 9) 0 (Some zero_key_info)
    p init_Heap).
  assert (match init with
          | Ret (c0, p0) =>
              match count p0 with
              | Ret (n, p1) =>
                  match get p1 with
                  | Ret (c1, Some _, _, _) => (c0 =? codeOK) && (n =? 1) && (c1 =? codeOK)
                  | _ => false
                  end
              | _ => false
              end
          | _ => false
          end = true)%Z as Hr by (vm_compute; reflexivity).
  destruct init as [[c0 p0]| |] eqn:E0; [|discriminate Hr..].
  destruct (count p0) as [[n p1]| |] eqn:E1; [|discriminate Hr..].
  destruct (get p1) as [[[[c1 [o|]] p'] h']| |] eqn:E2; [|discriminate Hr..].
  apply andb_prop in Hr as [[->%Z.eqb_eq ->%Z.eqb_eq]%andb_prop ->%Z.eqb_eq].
  assert (@reachable sample_unicode sample_crypto sample_ec_store) as Hre
    by (apply (@reach_SetCertDir sample_unicode sample_crypto), reach_init).
  assert (served_host sample_ec_store p1) as Hp.
  { apply (served_count _ (served sample_ec_store 0) 0 0 p0 1); [|left; by eexists|exact E1].
    apply (served_init _ (Ret "") (served sample_ec_store 0) (Ret ()) None init_Process codeOK);
      [constructor|left; by eexists|exact E0]. }
  destruct (proj2 (@enumerated_key_signs U C G sample_hash_laws F T O sample_ec_store p1 down
    (10 ^ 9)%Z (10 ^ 9)%Z Hre ltac:(vm_compute; discriminate) Hp ltac:(right; by eexists))
    0%Z init_Heap o p' h' init_Heap_ok E2) as (f & g & _ & _ & _ & _ & Hg & _ & _ & Hgl & Hsign).
  assert (signer g = ECDSAPrivateKey 9) as Hk.
  { assert (signer <$> fileStore sample_ec_store = [ECDSAPrivateKey 9]) as Hl by (vm_compute; reflexivity).
    apply (list_elem_of_fmap_2 signer) in Hg. rewrite Hl in Hg. by apply list_elem_of_singleton in Hg. }
  destruct (Hsign p' 5%Z sample_digest 1%Z 1%Z (Some (replicate 8 0%Z)) 8%Z
    [5; 1; 171; 171; 171; 171]%Z "ECDSA" Hgl) as (r & Hc & Hd).
  - reflexivity.
  - vm_compute. discriminate.
  - rewrite Hk. vm_compute. reflexivity.
  - vm_compute. discriminate.
  - exists p0, p1, o, p', h', r. split_and!; [exact E0|exact E1|exact E2|exact Hc|exact Hd].
Defined.
